(* ===== verification/_CoqProject ===== *)
-Q . S2P
Prelude.v
CFloat.v
Timeout.v
Periodic.v
Blob.v
Types.v
Table.v
World.v
Ssid.v
Beacon.v
Sta.v
Beside.v
UbusClient.v
Policy.v
RemoteMsg.v
Parse.v
StaEvent.v
Roam.v
BeaconRequest.v
LocalNode.v
Netifd.v
Nl80211.v
Scan.v
Interfaces.v
Info.v
Config.v
Remote.v
Vendor.v
Socket.v
Steady.v
Daemon.v
FakeAp.v
Monitor.v
Scenario.v
StationTheorems.v
RoamTheorems.v
NodeTheorems.v
RemoteTheorems.v
SteerTheorems.v
BackendTheorems.v
UbusTheorems.v
FakeTheorems.v
MonitorTheorems.v
DaemonTheorems.v
