(* ===== verification/Prelude.v ===== *)
(** * A verification library for usteer

    usteer steers the clients of wireless access points: each access point runs a
    daemon that listens to its hostapd and to the daemons of its neighbours,
    refuses the requests of clients that another access point would serve better,
    asks clients for beacon reports and lets go of those that should roam. This
    library translates the program (C, under src/) into Rocq functions and proves
    what each part does and that the whole runs without undefined behaviour.

    ** How the code is modelled

    A C function is a definition with its name, in [M S A]: from a state it returns
    a value and the next state or stops with a [fault], the undefined behaviour the
    C code would run into (a null or dangling pointer, memory that was reallocated
    elsewhere, an index out of bounds, a string without its end, a division by zero,
    the overflow of the difference of two signals). That no fault happens is proved,
    under the assumptions the theorem states, or the theorem says when one does. The
    conversions between machine integers are written out ([u8] ... [s64]). The other
    sums of signed integers (the noise and a SNR, counters that only grow by one)
    wrap in the model at their width; that they do not overflow is not claimed. Structs are records whose fields are updated
    with [r <| f := v |>]. The state of the daemon, [world] (Types), is its static
    variables and its heap: a map from pointers to [sta_info]s, maps from the
    identity of a node or a station to its struct, the lists and trees as the
    sequences of their elements. What the program does outside (datagrams, ubus
    calls, the node-up script) is the list [out] of the world.

    Libraries are parameters, as type classes with the laws the code relies on, and
    each has an instance on which the theorems are applied: the AVL tree
    ([AvlTree]), blobmsg ([Blobmsg]) and blob attributes ([BlobParse], [BlobData],
    [BlobBytes]), the conversions of Ethernet addresses ([Ether]), the vlist
    ([Vlist]), netlink with the driver behind it ([Nl80211], [Nl80211Scan]),
    ubus_lookup ([UbusLookup]), /dev/urandom ([Urandom]), JSON ([BlobJson]). The
    string buffer of libubox is a record of its operations ([StringBuffer] with
    [string_buffer_laws]), an argument of the handler that uses it, since what it
    does differs from call to call. A callback list of the program is a class, too:
    the local nodes are verified against the contract [NodeHandlersLaws], which
    the handlers of nl80211.c and netifd.c fulfil ([daemon_handlers_laws]).

    Loops over lists are [for_each], [for_until] and [for_fold]. Loops whose end is
    not structural have fuel, and running out of it is a fault, so that a theorem
    that excludes faults shows that the loop ends: the expiry of timers needs no
    more rounds than there are timers and two, the walk over the information
    elements of a beacon no more steps than bytes. Where the code does not end, no
    fuel is enough: the fake access point with a wait of 0 ([zero_wait_loops]).

    ** The files

    - Prelude: machine integers, record update, the monad and its weakest
      preconditions [wp] with the tactics [wp_step] and [wp_steps], lists.
    - CFloat: binary32 for the load average (on SpecFloat).
    - Timeout, Periodic: timeout.c, the queue of timers with wrapping 32-bit
      deadlines; timers that set themselves again.
    - Blob: blobmsg values, Ethernet addresses, attributes of messages.
    - Types: the structs and enums of usteer.h, node.h, hearing_map.h, the defaults
      of main.c, the [world].
    - Table: the abstract table of stations, nodes and timers, with its
      well-formedness [table_wf], search, creation and removal.
    - World: the accessors, the abstraction [abs] of a world to a table and the
      invariant [inv]; what is left alone, [frame].
    - Ssid: the list of SSIDs (ubus.c). Beacon: channels, neighbours by BSSID,
      beacon reports (hearing_map.c).
    - Sta, StaEvent: sta.c. Beside: what an operation at some nodes leaves alone.
      Policy, Roam: policy.c.
    - UbusClient: the calls of hostapd (ubus.c). BeaconRequest: the requests of
      hearing_map.c. LocalNode: local_node.c.
    - Netifd: netifd.c. Nl80211, Scan: nl80211.c.
    - RemoteMsg, Parse, Remote: the messages between instances (remote.c, remote.h,
      parse.c, node.c). Interfaces: the interfaces they go over. Vendor: the element
      of the beacons with the addresses of the instance. Socket: the socket.
    - Info, Config: the methods of the daemon's own ubus object (ubus.c).
    - Steady: what each operation leaves alone. Daemon: main.c, the start and the
      main loop as a step relation, the invariant of the daemon.
    - FakeAp: fakeap.c. Monitor: monitor.c.
    - Scenario: a concrete daemon with instances of all libraries, in states that
      its own operations reach. StationTheorems, RoamTheorems, NodeTheorems,
      RemoteTheorems, SteerTheorems, BackendTheorems, UbusTheorems,
      FakeTheorems, MonitorTheorems, DaemonTheorems: the theorems, each followed,
      where it has hypotheses, by its application in that daemon
      ([..._witness]).

    ** How the parts interact

    hostapd's events go through [usteer_handle_event] (LocalNode) to
    [usteer_handle_sta_event] (StaEvent), which finds or creates the [sta_info] of
    the station at the node (Sta), sets its timer (Timeout), asks the policy
    (Policy) and announces a new station (RemoteMsg). The update of a local node
    (LocalNode) runs the handlers (Nl80211, Netifd), the roaming state machine and
    the load kick (Roam), the beacon requests (BeaconRequest), which call hostapd
    (UbusClient). A datagram (Remote) makes and updates remote nodes and their
    [sta_info]s in the same table, where the policy sees them. Set and get of the
    configuration (Config) reach all of them. [dispatch] (Daemon) is one turn of
    the main loop with any of these.

    ** What the theorems show

    - The whole daemon: from [main] on, through any sequence of events that fulfil
      [event_ok], none of the faults above, the invariant holds, all values stay in
      their types (DaemonTheorems).
    - The table of stations: the operations refine those of the abstract table, a
      station event does what it should on every branch, timers expire exactly
      when they are due in spite of the wrapping clock (StationTheorems).
    - The policy: a request is refused exactly when it should be, the roaming state
      machine refines its specification and never kicks without notice, a load
      kick needs the load to last (StationTheorems, RoamTheorems).
    - Local nodes: association lists, the request cycle, removal without dangling
      references, beacon requests and reports (NodeTheorems), the back ends behind
      them (BackendTheorems).
    - Instances: what one announces is what another one knows; a message that is safe
      to take over ([message_ok]) touches only its sender's nodes; silent nodes go
      (RemoteTheorems). A station that
      one instance hears well is refused at a worse node of another one
      (SteerTheorems).
    - ubus: the configuration is a round trip, the replies are complete
      (UbusTheorems).
    - The companion programs: the fake access point starts with the stations asked
      for, probes in every round and is understood by the daemon (FakeTheorems); the
      decoder of the monitor shows what instances send and take over, although the
      program gives it no IPv6 packet (MonitorTheorems).

    The assumptions ([event_ok] for the events, [system_ok] and [ids_ok] for the start)
    are listed where they are defined (Daemon). Many of them stand for a crash of the
    code that a theorem states where it is about a component:
    [sta_event_use_after_free], [unknown_event_out_of_bounds], [own_report_correct],
    [missing_bssid_crash], [get_config_correct], [vendor_timer_correct].

    ** Not modelled

    Logging (debug_msg, MSG) and the usage texts; the set-up of ubus, uloop, pcap
    and syslog in the three main functions; memory exhaustion; the C library and
    the kernel behind the parameters. The clock does not move while a handler runs,
    and a handler runs to its end before the next one. The bytes of messages are
    trees of attributes: how libubox lays them out is not. The OpenWrt packaging
    under src/openwrt holds no C code. *)
From Stdlib Require Export ZArith Lia String Sorting.Sorted.
From stdpp Require Export base gmap strings list fin_maps numbers option.
Open Scope Z_scope.

(** ** Machine integers

    A C integer is a [Z]; the conversions to the widths the source uses are
    written out as the reductions they are. *)

Definition u8 (x : Z) : Z := x mod 2 ^ 8.
Definition u16 (x : Z) : Z := x mod 2 ^ 16.
Definition u32 (x : Z) : Z := x mod 2 ^ 32.
Definition u64 (x : Z) : Z := x mod 2 ^ 64.
Definition s8 (x : Z) : Z := (x + 2 ^ 7) mod 2 ^ 8 - 2 ^ 7.
Definition s32 (x : Z) : Z := (x + 2 ^ 31) mod 2 ^ 32 - 2 ^ 31.
Definition s64 (x : Z) : Z := (x + 2 ^ 63) mod 2 ^ 64 - 2 ^ 63.

(** [b ? 1 : 0] *)
Definition b2z (b : bool) : Z := if b then 1 else 0.

Ltac unfold_int := unfold u8, u16, u32, u64, s8, s32, s64 in *.

(** [int_lia]: linear arithmetic through the width reductions. *)
Ltac int_lia := unfold_int; Z.div_mod_to_equations; lia.

Lemma u32_range x : 0 <= u32 x < 2 ^ 32.
Proof. apply Z.mod_pos_bound; lia. Qed.
Lemma u64_range x : 0 <= u64 x < 2 ^ 64.
Proof. apply Z.mod_pos_bound; lia. Qed.
Lemma s32_range x : - 2 ^ 31 <= s32 x < 2 ^ 31.
Proof. int_lia. Qed.
Lemma u32_id x : 0 <= x < 2 ^ 32 -> u32 x = x.
Proof. apply Z.mod_small. Qed.
Lemma u64_id x : 0 <= x < 2 ^ 64 -> u64 x = x.
Proof. apply Z.mod_small. Qed.
Lemma s32_id x : - 2 ^ 31 <= x < 2 ^ 31 -> s32 x = x.
Proof. int_lia. Qed.
Lemma s32_u32 x : s32 (u32 x) = s32 x.
Proof. unfold s32, u32. rewrite Z.add_mod_idemp_l by lia. done. Qed.
Lemma u32_s32 x : u32 (s32 x) = u32 x.
Proof.
  unfold s32, u32. rewrite Zminus_mod_idemp_l. f_equal. lia.
Qed.
Lemma u32_add_l x y : u32 (u32 x + y) = u32 (x + y).
Proof. unfold u32. apply Zplus_mod_idemp_l. Qed.
Lemma u32_sub_l x y : u32 (u32 x - y) = u32 (x - y).
Proof. unfold u32. apply Zminus_mod_idemp_l. Qed.
Lemma u32_sub_r x y : u32 (x - u32 y) = u32 (x - y).
Proof. unfold u32. apply Zminus_mod_idemp_r. Qed.

(** ** Record updates

    [r <| f := v |>] is the C assignment [r.f = v] on a copy of the struct. A
    record type declares its eta expansion once, as a [Settable] instance; the
    update of any field is found by abstracting that field in it. *)

Declare Scope usteer_scope.
Delimit Scope usteer_scope with usteer.
Open Scope usteer_scope.

Class Settable (R : Type) := eta_of : R -> R.
Class Setter {R T : Type} (proj : R -> T) := set_field : (T -> T) -> R -> R.
Arguments set_field {R T} proj {_} _ !_ /.

Ltac solve_setter :=
  lazymatch goal with
  | |- @Setter ?R ?T ?proj =>
      let inst := constr:(_ : Settable R) in
      let body := eval unfold eta_of in (@eta_of R inst) in
      let body := eval hnf in body in
      lazymatch eval pattern proj in body with
      | ?upd _ => let s := eval cbv beta in (fun f r => upd (fun r' => f (proj r')) r) in exact s
      end
  end.
#[export] Hint Extern 0 (@Setter _ _ _) => solve_setter : typeclass_instances.

Notation "r <| f := v |>" := (set_field f (fun _ => v) r)
  (at level 12, left associativity) : usteer_scope.
Notation "r <| f ::= g |>" := (set_field f g r)
  (at level 12, left associativity) : usteer_scope.

(** ** Statements with effects

    A C function is a value of [M S A]: from the state of the program it either
    returns a value and the next state or stops with a [fault], the undefined
    behaviour (or trap) the C code would run into. *)

Inductive fault :=
| NullDeref          (** a null pointer is dereferenced *)
| DanglingSta        (** a freed [struct sta] is used *)
| DanglingSi         (** a freed [struct sta_info] is used *)
| DanglingNode       (** a freed [struct usteer_node] is used *)
| WrongContainer     (** [container_of] on an object of another type *)
| OutOfBounds        (** an array index out of range *)
| DivByZero          (** integer division by zero *)
| SignedOverflow     (** a signed difference that does not fit its type *)
| DanglingTimer      (** a timer that left its queue is used as a member of it *)
| DanglingBuf        (** a buffer that was moved is written through its old pointer *)
| DuplicateNode      (** a second object for one node identity; no behaviour of the code *)
| OutOfFuel.         (** the fuel of a modelled loop ran out; no behaviour of the code *)

Inductive res (A : Type) :=
| Ok (a : A)
| Fault (e : fault).
Arguments Ok {A} a.
Arguments Fault {A} e.

#[export] Instance fault_eq_dec : EqDecision fault.
Proof. solve_decision. Defined.

Definition M (S A : Type) : Type := S -> res (A * S).

#[export] Instance M_ret {S} : MRet (M S) := fun A a s => Ok (a, s).
#[export] Instance M_bind {S} : MBind (M S) := fun A B f m s =>
  match m s with
  | Ok (a, s') => f a s'
  | Fault e => Fault e
  end.

Definition throw {S A} (e : fault) : M S A := fun _ => Fault e.
Definition gets {S A} (f : S -> A) : M S A := fun s => Ok (f s, s).
Definition modify {S} (f : S -> S) : M S unit := fun s => Ok (tt, f s).
(** A dereference: the object, or the fault of using it when it is not there. *)
Definition deref {S A} (e : fault) (f : S -> option A) : M S A := fun s =>
  match f s with
  | Some a => Ok (a, s)
  | None => Fault e
  end.

(** [if (c) stmt;] *)
Definition when {S} (c : bool) (m : M S unit) : M S unit :=
  if c then m else mret tt.

(** [for (...) { body }] without an early exit. *)
Fixpoint for_each {S A} (body : A -> M S unit) (l : list A) : M S unit :=
  match l with
  | [] => mret tt
  | x :: l' => body x ;; for_each body l'
  end.

(** A loop whose body may leave it ([return] or [break]) with a value. *)
Fixpoint for_until {S A B} (body : A -> M S (option B)) (l : list A) : M S (option B) :=
  match l with
  | [] => mret None
  | x :: l' =>
      r ← body x;
      match r with
      | Some b => mret (Some b)
      | None => for_until body l'
      end
  end.

(** A loop that threads local variables of the function through its body. *)
Fixpoint for_fold {S A B} (body : B -> A -> M S B) (acc : B) (l : list A) : M S B :=
  match l with
  | [] => mret acc
  | x :: l' => acc' ← body acc x; for_fold body acc' l'
  end.

(** Total-correctness weakest precondition: the statement does not fault, and
    its result and the state it leaves satisfy [Q]. *)
Definition wp {S A} (m : M S A) (Q : A -> S -> Prop) (s : S) : Prop :=
  match m s with
  | Ok (a, s') => Q a s'
  | Fault _ => False
  end.

Section wp_rules.
Context {S : Type}.
Implicit Types s : S.

Lemma wp_ok {A} (m : M S A) Q s :
  wp m Q s <-> exists a s', m s = Ok (a, s') /\ Q a s'.
Proof.
  unfold wp. destruct (m s) as [[a s']|e]; split; try done.
  - intros H. by exists a, s'.
  - intros (? & ? & ? & ?). by simplify_eq.
  - intros (? & ? & ? & ?). done.
Qed.

Lemma wp_mono {A} (m : M S A) (P Q : A -> S -> Prop) s :
  wp m P s -> (forall a s', P a s' -> Q a s') -> wp m Q s.
Proof. unfold wp. destruct (m s) as [[]|]; auto. Qed.

(** [wp_mono] that also remembers the run, for facts proved separately. *)
Lemma wp_mono_run {A} (m : M S A) (P Q : A -> S -> Prop) s :
  wp m P s -> (forall a s', m s = Ok (a, s') -> P a s' -> Q a s') -> wp m Q s.
Proof. unfold wp. destruct (m s) as [[]|]; auto. Qed.

Lemma wp_conj {A} (m : M S A) (P Q : A -> S -> Prop) s :
  wp m P s -> wp m Q s -> wp m (fun a s' => P a s' /\ Q a s') s.
Proof. unfold wp. destruct (m s) as [[]|]; auto. Qed.

Lemma wp_ret {A} (a : A) (Q : A -> S -> Prop) s : Q a s -> wp (mret a) Q s.
Proof. done. Qed.
Lemma wp_bind {A B} (m : M S A) (f : A -> M S B) (Q : B -> S -> Prop) s :
  wp m (fun a s' => wp (f a) Q s') s -> wp (m ≫= f) Q s.
Proof.
  unfold wp, mbind, M_bind. destruct (m s) as [[a s']|]; auto.
Qed.
(** A run that ends in a fault after a first part that does not. *)
Lemma fault_bind {A B} (m : M S A) (f : A -> M S B) e s :
  wp m (fun a s' => f a s' = Fault e) s -> (m ≫= f) s = Fault e.
Proof. unfold wp, mbind, M_bind. by destruct (m s) as [[a s']|]. Qed.
Lemma wp_gets {A} (f : S -> A) (Q : A -> S -> Prop) s : Q (f s) s -> wp (gets f) Q s.
Proof. done. Qed.
Lemma wp_modify (f : S -> S) (Q : unit -> S -> Prop) s : Q tt (f s) -> wp (modify f) Q s.
Proof. done. Qed.
Lemma wp_deref {A} e (f : S -> option A) (a : A) (Q : A -> S -> Prop) s :
  f s = Some a -> Q a s -> wp (deref e f) Q s.
Proof. unfold wp, deref. by intros ->. Qed.
Lemma wp_when c (m : M S unit) (Q : unit -> S -> Prop) s :
  (c = true -> wp m Q s) -> (c = false -> Q tt s) -> wp (when c m) Q s.
Proof. destruct c; intros H1 H2; simpl; [by apply H1|by apply wp_ret, H2]. Qed.

(** The invariant rule of [for_each]: [I done rest] holds between iterations. *)
Lemma wp_for_each {A} (I : list A -> list A -> S -> Prop) (body : A -> M S unit)
    (l : list A) (Q : unit -> S -> Prop) s :
  I [] l s ->
  (forall don x rest s', l = don ++ x :: rest -> I don (x :: rest) s' ->
     wp (body x) (fun _ s'' => I (don ++ [x]) rest s'') s') ->
  (forall s', I l [] s' -> Q tt s') ->
  wp (for_each body l) Q s.
Proof.
  intros HI Hbody Hend.
  assert (Hgen : forall rest don s', l = don ++ rest -> I don rest s' ->
            wp (for_each body rest) Q s').
  { intros rest. induction rest as [|x rest IH]; intros don s' -> H; simpl.
    - apply wp_ret, Hend. by rewrite app_nil_r.
    - apply wp_bind. eapply wp_mono; [by apply Hbody|].
      intros [] s'' H''. apply (IH (don ++ [x])); [|done].
      by rewrite <- app_assoc. }
  by apply (Hgen l []).
Qed.

Lemma wp_for_each_app {A} (body : A -> M S unit) l1 l2 (Q : unit -> S -> Prop) s :
  wp (for_each body l1) (fun _ s' => wp (for_each body l2) Q s') s ->
  wp (for_each body (l1 ++ l2)) Q s.
Proof.
  revert s. induction l1 as [|x l1 IH]; intros s; [done|]. cbn [for_each app].
  unfold wp, mbind, M_bind. destruct (body x s) as [[[] s']|]; [|done]. apply IH.
Qed.

(** The invariant rule of [for_until]: the body either exits with [Some b],
    and then [R b] holds, or keeps the invariant. *)
Lemma wp_for_until {A B} (I : list A -> list A -> S -> Prop) (R : B -> S -> Prop)
    (body : A -> M S (option B)) (l : list A) s :
  I [] l s ->
  (forall don x rest s', l = don ++ x :: rest -> I don (x :: rest) s' ->
     wp (body x) (fun r s'' => match r with
                               | Some b => R b s''
                               | None => I (don ++ [x]) rest s''
                               end) s') ->
  wp (for_until body l) (fun r s' => match r with
                                     | Some b => R b s'
                                     | None => I l [] s'
                                     end) s.
Proof.
  intros HI Hbody.
  assert (Hgen : forall rest don s', l = don ++ rest -> I don rest s' ->
            wp (for_until body rest) (fun r s' => match r with
                                     | Some b => R b s'
                                     | None => I l [] s'
                                     end) s').
  { intros rest. induction rest as [|x rest IH]; intros don s' -> H; simpl.
    - apply wp_ret. by rewrite app_nil_r.
    - apply wp_bind. eapply wp_mono; [by apply Hbody|].
      intros [b|] s'' H''; [by apply wp_ret|].
      apply (IH (don ++ [x])); [|done]. by rewrite <- app_assoc. }
  by apply (Hgen l []).
Qed.

Lemma wp_for_fold {A B} (I : list A -> list A -> B -> S -> Prop)
    (body : B -> A -> M S B) (l : list A) (acc : B) s :
  I [] l acc s ->
  (forall don x rest acc' s', l = don ++ x :: rest -> I don (x :: rest) acc' s' ->
     wp (body acc' x) (fun r s'' => I (don ++ [x]) rest r s'') s') ->
  wp (for_fold body acc l) (fun r s' => I l [] r s') s.
Proof.
  intros HI Hbody.
  assert (Hgen : forall rest don a s', l = don ++ rest -> I don rest a s' ->
            wp (for_fold body a rest) (fun r s' => I l [] r s') s').
  { intros rest. induction rest as [|x rest IH]; intros don a s' -> H; simpl.
    - apply wp_ret. by rewrite app_nil_r.
    - apply wp_bind. eapply wp_mono; [by apply Hbody|].
      intros r s'' H''. apply (IH (don ++ [x])); [|done]. by rewrite <- app_assoc. }
  by apply (Hgen l []).
Qed.
End wp_rules.

(** [wp_step] takes one statement of the program; a call to another operation
    is stepped with its specification from the [wp_spec] hint database. *)
Create HintDb wp_spec discriminated.

Ltac wp_step :=
  match goal with
  | |- wp (_ ≫= _) _ _ => apply wp_bind
  | |- wp (mret _) _ _ => apply wp_ret
  | |- wp (gets _) _ _ => apply wp_gets
  | |- wp (modify _) _ _ => apply wp_modify
  | |- wp (deref _ _) _ _ => eapply wp_deref; [solve [eauto with wp_spec]|]
  | |- wp (when _ _) _ _ => apply wp_when; intros ?
  end.
Ltac wp_steps := repeat (wp_step; simpl).

(** [wp_call L] steps over a call whose specification is [L]. *)
Tactic Notation "wp_call" uconstr(L) := eapply wp_mono; [eapply L; eauto|].

(** ** Lists *)

(** [list_del] on the sequence of a [list_head]: the element leaves the list. *)
Definition list_del {A} `{EqDecision A} (x : A) (l : list A) : list A :=
  filter (fun y => y ≠ x) l.

Section list_del.
Context {A : Type} `{EqDecision A}.
Implicit Types (l : list A) (x y : A).

Lemma elem_of_list_del x y l : y ∈ list_del x l <-> y ∈ l /\ y ≠ x.
Proof. unfold list_del. rewrite list_elem_of_filter. naive_solver. Qed.
Lemma NoDup_list_del x l : NoDup l -> NoDup (list_del x l).
Proof. apply list.NoDup_filter. Qed.
Lemma list_del_not_in x l : x ∉ l -> list_del x l = l.
Proof.
  unfold list_del. induction l as [|y l IH]; [done|].
  intros [Hne Hl]%not_elem_of_cons. rewrite filter_cons_True by congruence.
  by rewrite IH.
Qed.
Lemma list_del_cons_eq x l : x ∉ l -> list_del x (x :: l) = l.
Proof.
  intros. unfold list_del. rewrite filter_cons_False by naive_solver.
  by apply list_del_not_in.
Qed.
End list_del.

#[export] Hint Resolve NoDup_list_del : core.

Lemma StronglySorted_filter {A} (R : A -> A -> Prop) (P : A -> Prop) `{forall x, Decision (P x)}
    (l : list A) :
  StronglySorted R l -> StronglySorted R (filter P l).
Proof.
  induction 1 as [|x l Hs IH Hx]; [constructor|].
  rewrite filter_cons. case_decide; [|done].
  constructor; [done|]. rewrite list.Forall_forall in Hx |- *.
  intros y [_ Hy]%list_elem_of_filter. by apply Hx.
Qed.
Lemma StronglySorted_impl {A} (R R' : A -> A -> Prop) (l : list A) :
  (forall x y, x ∈ l -> y ∈ l -> R x y -> R' x y) -> StronglySorted R l -> StronglySorted R' l.
Proof.
  intros HR. induction 1 as [|x l Hs IH Hx]; constructor.
  - apply IH. intros; apply HR; set_solver.
  - rewrite list.Forall_forall in Hx |- *. intros y Hy. apply HR; set_solver.
Qed.
Lemma StronglySorted_suffix {A} (R : A -> A -> Prop) (l1 l2 : list A) :
  StronglySorted R (l1 ++ l2) -> StronglySorted R l2.
Proof. induction l1 as [|x l1 IH]; [done|]. intros [Hs _]%StronglySorted_inv. by apply IH. Qed.
Lemma StronglySorted_insert {A} (R : A -> A -> Prop) x (l1 l2 : list A) :
  StronglySorted R (l1 ++ l2) ->
  Forall (fun y => R y x) l1 -> Forall (R x) l2 ->
  StronglySorted R (l1 ++ x :: l2).
Proof.
  induction l1 as [|y l1 IH]; simpl; intros Hs H1 H2.
  - by constructor.
  - inversion Hs as [|? ? Hs' Hy]; inversion H1; subst.
    constructor; [by apply IH|].
    apply Forall_app in Hy as [? ?]. apply Forall_app. by repeat constructor.
Qed.
