(* ===== verification/CFloat.v ===== *)
(** * The [float] arithmetic of the sources

    C's [float] is the binary32 format of IEEE 754 with rounding to nearest,
    ties to even; its operations are those of the Standard Library's [SpecFloat]
    at 24 bits of precision. *)
From Stdlib Require Import Floats.SpecFloat.
From S2P Require Import Prelude.

Definition f32_prec : Z := 24.
Definition f32_emax : Z := 128.

Definition float := spec_float.

(** [(float) z] *)
Definition float_of_Z (z : Z) : float := binary_normalize f32_prec f32_emax z 0 false.
Definition fadd : float -> float -> float := SFadd f32_prec f32_emax.
Definition fsub : float -> float -> float := SFsub f32_prec f32_emax.
Definition fmul : float -> float -> float := SFmul f32_prec f32_emax.
Definition fdiv : float -> float -> float := SFdiv f32_prec f32_emax.
(** [x < y]; false when an operand is not a number *)
Definition flt (x y : float) : bool :=
  match SFcompare x y with Some Lt => true | _ => false end.

(** [(int) x] of a finite [x]: truncation towards zero. *)
Definition Z_of_float (x : float) : Z :=
  match x with
  | S754_finite s m e =>
      let v := if 0 <=? e then Zpos m * 2 ^ e else Zpos m / 2 ^ (- e) in
      if s then - v else v
  | _ => 0
  end.
