(* ===== verification/Timeout.v ===== *)
(** * The timer queue (timeout.c, timeout.h)

    A [usteer_timeout_queue] keeps its timers in an AVL tree ordered by 32-bit
    deadlines, compared relative to a reference time so that the order survives
    the wrap-around of the millisecond clock, and arms one [uloop] timer for the
    earliest of them.

    The AVL tree is libubox's: the model takes it as a parameter, through the
    class [AvlTree], whose laws state what the queue relies on. *)
From S2P Require Import Prelude.

(** ** The tree (libubox/avl.h) *)

(** [avl_elems] is the in-order sequence of the tree's elements, each with the
    key it was inserted under. Nothing is said about where an insertion goes
    unless the tree is sorted for the comparison in force; when it is, the new
    element goes after the elements that are not greater than it. *)
Class AvlTree (K A T : Type) := {
  avl_elems : T -> list (K * A);
  avl_init : T;
  avl_insert : (K -> K -> Z) -> K -> A -> T -> T;
  avl_delete : A -> T -> T;
}.

(** The comparison is one of an order: who is not above [x] is below what [x]
    is below. *)
Class CmpTrans {K : Type} (cmp : K -> K -> Z) : Prop :=
  cmp_trans x y k : cmp x y <= 0 -> 0 < cmp x k -> 0 < cmp y k.

Class AvlLaws (K A T : Type) `{EqDecision A} `{AvlTree K A T} : Prop := {
  avl_init_elems : avl_elems (T := T) avl_init = [];
  avl_delete_elems a (t : T) :
    avl_elems (avl_delete a t) = filter (fun x => x.2 ≠ a) (avl_elems t);
  avl_insert_elems cmp k a (t : T) :
    CmpTrans cmp ->
    exists l1 l2, avl_elems t = l1 ++ l2 /\
      avl_elems (avl_insert cmp k a t) = l1 ++ (k, a) :: l2 /\
      (StronglySorted (fun x y => cmp x.1 y.1 <= 0) (avl_elems t) ->
       Forall (fun x => cmp x.1 k <= 0) l1 /\ Forall (fun x => 0 < cmp x.1 k) l2);
}.

(** ** Time *)

Record timespec := mkTimespec { tv_sec : Z; tv_nsec : Z }.

(** The milliseconds of CLOCK_MONOTONIC, not reduced to any width. *)
Definition ts_ms (ts : timespec) : Z := tv_sec ts * 1000 + tv_nsec ts / 1000000.

Definition ampgr_timeout_current_time (ts : timespec) : Z :=
  let val := u32 (tv_sec ts * 1000) in
  u32 (val + tv_nsec ts / 1000000).

Definition usteer_timeout_cmp (ref k1 k2 : Z) : Z :=
  let t1 := s32 (u32 (u32 k1 - ref)) in
  let t2 := s32 (u32 (u32 k2 - ref)) in
  if t1 <? t2 then -1 else if t2 <? t1 then 1 else 0.

#[export] Instance timeout_cmp_trans ref : CmpTrans (usteer_timeout_cmp ref).
Proof.
  intros x y k. unfold usteer_timeout_cmp. intros H1 H2.
  repeat case_match; lia.
Qed.

Definition usteer_timeout_delta (key time : Z) : Z := s32 (u32 (u32 key - time)).

Section queue.
Context {A T : Type} `{EqDecision A} `{AvlTree Z A T}.

(** ** The queue

    [q_uloop] is the armed [uloop] timer: the absolute millisecond at which
    [usteer_timeout_cb] is due, [None] when it is not armed. *)
Record usteer_timeout_queue := mkQueue {
  q_tree : T;
  q_cmp_ptr : Z;
  q_uloop : option Z;
}.

#[export] Instance settable_queue : Settable usteer_timeout_queue :=
  fun q => mkQueue (q_tree q) (q_cmp_ptr q) (q_uloop q).

Definition usteer_timeout_init : usteer_timeout_queue := mkQueue avl_init 0 None.

(** [usteer_timeout_isset] tests [node.list.prev], which is non-null exactly
    while the timer's node is linked into the tree. *)
Definition usteer_timeout_isset (t : A) (q : usteer_timeout_queue) : bool :=
  bool_decide (t ∈ (avl_elems (q_tree q)).*2).

(** [avl_is_first(&q->tree, &t->node)] *)
Definition avl_is_first (t : A) (q : usteer_timeout_queue) : bool :=
  match avl_elems (q_tree q) with
  | (_, t') :: _ => bool_decide (t' = t)
  | [] => false
  end.

Definition usteer_timeout_recalc (ts : timespec) (time : Z)
    (q : usteer_timeout_queue) : usteer_timeout_queue :=
  match avl_elems (q_tree q) with
  | [] => q <| q_uloop := None |>
  | (key, _) :: _ =>
      let delta := usteer_timeout_delta key time in
      let delta := if delta <? 1 then 1 else delta in
      q <| q_uloop := Some (ts_ms ts + delta) |>
  end.

Definition __usteer_timeout_cancel (t : A) (q : usteer_timeout_queue) : usteer_timeout_queue :=
  q <| q_tree ::= avl_delete t |>.

Definition usteer_timeout_set (ts : timespec) (t : A) (msecs : Z)
    (q : usteer_timeout_queue) : usteer_timeout_queue :=
  let time := ampgr_timeout_current_time ts in
  let val := u32 (time + msecs) in
  let recalc := false in
  let q := q <| q_cmp_ptr := time |> in
  let '(q, recalc) :=
    if usteer_timeout_isset t q
    then (__usteer_timeout_cancel t q, if avl_is_first t q then true else recalc)
    else (q, recalc) in
  let q := q <| q_tree ::= avl_insert (usteer_timeout_cmp (q_cmp_ptr q)) val t |> in
  let recalc := if avl_is_first t q then true else recalc in
  if recalc then usteer_timeout_recalc ts time q else q.

Definition usteer_timeout_cancel (t : A) (q : usteer_timeout_queue) : usteer_timeout_queue :=
  if usteer_timeout_isset t q then __usteer_timeout_cancel t q else q.

(** The armed timers, in the order of the tree. *)
Definition q_elems (q : usteer_timeout_queue) : list (Z * A) := avl_elems (q_tree q).

End queue.
Arguments usteer_timeout_queue T : clear implicits.

(** ** Expiry

    The loop runs in the state [W] of a client that holds the queue ([q_get],
    [q_mod]) and reads the clock; [cb] is [q->cb], [None] for a null pointer. *)
Section expiry.
Context {A T W : Type} `{EqDecision A} `{AvlTree Z A T}.
Context (q_get : W -> usteer_timeout_queue T)
        (q_mod : (usteer_timeout_queue T -> usteer_timeout_queue T) -> W -> W)
        (clock : W -> timespec)
        (cb : option (A -> M W unit)).

(** The key of a linked timer, and the timer after it ([avl_next_element]). *)
Definition key_of (t : A) (l : list (Z * A)) : option Z :=
  match list_find (fun x => x.2 = t) l with
  | Some (_, x) => Some x.1
  | None => None
  end.

Fixpoint avl_next (t : A) (l : list (Z * A)) : option A :=
  match l with
  | [] => None
  | x :: l' => if decide (x.2 = t) then snd <$> head l' else avl_next t l'
  end.

Definition run_cb (t : A) : M W unit :=
  match cb with
  | Some f => f t
  | None => mret tt
  end.

(** One [avl_for_each_element_safe] pass, from timer [t]; returns [found]. *)
Fixpoint usteer_timeout_pass (fuel : nat) (time : Z) (t : option A) (found : bool) : M W bool :=
  match t, fuel with
  | None, _ => mret found
  | Some _, O => throw OutOfFuel
  | Some t, S fuel' =>
      elems ← gets (fun s => q_elems (q_get s));
      key ← deref DanglingTimer (fun _ => key_of t elems);
      let tmp := avl_next t elems in
      if 0 <? usteer_timeout_delta key time then mret found
      else
        modify (q_mod (usteer_timeout_cancel t)) ;;
        run_cb t ;;
        usteer_timeout_pass fuel' time tmp true
  end.

Fixpoint usteer_timeout_cb (fuel : nat) : M W unit :=
  match fuel with
  | O => throw OutOfFuel
  | S fuel' =>
      ts ← gets clock;
      let time := ampgr_timeout_current_time ts in
      elems ← gets (fun s => q_elems (q_get s));
      found ← usteer_timeout_pass fuel time (snd <$> head elems) false;
      if (found : bool) then usteer_timeout_cb fuel'
      else modify (q_mod (usteer_timeout_recalc ts time))
  end.

(** [avl_remove_all_elements] unlinks the whole tree before the first callback. *)
Definition usteer_timeout_flush : M W unit :=
  modify (q_mod (fun q => q <| q_uloop := None |>)) ;;
  elems ← gets (fun s => q_elems (q_get s));
  modify (q_mod (fun q => q <| q_tree := avl_init |>)) ;;
  for_each run_cb elems.*2.
End expiry.

(** ** The 32-bit order and the order of real deadlines

    [D p] is the absolute millisecond at which timer [p] is due. The keys hold
    it modulo 2^32; within half the range of the clock around the reference
    time the comparison of the tree decides the order of the real deadlines. *)
Definition in_window (now d : Z) : Prop := - 2 ^ 31 <= d - now < 2 ^ 31.

Lemma current_time_u32 ts : ampgr_timeout_current_time ts = u32 (ts_ms ts).
Proof. unfold ampgr_timeout_current_time, ts_ms. by rewrite u32_add_l. Qed.

Lemma s32_key_sub now d : in_window now d -> s32 (u32 (u32 (u32 d) - u32 now)) = d - now.
Proof.
  intros Hw. rewrite s32_u32. rewrite <- s32_u32, !u32_sub_l, u32_sub_r, s32_u32.
  by apply s32_id.
Qed.

Lemma timeout_cmp_window now d1 d2 :
  in_window now d1 -> in_window now d2 ->
  usteer_timeout_cmp (u32 now) (u32 d1) (u32 d2) =
    match d1 ?= d2 with Lt => -1 | Eq => 0 | Gt => 1 end.
Proof.
  intros H1 H2. unfold usteer_timeout_cmp. rewrite !s32_key_sub by done.
  destruct (Z.compare_spec d1 d2); repeat case_match; lia.
Qed.

Lemma timeout_delta_window now d :
  in_window now d -> usteer_timeout_delta (u32 d) (u32 now) = d - now.
Proof. apply s32_key_sub. Qed.

(** ** Invariants of the queue *)
Section queue_inv.
Context {A T : Type} `{EqDecision A} `{!AvlTree Z A T} `{!AvlLaws Z A T}.
Implicit Types (q : usteer_timeout_queue T) (D : A -> Z) (t : A) (l : list (Z * A)).

Definition q_ids (q : usteer_timeout_queue T) : list A := (q_elems q).*2.

(** Each timer is linked once. *)
Definition q_wf (q : usteer_timeout_queue T) : Prop := NoDup (q_ids q).

(** The tree holds the deadlines [D], earliest first. *)
Record q_rep (D : A -> Z) (q : usteer_timeout_queue T) : Prop := {
  rep_wf : q_wf q;
  rep_keys : Forall (fun x => x.1 = u32 (D x.2)) (q_elems q);
  rep_sorted : StronglySorted (fun x y => D x.2 <= D y.2) (q_elems q);
}.

Definition q_window (now : Z) (D : A -> Z) (q : usteer_timeout_queue T) : Prop :=
  Forall (fun x => in_window now (D x.2)) (q_elems q).

(** The [uloop] timer is armed early enough for the first deadline; [tl] is the
    time of the operation that armed it. *)
Definition q_armed (tl : Z) (D : A -> Z) (q : usteer_timeout_queue T) : Prop :=
  match q_elems q with
  | [] => True
  | (_, p) :: _ => exists due, q_uloop q = Some due /\ due <= Z.max (tl + 1) (D p)
  end.

Definition set_deadline (t : A) (d : Z) (D : A -> Z) : A -> Z :=
  fun p => if decide (p = t) then d else D p.

Lemma isset_true t q : usteer_timeout_isset t q = true <-> t ∈ q_ids q.
Proof. unfold usteer_timeout_isset. by rewrite bool_decide_eq_true. Qed.
Lemma isset_false t q : usteer_timeout_isset t q = false <-> t ∉ q_ids q.
Proof. unfold usteer_timeout_isset. by rewrite bool_decide_eq_false. Qed.

Lemma filter_snd_ne t l : (filter (fun x => x.2 ≠ t) l).*2 = list_del t l.*2.
Proof.
  unfold list_del. induction l as [|[k x] l IH]; [done|].
  rewrite fmap_cons, !filter_cons; simpl. case_decide; simpl; by rewrite <- IH.
Qed.

Lemma delete_elems t q : q_elems (__usteer_timeout_cancel t q) = filter (fun x => x.2 ≠ t) (q_elems q).
Proof. unfold q_elems. simpl. by rewrite avl_delete_elems. Qed.

Lemma filter_snd_ne_id t l : t ∉ l.*2 -> filter (fun x => x.2 ≠ t) l = l.
Proof.
  induction l as [|[k x] l IH]; [done|]. intros [? ?]%not_elem_of_cons. simpl in *.
  rewrite filter_cons_True by (simpl; congruence). by rewrite IH.
Qed.

Lemma cancel_elems t q :
  q_elems (usteer_timeout_cancel t q) = filter (fun x => x.2 ≠ t) (q_elems q).
Proof.
  unfold usteer_timeout_cancel. destruct (usteer_timeout_isset t q) eqn:E.
  - apply delete_elems.
  - apply isset_false in E. by rewrite filter_snd_ne_id.
Qed.

Lemma cancel_head k t l q :
  q_elems q = (k, t) :: l -> t ∉ l.*2 -> q_elems (usteer_timeout_cancel t q) = l.
Proof.
  intros He Hnt. rewrite cancel_elems, He, filter_cons_False by (simpl; tauto).
  by apply filter_snd_ne_id.
Qed.

Lemma cancel_ids t q : q_ids (usteer_timeout_cancel t q) = list_del t (q_ids q).
Proof. unfold q_ids. by rewrite cancel_elems, filter_snd_ne. Qed.

Lemma cancel_not_in t q : t ∉ q_ids q -> usteer_timeout_cancel t q = q.
Proof. intros Ht%isset_false. unfold usteer_timeout_cancel. by rewrite Ht. Qed.

Lemma recalc_elems ts time q : q_elems (usteer_timeout_recalc ts time q) = q_elems q.
Proof. unfold usteer_timeout_recalc. by destruct (avl_elems (q_tree q)) as [|[]]. Qed.

(** The tree after [usteer_timeout_set]: the timer left its old place and was
    inserted under the new key. *)
Lemma set_elems ts t msecs q :
  let cmp := usteer_timeout_cmp (ampgr_timeout_current_time ts) in
  let key := u32 (ampgr_timeout_current_time ts + msecs) in
  let old := filter (fun x => x.2 ≠ t) (q_elems q) in
  exists l1 l2, old = l1 ++ l2 /\
    q_elems (usteer_timeout_set ts t msecs q) = l1 ++ (key, t) :: l2 /\
    (StronglySorted (fun x y => cmp x.1 y.1 <= 0) old ->
     Forall (fun x => cmp x.1 key <= 0) l1 /\ Forall (fun x => 0 < cmp x.1 key) l2).
Proof.
  intros cmp key old.
  assert (exists q', q_elems q' = old /\
    q_elems (usteer_timeout_set ts t msecs q) =
      avl_elems (avl_insert cmp key t (q_tree q'))) as (q' & Hq' & ->).
  { set (q0 := q <| q_cmp_ptr := ampgr_timeout_current_time ts |>).
    exists (usteer_timeout_cancel t q0). split; [apply cancel_elems|].
    unfold usteer_timeout_set, usteer_timeout_cancel. fold q0.
    destruct (usteer_timeout_isset t q0); cbv beta iota zeta;
      repeat case_match; by rewrite ?recalc_elems. }
  rewrite <- Hq'. apply avl_insert_elems, _.
Qed.

Lemma set_ids ts t msecs q :
  q_ids (usteer_timeout_set ts t msecs q) ≡ₚ t :: list_del t (q_ids q).
Proof.
  destruct (set_elems ts t msecs q) as (l1 & l2 & Hold & Hnew & _).
  unfold q_ids. rewrite Hnew, <- filter_snd_ne, Hold, !fmap_app, fmap_cons.
  by rewrite Permutation_middle.
Qed.

Lemma elem_of_set_ids ts t msecs q p :
  p ∈ q_ids (usteer_timeout_set ts t msecs q) <-> p = t \/ p ∈ q_ids q.
Proof.
  rewrite set_ids, elem_of_cons, elem_of_list_del. destruct (decide (p = t)); naive_solver.
Qed.
Lemma elem_of_cancel_ids t q p :
  p ∈ q_ids (usteer_timeout_cancel t q) <-> p ∈ q_ids q /\ p ≠ t.
Proof. by rewrite cancel_ids, elem_of_list_del. Qed.

Lemma set_wf ts t msecs q : q_wf q -> q_wf (usteer_timeout_set ts t msecs q).
Proof.
  unfold q_wf. rewrite set_ids, list.NoDup_cons, elem_of_list_del. naive_solver.
Qed.
Lemma cancel_wf t q : q_wf q -> q_wf (usteer_timeout_cancel t q).
Proof. unfold q_wf. rewrite cancel_ids. auto. Qed.
Lemma init_ids : q_ids (usteer_timeout_init (T := T)) = [].
Proof. unfold q_ids, q_elems. simpl. by rewrite avl_init_elems. Qed.

(** Under the window, the 32-bit comparison of keys is the order of deadlines. *)
Lemma rep_cmp_sorted now D l :
  Forall (fun x => x.1 = u32 (D x.2)) l ->
  Forall (fun x => in_window now (D x.2)) l ->
  StronglySorted (fun x y => D x.2 <= D y.2) l ->
  StronglySorted (fun x y => usteer_timeout_cmp (u32 now) x.1 y.1 <= 0) l.
Proof.
  rewrite !list.Forall_forall. intros Hk Hw. apply StronglySorted_impl.
  intros x y Hx Hy Hle. rewrite (Hk x), (Hk y) by done.
  rewrite timeout_cmp_window by auto.
  destruct (Z.compare_spec (D x.2) (D y.2)); lia.
Qed.

Lemma set_deadline_eq t d D : set_deadline t d D t = d.
Proof. unfold set_deadline. by rewrite decide_True. Qed.
Lemma set_deadline_ne t d D p : p ≠ t -> set_deadline t d D p = D p.
Proof. intros. unfold set_deadline. by rewrite decide_False. Qed.

Lemma set_rep ts t msecs D q :
  let now := ts_ms ts in
  q_rep D q -> q_window now D q -> in_window now (now + msecs) ->
  q_rep (set_deadline t (now + msecs) D) (usteer_timeout_set ts t msecs q) /\
  q_window now (set_deadline t (now + msecs) D) (usteer_timeout_set ts t msecs q).
Proof.
  intros now [Hwf Hk Hs] Hw Hd. set (D' := set_deadline t (now + msecs) D).
  destruct (set_elems ts t msecs q) as (l1 & l2 & Hold & Hnew & Hins).
  rewrite current_time_u32, u32_add_l in Hnew, Hins. fold now in Hnew, Hins.
  set (old := filter (fun x => x.2 ≠ t) (q_elems q)) in *.
  assert (HD : forall x, x ∈ old -> D' x.2 = D x.2).
  { intros x [? _]%list_elem_of_filter. by apply set_deadline_ne. }
  assert (Hsub : forall P : Z * A -> Prop, Forall P (q_elems q) -> Forall P old).
  { intros P. rewrite !list.Forall_forall. intros HP x [_ ?]%list_elem_of_filter. auto. }
  assert (Hk' := Hsub _ Hk). assert (Hw' := Hsub _ Hw).
  assert (Hso : StronglySorted (fun x y => D x.2 <= D y.2) old)
    by by apply StronglySorted_filter.
  destruct (Hins (rep_cmp_sorted _ _ _ Hk' Hw' Hso)) as [H1 H2].
  rewrite !list.Forall_forall in *. rewrite Hold in *.
  assert (Hcmp : forall x, x ∈ l1 ++ l2 ->
    usteer_timeout_cmp (u32 now) x.1 (u32 (now + msecs)) =
      match D x.2 ?= now + msecs with Lt => -1 | Eq => 0 | Gt => 1 end).
  { intros x Hx. rewrite (Hk' x) by done. apply timeout_cmp_window; auto. }
  split; [split|].
  - by apply set_wf.
  - rewrite list.Forall_forall, Hnew. intros x.
    rewrite elem_of_app, elem_of_cons. intros [Hx|[->|Hx]]; simpl.
    + rewrite HD by set_solver. apply Hk'; set_solver.
    + unfold D'. by rewrite set_deadline_eq.
    + rewrite HD by set_solver. apply Hk'; set_solver.
  - rewrite Hnew. apply StronglySorted_insert.
    + eapply StronglySorted_impl; [|exact Hso]. intros x y Hx Hy. by rewrite !HD.
    + rewrite list.Forall_forall. intros x Hx. unfold D' at 2. simpl.
      rewrite set_deadline_eq, HD by set_solver.
      specialize (H1 x Hx). rewrite Hcmp in H1 by set_solver.
      destruct (Z.compare_spec (D x.2) (now + msecs)); lia.
    + rewrite list.Forall_forall. intros x Hx. unfold D' at 1. simpl.
      rewrite set_deadline_eq, HD by set_solver.
      specialize (H2 x Hx). rewrite Hcmp in H2 by set_solver.
      destruct (Z.compare_spec (D x.2) (now + msecs)); lia.
  - unfold q_window. rewrite list.Forall_forall, Hnew. intros x.
    rewrite elem_of_app, elem_of_cons. intros [Hx|[->|Hx]]; simpl.
    + rewrite HD by set_solver. apply Hw'; set_solver.
    + unfold D'. by rewrite set_deadline_eq.
    + rewrite HD by set_solver. apply Hw'; set_solver.
Qed.

Lemma cancel_rep t D q : q_rep D q -> q_rep D (usteer_timeout_cancel t q).
Proof.
  intros [Hwf Hk Hs]. split.
  - by apply cancel_wf.
  - rewrite list.Forall_forall in *. intros x. rewrite cancel_elems.
    intros [_ ?]%list_elem_of_filter. auto.
  - rewrite cancel_elems. by apply StronglySorted_filter.
Qed.

(** [usteer_timeout_recalc] arms the timer for the first deadline, at least one
    millisecond ahead. *)
Lemma recalc_armed ts D q :
  let now := ts_ms ts in
  q_rep D q -> q_window now D q ->
  q_armed now D (usteer_timeout_recalc ts (ampgr_timeout_current_time ts) q).
Proof.
  intros now [_ Hk _] Hw. unfold q_armed. rewrite recalc_elems.
  unfold usteer_timeout_recalc, q_window in *. fold (q_elems q) in *.
  destruct (q_elems q) as [|[k p] l]; [done|].
  apply list.Forall_cons in Hk as [Hk _]. apply list.Forall_cons in Hw as [Hw _]. simpl in *. subst k.
  rewrite current_time_u32, timeout_delta_window by done.
  eexists. split; [done|]. fold now. case_match; lia.
Qed.

Lemma armed_first tl D q1 q2 :
  q_uloop q2 = q_uloop q1 -> q_armed tl D q1 ->
  (forall p2, snd <$> head (q_elems q2) = Some p2 ->
     exists p1, snd <$> head (q_elems q1) = Some p1 /\ D p1 <= D p2) ->
  q_armed tl D q2.
Proof.
  unfold q_armed. intros Hu Ha Hf.
  destruct (q_elems q2) as [|[k2 p2] l2]; [done|].
  destruct (Hf p2 eq_refl) as (p1 & Hp1 & Hle).
  destruct (q_elems q1) as [|[k1 p1'] l1]; [done|]. simpl in Hp1. simplify_eq.
  destruct Ha as (due & ? & ?). exists due. split; [congruence|lia].
Qed.

Lemma cancel_armed tl t D q :
  q_rep D q -> q_armed tl D q -> q_armed tl D (usteer_timeout_cancel t q).
Proof.
  intros [_ _ Hs] Ha. apply (armed_first _ _ q); [|done|].
  { unfold usteer_timeout_cancel. by destruct (usteer_timeout_isset t q). }
  intros p2. rewrite cancel_elems.
  destruct (q_elems q) as [|[k1 p1] l]; [done|].
  apply StronglySorted_inv in Hs as [Hs Hx].
  intros Hp. exists p1. split; [done|].
  destruct (filter _ _) as [|x l'] eqn:E; [done|]. simpl in Hp. simplify_eq.
  assert (x ∈ filter (fun x => x.2 ≠ t) ((k1, p1) :: l)) as [_ Hin]%list_elem_of_filter
    by (rewrite E; set_solver).
  apply elem_of_cons in Hin as [->|Hin]; simpl; [lia|].
  rewrite list.Forall_forall in Hx. by apply Hx.
Qed.

Lemma not_in_not_first t q : t ∉ q_ids q -> avl_is_first t q = false.
Proof.
  unfold q_ids, q_elems, avl_is_first. destruct (avl_elems (q_tree q)) as [|[k p] l]; [done|].
  intros [? _]%not_elem_of_cons. by apply bool_decide_false.
Qed.

(** [usteer_timeout_set] rearms, or the first timer of the tree is another one
    before and after it. *)
Lemma set_cases ts t msecs q :
  exists q2, q_elems q2 = q_elems (usteer_timeout_set ts t msecs q) /\
    q_uloop q2 = q_uloop q /\
    (usteer_timeout_set ts t msecs q =
       usteer_timeout_recalc ts (ampgr_timeout_current_time ts) q2 \/
     usteer_timeout_set ts t msecs q = q2 /\
       avl_is_first t q2 = false /\ avl_is_first t q = false).
Proof.
  set (time := ampgr_timeout_current_time ts).
  set (q0 := q <| q_cmp_ptr := time |>).
  set (ins := fun q => q <| q_tree ::=
    avl_insert (usteer_timeout_cmp (q_cmp_ptr q)) (u32 (time + msecs)) t |>).
  exists (ins (usteer_timeout_cancel t q0)).
  assert (Hu : q_uloop (ins (usteer_timeout_cancel t q0)) = q_uloop q)
    by (unfold usteer_timeout_cancel; by case_match).
  assert (Hs : usteer_timeout_set ts t msecs q =
    let q2 := ins (usteer_timeout_cancel t q0) in
    if avl_is_first t q2 then usteer_timeout_recalc ts time q2
    else if avl_is_first t q0 then usteer_timeout_recalc ts time q2 else q2).
  { unfold usteer_timeout_set, usteer_timeout_cancel. fold time q0.
    destruct (usteer_timeout_isset t q0) eqn:E.
    - change (set_field q_tree _ (__usteer_timeout_cancel t q0))
        with (ins (__usteer_timeout_cancel t q0)).
      by destruct (avl_is_first t q0), (avl_is_first t (ins _)).
    - change (set_field q_tree _ q0) with (ins q0).
      assert (avl_is_first t q0 = false) as ->
        by (apply not_in_not_first; by apply isset_false).
      by destruct (avl_is_first t (ins q0)). }
  rewrite Hs. cbv zeta. change (avl_is_first t q0) with (avl_is_first t q).
  repeat case_match; rewrite ?recalc_elems; auto 10.
Qed.

Lemma first_unchanged t key l1 l2 q q2 :
  q_elems q2 = l1 ++ (key, t) :: l2 -> filter (fun x => x.2 ≠ t) (q_elems q) = l1 ++ l2 ->
  avl_is_first t q2 = false -> avl_is_first t q = false ->
  head (q_elems q2) = head (q_elems q) /\ snd <$> head (q_elems q2) ≠ Some t.
Proof.
  unfold avl_is_first. fold (q_elems q) (q_elems q2). intros -> Hold H1 H2.
  destruct l1 as [|[k1 p1] l1]; simpl in *; [by rewrite bool_decide_true in H1|].
  rewrite bool_decide_eq_false in H1.
  destruct (q_elems q) as [|[k p] l]; [done|].
  rewrite bool_decide_eq_false in H2.
  rewrite filter_cons_True in Hold by done. naive_solver.
Qed.

Lemma set_armed ts tl t msecs D q :
  let now := ts_ms ts in
  q_rep D q -> q_window now D q -> in_window now (now + msecs) ->
  tl <= now -> q_armed tl D q ->
  q_armed now (set_deadline t (now + msecs) D) (usteer_timeout_set ts t msecs q).
Proof.
  intros now Hrep Hw Hd Htl Ha.
  destruct (set_rep ts t msecs D q Hrep Hw Hd) as [[Hwf' Hk' Hs'] Hw'].
  destruct (set_cases ts t msecs q) as (q2 & He & Hu & [Hr|(Hr & H1 & H2)]); rewrite Hr.
  - apply recalc_armed; unfold q_window, q_wf, q_ids in *; [split|];
      unfold q_wf, q_ids; by rewrite He.
  - destruct (set_elems ts t msecs q) as (l1 & l2 & Hold & Hnew & _).
    rewrite <- He in Hnew.
    destruct (first_unchanged t _ l1 l2 q q2 Hnew Hold H1 H2) as [Hhd Hne].
    unfold q_armed in *. destruct (q_elems q2) as [|[k p] l]; [done|].
    destruct (q_elems q) as [|[k' p'] l']; simplify_eq/=.
    rewrite set_deadline_ne by congruence.
    destruct Ha as (due & ? & ?). exists due. split; [congruence|]. fold now. lia.
Qed.
End queue_inv.
#[export] Hint Resolve set_wf cancel_wf : core.

(** ** What one run of the expiry callback does

    [due_timers time l] are the timers of [l] whose deadline has passed, in the
    order the loop visits them. *)
Fixpoint due_timers {A} (time : Z) (l : list (Z * A)) : list A :=
  match l with
  | [] => []
  | (key, t) :: l' => if 0 <? usteer_timeout_delta key time then [] else t :: due_timers time l'
  end.

Section expiry_spec.
Context {A T W : Type} `{EqDecision A} `{!AvlTree Z A T} `{!AvlLaws Z A T}.
Context (q_get : W -> usteer_timeout_queue T)
        (q_mod : (usteer_timeout_queue T -> usteer_timeout_queue T) -> W -> W)
        (clock : W -> timespec)
        (cb : option (A -> M W unit)).
Implicit Types (t : A) (l : list (Z * A)).

(** The queue is a component of the client's state. *)
Hypothesis get_mod : forall f w, q_get (q_mod f w) = f (q_get w).
Hypothesis clock_mod : forall f w, clock (q_mod f w) = clock w.
(** The callback of a timer that already left the queue does not change the queue. *)
Hypothesis cb_queue : forall t w w', t ∉ q_ids (q_get w) -> run_cb cb t w = Ok (tt, w') ->
  q_get w' = q_get w /\ clock w' = clock w.

(** One expired timer: it leaves the queue, then its callback runs. *)
Definition fire (t : A) : M W unit :=
  modify (q_mod (usteer_timeout_cancel t)) ;; run_cb cb t.

Lemma fire_eq t w : fire t w = run_cb cb t (q_mod (usteer_timeout_cancel t) w).
Proof. done. Qed.

Lemma key_of_head k t l : key_of t ((k, t) :: l) = Some k.
Proof. unfold key_of. simpl. by rewrite decide_True. Qed.

Lemma pass_eq fuel time found w :
  q_wf (q_get w) -> (length (q_elems (q_get w)) < fuel)%nat ->
  usteer_timeout_pass q_get q_mod cb fuel time (snd <$> head (q_elems (q_get w))) found w =
    (for_each fire (due_timers time (q_elems (q_get w))) ;;
     mret (found || negb (bool_decide (due_timers time (q_elems (q_get w)) = [])))) w.
Proof.
  remember (q_elems (q_get w)) as l eqn:El. unfold q_wf, q_ids. rewrite <- El.
  revert w found fuel El.
  induction l as [|[k t] l IH]; intros w found fuel El Hnd Hf.
  { destruct fuel; [simpl in Hf; lia|]. simpl. by rewrite orb_false_r. }
  destruct fuel as [|fuel]; [lia|]. simpl in *.
  apply list.NoDup_cons in Hnd as [Hnt Hnd].
  unfold mbind, M_bind, gets, deref. rewrite <- El, key_of_head. simpl.
  rewrite decide_True by done.
  destruct (0 <? usteer_timeout_delta k time) eqn:Ed; simpl.
  { by rewrite orb_false_r. }
  unfold modify, mbind, M_bind. rewrite fire_eq.
  set (w1 := q_mod (usteer_timeout_cancel t) w).
  assert (Hel : q_elems (q_get w1) = l).
  { unfold w1. rewrite get_mod. by eapply cancel_head. }
  destruct (run_cb cb t w1) as [[[] w2]|e] eqn:Ecb; [|done].
  destruct (cb_queue t w1 w2) as [Hq _]; [by unfold q_ids; rewrite Hel|done|].
  specialize (IH w2 true fuel). rewrite Hq, Hel in IH.
  rewrite IH by (done || lia). by destruct found.
Qed.

(** The timers a pass fires are the ones that were due; they leave the queue. *)
Lemma for_each_fire time l w w' :
  q_elems (q_get w) = l -> NoDup l.*2 ->
  for_each fire (due_timers time l) w = Ok (tt, w') ->
  q_elems (q_get w') = drop (length (due_timers time l)) l /\ clock w' = clock w.
Proof.
  revert w. induction l as [|[k t] l IH]; simpl; intros w El Hnd Hrun.
  { unfold mret, M_ret in Hrun. by simplify_eq. }
  apply list.NoDup_cons in Hnd as [Hnt Hnd].
  destruct (0 <? usteer_timeout_delta k time); simpl in *.
  { unfold mret, M_ret in Hrun. by simplify_eq. }
  unfold mbind, M_bind in Hrun. rewrite fire_eq in Hrun.
  set (w1 := q_mod (usteer_timeout_cancel t) w) in *.
  assert (Hel : q_elems (q_get w1) = l).
  { unfold w1. rewrite get_mod. by eapply cancel_head. }
  destruct (run_cb cb t w1) as [[[] w2]|e] eqn:Ecb; [|done].
  destruct (cb_queue t w1 w2) as [Hq Hc]; [by unfold q_ids; rewrite Hel|done|].
  destruct (IH w2) as [-> ->]; [by rewrite Hq|done|done|].
  split; [done|]. rewrite Hc. apply clock_mod.
Qed.

Lemma due_timers_drop time l : due_timers time (drop (length (due_timers time l)) l) = [].
Proof.
  induction l as [|[k t] l IH]; [done|]. simpl.
  destruct (0 <? usteer_timeout_delta k time) eqn:E; simpl; [by rewrite E|done].
Qed.

Lemma timeout_cb_eq fuel w :
  q_wf (q_get w) -> (S (length (q_elems (q_get w))) < fuel)%nat ->
  usteer_timeout_cb q_get q_mod clock cb fuel w =
    (for_each fire (due_timers (ampgr_timeout_current_time (clock w)) (q_elems (q_get w))) ;;
     modify (q_mod (usteer_timeout_recalc (clock w) (ampgr_timeout_current_time (clock w))))) w.
Proof.
  intros Hwf Hf. set (time := ampgr_timeout_current_time (clock w)).
  destruct fuel as [|fuel]; [lia|]. cbn [usteer_timeout_cb].
  unfold gets, mbind, M_bind. fold time.
  rewrite pass_eq by (done || lia). unfold mbind, M_bind.
  destruct (for_each fire _ w) as [[[] w1]|e] eqn:E1; [|done].
  destruct (for_each_fire _ _ _ _ eq_refl Hwf E1) as [Hel Hcl].
  unfold mret, M_ret. cbv beta iota. rewrite orb_false_l.
  case_bool_decide as Hdue; cbv beta iota delta [negb]; [done|].
  destruct fuel as [|fuel]; [lia|]. cbn [usteer_timeout_cb].
  unfold gets, mbind, M_bind. rewrite Hcl. fold time.
  rewrite pass_eq.
  - rewrite Hel, due_timers_drop. done.
  - unfold q_wf, q_ids. rewrite Hel, fmap_drop.
    unfold q_wf, q_ids in Hwf.
    rewrite <- (take_drop (length (due_timers time (q_elems (q_get w)))) (q_elems (q_get w)).*2) in Hwf.
    by apply list.NoDup_app in Hwf as (_ & _ & ?).
  - rewrite Hel, length_drop. lia.
Qed.
End expiry_spec.

(** On a queue that holds deadlines within the window, the loop fires the timers
    that are due and no other. *)
Section due.
Context {A T : Type} `{EqDecision A} `{!AvlTree Z A T} `{!AvlLaws Z A T}.
Implicit Types (D : A -> Z) (l : list (Z * A)).

Lemma due_timers_spec now D l :
  Forall (fun x => x.1 = u32 (D x.2)) l -> StronglySorted (fun x y => D x.2 <= D y.2) l ->
  Forall (fun x => in_window now (D x.2)) l ->
  (forall p, p ∈ due_timers (u32 now) l <-> p ∈ l.*2 /\ D p <= now) /\
  due_timers (u32 now) l = take (length (due_timers (u32 now) l)) l.*2.
Proof.
  induction l as [|[k t] l IH]; intros Hk Hs Hw; simpl.
  { split; [|done]. intros p. set_solver. }
  apply list.Forall_cons in Hk as [Hk1 Hk], Hw as [Hw1 Hw]. simpl in *. subst k.
  apply StronglySorted_inv in Hs as [Hs Hx]. rewrite list.Forall_forall in Hx.
  rewrite timeout_delta_window by done.
  destruct (Z.ltb_spec 0 (D t - now)); simpl.
  - split; [|done]. intros p. split; [set_solver|]. intros [Hp Hle].
    apply elem_of_cons in Hp as [->|Hp]; [lia|]. apply list_elem_of_fmap in Hp as ([k p'] & -> & Hp).
    specialize (Hx _ Hp). simpl in *. lia.
  - destruct (IH Hk Hs Hw) as [Hin Htk]. split; [|by f_equal].
    intros p. rewrite !elem_of_cons, Hin. split; [intros [->|?]; [split; [by left|lia]|tauto]|tauto].
Qed.
End due.

(** ** A tree that satisfies the laws: the sorted sequence itself *)
Section list_avl.
Context {K A : Type} `{EqDecision A}.

Fixpoint seq_insert (cmp : K -> K -> Z) (k : K) (a : A) (l : list (K * A)) : list (K * A) :=
  match l with
  | [] => [(k, a)]
  | x :: l' => if 0 <? cmp x.1 k then (k, a) :: l else x :: seq_insert cmp k a l'
  end.

#[export] Instance seq_avl : AvlTree K A (list (K * A)) := {
  avl_elems l := l;
  avl_init := [];
  avl_insert := seq_insert;
  avl_delete a l := filter (fun x => x.2 ≠ a) l;
}.

Lemma seq_insert_spec cmp k a (l : list (K * A)) :
  exists l1 l2, l = l1 ++ l2 /\ seq_insert cmp k a l = l1 ++ (k, a) :: l2 /\
    (CmpTrans cmp -> StronglySorted (fun x y => cmp x.1 y.1 <= 0) l ->
     Forall (fun x => cmp x.1 k <= 0) l1 /\ Forall (fun x => 0 < cmp x.1 k) l2).
Proof.
  induction l as [|x l (l1 & l2 & -> & Hi & Hs)]; simpl.
  { exists [], []. done. }
  destruct (Z.ltb_spec 0 (cmp x.1 k)) as [Hlt|Hle].
  - exists [], (x :: l1 ++ l2). split; [done|]. split; [done|].
    intros Hc [_ Hx]%StronglySorted_inv. split; [constructor|].
    constructor; [done|]. rewrite list.Forall_forall in Hx |- *.
    intros y Hy. eapply Hc; [by apply Hx|done].
  - exists (x :: l1), l2. split; [done|]. rewrite Hi. split; [done|].
    intros Hc [Hss _]%StronglySorted_inv. destruct (Hs Hc Hss).
    split; [by constructor|done].
Qed.
End list_avl.

#[export] Instance seq_avl_laws {K A} `{EqDecision A} : AvlLaws K A (list (K * A)).
Proof.
  split; [done|done|]. intros cmp k a t Hc.
  destruct (seq_insert_spec cmp k a t) as (l1 & l2 & ? & ? & Hs).
  exists l1, l2. split; [done|]. split; [done|]. by apply Hs.
Qed.
