(* ===== verification/Periodic.v ===== *)
(** * Timers that set themselves again (timeout.c)

    What the expiry loop does when the callback of a timer puts that timer back
    into the queue, later than now: it fires the timers that are due, each once,
    and stops, although the loop restarts for as long as it found one. *)
From S2P Require Import Prelude Timeout.

Section periodic.
Context {A T W : Type} `{EqDecision A} `{!AvlTree Z A T} `{!AvlLaws Z A T}.
Context (q_get : W -> usteer_timeout_queue T)
        (q_mod : (usteer_timeout_queue T -> usteer_timeout_queue T) -> W -> W)
        (clock : W -> timespec)
        (cb : option (A -> M W unit))
        (P : W -> Prop) (G : A -> Z -> Prop).
Implicit Types (t : A) (l : list (Z * A)) (D : A -> Z) (w : W).

Hypothesis get_mod : forall f w, q_get (q_mod f w) = f (q_get w).
Hypothesis clock_mod : forall f w, clock (q_mod f w) = clock w.
Hypothesis P_mod : forall f w, P w -> P (q_mod f w).

(** The callback of a timer that left the queue sets it again, in a time [G] allows. *)
Hypothesis cb_sets : forall t w w', P w -> t ∉ q_ids (q_get w) -> run_cb cb t w = Ok (tt, w') ->
  P w' /\ clock w' = clock w /\
  exists ms, 0 < ms < 2 ^ 31 /\ G t ms /\ q_get w' = usteer_timeout_set (clock w) t ms (q_get w).

Notation now w := (ts_ms (clock w)) (only parsing).
Notation fire := (fire q_mod cb).

(** The queue of [w] holds the deadlines [D]. *)
Record holds D w : Prop := {
  hl_P : P w;
  hl_rep : q_rep D (q_get w);
  hl_window : q_window (now w) D (q_get w);
}.

(** Timers that are due later do not hide one that is due now. *)
Lemma due_timers_app time l1 l2 :
  Forall (fun x => 0 < usteer_timeout_delta x.1 time) l2 -> due_timers time (l1 ++ l2) = due_timers time l1.
Proof.
  intros Hl. induction l1 as [|[k t] l1 IH]; simpl.
  - destruct l2 as [|[k t] l2]; [done|]. apply list.Forall_cons in Hl as [Hk _]. simpl in *.
    by rewrite (proj2 (Z.ltb_lt _ _)).
  - case_match; [done|]. by rewrite IH.
Qed.

(** One timer that is due is fired. *)
Lemma fire_due t k l D w w' :
  holds D w -> q_elems (q_get w) = (k, t) :: l -> D t <= now w -> fire t w = Ok (tt, w') ->
  clock w' = clock w /\ exists ms, 0 < ms /\ G t ms /\ holds (set_deadline t (now w + ms) D) w' /\
  due_timers (u32 (now w)) (q_elems (q_get w')) = due_timers (u32 (now w)) l /\
  (forall p, p ∈ q_ids (q_get w') <-> p ∈ q_ids (q_get w)) /\
  (due_timers (u32 (now w)) l ≠ [] -> head (q_elems (q_get w')) = head l).
Proof.
  intros [HP Hr Hw] El Ht Hf. rewrite fire_eq in Hf.
  set (w1 := q_mod (usteer_timeout_cancel t) w) in *.
  assert (Hnd := rep_wf _ _ Hr). unfold q_wf, q_ids in Hnd. rewrite El in Hnd. apply list.NoDup_cons in Hnd as [Hnt Hnd].
  assert (Hel : q_elems (q_get w1) = l) by (unfold w1; rewrite get_mod; by eapply cancel_head).
  destruct (cb_sets t w1 w') as (HP' & Hc & ms & Hms & HG & Hq); [by apply P_mod|by unfold q_ids; rewrite Hel|done|].
  assert (Hc1 : clock w1 = clock w) by apply clock_mod. rewrite Hc1 in Hc, Hq.
  assert (Hr1 : q_rep D (q_get w1)) by (unfold w1; rewrite get_mod; by apply cancel_rep).
  assert (Hw1 : q_window (now w) D (q_get w1)).
  { unfold q_window in *. rewrite Hel. rewrite El in Hw. by apply list.Forall_cons in Hw as [_ ?]. }
  assert (Hin : in_window (now w) (now w + ms)) by (unfold in_window; lia).
  destruct (set_rep (clock w) t ms D (q_get w1) Hr1 Hw1 Hin) as [Hr' Hw']. rewrite <- Hq in Hr', Hw'.
  split; [done|]. exists ms. split; [lia|]. split; [done|]. split; [split; [done|done|by rewrite Hc]|].
  destruct (set_elems (clock w) t ms (q_get w1)) as (l1 & l2 & Hold & Hnew & _). rewrite <- Hq, Hel in *.
  rewrite filter_snd_ne_id in Hold by done. rewrite current_time_u32, u32_add_l in Hnew.
  destruct Hr' as [_ Hk' Hs']. unfold q_window in Hw'. rewrite Hnew in Hk', Hs', Hw'.
  assert (Hlate : Forall (fun x => 0 < usteer_timeout_delta x.1 (u32 (now w))) ((u32 (now w + ms), t) :: l2)).
  { apply list.Forall_app in Hk' as [_ Hk'], Hw' as [_ Hw'].
    apply list.Forall_forall. intros x Hx. rewrite list.Forall_forall in Hk', Hw'.
    rewrite (Hk' x Hx), timeout_delta_window by by apply Hw'.
    assert (Hge : now w + ms <= set_deadline t (now w + ms) D x.2); [|lia].
    apply elem_of_cons in Hx as [->|Hx]; [simpl; by rewrite set_deadline_eq|].
    apply StronglySorted_suffix, StronglySorted_inv in Hs' as [_ Hs'].
    rewrite list.Forall_forall in Hs'. specialize (Hs' x Hx). simpl in Hs'. by rewrite set_deadline_eq in Hs'. }
  assert (Hlate2 : Forall (fun x => 0 < usteer_timeout_delta x.1 (u32 (now w))) l2) by (by inversion Hlate).
  split; [rewrite Hnew, Hold; by rewrite !due_timers_app|].
  split.
  - intros p. unfold q_ids. rewrite Hnew, El, Hold. rewrite fmap_app. simpl. rewrite fmap_app. set_solver.
  - intros Hne. rewrite Hnew, Hold in *. rewrite due_timers_app in Hne by done. by destruct l1.
Qed.

(** The deadlines after the timers [ts] were fired: a new one for each of them. *)
Definition renewed n (ts : list A) D D' : Prop :=
  (forall p, p ∈ ts -> exists ms, 0 < ms /\ G p ms /\ D' p = n + ms) /\ forall p, p ∉ ts -> D' p = D p.

(** A pass that begins at a timer that is not due ends. *)
Lemma pass_stops fuel p found w D :
  holds D w -> due_timers (u32 (now w)) (q_elems (q_get w)) = [] ->
  (forall t, p = Some t -> t ∈ q_ids (q_get w)) -> (0 < fuel)%nat ->
  usteer_timeout_pass q_get q_mod cb fuel (u32 (now w)) p found w = Ok (found, w).
Proof.
  intros [_ Hr Hw] Hdue Hp Hf. destruct fuel as [|fuel]; [lia|]. destruct p as [t|]; [|done]. cbn [usteer_timeout_pass].
  specialize (Hp t eq_refl). unfold gets, mbind, M_bind, deref.
  destruct (key_of t (q_elems (q_get w))) as [k|] eqn:Ek.
  - unfold key_of in Ek. destruct (list_find _ _) as [[i [k' t']]|] eqn:E; [|done]. simpl in Ek. injection Ek as ->.
    apply list_find_Some in E as (Hl & Ht & _). simpl in Ht. subst t'. apply list_elem_of_lookup_2 in Hl.
    assert (Hk := rep_keys _ _ Hr). rewrite list.Forall_forall in Hk. specialize (Hk _ Hl). simpl in Hk. subst k.
    assert (Hlate : now w < D t).
    { destruct (due_timers_spec (now w) D (q_elems (q_get w)) (rep_keys _ _ Hr) (rep_sorted _ _ Hr) Hw) as [Hin _].
      apply Z.lt_nge. intros Hle. destruct (Hin t) as [_ H]. rewrite Hdue in H. eapply elem_of_nil, H. by split. }
    unfold q_window in Hw. rewrite list.Forall_forall in Hw. specialize (Hw _ Hl). simpl in Hw.
    rewrite timeout_delta_window by done. by rewrite (proj2 (Z.ltb_lt _ _)) by lia.
  - exfalso. unfold key_of in Ek. destruct (list_find _ _) eqn:E; [by destruct p|]. apply list_find_None in E.
    apply list_elem_of_fmap in Hp as (x & -> & Hx). rewrite list.Forall_forall in E. by apply (E x Hx).
Qed.

(** A pass fires the timers that are due, and what it leaves in the queue is due
    later. *)
Lemma pass_periodic ts fuel found w D :
  holds D w -> due_timers (u32 (now w)) (q_elems (q_get w)) = ts -> (length ts < fuel)%nat ->
  usteer_timeout_pass q_get q_mod cb fuel (u32 (now w)) (snd <$> head (q_elems (q_get w))) found w =
    (for_each fire ts ;; mret (found || negb (bool_decide (ts = [])))) w /\
  forall w', for_each fire ts w = Ok (tt, w') ->
    clock w' = clock w /\ exists D', holds D' w' /\ renewed (now w) ts D D' /\
    due_timers (u32 (now w)) (q_elems (q_get w')) = [] /\
    (forall p, p ∈ q_ids (q_get w') <-> p ∈ q_ids (q_get w)).
Proof.
  revert fuel found w D. induction ts as [|t ts IH]; intros fuel found w D Hh Hdue Hf.
  { split.
    - rewrite (pass_stops fuel _ found w D Hh Hdue); [by rewrite orb_false_r| |simpl in Hf; lia].
      intros t Ht. unfold q_ids. destruct (q_elems _) as [|[k p] l]; [done|]. simpl in *. simplify_eq. by left.
    - intros w' [= <-]. split; [done|]. exists D. split; [done|]. split; [|done]. split; [|done]. intros p Hp. by apply elem_of_nil in Hp. }
  destruct fuel as [|fuel]; [simpl in Hf; lia|].
  destruct (q_elems (q_get w)) as [|[k t'] l] eqn:El; [done|].
  assert (Ht : t' = t /\ due_timers (u32 (now w)) l = ts /\ usteer_timeout_delta k (u32 (now w)) <= 0).
  { simpl in Hdue. destruct (Z.ltb_spec 0 (usteer_timeout_delta k (u32 (now w)))); [done|]. by injection Hdue. }
  destruct Ht as (-> & Hl & Hk).
  assert (Hle : D t <= now w).
  { destruct Hh as [_ Hr Hw]. destruct (due_timers_spec (now w) D (q_elems (q_get w)) (rep_keys _ _ Hr) (rep_sorted _ _ Hr) Hw) as [Hin _].
    apply (Hin t). rewrite El, Hdue. by left. }
  simpl in Hf. cbn [usteer_timeout_pass fmap option_fmap option_map head snd]. cbn [for_each].
  unfold gets, mbind, M_bind, deref at 1. rewrite El, key_of_head. cbv zeta.
  rewrite (proj2 (Z.ltb_ge _ _)) by done. change (avl_next t ((k, t) :: l)) with
    (if decide (t = t) then snd <$> head l else avl_next t l). rewrite decide_True by done.
  change (modify (q_mod (usteer_timeout_cancel t)) w) with (Ok (tt, q_mod (usteer_timeout_cancel t) w)).
  cbv beta iota. rewrite fire_eq.
  destruct (run_cb cb t (q_mod (usteer_timeout_cancel t) w)) as [[[] w1]|e] eqn:E1; [|by split].
  assert (E1' : fire t w = Ok (tt, w1)) by (by rewrite fire_eq).
  destruct (fire_due t k l D w w1 Hh El Hle E1') as (Hc & ms & Hms & HG & Hh1 & Hdue1 & Hids & Hhd).
  rewrite Hl in Hdue1. rewrite <- Hc in Hdue1.
  destruct (IH fuel true w1 _ Hh1 Hdue1 ltac:(lia)) as [Hrun Hend].
  split.
  - assert (Hp : usteer_timeout_pass q_get q_mod cb fuel (u32 (now w)) (snd <$> head l) true w1 =
      usteer_timeout_pass q_get q_mod cb fuel (u32 (now w1)) (snd <$> head (q_elems (q_get w1))) true w1).
    { rewrite Hc. destruct ts as [|t2 ts].
      - rewrite Hc in Hdue1. rewrite <- Hc in *.
        rewrite (pass_stops fuel (snd <$> head l) true w1 _ Hh1 Hdue1); [| |lia].
        + symmetry. apply (pass_stops fuel _ true w1 _ Hh1 Hdue1); [|lia].
          intros p Hp. unfold q_ids. destruct (q_elems (q_get w1)) as [|[? ?]]; [done|]. simpl in *. simplify_eq. by left.
        + intros p Hp. apply Hids. unfold q_ids. rewrite El. destruct l as [|[? ?]]; [done|]. simpl in *. simplify_eq.
          right. by left.
      - rewrite Hhd; [done|]. by rewrite Hl. }
    rewrite Hp, Hrun. unfold mbind, M_bind. destruct (for_each fire ts w1) as [[[] w2]|]; [|done].
    by rewrite orb_true_r.
  - intros w' Hw'. destruct (Hend w' Hw') as (Hc' & D' & Hh' & [Hn1 Hn2] & Hno & Hids').
    rewrite Hc in Hn1, Hno. split; [congruence|]. exists D'. split; [done|]. split.
    + split.
      * intros p [->|Hp]%elem_of_cons; [|by apply Hn1]. destruct (decide (t ∈ ts)); [by apply Hn1|].
        rewrite Hn2 by done. rewrite set_deadline_eq. eauto.
      * intros p [Hpt Hp]%not_elem_of_cons. rewrite Hn2 by done. by rewrite set_deadline_ne.
    + split; [done|]. intros p. by rewrite Hids', Hids.
Qed.

(** The whole callback: the timers that are due are fired, once each and in their
    order, and the uloop timer is armed for the next one. *)
Lemma periodic_cb fuel w D :
  let ts := due_timers (u32 (now w)) (q_elems (q_get w)) in
  holds D w -> (S (length ts) < fuel)%nat ->
  usteer_timeout_cb q_get q_mod clock cb fuel w =
    (for_each fire ts ;; modify (q_mod (usteer_timeout_recalc (clock w) (u32 (now w))))) w /\
  forall w', for_each fire ts w = Ok (tt, w') ->
    clock w' = clock w /\ exists D', holds D' w' /\ renewed (now w) ts D D' /\
    (forall p, p ∈ q_ids (q_get w') <-> p ∈ q_ids (q_get w)).
Proof.
  intros ts Hh Hf. destruct fuel as [|fuel]; [lia|].
  destruct (pass_periodic ts (S fuel) false w D Hh eq_refl ltac:(lia)) as [Hrun Hend]. split.
  - cbn [usteer_timeout_cb]. unfold gets at 1 2, mbind at 1 2 3, M_bind at 1 2 3. rewrite !current_time_u32, Hrun.
    unfold mbind, M_bind. destruct (for_each fire ts w) as [[[] w1]|] eqn:E; [|done].
    destruct (Hend w1 eq_refl) as (Hc & D' & Hh' & _ & Hno & _). unfold mret, M_ret. cbv beta iota.
    rewrite orb_false_l. case_bool_decide as Hts; cbv beta iota delta [negb]; [done|].
    destruct fuel as [|fuel]; [lia|]. cbn [usteer_timeout_cb]. unfold gets at 1 2, mbind at 1 2 3, M_bind at 1 2 3.
    rewrite !current_time_u32, Hc. rewrite <- Hc in Hno |- *.
    rewrite (pass_stops _ _ false w1 D' Hh' Hno); [done| |lia].
    intros p Hp. unfold q_ids. destruct (q_elems (q_get w1)) as [|[? ?]]; [done|]. simpl in *. simplify_eq. by left.
  - intros w' Hw'. destruct (Hend w' Hw') as (Hc & D' & Hh' & Hn & _ & Hids). eauto 10.
Qed.

(** Which timers are due. *)
Lemma holds_due D w p :
  holds D w -> p ∈ due_timers (u32 (now w)) (q_elems (q_get w)) <-> p ∈ q_ids (q_get w) /\ D p <= now w.
Proof.
  intros [_ Hr Hw].
  exact (proj1 (due_timers_spec (now w) D (q_elems (q_get w)) (rep_keys _ _ Hr) (rep_sorted _ _ Hr) Hw) p).
Qed.
End periodic.
