(* ===== verification/Blob.v ===== *)
(** * Messages and addresses as the daemon sees them

    usteer talks to hostapd, netifd and its own clients in blobmsg (libubox), a
    typed tree of named values. [bval] is that tree. Building a message is
    building the tree; parsing one is libubox's [blobmsg_parse], a parameter of
    the model ([Blobmsg]) with the laws the handlers rely on ([BlobmsgLaws]).
    The address conversions of the C library's [netinet/ether.h] are parameters
    too ([Ether]). *)
From S2P Require Import Prelude.

(** An Ethernet address: [uint8_t addr[6]]. *)
Definition mac : Type := list Z.

(** [%02x] and [MAC_ADDR_FMT] (utils.h) *)
Definition hex_digit (n : Z) : Ascii.ascii :=
  nth (Z.to_nat n) (list_ascii_of_string "0123456789abcdef") Ascii.zero.
Definition hex2 (b : Z) : string :=
  String (hex_digit (b / 16)) (String (hex_digit (b mod 16)) "").
Definition mac_addr_fmt (a : mac) : string := String.concat ":" (map hex2 a).

Class Ether := {
  ether_aton : string -> option mac;
  ether_ntoa : mac -> string;
}.

(** What usteer relies on: both textual forms it sends are read back. *)
Class EtherLaws `{Ether} : Prop := {
  ether_aton_ntoa a : length a = 6%nat -> Forall (fun b => 0 <= b < 256) a ->
    ether_aton (ether_ntoa a) = Some a;
  ether_aton_fmt a : length a = 6%nat -> Forall (fun b => 0 <= b < 256) a ->
    ether_aton (mac_addr_fmt a) = Some a;
  ether_aton_wf s a : ether_aton s = Some a ->
    length a = 6%nat /\ Forall (fun b => 0 <= b < 256) a;
}.

Inductive bval :=
| VU8 (x : Z)
| VU16 (x : Z)
| VU32 (x : Z)
| VU64 (x : Z)
| VString (s : string)
| VArray (l : list bval)
| VTable (l : list (string * bval)).

Inductive blobmsg_type :=
| BLOBMSG_TYPE_BOOL      (** the same type as INT8 *)
| BLOBMSG_TYPE_INT16
| BLOBMSG_TYPE_INT32
| BLOBMSG_TYPE_INT64
| BLOBMSG_TYPE_STRING
| BLOBMSG_TYPE_ARRAY
| BLOBMSG_TYPE_TABLE.

#[export] Instance blobmsg_type_eq_dec : EqDecision blobmsg_type.
Proof. solve_decision. Defined.

Definition type_of_bval (v : bval) : blobmsg_type :=
  match v with
  | VU8 _ => BLOBMSG_TYPE_BOOL
  | VU16 _ => BLOBMSG_TYPE_INT16
  | VU32 _ => BLOBMSG_TYPE_INT32
  | VU64 _ => BLOBMSG_TYPE_INT64
  | VString _ => BLOBMSG_TYPE_STRING
  | VArray _ => BLOBMSG_TYPE_ARRAY
  | VTable _ => BLOBMSG_TYPE_TABLE
  end.

Notation table := (list (string * bval)) (only parsing).
Notation policy := (list (string * blobmsg_type)) (only parsing).

Class Blobmsg := {
  blobmsg_parse : policy -> table -> list (option bval);
  blobmsg_parse_array : list blobmsg_type -> list bval -> list (option bval);
}.

Class BlobmsgLaws `{Blobmsg} : Prop := {
  (** an attribute found has the name and the type the policy asks for *)
  parse_sound pol msg i n ty v :
    pol !! i = Some (n, ty) -> blobmsg_parse pol msg !! i = Some (Some v) ->
    (n, v) ∈ msg /\ type_of_bval v = ty;
  (** an attribute that is there once is found *)
  parse_complete pol msg i n ty v :
    pol !! i = Some (n, ty) -> NoDup msg.*1 -> (n, v) ∈ msg -> type_of_bval v = ty ->
    blobmsg_parse pol msg !! i = Some (Some v);
  parse_array_spec tys l i ty :
    tys !! i = Some ty ->
    blobmsg_parse_array tys l !! i =
      Some (v ← l !! i; if decide (type_of_bval v = ty) then Some v else None);
}.

(** [tb[i]] of a parsed message. *)
Definition attr (tb : list (option bval)) (i : nat) : option bval := mjoin (tb !! i).

(** The accessors of an attribute; a null one is dereferenced. *)
Section accessors.
Context {W : Type}.
Definition blobmsg_get_u8 (v : option bval) : M W Z :=
  deref NullDeref (fun _ => match v with Some (VU8 x) => Some x | _ => None end).
Definition blobmsg_get_u16 (v : option bval) : M W Z :=
  deref NullDeref (fun _ => match v with Some (VU16 x) => Some x | _ => None end).
Definition blobmsg_get_u32 (v : option bval) : M W Z :=
  deref NullDeref (fun _ => match v with Some (VU32 x) => Some x | _ => None end).
Definition blobmsg_get_u64 (v : option bval) : M W Z :=
  deref NullDeref (fun _ => match v with Some (VU64 x) => Some x | _ => None end).
Definition blobmsg_get_string (v : option bval) : M W string :=
  deref NullDeref (fun _ => match v with Some (VString x) => Some x | _ => None end).
End accessors.

(** The messages between instances are libubox blobs: attributes numbered by an
    identifier. [wire] is the payload of one. *)
Inductive wire :=
| WInt8 (x : Z)
| WInt32 (x : Z)
| WString (s : string)
| WBinary (b : list Z)
| WNested (l : list (Z * wire))
| WField (l : list bval).      (** a nested blobmsg array *)

(** ** A parser that satisfies the laws *)

Definition find_attr (n : string) (ty : blobmsg_type) (msg : table) : option bval :=
  snd <$> (snd <$> list_find (fun x => x.1 = n /\ type_of_bval x.2 = ty) msg).

Definition seq_blobmsg : Blobmsg := {|
  blobmsg_parse pol msg := (fun p => find_attr p.1 p.2 msg) <$> pol;
  blobmsg_parse_array tys l :=
    imap (fun i ty => v ← l !! i; if decide (type_of_bval v = ty) then Some v else None) tys;
|}.

Lemma find_attr_sound n ty msg v :
  find_attr n ty msg = Some v -> (n, v) ∈ msg /\ type_of_bval v = ty.
Proof.
  unfold find_attr. destruct (list_find _ _) as [[i [n' v']]|] eqn:E; [|done].
  apply list_find_Some in E as (Hl & [? ?] & _). simpl in *. intros. simplify_eq.
  split; [|done]. by eapply list_elem_of_lookup_2.
Qed.

Lemma seq_blobmsg_laws : @BlobmsgLaws seq_blobmsg.
Proof.
  split; simpl.
  - intros pol msg i n ty v Hp. rewrite list_lookup_fmap, Hp. simpl.
    intros Hv. apply find_attr_sound. congruence.
  - intros pol msg i n ty v Hp Hnd Hin Hty. rewrite list_lookup_fmap, Hp. simpl. f_equal.
    destruct (find_attr n ty msg) as [v'|] eqn:E.
    + apply find_attr_sound in E as [Hin' _]. f_equal.
      apply list_elem_of_lookup in Hin as [j Hj], Hin' as [j' Hj'].
      assert (j = j') as <-.
      { eapply (NoDup_lookup msg.*1 j j' n); [done|..]; rewrite list_lookup_fmap;
          [by rewrite Hj|by rewrite Hj']. }
      congruence.
    + exfalso. unfold find_attr in E. destruct (list_find _ _) as [[]|] eqn:E'; [done|].
      apply list_find_None in E'. rewrite list.Forall_forall in E'.
      by apply (E' _ Hin).
  - intros tys l i ty Ht. by rewrite list_lookup_imap, Ht.
Qed.
