(* ===== verification/Types.v ===== *)
(** * Data of the daemon (usteer.h, node.h, hearing_map.h; defaults of main.c)

    The structs of the headers as records. A pointer to a [struct sta_info] is a
    [ptr], dereferenced in a heap, so that sharing and dangling pointers are
    visible; a node is referred to by [node_id] and a station by its address,
    the keys under which their trees hold them at most once. *)
From Stdlib Require Import Floats.SpecFloat.
From S2P Require Import Prelude Blob Timeout.

Definition NO_SIGNAL : Z := 255.

(** [DIV_ROUND_UP] on [uint32_t]; the caller checks the divisor. *)
Definition DIV_ROUND_UP (n d : Z) : Z := u32 (u32 (n + d) - 1) / d.

(** [enum usteer_event_type], in the order of the source. *)
Inductive usteer_event_type :=
| EVENT_TYPE_PROBE
| EVENT_TYPE_ASSOC
| EVENT_TYPE_AUTH
| EVENT_TYPE_BEACON
| __EVENT_TYPE_MAX.
#[export] Instance usteer_event_type_eq_dec : EqDecision usteer_event_type.
Proof. solve_decision. Defined.

Definition event_idx (t : usteer_event_type) : nat :=
  match t with
  | EVENT_TYPE_PROBE => 0
  | EVENT_TYPE_ASSOC => 1
  | EVENT_TYPE_AUTH => 2
  | EVENT_TYPE_BEACON => 3
  | __EVENT_TYPE_MAX => 4
  end.

(** [event_types] of main.c, indexed by [enum usteer_event_type] *)
Definition event_types : list string := ["probe"; "assoc"; "auth"; "beacon-report"]%string.

Definition MSG_FATAL : Z := 0.

Definition ptr : Type := positive.

(** A [struct usteer_node]: local nodes are known by name, remote ones by the
    identifier of the instance that announced them and their name there. *)
Inductive node_id :=
| NLocal (name : string)
| NRemote (id : Z) (name : string).
#[export] Instance node_id_eq_dec : EqDecision node_id.
Proof. solve_decision. Defined.
#[export] Instance node_id_countable : Countable node_id.
Proof.
  refine (inj_countable'
    (fun n => match n with NLocal s => inl s | NRemote i s => inr (i, s) end)
    (fun x => match x with inl s => NLocal s | inr (i, s) => NRemote i s end) _).
  by intros [].
Defined.

(** [struct usteer_config]; every number is a [uint32_t] but the [int32_t] values
    [min_snr], [min_connect_snr], [roam_scan_snr] and [roam_trigger_snr].
    [node_up_script] is never read from the struct. *)
Record usteer_config := mkConfig {
  syslog : bool;
  remote_disabled : bool;
  debug_level : Z;
  sta_block_timeout : Z;
  local_sta_timeout : Z;
  local_sta_update : Z;
  max_retry_band : Z;
  seen_policy_timeout : Z;
  band_steering_threshold : Z;
  load_balancing_threshold : Z;
  vendor_update_interval : Z;
  remote_update_interval : Z;
  remote_node_timeout : Z;
  min_snr : Z;
  min_connect_snr : Z;
  signal_diff_threshold : Z;
  roam_scan_snr : Z;
  roam_scan_tries : Z;
  roam_scan_interval : Z;
  roam_trigger_snr : Z;
  roam_trigger_interval : Z;
  roam_kick_delay : Z;
  initial_connect_delay : Z;
  load_kick_enabled : bool;
  load_kick_threshold : Z;
  load_kick_delay : Z;
  load_kick_min_clients : Z;
  load_kick_reason_code : Z;
  kick_client_active_sec : Z;
  kick_client_active_bits : Z;
  beacon_report_invalide_timeout : Z;
  beacon_request_frequency : Z;
  beacon_request_signal_modifier : Z;
}.
#[export] Instance settable_usteer_config : Settable usteer_config :=
  fun r => mkConfig (syslog r) (remote_disabled r) (debug_level r) (sta_block_timeout r)
    (local_sta_timeout r) (local_sta_update r) (max_retry_band r) (seen_policy_timeout
    r) (band_steering_threshold r) (load_balancing_threshold r) (vendor_update_interval
    r) (remote_update_interval r) (remote_node_timeout r) (min_snr r) (min_connect_snr
    r) (signal_diff_threshold r) (roam_scan_snr r) (roam_scan_tries r)
    (roam_scan_interval r) (roam_trigger_snr r) (roam_trigger_interval r)
    (roam_kick_delay r) (initial_connect_delay r) (load_kick_enabled r)
    (load_kick_threshold r) (load_kick_delay r) (load_kick_min_clients r)
    (load_kick_reason_code r) (kick_client_active_sec r) (kick_client_active_bits r)
    (beacon_report_invalide_timeout r) (beacon_request_frequency r)
    (beacon_request_signal_modifier r).

(** [usteer_init_defaults] (main.c) *)
Definition usteer_init_defaults : usteer_config := {|
  syslog := false;
  remote_disabled := false;
  debug_level := MSG_FATAL;
  sta_block_timeout := 30 * 1000;
  local_sta_timeout := 120 * 1000;
  local_sta_update := 1 * 1000;
  max_retry_band := 5;
  seen_policy_timeout := 30 * 1000;
  band_steering_threshold := 5;
  load_balancing_threshold := 5;
  vendor_update_interval := 60 * 1000;
  remote_update_interval := 1000;
  remote_node_timeout := 120 * 1000;
  min_snr := 0;
  min_connect_snr := 0;
  signal_diff_threshold := 0;
  roam_scan_snr := 0;
  roam_scan_tries := 3;
  roam_scan_interval := 10 * 1000;
  roam_trigger_snr := 0;
  roam_trigger_interval := 60 * 1000;
  roam_kick_delay := 100;
  initial_connect_delay := 0;
  load_kick_enabled := false;
  load_kick_threshold := 75;
  load_kick_delay := 10 * 1000;
  load_kick_min_clients := 10;
  load_kick_reason_code := 5;
  kick_client_active_sec := 30;
  kick_client_active_bits := 50000;
  beacon_report_invalide_timeout := 200;
  beacon_request_frequency := 30 * 1000;
  beacon_request_signal_modifier := 20 * 1000;
|}.

(** [struct sta_info_stats]: four [uint32_t] *)
Record sta_info_stats := mkStats {
  requests : Z;
  blocked_cur : Z;
  blocked_total : Z;
  blocked_last_time : Z;
}.
#[export] Instance settable_sta_info_stats : Settable sta_info_stats :=
  fun r => mkStats (requests r) (blocked_cur r) (blocked_total r) (blocked_last_time r).

(** [enum roam_trigger_state] *)
Inductive roam_trigger_state :=
| ROAM_TRIGGER_IDLE
| ROAM_TRIGGER_SCAN
| ROAM_TRIGGER_SCAN_DONE
| ROAM_TRIGGER_WAIT_KICK
| ROAM_TRIGGER_NOTIFY_KICK
| ROAM_TRIGGER_KICK.
#[export] Instance roam_trigger_state_eq_dec : EqDecision roam_trigger_state.
Proof. solve_decision. Defined.

(** [struct sta_active_bytes]: [uint64_t data[2][2]] and the time of the sample *)
Record sta_active_bytes := mkActiveBytes {
  data_0_0 : Z;  (** [data[0][0]]: received, previous sample *)
  data_0_1 : Z;  (** [data[0][1]]: sent, previous sample *)
  data_1_0 : Z;
  data_1_1 : Z;
  last_time : Z;
}.
#[export] Instance settable_sta_active_bytes : Settable sta_active_bytes :=
  fun r => mkActiveBytes (data_0_0 r) (data_0_1 r) (data_1_0 r) (data_1_1 r) (last_time
    r).

(** [struct beacon_request] *)
Record beacon_request := mkBeaconRequest {
  br_band : Z;  (** the frequency to scan next *)
  failed_requests : Z;  (** [uint8_t] *)
  lastReportTime : Z;
  lastRequestTime : Z;
}.
#[export] Instance settable_beacon_request : Settable beacon_request :=
  fun r => mkBeaconRequest (br_band r) (failed_requests r) (lastReportTime r)
    (lastRequestTime r).

(** [struct beacon_report]; the measurements are [uint16_t] *)
Record beacon_report := mkBeaconReport {
  br_address : ptr;  (** the [sta_info] it belongs to *)
  br_bssid : mac;
  br_rcpi : Z;
  br_rsni : Z;
  br_op_class : Z;
  br_channel : Z;
  br_usteer_time : Z;
}.
#[export] Instance settable_beacon_report : Settable beacon_report :=
  fun r => mkBeaconReport (br_address r) (br_bssid r) (br_rcpi r) (br_rsni r)
    (br_op_class r) (br_channel r) (br_usteer_time r).

(** [struct sta_info]; [list] and [node_list] are the places of its pointer in
    [nodes] of its station and [sta_info] of its node, and [timeout] is its entry
    in the timer queue. *)
Record sta_info := mkStaInfo {
  si_beacon_reports : list beacon_report;  (** [beacon_reports], head first *)
  si_node : node_id;  (** [node] *)
  si_sta : mac;  (** [sta] *)
  si_stats : list sta_info_stats;  (** [stats[__EVENT_TYPE_MAX]] *)
  si_created : Z;
  si_seen : Z;
  si_signal : Z;  (** [int] *)
  si_roam_state : roam_trigger_state;
  si_roam_tries : Z;  (** [uint8_t] *)
  si_roam_event : Z;
  si_roam_kick : Z;
  si_roam_scan_done : Z;
  si_kick_count : Z;
  si_active_bytes : sta_active_bytes;
  si_beacon_request : beacon_request;
  si_scan_band : Z;  (** one bit *)
  si_connected : Z;  (** two bits: 1 associated, 2 being re-checked *)
}.
#[export] Instance settable_sta_info : Settable sta_info :=
  fun r => mkStaInfo (si_beacon_reports r) (si_node r) (si_sta r) (si_stats r)
    (si_created r) (si_seen r) (si_signal r) (si_roam_state r) (si_roam_tries r)
    (si_roam_event r) (si_roam_kick r) (si_roam_scan_done r) (si_kick_count r)
    (si_active_bytes r) (si_beacon_request r) (si_scan_band r) (si_connected r).

(** [struct sta]; its key [addr] is the key of the [stations] tree *)
Record sta := mkSta {
  sta_nodes : list ptr;  (** [nodes]: its [sta_info]s, head first *)
  seen_2ghz : Z;
  seen_5ghz : Z;
}.
#[export] Instance settable_sta : Settable sta :=
  fun r => mkSta (sta_nodes r) (seen_2ghz r) (seen_5ghz r).

(** [struct usteer_node]; its name is the key of its tree, and its [type] tells
    which tree that is. The numbers are [int]. *)
Record usteer_node := mkNode {
  node_sta_info : list ptr;  (** [sta_info], head first *)
  rrm_nr : option (list bval);
  script_data : option wire;  (** the payload of the attribute it came in *)
  ssid : string;
  bssid : mac;
  freq : Z;
  noise : Z;
  n_assoc : Z;
  max_assoc : Z;
  load : Z;
}.
#[export] Instance settable_usteer_node : Settable usteer_node :=
  fun r => mkNode (node_sta_info r) (rrm_nr r) (script_data r) (ssid r) (bssid r) (freq
    r) (noise r) (n_assoc r) (max_assoc r) (load r).

(** [struct usteer_local_node] without the embedded [node], [ubus] and [uloop]
    objects; [iface] is the node's name after [hostapd.]. *)
Record usteer_local_node := mkLocalNode {
  ifindex : Z;
  wiphy : Z;
  req_state : Z;
  obj_id : Z;
  load_ewma : spec_float;  (** [float] *)
  load_thr_count : Z;
  ln_time : Z;
  ln_time_busy : Z;
  nl80211_present : bool;
  netifd_req_pending : bool;
  netifd_status_complete : bool;
  update_timer : option Z;  (** [update], when armed: the millisecond it is due *)
  req_timer : option Z;  (** [req_timer], likewise *)
  survey_timer : option Z;  (** [nl80211.update], likewise *)
}.
#[export] Instance settable_usteer_local_node : Settable usteer_local_node :=
  fun r => mkLocalNode (ifindex r) (wiphy r) (req_state r) (obj_id r) (load_ewma r)
    (load_thr_count r) (ln_time r) (ln_time_busy r) (nl80211_present r)
    (netifd_req_pending r) (netifd_status_complete r) (update_timer r) (req_timer r)
    (survey_timer r).

(** [struct usteer_remote_node] without the embedded [node]; [avl.key] and [name]
    are its identity. *)
Record usteer_remote_node := mkRemoteNode {
  rn_name : string;  (** [node.avl.key] *)
  rn_iface : string;  (** [iface], by name *)
  rn_check : Z;  (** [int] *)
}.
#[export] Instance settable_usteer_remote_node : Settable usteer_remote_node :=
  fun r => mkRemoteNode (rn_name r) (rn_iface r) (rn_check r).

(** What the daemon asks of the outside world. *)
Inductive action :=
| UbusInvoke (obj : Z) (method : string) (args : list (string * bval))
    (** [ubus_invoke] and [ubus_invoke_async] *)
| UbusSubscribe (obj : Z)
    (** [ubus_subscribe] to the events of a hostapd object *)
| SendMsg (ifindex : Z) (data : list (Z * wire))
    (** [sendmsg] to the peers on an interface *)
| System (command : string)
    (** [system] *).

(** The state of the daemon that the modelled components share. *)
Record world (T : Type) := mkWorld {
  config : usteer_config;
  current_time : Z;  (** [uint64_t] *)
  clock : timespec;  (** what [clock_gettime] returns *)
  stations : gmap mac sta;
  si_heap : gmap ptr sta_info;  (** the live [struct sta_info]s *)
  si_brk : ptr;  (** no pointer from here on is in use *)
  node_heap : gmap node_id usteer_node;  (** the live nodes of both kinds *)
  ln_heap : gmap string usteer_local_node;
  rn_heap : gmap (Z * string) usteer_remote_node;
  local_nodes : list string;  (** the tree, in order *)
  remote_nodes : list (Z * string);  (** the tree, in order *)
  tq : usteer_timeout_queue T;  (** [sta_info] timers *)
  interfaces : list (string * Z);  (** the LAN interfaces: name and [ifindex] *)
  local_id : Z;  (** [uint32_t] *)
  msg_seq : Z;  (** [uint32_t] *)
  config_ssid_list : option (list string);  (** [None] for the null pointer *)
  node_up_script : option string;  (** likewise *)
  remote_timer : option Z;  (** when armed: the millisecond it is due *)
  reload_timer : option Z;  (** likewise *)
  vendor_timer : option Z;  (** likewise *)
  out : list action;  (** what was sent, oldest first *)
}.
Arguments mkWorld {T}.
Arguments config {T}. Arguments current_time {T}. Arguments clock {T}.
Arguments stations {T}. Arguments si_heap {T}. Arguments si_brk {T}.
Arguments node_heap {T}. Arguments ln_heap {T}. Arguments rn_heap {T}.
Arguments local_nodes {T}. Arguments remote_nodes {T}. Arguments tq {T}.
Arguments interfaces {T}. Arguments local_id {T}. Arguments msg_seq {T}.
Arguments config_ssid_list {T}. Arguments node_up_script {T}. Arguments remote_timer {T}.
Arguments reload_timer {T}. Arguments vendor_timer {T}. Arguments out {T}.
#[export] Instance settable_world {T} : Settable (world T) :=
  fun r => mkWorld (config r) (current_time r) (clock r) (stations r) (si_heap r)
    (si_brk r) (node_heap r) (ln_heap r) (rn_heap r) (local_nodes r) (remote_nodes r)
    (tq r) (interfaces r) (local_id r) (msg_seq r) (config_ssid_list r)
    (node_up_script r) (remote_timer r) (reload_timer r) (vendor_timer r) (out r).
