(* ===== verification/Table.v ===== *)
(** * The station table, abstractly

    Who knows whom: the [sta_info] objects, each the meeting of one station and
    one node, the list of them every station and every node keeps, and the ones
    with an armed timer. [table] is what the pointer structure of the daemon
    stands for, [table_wf] says that its four views agree, and the operations
    are the abstract specification that sta.c refines. *)
From S2P Require Import Prelude Blob Timeout Types.

Record table := mkTable {
  t_si : gmap ptr (mac * node_id);
  t_sta : gmap mac (list ptr);
  t_node : gmap node_id (list ptr);
  t_armed : gset ptr;
  t_brk : ptr;
}.
#[export] Instance settable_table : Settable table :=
  fun t => mkTable (t_si t) (t_sta t) (t_node t) (t_armed t) (t_brk t).

Record table_wf (t : table) : Prop := {
  tw_sta p a n : t_si t !! p = Some (a, n) -> exists l, t_sta t !! a = Some l /\ p ∈ l;
  tw_node p a n : t_si t !! p = Some (a, n) -> exists l, t_node t !! n = Some l /\ p ∈ l;
  tw_sta_si a l p : t_sta t !! a = Some l -> p ∈ l -> exists n, t_si t !! p = Some (a, n);
  tw_node_si n l p : t_node t !! n = Some l -> p ∈ l -> exists a, t_si t !! p = Some (a, n);
  tw_sta_nodup a l : t_sta t !! a = Some l -> NoDup l;
  tw_node_nodup n l : t_node t !! n = Some l -> NoDup l;
  (** at most one [sta_info] for a station at a node *)
  tw_uniq p q k : t_si t !! p = Some k -> t_si t !! q = Some k -> p = q;
  (** an armed timer belongs to a live object *)
  tw_armed p : p ∈ t_armed t -> is_Some (t_si t !! p);
  tw_brk p : is_Some (t_si t !! p) -> (p < t_brk t)%positive;
}.

(** Between two events no station is kept without a [sta_info]. *)
Definition no_empty_sta (t : table) : Prop := forall a, t_sta t !! a ≠ Some [].

(** ** Operations *)

Definition table_sta_add (a : mac) (t : table) : table :=
  match t_sta t !! a with
  | Some _ => t
  | None => t <| t_sta ::= <[a := []]> |>
  end.

Definition table_si_add (a : mac) (n : node_id) (t : table) : table :=
  let p := t_brk t in
  t <| t_si ::= <[p := (a, n)]> |>
    <| t_sta ::= alter (cons p) a |>
    <| t_node ::= alter (cons p) n |>
    <| t_brk ::= Pos.succ |>.

Definition drop_ptr (p : ptr) (l : list ptr) : option (list ptr) :=
  match list_del p l with
  | [] => None
  | l' => Some l'
  end.

(** The object goes from every view; a station without one goes with it. *)
Definition table_si_del (p : ptr) (t : table) : table :=
  match t_si t !! p with
  | None => t
  | Some (a, n) =>
      t <| t_si ::= delete p |>
        <| t_sta ::= partial_alter (fun o => o ≫= drop_ptr p) a |>
        <| t_node ::= alter (list_del p) n |>
        <| t_armed := t_armed t ∖ {[p]} |>
  end.

Definition table_arm (p : ptr) (t : table) : table := t <| t_armed := {[p]} ∪ t_armed t |>.
Definition table_disarm (p : ptr) (t : table) : table := t <| t_armed := t_armed t ∖ {[p]} |>.

(** The [sta_info] of a station at a node. *)
Definition table_find (a : mac) (n : node_id) (t : table) : option ptr :=
  l ← t_sta t !! a;
  snd <$> list_find (fun p => t_si t !! p = Some (a, n)) l.

(** ** They keep the views in agreement *)
Section table_lemmas.
Implicit Types (t : table) (p q : ptr) (a : mac) (n : node_id).

Lemma table_find_spec a n t p :
  table_wf t -> table_find a n t = Some p <-> t_si t !! p = Some (a, n).
Proof.
  intros Hwf. unfold table_find. split.
  - destruct (t_sta t !! a) as [l|]; [|done]. simpl.
    destruct (list_find _ l) as [[i q]|] eqn:E; [|done]. simpl. intros. simplify_eq.
    by apply list_find_Some in E as (_ & ? & _).
  - intros Hp. destruct (tw_sta _ Hwf p a n Hp) as (l & -> & Hin). simpl.
    destruct (list_find_elem_of (fun p => t_si t !! p = Some (a, n)) l p Hin Hp) as [[i q] Hq].
    rewrite Hq. simpl. apply list_find_Some in Hq as (_ & Hq & _).
    f_equal. by eapply tw_uniq.
Qed.

Lemma table_find_None a n t :
  table_wf t -> table_find a n t = None -> forall p, t_si t !! p ≠ Some (a, n).
Proof. intros Hwf HN p Hp%(table_find_spec a n t p Hwf). congruence. Qed.

Lemma table_sta_add_wf a t : table_wf t -> table_wf (table_sta_add a t).
Proof.
  intros Hwf. unfold table_sta_add. destruct (t_sta t !! a) eqn:Ea; [done|].
  destruct Hwf. split; simpl; eauto.
  - intros p b n Hp. destruct (tw_sta0 _ _ _ Hp) as (l & ? & ?).
    exists l. by rewrite lookup_insert_ne by congruence.
  - intros b l p. rewrite lookup_insert. case_decide; [|eauto].
    intros. simplify_eq. set_solver.
  - intros b l. rewrite lookup_insert. case_decide; [|eauto].
    intros. simplify_eq. constructor.
Qed.

Lemma table_si_add_wf a n t :
  table_wf t -> is_Some (t_sta t !! a) -> is_Some (t_node t !! n) ->
  (forall p, t_si t !! p ≠ Some (a, n)) ->
  table_wf (table_si_add a n t).
Proof.
  intros Hwf [la Ha] [ln Hn] Hnew.
  assert (Hb : t_si t !! t_brk t = None).
  { destruct (t_si t !! t_brk t) eqn:E; [|done].
    assert (t_brk t < t_brk t)%positive by (apply (tw_brk _ Hwf); eauto). lia. }
  assert (Hfresh : forall m l, (t_sta t !! m = Some l -> t_brk t ∉ l)).
  { intros m l Hm Hin. destruct (tw_sta_si _ Hwf _ _ _ Hm Hin). congruence. }
  assert (Hfresh' : forall m l, (t_node t !! m = Some l -> t_brk t ∉ l)).
  { intros m l Hm Hin. destruct (tw_node_si _ Hwf _ _ _ Hm Hin). congruence. }
  unfold table_si_add. destruct Hwf. split; simpl.
  - intros p b m. rewrite lookup_insert, lookup_alter. case_decide; intros Hp.
    + simplify_eq. rewrite decide_True, Ha by done. simpl. eexists; split; [done|set_solver].
    + destruct (tw_sta0 _ _ _ Hp) as (l & Hl & ?). case_decide; subst; rewrite Hl; simpl;
        eexists; (split; [done|set_solver]).
  - intros p b m. rewrite lookup_insert, lookup_alter. case_decide; intros Hp.
    + simplify_eq. rewrite decide_True, Hn by done. simpl. eexists; split; [done|set_solver].
    + destruct (tw_node0 _ _ _ Hp) as (l & Hl & ?). case_decide; subst; rewrite Hl; simpl;
        eexists; (split; [done|set_solver]).
  - intros b l p. rewrite lookup_alter. case_decide; subst.
    + rewrite Ha. simpl. intros ? Hin. simplify_eq. apply elem_of_cons in Hin as [->|Hin].
      * exists n. by rewrite lookup_insert_eq.
      * destruct (tw_sta_si0 _ _ _ Ha Hin) as [m Hm]. exists m.
        by rewrite lookup_insert_ne by congruence.
    + intros Hl Hin. destruct (tw_sta_si0 _ _ _ Hl Hin) as [m Hm]. exists m.
      by rewrite lookup_insert_ne by congruence.
  - intros m l p. rewrite lookup_alter. case_decide; subst.
    + rewrite Hn. simpl. intros ? Hin. simplify_eq. apply elem_of_cons in Hin as [->|Hin].
      * exists a. by rewrite lookup_insert_eq.
      * destruct (tw_node_si0 _ _ _ Hn Hin) as [b Hm]. exists b.
        by rewrite lookup_insert_ne by congruence.
    + intros Hl Hin. destruct (tw_node_si0 _ _ _ Hl Hin) as [b Hm]. exists b.
      by rewrite lookup_insert_ne by congruence.
  - intros b l. rewrite lookup_alter. case_decide; subst; [|eauto].
    rewrite Ha. simpl. intros. simplify_eq. apply list.NoDup_cons. eauto.
  - intros m l. rewrite lookup_alter. case_decide; subst; [|eauto].
    rewrite Hn. simpl. intros. simplify_eq. apply list.NoDup_cons. eauto.
  - intros p q k. rewrite !lookup_insert. repeat case_decide; intros; simplify_eq; try done.
    + by edestruct Hnew.
    + by edestruct Hnew.
    + eauto.
  - intros p Hp. rewrite lookup_insert. case_decide; eauto.
  - intros p. rewrite lookup_insert. case_decide; intros Hp; [lia|].
    specialize (tw_brk0 p Hp). lia.
Qed.

Lemma drop_ptr_spec p (l l' : list ptr) :
  drop_ptr p l = Some l' <-> l' = list_del p l /\ l' ≠ [].
Proof. unfold drop_ptr. destruct (list_del p l); naive_solver. Qed.

(** A view from which a pointer is dropped. *)
Lemma del_sta_lookup p a n t b :
  t_si t !! p = Some (a, n) ->
  t_sta (table_si_del p t) !! b = if decide (a = b) then t_sta t !! a ≫= drop_ptr p else t_sta t !! b.
Proof.
  intros Hp. unfold table_si_del. rewrite Hp. simpl. by rewrite lookup_partial_alter.
Qed.
Lemma del_node_lookup p a n t m :
  t_si t !! p = Some (a, n) ->
  t_node (table_si_del p t) !! m =
    if decide (n = m) then list_del p <$> t_node t !! n else t_node t !! m.
Proof. intros Hp. unfold table_si_del. rewrite Hp. simpl. rewrite lookup_alter.
  by repeat case_decide; subst. Qed.
Lemma del_si_lookup p t q :
  t_si (table_si_del p t) !! q = if decide (p = q) then None else t_si t !! q.
Proof.
  unfold table_si_del. destruct (t_si t !! p) as [[a n]|] eqn:E; simpl.
  - apply lookup_delete.
  - case_decide; by subst.
Qed.
Lemma del_armed p t : is_Some (t_si t !! p) -> t_armed (table_si_del p t) = t_armed t ∖ {[p]}.
Proof. intros [[a n] E]. unfold table_si_del. by rewrite E. Qed.
Lemma del_brk p t : t_brk (table_si_del p t) = t_brk t.
Proof. unfold table_si_del. by destruct (t_si t !! p) as [[a n]|]. Qed.

Lemma table_si_del_wf p t : table_wf t -> table_wf (table_si_del p t).
Proof.
  intros Hwf. destruct (t_si t !! p) as [[a n]|] eqn:Ep.
  2: { unfold table_si_del. by rewrite Ep. }
  split.
  - intros q b m. rewrite del_si_lookup. case_decide as Hpq; [done|]. intros Hq.
    destruct (tw_sta _ Hwf _ _ _ Hq) as (l & Hl & Hin).
    rewrite (del_sta_lookup p a n) by done. case_decide; [subst|by eauto].
    rewrite Hl. simpl. assert (q ∈ list_del p l) by (by apply elem_of_list_del).
    exists (list_del p l). split; [|done]. apply drop_ptr_spec.
    split; [done|]. intros E. rewrite E in *. set_solver.
  - intros q b m. rewrite del_si_lookup. case_decide as Hpq; [done|]. intros Hq.
    destruct (tw_node _ Hwf _ _ _ Hq) as (l & Hl & Hin).
    rewrite (del_node_lookup p a n) by done. case_decide; [subst|by eauto].
    rewrite Hl. simpl. eexists. split; [done|]. by apply elem_of_list_del.
  - intros b l q. rewrite (del_sta_lookup p a n), del_si_lookup by done.
    case_decide; [subst|].
    + destruct (t_sta t !! b) as [l0|] eqn:El; [|done]. simpl.
      intros [-> _]%drop_ptr_spec [Hin ?]%elem_of_list_del. rewrite decide_False by done.
      by eapply tw_sta_si.
    + intros Hl Hin. destruct (tw_sta_si _ Hwf _ _ _ Hl Hin) as [m Hm].
      rewrite decide_False by congruence. eauto.
  - intros m l q. rewrite (del_node_lookup p a n), del_si_lookup by done.
    case_decide; [subst|].
    + destruct (t_node t !! m) as [l0|] eqn:El; [|done]. simpl. intros ?. simplify_eq.
      intros [Hin ?]%elem_of_list_del. rewrite decide_False by done. by eapply tw_node_si.
    + intros Hl Hin. destruct (tw_node_si _ Hwf _ _ _ Hl Hin) as [b Hb].
      rewrite decide_False by congruence. eauto.
  - intros b l. rewrite (del_sta_lookup p a n) by done. case_decide; [subst|by apply tw_sta_nodup].
    destruct (t_sta t !! b) as [l0|] eqn:El; [|done]. simpl. intros [-> _]%drop_ptr_spec.
    apply NoDup_list_del. by eapply tw_sta_nodup.
  - intros m l. rewrite (del_node_lookup p a n) by done. case_decide; [subst|by apply tw_node_nodup].
    destruct (t_node t !! m) as [l0|] eqn:El; [|done]. simpl. intros. simplify_eq.
    apply NoDup_list_del. by eapply tw_node_nodup.
  - intros q r k. rewrite !del_si_lookup. repeat case_decide; try done. by apply tw_uniq.
  - intros q. rewrite del_armed, del_si_lookup by eauto. intros [Hq Hne]%elem_of_difference.
    rewrite decide_False by set_solver. by apply tw_armed.
  - intros q. rewrite del_si_lookup, del_brk. case_decide; [by intros []|]. by apply tw_brk.
Qed.

Lemma table_si_del_no_empty p t : no_empty_sta t -> no_empty_sta (table_si_del p t).
Proof.
  intros Hne b. destruct (t_si t !! p) as [[a n]|] eqn:Ep.
  2: { unfold table_si_del. rewrite Ep. apply Hne. }
  rewrite (del_sta_lookup p a n) by done. case_decide; [|apply Hne].
  destruct (t_sta t !! a) as [l|]; [|done]. simpl. intros [_ ?]%drop_ptr_spec. done.
Qed.

Lemma table_arm_wf p t : table_wf t -> is_Some (t_si t !! p) -> table_wf (table_arm p t).
Proof.
  intros [] Hp. split; simpl; eauto.
  intros q [->%elem_of_singleton|?]%elem_of_union; eauto.
Qed.
Lemma table_disarm_wf p t : table_wf t -> table_wf (table_disarm p t).
Proof. intros []. split; simpl; eauto. intros q [? _]%elem_of_difference. eauto. Qed.

(** Adding a [sta_info] settles the station that was created for it. *)
Lemma table_add_no_empty a n t :
  (forall b, b ≠ a -> t_sta t !! b ≠ Some []) -> no_empty_sta (table_si_add a n t).
Proof.
  intros Hne b. simpl. rewrite lookup_alter. case_decide; subst.
  - by destruct (t_sta t !! _).
  - by apply Hne.
Qed.
End table_lemmas.
#[export] Hint Resolve table_sta_add_wf table_si_add_wf table_si_del_wf
  table_arm_wf table_disarm_wf : core.
