(* ===== verification/World.v ===== *)
(** * The state of the daemon and access to it

    The statements through which the components read and write the shared
    structs, what a [world] stands for as a [table], and the invariant of the
    pointer structure. *)
From S2P Require Import Prelude Blob Timeout Types Table.

Section world.
Context {T : Type} `{!AvlTree Z ptr T}.
Implicit Types (w : world T) (p : ptr) (n : node_id) (a : mac).

(** ** Dereferences and assignments *)

Definition get_si (p : ptr) : M (world T) sta_info := deref DanglingSi (fun w => si_heap w !! p).
Definition get_sta (a : mac) : M (world T) sta := deref DanglingSta (fun w => stations w !! a).
Definition get_node (n : node_id) : M (world T) usteer_node :=
  deref DanglingNode (fun w => node_heap w !! n).
Definition get_rn (k : Z * string) : M (world T) usteer_remote_node :=
  deref DanglingNode (fun w => rn_heap w !! k).

(** [container_of(node, struct usteer_local_node, node)] *)
Definition local_name (n : node_id) : M (world T) string :=
  deref WrongContainer (fun _ => match n with NLocal s => Some s | NRemote _ _ => None end).
Definition get_ln (s : string) : M (world T) usteer_local_node :=
  deref DanglingNode (fun w => ln_heap w !! s).

Definition upd_si (p : ptr) (f : sta_info -> sta_info) : M (world T) unit :=
  si ← get_si p; modify (fun w => w <| si_heap ::= <[p := f si]> |>).
Definition upd_sta (a : mac) (f : sta -> sta) : M (world T) unit :=
  s ← get_sta a; modify (fun w => w <| stations ::= <[a := f s]> |>).
Definition upd_node (n : node_id) (f : usteer_node -> usteer_node) : M (world T) unit :=
  x ← get_node n; modify (fun w => w <| node_heap ::= <[n := f x]> |>).
Definition upd_ln (s : string) (f : usteer_local_node -> usteer_local_node) : M (world T) unit :=
  x ← get_ln s; modify (fun w => w <| ln_heap ::= <[s := f x]> |>).
Definition upd_rn (k : Z * string) (f : usteer_remote_node -> usteer_remote_node) :
    M (world T) unit :=
  x ← get_rn k; modify (fun w => w <| rn_heap ::= <[k := f x]> |>).
Definition emit (a : action) : M (world T) unit := modify (fun w => w <| out ::= fun l => l ++ [a] |>).

(** [usteer_update_time] (main.c) *)
Definition usteer_update_time : M (world T) unit :=
  modify (fun w => w <| current_time :=
    u64 (u64 (tv_sec (clock w)) * 1000 + tv_nsec (clock w) / 1000000) |>).

(** ** The abstraction and the invariant *)

Definition si_key (si : sta_info) : mac * node_id := (si_sta si, si_node si).

Definition abs (w : world T) : table := {|
  t_si := si_key <$> si_heap w;
  t_sta := sta_nodes <$> stations w;
  t_node := node_sta_info <$> node_heap w;
  t_armed := list_to_set (q_ids (tq w));
  t_brk := si_brk w;
|}.

(** A signal in dBm, far from the bounds of [int]: the difference of two of them
    does not overflow. *)
Definition signal_ok (signal : Z) : Prop := - 2 ^ 30 <= signal < 2 ^ 30.

(** A [sta_info] has its four event counters, owns its beacon reports and has a
    signal in range. *)
Definition si_ok (p : ptr) (si : sta_info) : Prop :=
  length (si_stats si) = 4%nat /\ Forall (fun br => br_address br = p) (si_beacon_reports si) /\
  signal_ok (si_signal si).

(** The trees of nodes list exactly the live nodes, each once. *)
Record nodes_ok (w : world T) : Prop := {
  no_local s : s ∈ local_nodes w <-> is_Some (node_heap w !! NLocal s);
  no_remote i s : (i, s) ∈ remote_nodes w <-> is_Some (node_heap w !! NRemote i s);
  no_ln s : is_Some (ln_heap w !! s) <-> is_Some (node_heap w !! NLocal s);
  no_rn i s : is_Some (rn_heap w !! (i, s)) <-> is_Some (node_heap w !! NRemote i s);
  no_local_nodup : NoDup (local_nodes w);
  no_remote_nodup : NoDup (remote_nodes w);
}.

Record inv (w : world T) : Prop := {
  inv_table : table_wf (abs w);
  inv_tq : q_wf (tq w);
  inv_si : map_Forall si_ok (si_heap w);
  inv_nodes : nodes_ok w;
}.

(** What an operation on stations leaves alone: the configuration, the clocks,
    the trees of nodes and everything in a node but its list of stations. *)
Definition node_data (x : usteer_node) : usteer_node := x <| node_sta_info := [] |>.

Record frame (w w' : world T) : Prop := {
  fr_config : config w' = config w;
  fr_time : current_time w' = current_time w;
  fr_clock : clock w' = clock w;
  fr_nodes : node_data <$> node_heap w' = node_data <$> node_heap w;
  fr_ln : ln_heap w' = ln_heap w;
  fr_rn : rn_heap w' = rn_heap w;
  fr_local : local_nodes w' = local_nodes w;
  fr_remote : remote_nodes w' = remote_nodes w;
  fr_ifaces : interfaces w' = interfaces w;
  fr_id : local_id w' = local_id w;
  fr_ssids : config_ssid_list w' = config_ssid_list w;
  fr_script : node_up_script w' = node_up_script w;
}.

#[export] Instance frame_preorder : PreOrder frame.
Proof.
  split.
  - by intros w.
  - intros w1 w2 w3 [] []. split; congruence.
Qed.

(** ** Steps *)

Lemma wp_upd_si p f si Q w :
  si_heap w !! p = Some si -> Q tt (w <| si_heap ::= <[p := f si]> |>) -> wp (upd_si p f) Q w.
Proof. intros Hp HQ. apply wp_bind. by eapply wp_deref. Qed.
Lemma wp_upd_sta a f s Q w :
  stations w !! a = Some s -> Q tt (w <| stations ::= <[a := f s]> |>) -> wp (upd_sta a f) Q w.
Proof. intros Hp HQ. apply wp_bind. by eapply wp_deref. Qed.
Lemma wp_upd_node n f x Q w :
  node_heap w !! n = Some x -> Q tt (w <| node_heap ::= <[n := f x]> |>) -> wp (upd_node n f) Q w.
Proof. intros Hp HQ. apply wp_bind. by eapply wp_deref. Qed.
Lemma wp_upd_ln s f x Q w :
  ln_heap w !! s = Some x -> Q tt (w <| ln_heap ::= <[s := f x]> |>) -> wp (upd_ln s f) Q w.
Proof. intros Hp HQ. apply wp_bind. by eapply wp_deref. Qed.
Lemma wp_upd_rn k f x Q w :
  rn_heap w !! k = Some x -> Q tt (w <| rn_heap ::= <[k := f x]> |>) -> wp (upd_rn k f) Q w.
Proof. intros Hp HQ. apply wp_bind. by eapply wp_deref. Qed.
Lemma wp_get_si p si Q w : si_heap w !! p = Some si -> Q si w -> wp (get_si p) Q w.
Proof. intros H HQ. by eapply wp_deref. Qed.
Lemma wp_get_sta a s Q w : stations w !! a = Some s -> Q s w -> wp (get_sta a) Q w.
Proof. intros H HQ. by eapply wp_deref. Qed.
Lemma wp_get_node n x Q w : node_heap w !! n = Some x -> Q x w -> wp (get_node n) Q w.
Proof. intros H HQ. by eapply wp_deref. Qed.
Lemma wp_get_ln s x Q w : ln_heap w !! s = Some x -> Q x w -> wp (get_ln s) Q w.
Proof. intros H HQ. by eapply wp_deref. Qed.
Lemma wp_get_rn k x Q w : rn_heap w !! k = Some x -> Q x w -> wp (get_rn k) Q w.
Proof. intros H HQ. by eapply wp_deref. Qed.

(** ** Reading the abstraction *)

Lemma abs_si p w : t_si (abs w) !! p = si_key <$> si_heap w !! p.
Proof. apply lookup_fmap. Qed.
Lemma abs_sta a w : t_sta (abs w) !! a = sta_nodes <$> stations w !! a.
Proof. apply lookup_fmap. Qed.
Lemma abs_node n w : t_node (abs w) !! n = node_sta_info <$> node_heap w !! n.
Proof. apply lookup_fmap. Qed.
Lemma abs_armed p w : p ∈ t_armed (abs w) <-> p ∈ q_ids (tq w).
Proof. simpl. by rewrite elem_of_list_to_set. Qed.

Lemma abs_si_Some p k w :
  t_si (abs w) !! p = Some k <-> exists si, si_heap w !! p = Some si /\ si_key si = k.
Proof. rewrite abs_si, fmap_Some. naive_solver. Qed.

Lemma inv_si_sta w p si :
  inv w -> si_heap w !! p = Some si ->
  exists s, stations w !! si_sta si = Some s /\ p ∈ sta_nodes s.
Proof.
  intros Hi Hp. destruct (tw_sta _ (inv_table _ Hi) p (si_sta si) (si_node si)) as (l & Hl & ?).
  { by rewrite abs_si, Hp. }
  rewrite abs_sta, fmap_Some in Hl. destruct Hl as (s & ? & ->). eauto.
Qed.
Lemma inv_si_node w p si :
  inv w -> si_heap w !! p = Some si ->
  exists x, node_heap w !! si_node si = Some x /\ p ∈ node_sta_info x.
Proof.
  intros Hi Hp. destruct (tw_node _ (inv_table _ Hi) p (si_sta si) (si_node si)) as (l & Hl & ?).
  { by rewrite abs_si, Hp. }
  rewrite abs_node, fmap_Some in Hl. destruct Hl as (s & ? & ->). eauto.
Qed.
Lemma inv_sta_si w a s p :
  inv w -> stations w !! a = Some s -> p ∈ sta_nodes s ->
  exists si, si_heap w !! p = Some si /\ si_sta si = a.
Proof.
  intros Hi Ha Hp. destruct (tw_sta_si _ (inv_table _ Hi) a (sta_nodes s) p) as (n & Hn);
    [by rewrite abs_sta, Ha|done|].
  apply abs_si_Some in Hn as (si & ? & Hk). inversion Hk. eauto.
Qed.
Lemma inv_node_si w n x p :
  inv w -> node_heap w !! n = Some x -> p ∈ node_sta_info x ->
  exists si, si_heap w !! p = Some si /\ si_node si = n.
Proof.
  intros Hi Hx Hp. destruct (tw_node_si _ (inv_table _ Hi) n (node_sta_info x) p) as (a & Hn);
    [by rewrite abs_node, Hx|done|].
  apply abs_si_Some in Hn as (si & ? & Hk). inversion Hk. eauto.
Qed.

(** ** Updates that leave the structure alone *)

Lemma fmap_insert_same {K V U} `{Countable K} (f : V -> U) (m : gmap K V) k v v' :
  m !! k = Some v -> f v' = f v -> f <$> <[k := v']> m = f <$> m.
Proof.
  intros Hk Hf. rewrite fmap_insert, Hf. apply insert_id. by rewrite lookup_fmap, Hk.
Qed.

Lemma abs_set_si p si si' w :
  si_heap w !! p = Some si -> si_key si' = si_key si ->
  abs (w <| si_heap ::= <[p := si']> |>) = abs w.
Proof. intros Hp Hk. unfold abs. simpl. f_equal. by eapply fmap_insert_same. Qed.
Lemma abs_set_sta a s s' w :
  stations w !! a = Some s -> sta_nodes s' = sta_nodes s ->
  abs (w <| stations ::= <[a := s']> |>) = abs w.
Proof. intros Hp Hk. unfold abs. simpl. f_equal. by eapply fmap_insert_same. Qed.
Lemma abs_set_node n x x' w :
  node_heap w !! n = Some x -> node_sta_info x' = node_sta_info x ->
  abs (w <| node_heap ::= <[n := x']> |>) = abs w.
Proof. intros Hp Hk. unfold abs. simpl. f_equal. by eapply fmap_insert_same. Qed.

(** The parts of the invariant beside the table. *)
Lemma inv_set_si p si si' w :
  inv w -> si_heap w !! p = Some si -> si_key si' = si_key si -> si_ok p si' ->
  inv (w <| si_heap ::= <[p := si']> |>).
Proof.
  intros [? ? Hsi []] Hp Hk Hok. split; simpl; [|done| |by split].
  - by erewrite abs_set_si.
  - by apply map_Forall_insert_2.
Qed.
Lemma inv_set_sta a s s' w :
  inv w -> stations w !! a = Some s -> sta_nodes s' = sta_nodes s ->
  inv (w <| stations ::= <[a := s']> |>).
Proof.
  intros [? ? Hsi []] Hp Hk. split; simpl; [|done|done|by split]. by erewrite abs_set_sta.
Qed.
Lemma is_Some_insert {K V} `{Countable K} (m : gmap K V) k v v' j :
  m !! k = Some v -> is_Some (<[k := v']> m !! j) <-> is_Some (m !! j).
Proof.
  intros Hk. rewrite lookup_insert. case_decide; subst; [|done].
  rewrite Hk. split; eauto.
Qed.
Lemma nodes_ok_set_node n x x' w :
  nodes_ok w -> node_heap w !! n = Some x -> nodes_ok (w <| node_heap ::= <[n := x']> |>).
Proof.
  intros [] Hn. split; simpl; intros; rewrite ?(is_Some_insert _ n x x') by done; eauto.
Qed.
Lemma inv_set_node n x x' w :
  inv w -> node_heap w !! n = Some x -> node_sta_info x' = node_sta_info x ->
  inv (w <| node_heap ::= <[n := x']> |>).
Proof.
  intros [? ? Hsi Hno] Hp Hk. split; simpl; [|done|done|by eapply nodes_ok_set_node].
  by erewrite abs_set_node.
Qed.
Lemma inv_set_ln s x x' w :
  inv w -> ln_heap w !! s = Some x -> inv (w <| ln_heap ::= <[s := x']> |>).
Proof.
  intros [? ? Hsi []] Hp. split; [done..|]. split; simpl; try done.
  intros s'. by rewrite (is_Some_insert _ s x x').
Qed.
Lemma inv_set_rn k x x' w :
  inv w -> rn_heap w !! k = Some x -> inv (w <| rn_heap ::= <[k := x']> |>).
Proof.
  intros [? ? Hsi []] Hp. split; [done..|]. split; simpl; try done.
  intros i s. by rewrite (is_Some_insert _ k x x').
Qed.

(** Components of the state that no invariant mentions. *)
Lemma inv_emit l w : inv w -> inv (w <| out := l |>).
Proof. intros [? ? ? []]. by split; [..|split]. Qed.

Lemma inv_set_clock c w : inv w -> inv (w <| clock := c |>).
Proof. intros [? ? ? []]. by split; [..|split]. Qed.
Lemma inv_set_config c w : inv w -> inv (w <| config := c |>).
Proof. intros [? ? ? []]. by split; [..|split]. Qed.

(** [frame] keeps the nodes that are there, and the trees that list them. *)
Lemma frame_node_data w w' n :
  frame w w' -> node_data <$> node_heap w' !! n = node_data <$> node_heap w !! n.
Proof. intros Hf. by rewrite <- !lookup_fmap, (fr_nodes _ _ Hf). Qed.
Lemma frame_node_Some w w' n x :
  frame w w' -> node_heap w !! n = Some x ->
  exists x', node_heap w' !! n = Some x' /\ node_data x' = node_data x.
Proof.
  intros Hf Hx. assert (H := frame_node_data w w' n Hf). rewrite Hx in H.
  destruct (node_heap w' !! n) as [x'|]; simpl in H; [|done]. exists x'. split; congruence.
Qed.
Lemma frame_is_Some w w' n :
  frame w w' -> is_Some (node_heap w' !! n) <-> is_Some (node_heap w !! n).
Proof.
  intros Hf. assert (H := frame_node_data w w' n Hf).
  destruct (node_heap w' !! n), (node_heap w !! n); try done; split; eauto.
Qed.
Lemma frame_nodes_ok w w' : frame w w' -> nodes_ok w -> nodes_ok w'.
Proof.
  intros Hf []. assert (Hs := fun n => frame_is_Some w w' n Hf). destruct Hf.
  split; intros; rewrite ?fr_local0, ?fr_remote0, ?fr_ln0, ?fr_rn0, ?Hs; eauto.
Qed.
End world.
#[export] Hint Resolve inv_emit : core.
#[export] Hint Extern 0 (frame _ _) => reflexivity : core.
