(* ===== verification/Ssid.v ===== *)
(** * The SSIDs the daemon serves (ubus.c)

    [config_ssid_list] is the null pointer until it is configured for the first
    time, then a list, the last one configured first. An entry is a field of 33
    bytes, which a longer SSID fills to the last one, so that its text has no end. *)
From S2P Require Import Prelude Blob Timeout Types Table World.

(** [strncpy(uss->ssid, ssid, 33)]: of a string of 33 bytes or more only the first
    33 fit, and then the field holds no terminating zero. *)
Definition usteer_ssid (ssid : string) : string := String.substring 0 33 ssid.

(** The text in the field [ssid[33]], when its end is in the field. *)
Definition ssid_text (uss : string) : option string := if (String.length uss <? 33)%nat then Some uss else None.

(** [strncmp(a, b, 33) == 0] *)
Definition strncmp33 (a b : string) : bool :=
  bool_decide (String.substring 0 33 a = String.substring 0 33 b).

(** The loop of [usteer_is_valid_ssid], with its local [valid]. *)
Fixpoint valid_ssid_scan (valid : bool) (ssid : string) (l : list string) : bool :=
  match l with
  | [] => valid
  | uss :: l' => if strncmp33 uss ssid then true else valid_ssid_scan false ssid l'
  end.

Section ssid.
Context {T : Type}.

Definition usteer_is_valid_ssid (ssid : string) : M (world T) bool :=
  l ← gets config_ssid_list;
  match l with
  | None => mret true
  | Some l => mret (valid_ssid_scan true ssid l) (* empty list -> all valid *)
  end.

(** [config_set_ssid] before the nodes are looked up again: the list is rebuilt,
    unless an element is not a string. *)
Definition config_set_ssid_list (data : list bval) : M (world T) bool :=
  if negb (forallb (fun v => bool_decide (type_of_bval v = BLOBMSG_TYPE_STRING)) data) then mret false
  else
    modify (fun w => w <| config_ssid_list := Some [] |>) ;;
    for_each (fun cur =>
      ssid ← blobmsg_get_string (Some cur);
      modify (fun w => w <| config_ssid_list ::= fmap (cons (usteer_ssid ssid)) |>)) data ;;
    mret true.

(** [config_get_ssid]: the array it adds to the reply; [blobmsg_add_string] reads an
    SSID up to its zero. *)
Definition config_get_ssid : M (world T) (string * bval) :=
  l ← deref NullDeref config_ssid_list;
  c ← for_fold (fun c uss => s ← deref OutOfBounds (fun _ => ssid_text uss); mret (c ++ [VString s])) [] l;
  mret ("ssid"%string, VArray c).
End ssid.

(** ** Specifications *)

(** Without a configured SSID every SSID is served, otherwise the configured
    ones, compared on their first 33 bytes. *)
Definition serves (l : option (list string)) (ssid : string) : Prop :=
  match l with
  | None | Some [] => True
  | Some l => exists s, s ∈ l /\ String.substring 0 33 s = String.substring 0 33 ssid
  end.

Lemma substring_0_idem n s : String.substring 0 n (String.substring 0 n s) = String.substring 0 n s.
Proof.
  revert s. induction n as [|n IH]; intros [|c s]; simpl; try done. f_equal. apply IH.
Qed.

(** The list that [config_set_ssid] builds serves the SSIDs given to it. *)
Lemma serves_given l ssid :
  serves (Some (rev (map usteer_ssid l))) ssid <->
  l = [] \/ exists s, s ∈ l /\ String.substring 0 33 s = String.substring 0 33 ssid.
Proof.
  destruct l as [|t0 l]; [split; [by left|done]|].
  set (l1 := t0 :: l) in *. assert (Hne : rev (map usteer_ssid l1) ≠ []).
  { intros E. apply (f_equal length) in E. by rewrite length_rev, length_map in E. }
  unfold serves. destruct (rev (map usteer_ssid l1)) as [|y ys] eqn:E; [done|]. rewrite <- E. clear. split.
  - intros (t & Ht & Heq). right. apply list_elem_of_In, in_rev, in_map_iff in Ht as (t' & <- & Hin). exists t'.
    split; [by apply list_elem_of_In|]. unfold usteer_ssid in Heq. by rewrite substring_0_idem in Heq.
  - intros [?|(t & Ht & Heq)]; [done|]. exists (usteer_ssid t). split.
    + apply list_elem_of_In. rewrite <- in_rev. by apply in_map, list_elem_of_In.
    + unfold usteer_ssid. by rewrite substring_0_idem.
Qed.

Lemma valid_ssid_scan_true ssid v l :
  valid_ssid_scan v ssid l = true <->
  (v = true /\ l = []) \/ exists s, s ∈ l /\ String.substring 0 33 s = String.substring 0 33 ssid.
Proof.
  revert v. induction l as [|s l IH]; intros v; simpl.
  { split; [by left|]. intros [[? _]|(s & Hs & _)]; [done|set_solver]. }
  unfold strncmp33. case_bool_decide as Hs.
  - split; [|done]. intros _. right. exists s. split; [set_solver|done].
  - rewrite IH. split.
    + intros [[? _]|(t & ? & ?)]; [done|]. right. exists t. split; [set_solver|done].
    + intros [[_ ?]|(t & Ht & ?)]; [done|]. right. exists t. split; [|done].
      apply elem_of_cons in Ht as [->|?]; [congruence|done].
Qed.

(** Every SSID of the list ends in its field. *)
Definition ssids_end (l : list string) : bool := forallb (fun s => (String.length s <? 33)%nat) l.

Lemma usteer_ssid_short s : (String.length s < 33)%nat -> usteer_ssid s = s.
Proof.
  unfold usteer_ssid. generalize 33%nat as n. induction s as [|c s IH]; intros [|n] H; simpl in *; try done; [lia|].
  f_equal. apply IH. lia.
Qed.
Lemma usteer_ssids_short l : ssids_end l = true -> map usteer_ssid l = l.
Proof.
  induction l as [|s l IH]; [done|]. simpl. intros [Hs%Nat.ltb_lt Hl]%andb_true_iff.
  by rewrite usteer_ssid_short, IH.
Qed.

Section ssid_spec.
Context {T : Type}.
Implicit Types w : world T.

Lemma config_get_ssid_run w :
  config_get_ssid w =
  match config_ssid_list w with
  | None => Fault NullDeref
  | Some l => if ssids_end l then Ok ("ssid"%string, VArray (map VString l), w) else Fault OutOfBounds
  end.
Proof.
  unfold config_get_ssid. unfold mbind at 1, M_bind at 1, deref at 1. destruct (config_ssid_list w) as [l|]; [|done].
  enough (Hgen : forall acc, for_fold (fun c uss => s ← deref OutOfBounds (fun _ => ssid_text uss); mret (c ++ [VString s])) acc l w =
    if ssids_end l then Ok (acc ++ map VString l, w) else Fault OutOfBounds).
  { unfold mbind, M_bind in *. rewrite Hgen. by destruct (ssids_end l). }
  induction l as [|s l IH]; intros acc; cbn [for_fold map ssids_end forallb].
  { by rewrite app_nil_r. }
  unfold mbind at 1, M_bind at 1. unfold deref at 1, mbind at 1, M_bind at 1. unfold ssid_text at 1.
  destruct (String.length s <? 33)%nat; [|done]. cbn [andb]. unfold mret at 1, M_ret at 1. cbv beta iota.
  rewrite IH. by rewrite <- app_assoc.
Qed.

Lemma usteer_is_valid_ssid_spec ssid w :
  wp (usteer_is_valid_ssid ssid) (fun r w' => w' = w /\ (r = true <-> serves (config_ssid_list w) ssid)) w.
Proof.
  unfold usteer_is_valid_ssid, serves. do 2 wp_step. destruct (config_ssid_list w) as [l|]; [|by apply wp_ret].
  apply wp_ret. split; [done|]. rewrite valid_ssid_scan_true. destruct l as [|s l]; [naive_solver|].
  split; [by intros [[_ ?]|?]|by right].
Qed.

Lemma config_set_ssid_list_spec data w :
  wp (config_set_ssid_list data) (fun r w' =>
    if forallb (fun v => bool_decide (type_of_bval v = BLOBMSG_TYPE_STRING)) data
    then r = true /\ exists l, data = map VString l /\
         w' = w <| config_ssid_list := Some (rev (map usteer_ssid l)) |>
    else r = false /\ w' = w) w.
Proof.
  unfold config_set_ssid_list. destruct (forallb _ data) eqn:E; simpl; [|by apply wp_ret].
  apply wp_bind, wp_modify.
  assert (exists l, data = map VString l) as [l ->].
  { induction data as [|v data IH]; [by exists []|]. simpl in E.
    apply andb_true_iff in E as [Hv%bool_decide_eq_true E]. destruct (IH E) as [l ->].
    destruct v; try done. by exists (s :: l). }
  clear E. apply wp_bind.
  enough (Hgen : forall acc, wp (for_each (fun cur =>
      ssid ← blobmsg_get_string (Some cur);
      modify (fun w => w <| config_ssid_list ::= fmap (cons (usteer_ssid ssid)) |>)) (map VString l))
    (fun _ w' => w' = w <| config_ssid_list := Some (rev (map usteer_ssid l) ++ acc) |>)
    (w <| config_ssid_list := Some acc |>)).
  { eapply wp_mono; [apply (Hgen [])|]. intros [] w' ->. apply wp_ret. split; [done|].
    exists l. by rewrite app_nil_r. }
  induction l as [|s l IH]; intros acc; simpl; [by apply wp_ret|].
  apply wp_bind, wp_bind. eapply wp_deref; [done|]. apply wp_modify.
  eapply wp_mono; [apply (IH (usteer_ssid s :: acc))|]. intros [] w' ->. by rewrite <- app_assoc.
Qed.
End ssid_spec.
