(* ===== verification/Beacon.v ===== *)
(** * Beacon reports and channels (hearing_map.c, first part)

    The channel numbering, the search for a node by BSSID and the life of the
    beacon reports a [sta_info] keeps. The requests and the handler of incoming
    reports, which need the station table, are in BeaconRequest.v. *)
From S2P Require Import Prelude Blob Timeout Types Table World.

(** ** Channels *)

(** C's [/] on [int] truncates towards zero. *)
Definition get_channel_from_freq (freq : Z) : Z :=
  if freq =? 2484 then 14
  else if freq <? 2484 then Z.quot (freq - 2407) 5
  else if (4910 <=? freq) && (freq <=? 4980) then Z.quot (freq - 4000) 5
  else if freq <=? 45000 then Z.quot (freq - 5000) 5
  else if (58320 <=? freq) && (freq <=? 64800) then Z.quot (freq - 56160) 2160
  else 0.

Definition get_op_class_from_channel (channel : Z) : Z :=
  if (36 <=? channel) && (channel <=? 48) then 115
  else if (52 <=? channel) && (channel <=? 64) then 118
  else if (100 <=? channel) && (channel <=? 140) then 121
  else if (1 <=? channel) && (channel <=? 13) then 81
  else 0.

(** [usteer_beacon_report_delete]: whether the report is freed. *)
Definition usteer_beacon_report_delete (cfg : usteer_config) (now : Z)
    (br : beacon_report) (bssid : option mac) : bool :=
  if match bssid with Some b => bool_decide (br_bssid br = b) | None => false end then true
  else
    let time_diff := u64 (now - br_usteer_time br) in
    let time_diff_conf := u32 (beacon_report_invalide_timeout cfg * 1000) in
    time_diff_conf <? time_diff.

Section beacon.
Context {T : Type} `{!AvlTree Z ptr T}.
Implicit Types (w : world T) (p : ptr).

(** One of the two loops of [get_usteer_node_from_bssid]: the first node of a
    tree whose [bssid] is [b]. *)
Definition scan_bssid {A} (nid : A -> node_id) (b : mac) (l : list A) :
    M (world T) (option node_id) :=
  for_until (fun a =>
    x ← get_node (nid a);
    mret (if bool_decide (bssid x = b) then Some (nid a) else None)) l.

Definition get_usteer_node_from_bssid (b : mac) : M (world T) (option node_id) :=
  locals ← gets local_nodes;
  r ← scan_bssid NLocal b locals;
  match r with
  | Some n => mret (Some n)
  | None =>
      remotes ← gets remote_nodes;
      scan_bssid (fun k => NRemote k.1 k.2) b remotes
  end.

(** With a null [bssid] every report is freed, else those of that BSSID and the
    stale ones. *)
Definition usteer_beacon_report_cleanup (p : ptr) (bssid : option mac) : M (world T) unit :=
  cfg ← gets config;
  now ← gets current_time;
  upd_si p (fun si => si <| si_beacon_reports ::= fun l =>
    match bssid with
    | Some _ => filter (fun br => usteer_beacon_report_delete cfg now br bssid = false) l
    | None => []
    end |>).

(** ** Specifications *)

(** The first node, local ones first, that has the BSSID. *)
Definition bssid_result w (b : mac) (r : option node_id) : Prop :=
  match r with
  | Some n => exists x, node_heap w !! n = Some x /\ bssid x = b
  | None => forall n x, node_heap w !! n = Some x -> bssid x ≠ b
  end.

Lemma scan_bssid_spec {A} (nid : A -> node_id) (b : mac) (l : list A) w :
  (forall a, a ∈ l -> is_Some (node_heap w !! nid a)) ->
  wp (scan_bssid nid b l)
     (fun r w' => w' = w /\
        match r with
        | Some n => exists x, node_heap w !! n = Some x /\ bssid x = b
        | None => forall a x, a ∈ l -> node_heap w !! nid a = Some x -> bssid x ≠ b
        end) w.
Proof.
  intros Hl. eapply wp_mono.
  - apply (wp_for_until
      (fun don _ w' => w' = w /\ forall a x, a ∈ don -> node_heap w !! nid a = Some x -> bssid x ≠ b)
      (fun n w' => w' = w /\ exists x, node_heap w !! n = Some x /\ bssid x = b)).
    { split; [done|]. set_solver. }
    intros don a rest w' -> [-> Hdon].
    destruct (Hl a) as [x Hx]; [set_solver|].
    apply wp_bind. eapply wp_get_node; [done|]. apply wp_ret.
    case_bool_decide; [by eauto|]. split; [done|].
    intros a' x' [?|?%list_elem_of_singleton]%elem_of_app ?; [by eauto|]. subst. congruence.
  - intros [n|] w' [-> ?]; by eauto.
Qed.

Lemma get_usteer_node_from_bssid_spec b w :
  nodes_ok w ->
  wp (get_usteer_node_from_bssid b) (fun r w' => w' = w /\ bssid_result w b r) w.
Proof.
  intros Hno. unfold get_usteer_node_from_bssid. do 2 wp_step.
  apply wp_bind. eapply wp_mono.
  { apply scan_bssid_spec. intros s. apply Hno. }
  intros [n|] w' [-> Hr]; [by apply wp_ret|]. do 2 wp_step.
  eapply wp_mono.
  { apply scan_bssid_spec. intros [i s]. apply Hno. }
  intros [n|] w' [-> Hr']; [done|]. split; [done|]. intros [s|i s] x Hx.
  - eapply Hr; [|done]. apply Hno; eauto.
  - apply (Hr' (i, s)); [|done]. apply Hno; eauto.
Qed.

(** The node [get_usteer_node_from_bssid] finds. *)
Definition node_of_bssid (w : world T) (b : mac) : option node_id :=
  match get_usteer_node_from_bssid b w with
  | Ok (r, _) => r
  | Fault _ => None
  end.

Lemma wp_node_of_bssid b w (Q : option node_id -> world T -> Prop) :
  nodes_ok w -> (bssid_result w b (node_of_bssid w b) -> Q (node_of_bssid w b) w) ->
  wp (get_usteer_node_from_bssid b) Q w.
Proof.
  intros Hno HQ. apply wp_ok.
  destruct (proj1 (wp_ok _ _ _) (get_usteer_node_from_bssid_spec b w Hno)) as (r & w' & Hr & -> & Hres).
  unfold node_of_bssid in HQ. rewrite Hr in *. eauto.
Qed.

Lemma node_of_bssid_Some w b n :
  nodes_ok w -> node_of_bssid w b = Some n -> exists x, node_heap w !! n = Some x /\ bssid x = b.
Proof.
  intros Hno Hb.
  destruct (proj1 (wp_ok _ _ _) (get_usteer_node_from_bssid_spec b w Hno)) as (r & w' & Hr & -> & Hres).
  unfold node_of_bssid in Hb. rewrite Hr in Hb. subst. done.
Qed.

Lemma usteer_beacon_report_cleanup_spec p b si w Q :
  si_heap w !! p = Some si ->
  (forall si', si' = si <| si_beacon_reports := match b with
      | Some _ => filter (fun br => usteer_beacon_report_delete (config w) (current_time w) br b = false)
                    (si_beacon_reports si)
      | None => []
      end |> -> Q tt (w <| si_heap ::= <[p := si']> |>)) ->
  wp (usteer_beacon_report_cleanup p b) Q w.
Proof.
  intros Hp HQ. unfold usteer_beacon_report_cleanup. wp_steps.
  eapply wp_upd_si; [done|]. apply HQ. by destruct b.
Qed.
End beacon.
