(* ===== verification/Sta.v ===== *)
(** * Stations (sta.c)

    Creation, search, update and removal of [struct sta] and [struct sta_info].
    [usteer_handle_sta_event], which asks the policy, is in StaEvent.v. *)
From Stdlib Require Import Floats.SpecFloat.
From S2P Require Import Prelude Blob Timeout Types Table World Beacon.

(** [calloc(1, sizeof( *si))] and the fields set when it is linked. *)
Definition stats_zero : sta_info_stats := mkStats 0 0 0 0.
Definition calloc_sta_info (a : mac) (n : node_id) (node_freq : Z) (now : Z) : sta_info := {|
  si_beacon_reports := [];
  si_node := n;
  si_sta := a;
  si_stats := replicate 4 stats_zero;
  si_created := now;
  si_seen := 0;
  si_signal := 0;
  si_roam_state := ROAM_TRIGGER_IDLE;
  si_roam_tries := 0;
  si_roam_event := 0;
  si_roam_kick := 0;
  si_roam_scan_done := 0;
  si_kick_count := 0;
  si_active_bytes := mkActiveBytes 0 0 0 0 0;
  si_beacon_request := mkBeaconRequest node_freq 0 0 0;
  si_scan_band := 0;
  si_connected := 0;
|}.

Section sta.
Context {T : Type} `{!AvlTree Z ptr T}.

Definition usteer_sta_del (a : mac) : M (world T) unit :=
  get_sta a ;;
  modify (fun w => w <| stations ::= delete a |>).

Definition usteer_sta_info_del (p : ptr) : M (world T) unit :=
  si ← get_si p;
  let a := si_sta si in
  modify (fun w => w <| tq ::= usteer_timeout_cancel p |>) ;;
  usteer_beacon_report_cleanup p None ;;
  upd_sta a (fun s => s <| sta_nodes ::= list_del p |>) ;;
  upd_node (si_node si) (fun x => x <| node_sta_info ::= list_del p |>) ;;
  modify (fun w => w <| si_heap ::= delete p |>) ;;
  s ← get_sta a;
  when (bool_decide (sta_nodes s = [])) (usteer_sta_del a).

Definition usteer_sta_node_cleanup (n : node_id) : M (world T) unit :=
  upd_node n (fun x => x <| rrm_nr := None |>) ;;
  x ← get_node n;
  for_each usteer_sta_info_del (node_sta_info x).

Definition usteer_sta_info_timeout (t : ptr) : M (world T) unit := usteer_sta_info_del t.

(** The result pairs the object with [*create]; [create] says whether the
    pointer passed is non-null. *)
Definition usteer_sta_info_get (a : mac) (n : node_id) (create : bool) :
    M (world T) (option (ptr * bool)) :=
  s ← get_sta a;
  r ← for_until (fun p =>
        si ← get_si p;
        mret (if bool_decide (si_node si = n) then Some p else None)) (sta_nodes s);
  match r with
  | Some p => mret (Some (p, false))
  | None =>
      if negb create then mret None else
        x ← get_node n;
        now ← gets current_time;
        p ← gets si_brk;
        modify (fun w => w <| si_heap ::= <[p := calloc_sta_info a n (freq x) now]> |>
                           <| si_brk ::= Pos.succ |>) ;;
        upd_sta a (fun s => s <| sta_nodes ::= cons p |>) ;;
        upd_node n (fun x => x <| node_sta_info ::= cons p |>) ;;
        mret (Some (p, true))
  end.

Definition usteer_sta_info_update_timeout (p : ptr) (timeout : Z) : M (world T) unit :=
  si ← get_si p;
  if si_connected si =? 1 then modify (fun w => w <| tq ::= usteer_timeout_cancel p |>)
  else if 0 <? timeout then
    modify (fun w => w <| tq ::= usteer_timeout_set (clock w) p timeout |>)
  else usteer_sta_info_del p.

Definition sta_zero : sta := mkSta [] 0 0.

Definition usteer_sta_get (addr : mac) (create : bool) : M (world T) (option mac) :=
  st ← gets stations;
  match st !! addr with
  | Some _ => mret (Some addr)
  | None =>
      if negb create then mret None else
        modify (fun w => w <| stations ::= <[addr := sta_zero]> |>) ;;
        mret (Some addr)
  end.

Definition usteer_sta_info_update (p : ptr) (signal : Z) (avg : bool) : M (world T) unit :=
  cfg ← gets config;
  now ← gets current_time;
  si ← get_si p;
  (* ignore probe request signal when connected *)
  let signal :=
    if (si_connected si =? 1) && negb (si_signal si =? NO_SIGNAL) && negb avg
    then NO_SIGNAL else signal in
  when (negb (signal =? NO_SIGNAL)) (upd_si p (fun si => si <| si_signal := signal |>)) ;;
  upd_si p (fun si => si <| si_seen := now |>) ;;
  usteer_sta_info_update_timeout p (s32 (local_sta_timeout cfg)).
End sta.

(** ** Specifications *)
Section sta_spec.
Context {T : Type} `{!AvlTree Z ptr T} `{!AvlLaws Z ptr T}.
Implicit Types (w : world T) (p q : ptr) (a : mac) (n : node_id) (si : sta_info).

(** The states between which a removal leads: [p] is gone, nothing else moved. *)
Definition si_removed (p : ptr) (w w' : world T) : Prop :=
  inv w' /\ abs w' = table_si_del p (abs w) /\ frame w w' /\
  si_heap w' = delete p (si_heap w) /\ tq w' = usteer_timeout_cancel p (tq w) /\
  out w' = out w.

(** The world after the statements of [usteer_sta_info_del]. *)
Definition del_world (p : ptr) (si : sta_info) (s : sta) (x : usteer_node) (w : world T) : world T :=
  w <| tq ::= usteer_timeout_cancel p |>
    <| si_heap ::= delete p |>
    <| stations ::= (if bool_decide (list_del p (sta_nodes s) = [])
                     then delete (si_sta si)
                     else <[si_sta si := s <| sta_nodes ::= list_del p |>]>) |>
    <| node_heap ::= <[si_node si := x <| node_sta_info ::= list_del p |>]> |>.

Lemma usteer_sta_info_del_run p si s x w :
  si_heap w !! p = Some si -> stations w !! si_sta si = Some s ->
  node_heap w !! si_node si = Some x ->
  usteer_sta_info_del p w = Ok (tt, del_world p si s x w).
Proof.
  intros Hp Hs Hx. unfold usteer_sta_info_del, usteer_beacon_report_cleanup, upd_si, upd_sta,
    upd_node, get_si, get_sta, get_node, usteer_sta_del, gets, modify, deref, mbind, M_bind.
  rewrite Hp. simpl. rewrite Hp. simpl. rewrite Hs. simpl. rewrite Hx. simpl.
  rewrite lookup_insert_eq. unfold del_world. simpl.
  case_bool_decide; simpl.
  - unfold get_sta, deref, mbind, M_bind. simpl. rewrite lookup_insert_eq.
    unfold modify. simpl. by rewrite delete_insert_eq, delete_insert_eq.
  - unfold mret, M_ret. by rewrite delete_insert_eq.
Qed.

Lemma abs_del_world p si s x w :
  si_heap w !! p = Some si -> stations w !! si_sta si = Some s ->
  node_heap w !! si_node si = Some x ->
  abs (del_world p si s x w) = table_si_del p (abs w).
Proof.
  intros Hp Hs Hx.
  assert (Ht : t_si (abs w) !! p = Some (si_sta si, si_node si)) by by rewrite abs_si, Hp.
  unfold table_si_del. rewrite Ht. unfold abs, del_world, set_field. simpl. f_equal.
  - apply fmap_delete.
  - apply map_eq. intros b. rewrite lookup_partial_alter, !lookup_fmap.
    case_decide as Hb; [subst b; rewrite Hs; simpl; unfold drop_ptr|]; case_bool_decide as He.
    + by rewrite lookup_delete_eq, He.
    + rewrite lookup_insert_eq. simpl. by destruct (list_del p (sta_nodes s)).
    + by rewrite lookup_delete_ne.
    + by rewrite lookup_insert_ne.
  - rewrite fmap_insert. apply map_eq. intros m. rewrite lookup_insert, lookup_alter, !lookup_fmap.
    case_decide; subst; [by rewrite Hx|done].
  - apply set_eq. intros q. rewrite elem_of_difference, !elem_of_list_to_set, elem_of_cancel_ids.
    set_solver.
Qed.

Lemma usteer_sta_info_del_spec p si w :
  inv w -> si_heap w !! p = Some si ->
  wp (usteer_sta_info_del p) (fun _ w' => si_removed p w w') w.
Proof.
  intros Hi Hp.
  destruct (inv_si_sta w p si Hi Hp) as (s & Hs & _).
  destruct (inv_si_node w p si Hi Hp) as (x & Hx & _).
  apply wp_ok. exists tt, (del_world p si s x w). split; [by apply usteer_sta_info_del_run|].
  assert (Ha := abs_del_world p si s x w Hp Hs Hx). destruct Hi as [Ht Hq Hsi Hno].
  split; [split|split; [done|split; [split|done]]]; try done.
  - rewrite Ha. auto.
  - simpl. auto.
  - simpl. by apply map_Forall_delete.
  - destruct Hno. split; simpl; intros; rewrite ?(is_Some_insert _ _ x) by done; eauto.
  - simpl. by eapply fmap_insert_same.
Qed.

(** [usteer_sta_get] *)
Lemma usteer_sta_get_spec a create w :
  inv w ->
  wp (usteer_sta_get a create) (fun r w' =>
    inv w' /\ frame w w' /\ si_heap w' = si_heap w /\ tq w' = tq w /\ out w' = out w /\
    match r with
    | Some b => b = a /\ abs w' = table_sta_add a (abs w) /\ is_Some (stations w' !! a)
    | None => create = false /\ w' = w /\ stations w !! a = None
    end) w.
Proof.
  intros Hi. unfold usteer_sta_get. do 2 wp_step.
  destruct (stations w !! a) as [s|] eqn:Ea.
  { apply wp_ret. do 5 (split; [done|]). split; [done|]. split; [|eauto].
    unfold table_sta_add. by rewrite abs_sta, Ea. }
  destruct create; simpl; [|by apply wp_ret].
  wp_steps.
  assert (Ha : abs (w <| stations ::= <[a:=sta_zero]> |>) = table_sta_add a (abs w)).
  { unfold table_sta_add. rewrite abs_sta, Ea. unfold abs, set_field. simpl. f_equal.
    by rewrite fmap_insert. }
  split; [split|].
  - rewrite Ha. apply table_sta_add_wf, Hi.
  - apply Hi.
  - apply Hi.
  - destruct (inv_nodes _ Hi). by split.
  - do 4 (split; [done|]). split; [done|]. split; [done|]. simpl. rewrite lookup_insert_eq. eauto.
Qed.

(** The search of [usteer_sta_info_get] is the table's. *)
Lemma sta_scan_spec a n s w :
  inv w -> stations w !! a = Some s ->
  wp (for_until (fun p => si ← get_si p;
                 mret (if bool_decide (si_node si = n) then Some p else None)) (sta_nodes s))
     (fun r w' => w' = w /\ r = table_find a n (abs w)) w.
Proof.
  intros Hi Ha. eapply wp_mono.
  - apply (wp_for_until
      (fun don _ w' => w' = w /\ forall p si, p ∈ don -> si_heap w !! p = Some si -> si_node si ≠ n)
      (fun p w' => w' = w /\ table_find a n (abs w) = Some p)).
    { split; [done|]. set_solver. }
    intros don p rest w' Hl [-> Hdon].
    destruct (inv_sta_si w a s p Hi Ha) as (si & Hp & Hsta); [rewrite Hl; set_solver|].
    apply wp_bind. eapply wp_get_si; [done|]. apply wp_ret. case_bool_decide as Hn.
    + split; [done|]. apply table_find_spec; [apply Hi|]. rewrite abs_si, Hp. simpl.
      unfold si_key. congruence.
    + split; [done|]. intros q si' [?|?%list_elem_of_singleton]%elem_of_app ?; [by eauto|].
      subst. congruence.
  - simpl. intros [p|] w' [-> Hr]; [done|]. split; [done|].
    destruct (table_find a n (abs w)) as [q|] eqn:E; [|done].
    apply table_find_spec in E; [|apply Hi].
    apply abs_si_Some in E as (si & Hq & Hk). inversion Hk; subst.
    destruct (inv_si_sta w q si Hi Hq) as (s' & Hs' & Hin).
    assert (s' = s) as -> by congruence. by destruct (Hr q si).
Qed.

(** The state after [usteer_sta_info_get] created an object. *)
Record si_created_at (a : mac) (n : node_id) (x : usteer_node) (w w' : world T) : Prop := {
  sc_inv : inv w';
  sc_abs : abs w' = table_si_add a n (abs w);
  sc_frame : frame w w';
  sc_heap : si_heap w' = <[si_brk w := calloc_sta_info a n (freq x) (current_time w)]> (si_heap w);
  sc_fresh : si_heap w !! si_brk w = None;
  sc_tq : tq w' = tq w;
  sc_out : out w' = out w;
}.

Lemma inv_brk_fresh w : inv w -> si_heap w !! si_brk w = None.
Proof.
  intros Hi. destruct (si_heap w !! si_brk w) as [si|] eqn:E; [|done].
  assert (si_brk w < si_brk w)%positive; [|lia].
  apply (tw_brk _ (inv_table _ Hi)). rewrite abs_si, E. eauto.
Qed.

Lemma usteer_sta_info_get_spec a n create s x w :
  inv w -> stations w !! a = Some s -> node_heap w !! n = Some x ->
  wp (usteer_sta_info_get a n create) (fun r w' =>
    match r with
    | Some (p, false) => w' = w /\ table_find a n (abs w) = Some p
    | Some (p, true) => create = true /\ table_find a n (abs w) = None /\ p = si_brk w /\
        si_created_at a n x w w'
    | None => create = false /\ w' = w /\ table_find a n (abs w) = None
    end) w.
Proof.
  intros Hi Ha Hn. unfold usteer_sta_info_get.
  apply wp_bind. eapply wp_get_sta; [done|]. apply wp_bind.
  eapply wp_mono; [by eapply sta_scan_spec|]. intros r w' [-> ->].
  destruct (table_find a n (abs w)) as [p|] eqn:Ef; [by apply wp_ret|].
  destruct create; simpl; [|by apply wp_ret].
  apply wp_bind. eapply wp_get_node; [done|]. wp_steps.
  eapply wp_upd_sta; [done|]. simpl. apply wp_bind. eapply wp_upd_node; [done|]. simpl.
  apply wp_ret. do 3 (split; [done|]).
  assert (Hb := inv_brk_fresh _ Hi).
  match goal with |- si_created_at _ _ _ _ ?w1 => set (w' := w1) end.
  assert (Hab : abs w' = table_si_add a n (abs w)).
  { unfold w', abs, table_si_add, set_field. simpl. f_equal.
    - rewrite fmap_insert. done.
    - rewrite fmap_insert. apply map_eq. intros b. rewrite lookup_insert, lookup_alter, !lookup_fmap.
      case_decide; subst; [by rewrite Ha|done].
    - rewrite fmap_insert. apply map_eq. intros b. rewrite lookup_insert, lookup_alter, !lookup_fmap.
      case_decide; subst; [by rewrite Hn|done]. }
  assert (Hfr : frame w w').
  { split; try done. simpl. by eapply fmap_insert_same. }
  split; try done. split.
  - rewrite Hab. apply table_si_add_wf; [apply Hi|..].
    + rewrite abs_sta, Ha. eauto.
    + rewrite abs_node, Hn. eauto.
    + apply table_find_None; [apply Hi|done].
  - apply Hi.
  - simpl. apply map_Forall_insert_2; [|apply Hi]. split; [done|]. split; [constructor|]. unfold signal_ok. simpl. lia.
  - eapply frame_nodes_ok; [done|apply Hi].
Qed.

(** ** Timers of a station *)

Lemma abs_set_timer p ts ms w :
  abs (w <| tq ::= usteer_timeout_set ts p ms |>) = table_arm p (abs w).
Proof.
  unfold abs, table_arm, set_field. simpl. f_equal. apply set_eq. intros q.
  rewrite elem_of_union, elem_of_singleton, !elem_of_list_to_set, elem_of_set_ids. done.
Qed.
Lemma abs_cancel_timer p w :
  abs (w <| tq ::= usteer_timeout_cancel p |>) = table_disarm p (abs w).
Proof.
  unfold abs, table_disarm, set_field. simpl. f_equal. apply set_eq. intros q.
  rewrite elem_of_difference, elem_of_singleton, !elem_of_list_to_set, elem_of_cancel_ids. done.
Qed.
Lemma inv_set_timer p ts ms w :
  inv w -> is_Some (si_heap w !! p) -> inv (w <| tq ::= usteer_timeout_set ts p ms |>).
Proof.
  intros [Ht Hq Hsi Hno] Hp. split; [|by apply set_wf|done|by destruct Hno].
  rewrite abs_set_timer. apply table_arm_wf; [done|]. rewrite abs_si. by rewrite fmap_is_Some.
Qed.
Lemma inv_cancel_timer p w : inv w -> inv (w <| tq ::= usteer_timeout_cancel p |>).
Proof.
  intros [Ht Hq Hsi Hno]. split; [|by apply cancel_wf|done|by destruct Hno].
  rewrite abs_cancel_timer. by apply table_disarm_wf.
Qed.

(** The state after [usteer_sta_info_update_timeout] on a [sta_info]. *)
Definition timeout_updated (p : ptr) (si : sta_info) (timeout : Z) w w' : Prop :=
  if si_connected si =? 1 then w' = w <| tq ::= usteer_timeout_cancel p |>
  else if 0 <? timeout then w' = w <| tq ::= usteer_timeout_set (clock w) p timeout |>
  else si_removed p w w'.

Lemma usteer_sta_info_update_timeout_spec p si timeout w :
  inv w -> si_heap w !! p = Some si ->
  wp (usteer_sta_info_update_timeout p timeout)
     (fun _ w' => inv w' /\ timeout_updated p si timeout w w') w.
Proof.
  intros Hi Hp. unfold usteer_sta_info_update_timeout, timeout_updated.
  apply wp_bind. eapply wp_get_si; [done|].
  destruct (si_connected si =? 1); [|destruct (0 <? timeout)].
  - apply wp_modify. split; [by apply inv_cancel_timer|done].
  - apply wp_modify. split; [apply inv_set_timer; eauto|done].
  - eapply wp_mono; [by eapply usteer_sta_info_del_spec|]. intros [] w' Hr. split; [apply Hr|done].
Qed.

(** With a positive timeout the object survives. *)
Lemma timeout_updated_pos p si timeout w w' :
  0 < timeout -> timeout_updated p si timeout w w' ->
  frame w w' /\ si_heap w' = si_heap w /\ stations w' = stations w /\
  node_heap w' = node_heap w /\ out w' = out w /\
  abs w' = (if si_connected si =? 1 then table_disarm p (abs w) else table_arm p (abs w)).
Proof.
  intros Ht. unfold timeout_updated. rewrite (proj2 (Z.ltb_lt _ _) Ht).
  destruct (si_connected si =? 1); intros ->; rewrite ?abs_set_timer, ?abs_cancel_timer; by split.
Qed.

(** The signal [usteer_sta_info_update] keeps. *)
Definition updated_signal (si : sta_info) (signal : Z) (avg : bool) : Z :=
  if (si_connected si =? 1) && negb (si_signal si =? NO_SIGNAL) && negb avg then si_signal si
  else if signal =? NO_SIGNAL then si_signal si else signal.

Lemma updated_signal_ok si signal avg :
  signal_ok (si_signal si) -> signal_ok signal -> signal_ok (updated_signal si signal avg).
Proof. intros. unfold updated_signal. by repeat case_match. Qed.

Lemma usteer_sta_info_update_spec p si signal avg w :
  inv w -> si_heap w !! p = Some si -> signal_ok signal ->
  wp (usteer_sta_info_update p signal avg)
     (fun _ w' => inv w' /\
        let si' := si <| si_signal := updated_signal si signal avg |>
                      <| si_seen := current_time w |> in
        timeout_updated p si' (s32 (local_sta_timeout (config w)))
          (w <| si_heap ::= <[p := si']> |>) w') w.
Proof.
  intros Hi Hp Hsok. assert (Hok : signal_ok (updated_signal si signal avg)) by (apply updated_signal_ok; [apply (inv_si _ Hi p si Hp)|done]).
  unfold usteer_sta_info_update. unfold updated_signal in *.
  do 4 wp_step. apply wp_bind. eapply wp_get_si; [done|]. apply wp_bind.
  set (c := (si_connected si =? 1) && negb (si_signal si =? NO_SIGNAL) && negb avg).
  set (sg := if c then NO_SIGNAL else signal).
  set (si1 := si <| si_signal := if sg =? NO_SIGNAL then si_signal si else sg |>).
  assert (Hsig : si_signal si1 = if c then si_signal si else if signal =? NO_SIGNAL then si_signal si else signal).
  { unfold si1, sg. simpl. by destruct c. }
  eapply wp_mono with (P := fun _ w1 => w1 = w <| si_heap ::= <[p := si1]> |>).
  { apply wp_when; intros Hs.
    - eapply wp_upd_si; [done|]. apply negb_true_iff in Hs. unfold si1. by rewrite Hs.
    - apply negb_false_iff in Hs. unfold si1. rewrite Hs. unfold set_field. simpl.
      destruct w. simpl in *. f_equal. rewrite insert_id; [done|]. by destruct si. }
  intros [] w1 ->. apply wp_bind.
  eapply wp_upd_si; [simpl; apply lookup_insert_eq|]. simpl.
  rewrite insert_insert_eq. fold c in Hok |- *. rewrite <- Hsig in Hok |- *.
  eapply wp_mono; [apply usteer_sta_info_update_timeout_spec|].
  - eapply (inv_set_si p si); [done|done|done|]. destruct (inv_si _ Hi p si Hp) as (? & ? & _). by split.
  - simpl. apply lookup_insert_eq.
  - intros [] w' [? ?]. by split.
Qed.

(** ** Removing many *)

(** The objects of [l] are gone and the others are as they were. *)
Record sis_removed (l : list ptr) w w' : Prop := {
  sr_inv : inv w';
  sr_frame : frame w w';
  sr_heap p : si_heap w' !! p = if decide (p ∈ l) then None else si_heap w !! p;
  sr_empty : no_empty_sta (abs w) -> no_empty_sta (abs w');
  sr_out : out w' = out w;
}.

Lemma sis_removed_nil w : inv w -> sis_removed [] w w.
Proof. intros Hi. by split. Qed.

Lemma sis_removed_snoc l p w w1 w2 :
  sis_removed l w w1 -> si_removed p w1 w2 -> sis_removed (l ++ [p]) w w2.
Proof.
  intros [? ? Hh He Ho] (Hi & Ha & Hf & Hh2 & Htq & Ho2). split.
  - done.
  - by etrans.
  - intros q. rewrite Hh2, lookup_delete, Hh.
    destruct (decide (p = q)); [subst; rewrite decide_True by set_solver; done|].
    repeat case_decide; set_solver.
  - intros Hne. rewrite Ha. by apply table_si_del_no_empty, He.
  - congruence.
Qed.

Lemma usteer_sta_node_cleanup_spec n x w :
  inv w -> node_heap w !! n = Some x ->
  wp (usteer_sta_node_cleanup n) (fun _ w' =>
    sis_removed (node_sta_info x) (w <| node_heap ::= <[n := x <| rrm_nr := None |>]> |>) w' /\
    t_node (abs w') !! n = Some []) w.
Proof.
  intros Hi Hn. unfold usteer_sta_node_cleanup. apply wp_bind. eapply wp_upd_node; [done|].
  set (w0 := w <| node_heap ::= <[n := x <| rrm_nr := None |>]> |>).
  assert (Hi0 : inv w0) by by eapply inv_set_node.
  assert (Hn0 : node_heap w0 !! n = Some (x <| rrm_nr := None |>)) by apply lookup_insert_eq.
  apply wp_bind. eapply wp_get_node; [done|]. simpl.
  assert (Ht0 : t_node (abs w0) !! n = Some (node_sta_info x)) by by rewrite abs_node, Hn0.
  eapply (wp_for_each (fun don rest w' => sis_removed don w0 w' /\ t_node (abs w') !! n = Some rest)).
  - split; [by apply sis_removed_nil|done].
  - intros don p rest w' Hl [Hr Ht].
    assert (Hnd := tw_node_nodup _ (inv_table _ (sr_inv _ _ _ Hr)) _ _ Ht).
    apply list.NoDup_cons in Hnd as [Hnin _].
    destruct (tw_node_si _ (inv_table _ (sr_inv _ _ _ Hr)) _ _ p Ht) as [b Hb]; [set_solver|].
    destruct (proj1 (abs_si_Some _ _ _) Hb) as (si & Hp & Hk).
    eapply wp_mono; [eapply usteer_sta_info_del_spec; [apply Hr|done]|].
    intros [] w2 Hrem. split; [by eapply sis_removed_snoc|].
    destruct Hrem as (_ & -> & _). rewrite (del_node_lookup p b n) by done.
    rewrite decide_True, Ht by done. simpl. by rewrite list_del_cons_eq.
  - intros w' [? ?]. done.
Qed.

(** ** The timer of the stations *)

Lemma del_run_queue p w w' :
  p ∉ q_ids (tq w) -> usteer_sta_info_timeout p w = Ok (tt, w') ->
  tq w' = tq w /\ clock w' = clock w.
Proof.
  unfold usteer_sta_info_timeout. intros Hnin Hrun.
  destruct (si_heap w !! p) as [si|] eqn:Hp;
    [destruct (stations w !! si_sta si) as [s|] eqn:Hs;
      [destruct (node_heap w !! si_node si) as [x|] eqn:Hx|]|].
  { erewrite usteer_sta_info_del_run in Hrun by done. simplify_eq. unfold del_world. simpl.
    split; [by apply cancel_not_in|done]. }
  all: exfalso; revert Hrun; unfold usteer_sta_info_del, usteer_beacon_report_cleanup, upd_si,
    upd_sta, upd_node, get_si, get_sta, get_node, gets, modify, deref, mbind, M_bind;
    rewrite Hp; simpl; rewrite ?Hp; simpl; rewrite ?Hs; simpl; rewrite ?Hx; simpl; done.
Qed.

(** With a timeout that is not positive the update of a [sta_info] that is not
    connected frees it. *)
Lemma usteer_sta_info_update_drops p si signal avg w :
  inv w -> si_heap w !! p = Some si -> si_connected si ≠ 1 -> s32 (local_sta_timeout (config w)) <= 0 ->
  wp (usteer_sta_info_update p signal avg) (fun _ w' => si_heap w' !! p = None) w.
Proof.
  intros Hi Hp Hc Ht. destruct (inv_si_sta w p si Hi Hp) as (st & Hst & _).
  destruct (inv_si_node w p si Hi Hp) as (x & Hx & _).
  unfold usteer_sta_info_update. do 4 wp_step. apply wp_bind. eapply wp_get_si; [done|].
  apply wp_bind. rewrite (proj2 (Z.eqb_neq _ _) Hc). simpl.
  eapply wp_mono with (P := fun _ w1 => exists si1, si_heap w1 !! p = Some si1 /\ si_connected si1 = si_connected si /\
    si_sta si1 = si_sta si /\ si_node si1 = si_node si /\ stations w1 = stations w /\ node_heap w1 = node_heap w).
  { unfold when. destruct (negb _); [eapply wp_upd_si; [done|]|apply wp_ret; eauto 10].
    eexists. split; [apply lookup_insert_eq|done]. }
  intros [] w1 (si1 & Hp1 & Hc1 & Hs1 & Hn1 & Hst1 & Hx1). apply wp_bind. eapply wp_upd_si; [done|].
  unfold usteer_sta_info_update_timeout. apply wp_bind. eapply wp_get_si; [apply lookup_insert_eq|].
  simpl. rewrite Hc1, (proj2 (Z.eqb_neq _ _) Hc), (proj2 (Z.ltb_ge _ _) Ht).
  apply wp_ok. eexists _, _. split.
  - eapply usteer_sta_info_del_run; [apply lookup_insert_eq|simpl; by rewrite Hs1, Hst1|simpl; by rewrite Hn1, Hx1].
  - simpl. apply lookup_delete_eq.
Qed.

Definition tq_mod (f : usteer_timeout_queue T -> usteer_timeout_queue T) w := w <| tq ::= f |>.

(** The queue calls [usteer_sta_info_timeout] ([tq.cb], set by [usteer_sta_init]). *)
Definition sta_timer_expired (fuel : nat) : M (world T) unit :=
  usteer_timeout_cb tq tq_mod clock (Some usteer_sta_info_timeout) fuel.

Lemma fire_spec p si w :
  inv w -> si_heap w !! p = Some si ->
  wp (fire tq_mod (Some usteer_sta_info_timeout) p) (fun _ w' => si_removed p w w') w.
Proof.
  intros Hi Hp. unfold fire. wp_steps.
  set (w1 := tq_mod (usteer_timeout_cancel p) w).
  eapply wp_mono; [apply (usteer_sta_info_del_spec p si w1); [by apply inv_cancel_timer|done]|].
  intros [] w' (Hi' & Ha & Hf & Hh & Hq & Ho).
  split; [done|]. split; [|split; [by etrans; [|exact Hf]|split; [done|split; [|done]]]].
  - rewrite Ha. unfold w1, tq_mod. rewrite abs_cancel_timer. unfold table_si_del. simpl.
    destruct (si_key <$> si_heap w !! p) as [[b m]|] eqn:E.
    + rewrite lookup_fmap, E. unfold set_field. simpl. f_equal. set_solver.
    + by rewrite Hp in E.
  - rewrite Hq. unfold w1, tq_mod. simpl. apply cancel_not_in.
    rewrite elem_of_cancel_ids. naive_solver.
Qed.

Lemma for_each_fire_spec (l : list ptr) w :
  inv w -> NoDup l -> (forall p, p ∈ l -> is_Some (si_heap w !! p)) ->
  wp (for_each (fire tq_mod (Some usteer_sta_info_timeout)) l)
     (fun _ w' => sis_removed l w w') w.
Proof.
  intros Hi Hnd Hl. eapply (wp_for_each (fun don rest w' => sis_removed don w w')).
  - by apply sis_removed_nil.
  - intros don p rest w' -> Hr.
    destruct (Hl p) as [si Hp]; [set_solver|].
    apply list.NoDup_app in Hnd as (_ & Hd & _).
    eapply wp_mono; [apply (fire_spec p si)|].
    + apply Hr.
    + rewrite (sr_heap _ _ _ Hr), decide_False; [done|]. intros Hin. apply (Hd p Hin). set_solver.
    + intros [] w2 Hrem. by eapply sis_removed_snoc.
  - done.
Qed.

Lemma due_timers_prefix {A} time (l : list (Z * A)) : due_timers time l `prefix_of` l.*2.
Proof.
  induction l as [|[k t] l IH]; [by exists []|]. simpl. destruct (0 <? _); [apply prefix_nil|by apply prefix_cons].
Qed.

(** Setting the timer of the queue leaves the queue alone. *)
Lemma sis_removed_recalc l ts time w w1 :
  sis_removed l w w1 -> sis_removed l w (tq_mod (usteer_timeout_recalc ts time) w1).
Proof.
  intros [[Ht1 Hq1 Hs1 Hn1] Hfr Hh Hem Ho].
  assert (Hids : q_ids (usteer_timeout_recalc ts time (tq w1)) = q_ids (tq w1))
    by (unfold q_ids; by rewrite recalc_elems).
  assert (Habs : abs (tq_mod (usteer_timeout_recalc ts time) w1) = abs w1).
  { unfold abs, tq_mod, set_field. simpl. by rewrite Hids. }
  split; try done.
  - split; [by rewrite Habs| |done|by destruct Hn1].
    unfold q_wf. simpl. by rewrite Hids.
  - by etrans; [|split].
Qed.

(** Whatever the deadlines are, the timer's handler only removes timed objects. *)
Lemma sta_timer_expired_removes fuel w :
  inv w -> (S (length (q_elems (tq w))) < fuel)%nat ->
  wp (sta_timer_expired fuel) (fun _ w' => exists l, sis_removed l w w') w.
Proof.
  intros Hi Hf.
  assert (Hcbq : forall t w1 w2, t ∉ q_ids (tq w1) -> run_cb (Some usteer_sta_info_timeout) t w1 = Ok (tt, w2) ->
    tq w2 = tq w1 /\ clock w2 = clock w1) by (intros ????; by apply del_run_queue).
  unfold wp, sta_timer_expired. rewrite (timeout_cb_eq tq tq_mod clock (Some usteer_sta_info_timeout)
    ltac:(done) ltac:(done) Hcbq fuel w (inv_tq _ Hi) Hf).
  set (l := due_timers _ _). assert (Hp : l `prefix_of` q_ids (tq w)) by apply due_timers_prefix.
  apply (wp_bind (S := world T)). eapply wp_mono; [apply (for_each_fire_spec l)|].
  - done.
  - destruct Hp as [k Hk]. assert (H := inv_tq _ Hi). unfold q_wf in H. rewrite Hk in H.
    by apply list.NoDup_app in H as (? & _).
  - intros p Hin. apply (fmap_is_Some si_key). rewrite <- abs_si.
    apply (tw_armed _ (inv_table _ Hi)). apply abs_armed. destruct Hp as [k ->]. set_solver.
  - intros [] w1 Hr. apply wp_modify. exists l. by apply sis_removed_recalc.
Qed.

(** The expired objects [l] are gone, the queue keeps the other timers and is
    armed for the first of them. *)
Lemma sta_timer_expired_spec fuel D w :
  let now := ts_ms (clock w) in
  inv w -> q_rep D (tq w) -> q_window now D (tq w) ->
  (S (length (q_elems (tq w))) < fuel)%nat ->
  let l := due_timers (u32 now) (q_elems (tq w)) in
  wp (sta_timer_expired fuel) (fun _ w' => sis_removed l w w' /\
    q_elems (tq w') = drop (length l) (q_elems (tq w)) /\ q_rep D (tq w') /\ q_armed now D (tq w')) w.
Proof.
  intros now Hi Hrep Hwin Hf l.
  assert (Hcbq : forall t w1 w2, t ∉ q_ids (tq w1) -> run_cb (Some usteer_sta_info_timeout) t w1 = Ok (tt, w2) ->
    tq w2 = tq w1 /\ clock w2 = clock w1) by (intros ????; by apply del_run_queue).
  unfold wp, sta_timer_expired. rewrite (timeout_cb_eq tq tq_mod clock (Some usteer_sta_info_timeout)
    ltac:(done) ltac:(done) Hcbq fuel w (rep_wf _ _ Hrep) Hf).
  rewrite current_time_u32. fold now l. apply (wp_bind (S := world T)).
  assert (Hwf : NoDup (q_ids (tq w))) by apply Hrep.
  assert (Hl : NoDup l /\ forall p, p ∈ l -> is_Some (si_heap w !! p)).
  { destruct (due_timers_spec now D (q_elems (tq w)) (rep_keys _ _ Hrep) (rep_sorted _ _ Hrep) Hwin) as [Hin Htk].
    fold l in Hin, Htk. split.
    - rewrite Htk. unfold q_ids in Hwf. rewrite <- (take_drop (length l) (q_elems (tq w)).*2) in Hwf.
      by apply list.NoDup_app in Hwf as (? & _ & _).
    - intros p [Hp _]%Hin. apply (fmap_is_Some si_key). rewrite <- abs_si.
      apply (tw_armed _ (inv_table _ Hi)). by apply abs_armed. }
  destruct Hl as [Hl1 Hl2].
  eapply wp_mono_run; [by apply for_each_fire_spec|]. intros [] w1 Hrun Hr.
  destruct (for_each_fire tq tq_mod clock _ ltac:(done) ltac:(done) Hcbq (u32 now) _ w w1 eq_refl Hwf Hrun)
    as [Hel Hcl]. fold l in Hel.
  apply wp_modify.
  assert (Hrep1 : q_rep D (tq w1) /\ q_window now D (tq w1)).
  { destruct Hrep as [Hw Hk Hs]. unfold q_window, q_wf, q_ids in *.
    rewrite <- (take_drop (length l) (q_elems (tq w))) in Hk, Hs, Hwf, Hwin.
    rewrite fmap_app in Hwf. apply list.NoDup_app in Hwf as (_ & _ & Hwf).
    apply Forall_app in Hk as [_ Hk], Hwin as [_ Hwin]. split; [split|].
    - unfold q_wf, q_ids. by rewrite Hel.
    - by rewrite Hel.
    - rewrite Hel. clear -Hs. induction (take _ _) as [|x l1 IH]; [done|].
      apply StronglySorted_inv in Hs as [Hs _]. auto.
    - by rewrite Hel. }
  assert (Hq : forall w2, usteer_timeout_recalc (clock w) (u32 now) (tq w1) = tq w2 ->
    q_elems (tq w2) = drop (length l) (q_elems (tq w)) /\ q_rep D (tq w2) /\ q_armed now D (tq w2)).
  { intros w2 <-. rewrite recalc_elems, Hel. split; [done|].
    destruct Hrep1 as [[Hw1 Hk1 Hs1] Hwin1]. split.
    - split; unfold q_wf, q_ids; by rewrite recalc_elems.
    - unfold now. rewrite <- current_time_u32. by apply recalc_armed. }
  split; [|by apply Hq].
  unfold tq_mod. by apply sis_removed_recalc.
Qed.
End sta_spec.
