(* ===== verification/Beside.v ===== *)
(** * What an operation at some nodes leaves alone

    Everything but the stations at these nodes: the other nodes with their lists,
    the [sta_info]s at them and their timers, what is known of a station itself,
    and the daemon's own sequence number, script and timers. *)
From S2P Require Import Prelude Blob Timeout Types Table World Beacon Sta.

Section beside.
Context {T : Type} `{!AvlTree Z ptr T} `{!AvlLaws Z ptr T}.
Implicit Types (w : world T) (p q : ptr) (si : sta_info) (a : mac) (n : node_id) (P : node_id -> Prop).

Definition own_state w : Z * option string * option Z * option Z * option Z :=
  (msg_seq w, node_up_script w, remote_timer w, reload_timer w, vendor_timer w).

Definition sta_flags (s : sta) : Z * Z := (seen_2ghz s, seen_5ghz s).

(** Only nodes that satisfy [P] are concerned. *)
Record beside P w w' : Prop := {
  bs_sta a s : stations w !! a = Some s -> exists s', stations w' !! a = Some s' /\ sta_flags s' = sta_flags s;
  bs_new a s' : stations w !! a = None -> stations w' !! a = Some s' -> sta_flags s' = (0, 0);
  bs_node n : ~ P n -> node_heap w' !! n = node_heap w !! n;
  bs_si q si : si_heap w !! q = Some si -> ~ P (si_node si) -> si_heap w' !! q = Some si;
  bs_timer q si k : si_heap w !! q = Some si -> ~ P (si_node si) ->
    (k, q) ∈ q_elems (tq w') <-> (k, q) ∈ q_elems (tq w);
  bs_own : own_state w' = own_state w;
}.

#[export] Instance beside_preorder P : PreOrder (beside P).
Proof.
  split; [intros w; split; try done; [by eauto|congruence]|]. intros w1 w2 w3 H1 H2. split.
  - intros a s Hs. destruct (bs_sta _ _ _ H1 a s Hs) as (s1 & Hs1 & <-). exact (bs_sta _ _ _ H2 a s1 Hs1).
  - intros a s Hn Hs. destruct (stations w2 !! a) as [s2|] eqn:E.
    + destruct (bs_sta _ _ _ H2 a s2 E) as (s3 & Hs3 & Hf). assert (s3 = s) as -> by congruence. rewrite Hf. exact (bs_new _ _ _ H1 a s2 Hn E).
    + exact (bs_new _ _ _ H2 a s E Hs).
  - intros n Hn. by rewrite (bs_node _ _ _ H2), (bs_node _ _ _ H1).
  - intros q si Hq Hn. eapply bs_si; [exact H2| |done]. by eapply bs_si.
  - intros q si k Hq Hn. rewrite (bs_timer _ _ _ H2 q si k); [|by eapply bs_si|done]. by eapply bs_timer.
  - by rewrite (bs_own _ _ _ H2), (bs_own _ _ _ H1).
Qed.

Lemma beside_mono P P' w w' : beside P w w' -> (forall n, P n -> P' n) -> beside P' w w'.
Proof. intros [] H. split; eauto. Qed.

(** Assignments to a [sta_info] and to a node. *)
Lemma beside_si P p si si' w :
  si_heap w !! p = Some si -> P (si_node si) -> beside P w (w <| si_heap ::= <[p := si']> |>).
Proof.
  intros Hp Hn. split; simpl; try done; [by eauto|congruence|].
  intros q sq Hq Hnq. rewrite lookup_insert_ne; [done|]. intros <-. by simplify_eq.
Qed.
Lemma beside_set_node P n x w : P n -> beside P w (w <| node_heap ::= <[n := x]> |>).
Proof.
  intros Hn. split; simpl; try done; [by eauto|congruence|].
  intros m Hm. rewrite lookup_insert_ne; [done|]. by intros <-.
Qed.
Lemma beside_same P w w' :
  stations w' = stations w -> node_heap w' = node_heap w -> si_heap w' = si_heap w -> tq w' = tq w ->
  own_state w' = own_state w -> beside P w w'.
Proof.
  intros Hs Hn Hh Ht Ho. split; rewrite ?Hs, ?Hn, ?Hh, ?Ht; try done; [by eauto|congruence].
Qed.

(** The timer of one [sta_info]. *)
Lemma beside_timer P p si f w :
  si_heap w !! p = Some si -> P (si_node si) ->
  (forall q k, q ≠ p -> (k, q) ∈ q_elems (f (tq w)) <-> (k, q) ∈ q_elems (tq w)) ->
  beside P w (w <| tq ::= f |>).
Proof.
  intros Hp Hn Hf. split; simpl; try done; [by eauto|congruence|].
  intros q sq k Hq Hnq. apply Hf. intros ->. by simplify_eq.
Qed.
Lemma set_elems_other ts t msecs (tr : usteer_timeout_queue T) (q : ptr) k :
  q ≠ t -> (k, q) ∈ q_elems (usteer_timeout_set ts t msecs tr) <-> (k, q) ∈ q_elems tr.
Proof.
  intros Hq. destruct (set_elems ts t msecs tr) as (l1 & l2 & Hold & -> & _).
  assert (Hf : (k, q) ∈ filter (fun x => x.2 ≠ t) (q_elems tr) <-> (k, q) ∈ q_elems tr).
  { rewrite list_elem_of_filter. simpl. tauto. }
  rewrite <- Hf, Hold, !elem_of_app, elem_of_cons. split; [|tauto].
  intros [?|[[= ? ?]|?]]; [by left|done|by right].
Qed.
Lemma cancel_elems_other t (tr : usteer_timeout_queue T) (q : ptr) k :
  q ≠ t -> (k, q) ∈ q_elems (usteer_timeout_cancel t tr) <-> (k, q) ∈ q_elems tr.
Proof. intros Hq. rewrite cancel_elems, list_elem_of_filter. simpl. tauto. Qed.

Lemma update_timeout_beside P p si ms w :
  si_heap w !! p = Some si -> P (si_node si) -> 0 < ms ->
  wp (usteer_sta_info_update_timeout p ms) (fun _ w' => beside P w w') w.
Proof.
  intros Hp Hn Hms. unfold usteer_sta_info_update_timeout. apply wp_bind. eapply wp_get_si; [done|].
  rewrite (proj2 (Z.ltb_lt _ _) Hms). destruct (_ =? 1); apply wp_modify.
  - eapply beside_timer; [done..|]. intros q k. apply cancel_elems_other.
  - apply (beside_timer P p si (usteer_timeout_set (clock w) p ms)); [done..|]. intros q k. apply set_elems_other.
Qed.

(** Finding or creating a station and its [sta_info]. *)
Lemma usteer_sta_get_beside P a c w : wp (usteer_sta_get a c) (fun _ w' => beside P w w') w.
Proof.
  unfold usteer_sta_get. do 2 wp_step. destruct (stations w !! a) as [s|] eqn:Ea; [by apply wp_ret|].
  destruct c; simpl; [|by apply wp_ret]. wp_steps. split; simpl; try done.
  - intros b s Hb. exists s. split; [|done]. rewrite lookup_insert_ne; [done|]. congruence.
  - intros b s Hb. rewrite lookup_insert. case_decide; [by intros [= <-]|congruence].
Qed.

Lemma usteer_sta_info_get_beside P a n c s x w :
  inv w -> stations w !! a = Some s -> node_heap w !! n = Some x -> P n ->
  wp (usteer_sta_info_get a n c) (fun _ w' => beside P w w') w.
Proof.
  intros Hi Ha Hn HP. unfold usteer_sta_info_get.
  apply wp_bind. eapply wp_get_sta; [done|]. apply wp_bind.
  eapply wp_mono; [by eapply sta_scan_spec|]. intros r w' [-> _].
  destruct r as [p|]; [by apply wp_ret|]. destruct c; simpl; [|by apply wp_ret].
  apply wp_bind. eapply wp_get_node; [done|]. wp_steps.
  eapply wp_upd_sta; [done|]. simpl. apply wp_bind. eapply wp_upd_node; [done|]. simpl.
  apply wp_ret. assert (Hb := inv_brk_fresh _ Hi). split; simpl; try done.
  - intros b sb Hs. rewrite lookup_insert. case_decide; [subst; simplify_eq; by eexists|by eauto].
  - intros b sb Hs. rewrite lookup_insert. case_decide; [subst; congruence|congruence].
  - intros m Hm. rewrite lookup_insert_ne; [done|]. by intros <-.
  - intros q sq Hq _. rewrite lookup_insert_ne; [done|]. congruence.
Qed.
End beside.
