(* ===== verification/UbusClient.v ===== *)
(** * What the policy asks hostapd to do (ubus.c, last part)

    Kicking a client, announcing a kick, and having a client scan. Each call
    builds its message and hands it to [ubus_invoke]; the return values are not
    used by the callers. *)
From S2P Require Import Prelude Blob Timeout Types Table World Beacon.

Section ubus_client.
Context `{!Blobmsg}.

(** The entry a node contributes to the [neighbors] array: the third string of
    its neighbor report, when both nodes serve the same SSID. *)
Definition usteer_add_nr_entry (ln node : usteer_node) : list bval :=
  match rrm_nr node with
  | None => []
  | Some nr =>
      if negb (bool_decide (ssid ln = ssid node)) then [] else
        let tb := blobmsg_parse_array (replicate 3 BLOBMSG_TYPE_STRING) nr in
        match attr tb 2 with
        | None => []
        | Some v => [v]
        end
  end.

(** The three slots of [filtered_local], in [usteer_ubus_notify_client_disassoc]:
    the index and the value of the lowest RCPI among them. *)
Definition lowest_slot (l : list beacon_report) : nat * Z :=
  let r j := default 0 (br_rcpi <$> l !! j) in
  fold_left (fun '(index, lowest) j => if r j <? lowest then (j, r j) else (index, lowest))
    [1; 2]%nat (0%nat, r 0%nat).

Definition filter_local (l : list beacon_report) (br : beacon_report) : list beacon_report :=
  if (length l <? 3)%nat then l ++ [br]
  else
    let '(index, lowest) := lowest_slot l in
    if lowest <? br_rsni br then <[index := br]> l else l.

Context {T : Type} `{!AvlTree Z ptr T}.

Definition usteer_ubus_kick_client (p : ptr) : M (world T) unit :=
  si ← get_si p;
  s ← local_name (si_node si);
  ln ← get_ln s;
  cfg ← gets config;
  emit (UbusInvoke (obj_id ln) "del_client"
    [("addr", VString (mac_addr_fmt (si_sta si)));
     ("reason", VU32 (load_kick_reason_code cfg));
     ("deauth", VU8 1)]) ;;
  now ← gets current_time;
  upd_si p (fun si => si <| si_connected := 0 |> <| si_roam_kick := now |>).

Definition usteer_ubus_trigger_client_scan (p : ptr) : M (world T) unit :=
  si ← get_si p;
  s ← local_name (si_node si);
  ln ← get_ln s;
  upd_si p (fun si => si <| si_scan_band := if si_scan_band si =? 0 then 1 else 0 |>) ;;
  si ← get_si p;
  emit (UbusInvoke (obj_id ln) "rrm_beacon_req"
    [("addr", VString (mac_addr_fmt (si_sta si)));
     ("mode", VU32 1);
     ("duration", VU32 65535);
     ("channel", VU32 255);
     ("op_class", VU32 (if si_scan_band si =? 0 then 12 else 1))]).

(** The [neighbors] of one list of nodes. *)
Definition nr_entries (ln : usteer_node) (nodes : list node_id) : M (world T) (list bval) :=
  for_fold (fun acc n => x ← get_node n; mret (acc ++ usteer_add_nr_entry ln x)) [] nodes.

Definition usteer_ubus_notify_client_disassoc (p : ptr) : M (world T) unit :=
  si ← get_si p;
  s ← local_name (si_node si);
  ln ← get_ln s;
  cfg ← gets config;
  node ← get_node (si_node si);
  filtered_local ← for_fold (fun acc br =>
      r ← get_usteer_node_from_bssid (br_bssid br);
      mret (match r with
            | None => acc
            | Some _ => filter_local acc br
            end)) [] (si_beacon_reports si);
  neighbors ← for_fold (fun acc br =>
      r ← get_usteer_node_from_bssid (br_bssid br);
      n ← deref NullDeref (fun _ => r);
      x ← get_node n;
      mret (acc ++ usteer_add_nr_entry node x)) [] filtered_local;
  neighbors ←
    (if negb (bool_decide (filtered_local = [])) then mret neighbors
     else
       locals ← gets local_nodes;
       remotes ← gets remote_nodes;
       nr_entries node (map NLocal locals ++ map (fun k => NRemote k.1 k.2) remotes));
  emit (UbusInvoke (obj_id ln) "wnm_disassoc_imminent"
    [("addr", VString (mac_addr_fmt (si_sta si)));
     ("duration", VU32 (roam_kick_delay cfg));
     ("neighbors", VArray neighbors)]).
End ubus_client.

(** ** Specifications *)
Section ubus_client_spec.
Context `{!Blobmsg} {T : Type} `{!AvlTree Z ptr T}.
Implicit Types (w : world T) (p : ptr).

Lemma inv_local_ln w p si s :
  inv w -> si_heap w !! p = Some si -> si_node si = NLocal s -> exists ln, ln_heap w !! s = Some ln.
Proof.
  intros Hi Hp Hs. destruct (inv_si_node w p si Hi Hp) as (x & Hx & _).
  apply (no_ln _ (inv_nodes _ Hi)). rewrite Hs in Hx. eauto.
Qed.

Lemma wp_local_name n s (Q : string -> world T -> Prop) w :
  n = NLocal s -> Q s w -> wp (local_name n) Q w.
Proof. by intros ->. Qed.

Definition kick_call (w : world T) (si : sta_info) (ln : usteer_local_node) : action :=
  UbusInvoke (obj_id ln) "del_client"
    [("addr", VString (mac_addr_fmt (si_sta si)));
     ("reason", VU32 (load_kick_reason_code (config w)));
     ("deauth", VU8 1)].

Definition kicked (w : world T) (si : sta_info) : sta_info :=
  si <| si_connected := 0 |> <| si_roam_kick := current_time w |>.

Lemma usteer_ubus_kick_client_spec p si s ln w Q :
  si_heap w !! p = Some si -> si_node si = NLocal s -> ln_heap w !! s = Some ln ->
  Q tt (w <| out ::= fun l => l ++ [kick_call w si ln] |> <| si_heap ::= <[p := kicked w si]> |>) ->
  wp (usteer_ubus_kick_client p) Q w.
Proof.
  intros Hp Hs Hl HQ. unfold usteer_ubus_kick_client.
  apply wp_bind. eapply wp_get_si; [done|]. apply wp_bind. eapply wp_local_name; [done|].
  apply wp_bind. eapply wp_get_ln; [done|]. unfold emit. wp_steps.
  by eapply wp_upd_si.
Qed.

Definition scan_toggled (si : sta_info) : sta_info :=
  si <| si_scan_band := if si_scan_band si =? 0 then 1 else 0 |>.

Definition scan_call (si : sta_info) (ln : usteer_local_node) : action :=
  UbusInvoke (obj_id ln) "rrm_beacon_req"
    [("addr", VString (mac_addr_fmt (si_sta si))); ("mode", VU32 1);
     ("duration", VU32 65535); ("channel", VU32 255);
     ("op_class", VU32 (if si_scan_band si =? 0 then 12 else 1))].

Lemma usteer_ubus_trigger_client_scan_spec p si s ln w Q :
  si_heap w !! p = Some si -> si_node si = NLocal s -> ln_heap w !! s = Some ln ->
  Q tt (w <| si_heap ::= <[p := scan_toggled si]> |>
          <| out ::= fun l => l ++ [scan_call (scan_toggled si) ln] |>) ->
  wp (usteer_ubus_trigger_client_scan p) Q w.
Proof.
  intros Hp Hs Hl HQ. unfold usteer_ubus_trigger_client_scan.
  apply wp_bind. eapply wp_get_si; [done|]. apply wp_bind. eapply wp_local_name; [done|].
  apply wp_bind. eapply wp_get_ln; [done|]. apply wp_bind. eapply wp_upd_si; [done|].
  apply wp_bind. eapply wp_get_si; [simpl; apply lookup_insert_eq|]. exact HQ.
Qed.

(** Reading loops: a fold whose body leaves the state alone does so too. *)
Lemma wp_for_fold_read {A B} (P : B -> Prop) (body : B -> A -> M (world T) B) (l : list A) acc w :
  P acc ->
  (forall acc x, P acc -> x ∈ l -> wp (body acc x) (fun r w' => w' = w /\ P r) w) ->
  wp (for_fold body acc l) (fun r w' => w' = w /\ P r) w.
Proof.
  intros Hacc Hb. apply (wp_for_fold (fun _ _ r w' => w' = w /\ P r)); [done|].
  intros don x rest r w' -> [-> Hr]. apply Hb; [done|set_solver].
Qed.

Lemma filter_local_Forall (P : beacon_report -> Prop) l br :
  Forall P l -> P br -> Forall P (filter_local l br).
Proof.
  intros Hl Hb. unfold filter_local. case_match.
  - apply Forall_app. auto.
  - destruct (lowest_slot l) as [i v]. case_match; [|done]. by apply Forall_insert.
Qed.
Lemma filter_local_length l br : (length l <= 3)%nat -> (length (filter_local l br) <= 3)%nat.
Proof.
  unfold filter_local. case_match eqn:E.
  - apply Nat.ltb_lt in E. rewrite length_app. simpl. lia.
  - destruct (lowest_slot l) as [i v]. case_match; [|done]. by rewrite length_insert.
Qed.

(** What a node contributes to the neighbors of [x]. *)
Definition neighbor_entry (w : world T) (x : usteer_node) (n : node_id) : list bval :=
  match node_heap w !! n with
  | Some y => usteer_add_nr_entry x y
  | None => []
  end.

Lemma nr_entries_spec x nodes w :
  (forall n, n ∈ nodes -> is_Some (node_heap w !! n)) ->
  wp (nr_entries x nodes) (fun r w' => w' = w /\ r = mjoin (map (neighbor_entry w x) nodes)) w.
Proof.
  intros Hn. apply (wp_for_fold (fun don _ r w' => w' = w /\ r = mjoin (map (neighbor_entry w x) don))); [done|].
  intros don n rest acc w' -> [-> ->]. destruct (Hn n) as [y Hy]; [set_solver|].
  apply wp_bind. eapply wp_get_node; [done|]. apply wp_ret. split; [done|].
  rewrite map_app, join_app. unfold neighbor_entry at 3. simpl. by rewrite Hy, app_nil_r.
Qed.

(** The reports that name the neighbors: at most three, of nodes that are known. *)
Definition chosen_reports (w : world T) (l : list beacon_report) : list beacon_report :=
  foldl (fun acc br => match node_of_bssid w (br_bssid br) with
                       | Some _ => filter_local acc br
                       | None => acc
                       end) [] l.

Definition all_nodes (w : world T) : list node_id :=
  map NLocal (local_nodes w) ++ map (fun k => NRemote k.1 k.2) (remote_nodes w).

(** The nodes of these reports, or all nodes when there is none. *)
Definition neighbor_nodes (w : world T) (l : list beacon_report) : list node_id :=
  match chosen_reports w l with
  | [] => all_nodes w
  | reports => omap (fun br => node_of_bssid w (br_bssid br)) reports
  end.

Definition neighbors (w : world T) (x : usteer_node) (si : sta_info) : list bval :=
  mjoin (map (neighbor_entry w x) (neighbor_nodes w (si_beacon_reports si))).

Definition report_known (w : world T) (br : beacon_report) : Prop := is_Some (node_of_bssid w (br_bssid br)).

Lemma chosen_reports_known w l : Forall (report_known w) (chosen_reports w l).
Proof.
  unfold chosen_reports. assert (Hnil : Forall (report_known w) []) by constructor.
  revert Hnil. generalize (@nil beacon_report). induction l as [|br l IH]; intros acc Hacc; simpl; [done|].
  apply IH. destruct (node_of_bssid w (br_bssid br)) eqn:E; [|done].
  apply filter_local_Forall; [done|]. by eexists.
Qed.
Lemma chosen_reports_length w l : (length (chosen_reports w l) <= 3)%nat.
Proof.
  unfold chosen_reports. assert (Hnil : (length (@nil beacon_report) <= 3)%nat) by (simpl; lia).
  revert Hnil. generalize (@nil beacon_report). induction l as [|br l IH]; intros acc Hacc; simpl; [done|].
  apply IH. case_match; [by apply filter_local_length|done].
Qed.

Lemma all_nodes_live w n : nodes_ok w -> n ∈ all_nodes w -> is_Some (node_heap w !! n).
Proof.
  intros Hno. unfold all_nodes. rewrite elem_of_app.
  intros [(t & -> & Ht)%list_elem_of_fmap|([i t] & -> & Ht)%list_elem_of_fmap]; by apply Hno.
Qed.

(** Whatever is offered is the neighbor report of a node of the same network. *)
Lemma neighbors_same_ssid w x si v :
  v ∈ neighbors w x si ->
  exists n y nr, node_heap w !! n = Some y /\ ssid y = ssid x /\ rrm_nr y = Some nr /\
    attr (blobmsg_parse_array (replicate 3 BLOBMSG_TYPE_STRING) nr) 2 = Some v.
Proof.
  intros (l & Hv & (n & -> & _)%list_elem_of_fmap)%list_elem_of_join.
  unfold neighbor_entry, usteer_add_nr_entry in Hv.
  destruct (node_heap w !! n) as [y|] eqn:Hy; [|by apply elem_of_nil in Hv].
  destruct (rrm_nr y) as [nr|] eqn:Hr; [|by apply elem_of_nil in Hv].
  case_bool_decide as Hs; simpl in Hv; [|by apply elem_of_nil in Hv].
  destruct (attr _ 2) as [v'|] eqn:Ha; [|by apply elem_of_nil in Hv].
  apply list_elem_of_singleton in Hv as ->. by exists n, y, nr.
Qed.

Definition notify_call (w : world T) (si : sta_info) (ln : usteer_local_node)
    (neighbors : list bval) : action :=
  UbusInvoke (obj_id ln) "wnm_disassoc_imminent"
    [("addr", VString (mac_addr_fmt (si_sta si)));
     ("duration", VU32 (roam_kick_delay (config w)));
     ("neighbors", VArray neighbors)].

Lemma usteer_ubus_notify_client_disassoc_spec p si s x ln w :
  inv w -> si_heap w !! p = Some si -> si_node si = NLocal s -> ln_heap w !! s = Some ln ->
  node_heap w !! NLocal s = Some x ->
  wp (usteer_ubus_notify_client_disassoc p) (fun _ w' =>
    w' = w <| out ::= fun l => l ++ [notify_call w si ln (neighbors w x si)] |>) w.
Proof.
  intros Hi Hp Hs Hl Hx. unfold usteer_ubus_notify_client_disassoc. assert (Hno := inv_nodes _ Hi).
  apply wp_bind. eapply wp_get_si; [done|]. apply wp_bind. eapply wp_local_name; [done|].
  apply wp_bind. eapply wp_get_ln; [done|]. do 2 wp_step.
  apply wp_bind. eapply wp_get_node; [by rewrite Hs|].
  apply wp_bind. eapply wp_mono.
  { apply (wp_for_fold (fun don _ r w' => w' = w /\ r = chosen_reports w don)); [done|].
    intros don br rest acc w1 _ [-> ->]. apply wp_bind, wp_node_of_bssid; [done|]. intros _.
    apply wp_ret. split; [done|]. unfold chosen_reports. by rewrite foldl_app. }
  intros fl w1 [-> ->]. set (fl := chosen_reports w (si_beacon_reports si)).
  assert (Hfl : Forall (report_known w) fl) by apply chosen_reports_known.
  set (found := fun l : list beacon_report => omap (fun br => node_of_bssid w (br_bssid br)) l).
  apply wp_bind. eapply wp_mono.
  { apply (wp_for_fold (fun don _ r w' => w' = w /\ r = mjoin (map (neighbor_entry w x) (found don)))); [done|].
    intros don br rest acc w1 Hfle [-> ->]. destruct (proj1 (list.Forall_forall _ _) Hfl br) as [n Hn].
    { fold fl in Hfle. rewrite Hfle. set_solver. }
    destruct (node_of_bssid_Some w _ n Hno Hn) as (y & Hy & _).
    apply wp_bind, wp_node_of_bssid; [done|]. intros _. rewrite Hn.
    apply wp_bind. eapply wp_deref; [done|]. apply wp_bind. eapply wp_get_node; [done|]. apply wp_ret.
    split; [done|]. unfold found. rewrite omap_app, map_app, join_app. simpl. rewrite Hn. simpl.
    unfold neighbor_entry at 3. by rewrite Hy, app_nil_r. }
  intros nbs w1 [-> ->]. apply wp_bind.
  eapply wp_mono with (P := fun r w' => w' = w /\ r = neighbors w x si).
  { unfold neighbors, neighbor_nodes. fold fl. fold (found fl). destruct fl as [|br l]; simpl; [|by apply wp_ret].
    do 4 wp_step. fold (all_nodes w). apply nr_entries_spec. intros n. by apply all_nodes_live. }
  intros nbs' w1 [-> ->]. unfold emit. wp_steps. done.
Qed.
End ubus_client_spec.
