(* ===== verification/Policy.v ===== *)
(** * Which access point is better (policy.c, first part)

    The comparisons between two nodes, the search for a better candidate and
    the decision about a probe, authentication or association request. The
    debug messages are left out; the [sta_info] they read is read anyway. *)
From S2P Require Import Prelude Blob Timeout Types Table World Beacon Sta.

(** ** Comparisons *)

(** [int] and [uint32_t] added in [uint32_t] and stored in the [int]. *)
Definition add_threshold (n thr : Z) : Z := s32 (u32 (n + thr)).

Definition below_assoc_threshold (cfg : usteer_config) (node_cur node_new : usteer_node) : bool :=
  let n_assoc_cur := n_assoc node_cur in
  let n_assoc_new := n_assoc node_new in
  let ref_5g := 4000 <? freq node_cur in
  let node_5g := 4000 <? freq node_new in
  let '(n_assoc_cur, n_assoc_new) :=
    if ref_5g && negb node_5g
    then (n_assoc_cur, add_threshold n_assoc_new (band_steering_threshold cfg))
    else if negb ref_5g && node_5g
    then (add_threshold n_assoc_cur (band_steering_threshold cfg), n_assoc_new)
    else (n_assoc_cur, n_assoc_new) in
  let n_assoc_new := add_threshold n_assoc_new (load_balancing_threshold cfg) in
  n_assoc_new <=? n_assoc_cur.

(** [None] when the difference of the signals overflows, which is undefined. *)
Definition better_signal_strength (cfg : usteer_config) (si_cur si_new : sta_info) : option bool :=
  let diff := si_signal si_new - si_signal si_cur in
  if (diff <? - 2 ^ 31) || (2 ^ 31 <=? diff) then None
  else
    let is_better := s32 (signal_diff_threshold cfg) <? diff in
    Some (if signal_diff_threshold cfg =? 0 then false else is_better).

Definition better_signal_strength_hearing_map (cfg : usteer_config) (br_cur br_new : beacon_report) : bool :=
  let rcpi_threshold := u16 (u32 (signal_diff_threshold cfg / 100 * 255)) in
  let is_better := rcpi_threshold <? br_rcpi br_new - br_rcpi br_cur in
  if signal_diff_threshold cfg =? 0 then false else is_better.

(** Both comparisons are between an [int] and a [uint32_t], hence unsigned. *)
Definition below_load_threshold (cfg : usteer_config) (node : usteer_node) : bool :=
  (load_kick_min_clients cfg <=? u32 (n_assoc node)) &&
  (load_kick_threshold cfg <? u32 (load node)).

Definition has_better_load (cfg : usteer_config) (node_cur node_new : usteer_node) : bool :=
  negb (below_load_threshold cfg node_cur) && below_load_threshold cfg node_new.

Definition below_max_assoc (node : usteer_node) : bool :=
  (max_assoc node =? 0) || (n_assoc node <? max_assoc node).

(** [is_better_candidate], with the nodes of the two [sta_info]s. *)
Definition is_better_candidate (cfg : usteer_config) (si_cur si_new : sta_info)
    (node_cur node_new : usteer_node) : option bool :=
  if negb (below_max_assoc node_new) then Some false
  else if below_assoc_threshold cfg node_cur node_new then Some true
  else
    better ← better_signal_strength cfg si_cur si_new;
    Some (better || has_better_load cfg node_cur node_new).

Definition snr_to_signal (node : usteer_node) (snr : Z) : Z :=
  let noise_ := -95 in
  if snr <? 0 then snr
  else
    let noise_ := if noise node =? 0 then noise_ else noise node in
    s32 (noise_ + snr).

(** ** Activity and kick preference *)

(** [None] when the division by [kick_client_active_sec] traps. *)
Definition usteer_get_client_active_bits (cfg : usteer_config) (si : sta_info) : option Z :=
  let active_bytes := si_active_bytes si in
  let rx_delta := u64 (data_1_0 active_bytes - data_0_0 active_bytes) in
  let tx_delta := u64 (data_1_1 active_bytes - data_0_1 active_bytes) in
  if kick_client_active_sec cfg =? 0 then None
  else Some (u64 (u64 (rx_delta + tx_delta) / kick_client_active_sec cfg * 8)).

Definition is_more_kickable (si_cur : option sta_info) (si_new : sta_info) : bool :=
  match si_cur with
  | None => true
  | Some si_cur =>
      if si_kick_count si_cur <? si_kick_count si_new then false
      else si_signal si_new <? si_signal si_cur
  end.

Section policy.
Context {T : Type} `{!AvlTree Z ptr T}.

Definition is_active_client (p : ptr) : M (world T) bool :=
  si ← get_si p;
  cfg ← gets config;
  client_active_ratio ← deref DivByZero (fun _ => usteer_get_client_active_bits cfg si);
  mret (kick_client_active_bits cfg <=? client_active_ratio).

Definition is_better_candidate_hearing_map (br_cur br_new : beacon_report) : M (world T) bool :=
  cfg ← gets config;
  node_new ← get_usteer_node_from_bssid (br_bssid br_new);
  node_cur ← get_usteer_node_from_bssid (br_bssid br_cur);
  nn ← deref NullDeref (fun _ => node_new);
  xn ← get_node nn;
  if negb (below_max_assoc xn) then mret false
  else
    nc ← deref NullDeref (fun _ => node_cur);
    xc ← get_node nc;
    mret (below_assoc_threshold cfg xc xn ||
          better_signal_strength_hearing_map cfg br_cur br_new ||
          has_better_load cfg xc xn).

(** The first loop: the report about the node the station is at. *)
Definition find_own_report (si_ref : sta_info) : M (world T) (option beacon_report) :=
  for_until (fun br =>
    node ← get_usteer_node_from_bssid (br_bssid br);
    match node with
    | None => mret None
    | Some n => mret (if bool_decide (n = si_node si_ref) then Some br else None)
    end) (si_beacon_reports si_ref).

(** The second loop; it is left at once when there is no such report. *)
Definition find_reported_candidate (si_ref : sta_info) (br_cur : option beacon_report) :
    M (world T) (option ptr) :=
  match br_cur with
  | None => mret None
  | Some br_cur =>
      for_until (fun br =>
        node ← get_usteer_node_from_bssid (br_bssid br);
        match node with
        | None => mret None
        | Some n =>
            if bool_decide (n = si_node si_ref) then mret None else
              x ← get_node n;
              x_ref ← get_node (si_node si_ref);
              if negb (bool_decide (ssid x = ssid x_ref)) then mret None else
                better ← is_better_candidate_hearing_map br_cur br;
                worse ← (if (better : bool) then is_better_candidate_hearing_map br br_cur
                         else mret true);
                if negb (better && negb worse) then mret None else
                  si_br ← get_si (br_address br);
                  r ← usteer_sta_info_get (si_sta si_br) n true;
                  mret (fst <$> r)
        end) (si_beacon_reports si_ref)
  end.

(** The third loop: the nodes that heard the station recently. *)
Definition find_seen_candidate (ref : ptr) (si_ref : sta_info) : M (world T) (option ptr) :=
  cfg ← gets config;
  now ← gets current_time;
  sta ← get_sta (si_sta si_ref);
  for_until (fun q =>
    if bool_decide (q = ref) then mret None else
      si ← get_si q;
      if seen_policy_timeout cfg <? u64 (now - si_seen si) then mret None else
        x ← get_node (si_node si);
        x_ref ← get_node (si_node si_ref);
        if negb (bool_decide (ssid x = ssid x_ref)) then mret None else
          better ← deref SignedOverflow (fun _ => is_better_candidate cfg si_ref si x_ref x);
          worse ← (if (better : bool) then deref SignedOverflow (fun _ => is_better_candidate cfg si si_ref x x_ref)
                   else mret true);
          mret (if better && negb worse then Some q else None)) (sta_nodes sta).

Definition find_better_candidate (ref : ptr) : M (world T) (option ptr) :=
  si_ref ← get_si ref;
  br_cur ← find_own_report si_ref;
  r ← find_reported_candidate si_ref br_cur;
  match r with
  | Some q => mret (Some q)
  | None => find_seen_candidate ref si_ref
  end.

Definition usteer_check_request (p : ptr) (type : usteer_event_type) : M (world T) bool :=
  if bool_decide (type = EVENT_TYPE_ASSOC) then mret true else
    cfg ← gets config;
    now ← gets current_time;
    si ← get_si p;
    stats ← deref OutOfBounds (fun _ => si_stats si !! event_idx type);
    if max_retry_band cfg <=? blocked_cur stats then mret true else
      node ← get_node (si_node si);
      let min_signal := snr_to_signal node (min_connect_snr cfg) in
      if si_signal si <? min_signal then mret false else
        if u64 (now - si_created si) <? initial_connect_delay cfg then mret false else
          si_new ← find_better_candidate p;
          match si_new with
          | None => mret true
          | Some _ => mret false
          end.
End policy.

(** ** Candidates, as predicates on the state *)
Section candidates.
Context {T : Type} `{!AvlTree Z ptr T} `{!AvlLaws Z ptr T}.
Implicit Types (w : world T) (p q : ptr) (si : sta_info) (br : beacon_report) (n : node_id).

(** [is_better_candidate_hearing_map] on nodes that are there. *)
Definition hm_better (w : world T) (br_cur br_new : beacon_report) : bool :=
  match node_of_bssid w (br_bssid br_new) ≫= (node_heap w !!.),
        node_of_bssid w (br_bssid br_cur) ≫= (node_heap w !!.) with
  | Some xn, Some xc =>
      below_max_assoc xn &&
      (below_assoc_threshold (config w) xc xn ||
       better_signal_strength_hearing_map (config w) br_cur br_new ||
       has_better_load (config w) xc xn)
  | _, _ => false
  end.

Lemma hearing_map_spec bc bn w nc nn :
  nodes_ok w ->
  node_of_bssid w (br_bssid bc) = Some nc -> node_of_bssid w (br_bssid bn) = Some nn ->
  wp (is_better_candidate_hearing_map bc bn) (fun r w' => w' = w /\ r = hm_better w bc bn) w.
Proof.
  intros Hno Hc Hn. unfold is_better_candidate_hearing_map, hm_better. rewrite Hc, Hn.
  destruct (node_of_bssid_Some w _ _ Hno Hc) as (xc & Hxc & _).
  destruct (node_of_bssid_Some w _ _ Hno Hn) as (xn & Hxn & _).
  do 2 wp_step.
  apply wp_bind, wp_node_of_bssid; [done|]; intros _.
  apply wp_bind, wp_node_of_bssid; [done|]; intros _. rewrite Hc, Hn. simpl. rewrite Hxc, Hxn.
  apply wp_bind. eapply wp_deref; [done|]. apply wp_bind. eapply wp_get_node; [done|].
  destruct (below_max_assoc xn); simpl; [|by apply wp_ret].
  apply wp_bind. eapply wp_deref; [done|]. apply wp_bind. eapply wp_get_node; [done|].
  by apply wp_ret.
Qed.

(** A report names a better node: it is on the list, about another node with
    the same SSID, better than the station's own report and not the reverse. *)
Definition reported_candidate w si_ref br_cur br n : Prop :=
  br ∈ si_beacon_reports si_ref /\ node_of_bssid w (br_bssid br) = Some n /\ n ≠ si_node si_ref /\
  (ssid <$> node_heap w !! n = ssid <$> node_heap w !! si_node si_ref) /\
  hm_better w br_cur br = true /\ hm_better w br br_cur = false.

(** Another node heard the station within [seen_policy_timeout]. *)
Definition seen_candidate w (ref : ptr) si_ref q : Prop :=
  exists si x x_ref, si_heap w !! q = Some si /\ si_sta si = si_sta si_ref /\ q ≠ ref /\
    node_heap w !! si_node si = Some x /\ node_heap w !! si_node si_ref = Some x_ref /\
    u64 (current_time w - si_seen si) <= seen_policy_timeout (config w) /\
    ssid x = ssid x_ref /\
    is_better_candidate (config w) si_ref si x_ref x = Some true /\
    is_better_candidate (config w) si si_ref x x_ref = Some false.

(** The report about the node the station is at: the first one on the list. *)
Definition own_report w si_ref : option beacon_report :=
  head (filter (fun br => node_of_bssid w (br_bssid br) = Some (si_node si_ref))
          (si_beacon_reports si_ref)).

Lemma own_report_Some w si_ref b :
  own_report w si_ref = Some b ->
  b ∈ si_beacon_reports si_ref /\ node_of_bssid w (br_bssid b) = Some (si_node si_ref).
Proof.
  unfold own_report. intros Hb%head_Some_elem_of. by apply list_elem_of_filter in Hb as [? ?].
Qed.

Lemma find_own_report_spec si_ref w :
  nodes_ok w -> wp (find_own_report si_ref) (fun r w' => w' = w /\ r = own_report w si_ref) w.
Proof.
  intros Hno. unfold find_own_report, own_report.
  induction (si_beacon_reports si_ref) as [|br l IH]; [by apply wp_ret|]. cbn [for_until].
  apply wp_bind. rewrite filter_cons. apply wp_bind, wp_node_of_bssid; [done|]; intros _.
  destruct (node_of_bssid w (br_bssid br)) as [n|]; apply wp_ret;
    [|by rewrite decide_False by done].
  case_bool_decide; [rewrite decide_True by congruence|rewrite decide_False by congruence].
  - by apply wp_ret.
  - apply IH.
Qed.

(** Signals in range can be compared. *)
Lemma is_better_candidate_fits cfg si sj x y :
  signal_ok (si_signal si) -> signal_ok (si_signal sj) -> exists b, is_better_candidate cfg si sj x y = Some b.
Proof.
  unfold signal_ok, is_better_candidate, better_signal_strength. intros Hi Hj.
  destruct (negb _); [by eexists|]. destruct (below_assoc_threshold _ _ _); [by eexists|]. cbv zeta.
  rewrite (proj2 (Z.ltb_ge _ _)), (proj2 (Z.leb_gt _ _)) by lia. by eexists.
Qed.
Lemma inv_signal w p si : inv w -> si_heap w !! p = Some si -> signal_ok (si_signal si).
Proof. intros Hi Hp. apply (inv_si _ Hi p si Hp). Qed.

Lemma find_seen_candidate_spec ref si_ref w :
  inv w -> si_heap w !! ref = Some si_ref ->
  wp (find_seen_candidate ref si_ref) (fun r w' => w' = w /\
    match r with
    | Some q => seen_candidate w ref si_ref q
    | None => forall q, ~ seen_candidate w ref si_ref q
    end) w.
Proof.
  intros Hi Href. unfold find_seen_candidate. do 4 wp_step.
  destruct (inv_si_sta w ref si_ref Hi Href) as (s & Hs & _).
  destruct (inv_si_node w ref si_ref Hi Href) as (x_ref & Hxr & _).
  apply wp_bind. eapply wp_get_sta; [done|]. eapply wp_mono.
  - apply (wp_for_until
      (fun don _ w' => w' = w /\ forall q, q ∈ don -> ~ seen_candidate w ref si_ref q)
      (fun q w' => w' = w /\ seen_candidate w ref si_ref q)).
    { split; [done|set_solver]. }
    intros don q rest w' Hl [-> Hdon].
    assert (Hext : ~ seen_candidate w ref si_ref q ->
      forall p, p ∈ don ++ [q] -> ~ seen_candidate w ref si_ref p).
    { intros Hne p [?|?%list_elem_of_singleton]%elem_of_app; subst; eauto. }
    destruct (inv_sta_si w (si_sta si_ref) s q Hi Hs) as (si & Hq & Hsta); [rewrite Hl; set_solver|].
    destruct (inv_si_node w q si Hi Hq) as (x & Hx & _).
    case_bool_decide as Hne.
    { apply wp_ret. split; [done|]. apply Hext. intros (? & ? & ? & H). naive_solver. }
    apply wp_bind. eapply wp_get_si; [done|].
    destruct (Z.ltb_spec (seen_policy_timeout (config w)) (u64 (current_time w - si_seen si))) as [Ht|Ht].
    { apply wp_ret. split; [done|]. apply Hext. intros (? & ? & ? & H). simplify_eq.
      destruct H as (? & _ & _ & _ & _ & ? & _). simplify_eq. lia. }
    apply wp_bind. eapply wp_get_node; [done|]. apply wp_bind. eapply wp_get_node; [done|].
    case_bool_decide as Hss; simpl.
    2: { apply wp_ret. split; [done|]. apply Hext. intros (? & ? & ? & H).
         destruct H as (? & _ & _ & ? & ? & _ & ? & _). by simplify_eq. }
    assert (Hsi := inv_signal w q si Hi Hq). assert (Hsr := inv_signal w ref si_ref Hi Href).
    destruct (is_better_candidate_fits (config w) si_ref si x_ref x Hsr Hsi) as [b1 E1].
    destruct (is_better_candidate_fits (config w) si si_ref x x_ref Hsi Hsr) as [b2 E2].
    apply wp_bind. eapply wp_deref; [exact E1|]. apply wp_bind.
    eapply wp_mono with (P := fun r w1 => w1 = w /\ b1 && negb r = b1 && negb b2).
    { destruct b1; [by eapply wp_deref|by apply wp_ret]. }
    intros worse w1 [-> ->]. apply wp_ret. destruct (b1 && negb b2) eqn:E; (split; [done|]).
    { apply andb_true_iff in E as [-> ->%negb_true_iff]. by exists si, x, x_ref. }
    apply Hext. intros (? & ? & ? & H). destruct H as (? & _ & _ & ? & ? & _ & _ & ? & ?).
    by simplify_eq.
  - simpl. intros [q|] w' [-> H]; (split; [done|]); [done|].
    intros q Hc. assert (Hc' := Hc). destruct Hc as (si & x & y & Hq & Hsta & _).
    destruct (inv_si_sta w q si Hi Hq) as (s' & Hs' & Hin). rewrite Hsta in Hs'.
    simplify_eq. by apply (H q).
Qed.

(** What the search may do to the state: create [sta_info]s at nodes other than
    [n0], the node of the station it is asked for; nothing else. *)
Record grown (n0 : node_id) (w w' : world T) : Prop := {
  gr_inv : inv w';
  gr_frame : frame w w';
  gr_heap p si : si_heap w !! p = Some si -> si_heap w' !! p = Some si;
  gr_node : node_heap w' !! n0 = node_heap w !! n0;
  gr_stations a : is_Some (stations w !! a) -> is_Some (stations w' !! a);
  gr_tq : tq w' = tq w;
  gr_out : out w' = out w;
  gr_empty : no_empty_sta (abs w) -> no_empty_sta (abs w');
}.

Lemma grown_refl n0 w : inv w -> grown n0 w w.
Proof. intros. by split. Qed.

Lemma created_grown n0 a n x w w' :
  n ≠ n0 -> is_Some (stations w !! a) -> si_created_at a n x w w' -> grown n0 w w'.
Proof.
  intros Hne Hs [Hi' Ha Hf Hh Hfr Ht Ho]. split; try done.
  - intros p si Hp. rewrite Hh, lookup_insert_ne; [done|]. intros <-. congruence.
  - assert (H : t_node (abs w') !! n0 = t_node (abs w) !! n0).
    { rewrite Ha. simpl. by rewrite lookup_alter_ne. }
    rewrite !abs_node in H. assert (Hd := frame_node_data w w' n0 Hf).
    destruct (node_heap w' !! n0) as [[]|], (node_heap w !! n0) as [[]|]; try done.
    unfold node_data, set_field in Hd. simpl in *. congruence.
  - intros b. rewrite <- !(fmap_is_Some sta_nodes), <- !abs_sta, Ha. simpl.
    rewrite lookup_alter. case_decide; [subst; by rewrite fmap_is_Some|done].
  - intros Hem. rewrite Ha. apply table_add_no_empty. intros b _. apply Hem.
Qed.

(** One iteration of the loop over the reports, on a report about [n]. *)
Lemma reported_candidate_dec w si_ref br_cur br n x x_ref :
  inv w -> br ∈ si_beacon_reports si_ref -> node_of_bssid w (br_bssid br) = Some n ->
  node_heap w !! n = Some x -> node_heap w !! si_node si_ref = Some x_ref ->
  reported_candidate w si_ref br_cur br n <->
  n ≠ si_node si_ref /\ ssid x = ssid x_ref /\
  hm_better w br_cur br = true /\ hm_better w br br_cur = false.
Proof.
  intros Hi Hin Hb Hx Hxr. unfold reported_candidate. rewrite Hx, Hxr. simpl.
  split; [intros (_ & _ & ? & Hs & ?); injection Hs; auto|].
  intros (? & -> & ?). done.
Qed.

Lemma find_reported_candidate_spec ref si_ref w :
  inv w -> si_heap w !! ref = Some si_ref ->
  let br_cur := own_report w si_ref in
  wp (find_reported_candidate si_ref br_cur) (fun r w' =>
    grown (si_node si_ref) w w' /\
    match r with
    | Some q => exists b br n si, br_cur = Some b /\ reported_candidate w si_ref b br n /\
        si_heap w' !! q = Some si /\ si_key si = (si_sta si_ref, n)
    | None => w' = w /\ forall b br n, br_cur = Some b -> ~ reported_candidate w si_ref b br n
    end) w.
Proof.
  intros Hi Href. assert (Hno := inv_nodes _ Hi).
  destruct (own_report w si_ref) as [b|] eqn:Hown0; [|apply wp_ret; split; [by apply grown_refl|by split]].
  apply own_report_Some in Hown0 as [_ Hcur].
  destruct (inv_si_node w ref si_ref Hi Href) as (x_ref & Hxr & _).
  destruct (inv_si_sta w ref si_ref Hi Href) as (s & Hs & _).
  destruct (inv_si w Hi ref si_ref Href) as (_ & Hown & _). rewrite list.Forall_forall in Hown.
  eapply wp_mono.
  - apply (wp_for_until
      (fun don _ w' => w' = w /\ forall br n, br ∈ don -> ~ reported_candidate w si_ref b br n)
      (fun q w' => grown (si_node si_ref) w w' /\ exists br n si, reported_candidate w si_ref b br n /\
          si_heap w' !! q = Some si /\ si_key si = (si_sta si_ref, n))).
    { split; [done|set_solver]. }
    intros don br rest w' Hl [-> Hdon].
    assert (Hin : br ∈ si_beacon_reports si_ref) by (rewrite Hl; set_solver).
    assert (Hext : (forall n, ~ reported_candidate w si_ref b br n) ->
      forall c n, c ∈ don ++ [br] -> ~ reported_candidate w si_ref b c n).
    { intros Hne c n [?|?%list_elem_of_singleton]%elem_of_app; subst; eauto. }
    apply wp_bind, wp_node_of_bssid; [done|]; intros _.
    destruct (node_of_bssid w (br_bssid br)) as [n|] eqn:En.
    2: { apply wp_ret. split; [done|]. apply Hext. intros n (_ & Hn & _). congruence. }
    destruct (node_of_bssid_Some w _ _ Hno En) as (x & Hx & _).
    assert (Hdec := reported_candidate_dec w si_ref b br n x x_ref Hi Hin En Hx Hxr).
    assert (Hext1 : ~ reported_candidate w si_ref b br n ->
      forall c m, c ∈ don ++ [br] -> ~ reported_candidate w si_ref b c m).
    { intros Hne. apply Hext. intros m Hm. assert (m = n) as -> by (destruct Hm as (_ & Hm & _); congruence).
      done. }
    case_bool_decide as Hnn; [apply wp_ret; split; [done|apply Hext1; naive_solver]|].
    apply wp_bind. eapply wp_get_node; [done|]. apply wp_bind. eapply wp_get_node; [done|].
    case_bool_decide as Hss; simpl; [|apply wp_ret; split; [done|apply Hext1; naive_solver]].
    apply wp_bind. eapply wp_mono; [by eapply hearing_map_spec|]. intros better w1 [-> Hbt].
    apply wp_bind. eapply wp_mono with (P := fun r w1 => w1 = w /\
      better && negb r = better && negb (hm_better w br b)).
    { destruct better; [|by apply wp_ret].
      eapply wp_mono; [by eapply hearing_map_spec|]. by intros r w1 [-> ->]. }
    intros worse w1 [-> ->].
    destruct (better && negb (hm_better w br b)) eqn:E; simpl;
      [|apply wp_ret; split; [done|]; apply Hext1; rewrite Hdec; intros (_ & _ & H1 & H2);
        rewrite H2 in E; subst; by rewrite H1 in E].
    apply andb_true_iff in E as [-> Hw%negb_true_iff].
    assert (Hc : reported_candidate w si_ref b br n) by by apply Hdec.
    apply wp_bind. eapply wp_get_si; [by rewrite (Hown _ Hin)|]. apply wp_bind.
    eapply wp_mono; [by eapply usteer_sta_info_get_spec|]. intros [[q []]|] w1; simpl.
    + intros (_ & _ & -> & Hcr). split; [by eapply created_grown|].
      exists br, n. eexists. split; [done|]. rewrite (sc_heap _ _ _ _ _ Hcr).
      split; [apply lookup_insert_eq|done].
    + intros [-> Hf]. split; [by apply grown_refl|].
      apply table_find_spec, abs_si_Some in Hf as (si & ? & ?); [|apply Hi]. eauto 10.
    + by intros [].
  - simpl. intros [q|] w' [H1 H2]; [split; [done|]; naive_solver|].
    subst. split; [by apply grown_refl|]. split; [done|]. intros c br n ? Hrc. simplify_eq.
    eapply H2; [|done]. apply Hrc.
Qed.

(** What makes [q] an answer of [find_better_candidate]. *)
Definition better_candidate w w' (ref : ptr) si_ref q : Prop :=
  (exists b br n si, own_report w si_ref = Some b /\ reported_candidate w si_ref b br n /\
     si_heap w' !! q = Some si /\ si_key si = (si_sta si_ref, n)) \/
  seen_candidate w ref si_ref q.

(** There is nothing to find. *)
Definition no_candidate w (ref : ptr) si_ref : Prop :=
  (forall q, ~ seen_candidate w ref si_ref q) /\
  (forall b br n, own_report w si_ref = Some b -> ~ reported_candidate w si_ref b br n).

Lemma find_better_candidate_spec ref si_ref w :
  inv w -> si_heap w !! ref = Some si_ref ->
  wp (find_better_candidate ref) (fun r w' =>
    grown (si_node si_ref) w w' /\
    match r with
    | Some q => better_candidate w w' ref si_ref q /\ ~ no_candidate w ref si_ref
    | None => w' = w /\ no_candidate w ref si_ref
    end) w.
Proof.
  intros Hi Href. unfold find_better_candidate.
  apply wp_bind. eapply wp_get_si; [done|]. apply wp_bind.
  eapply wp_mono; [apply find_own_report_spec, Hi|]. intros own w1 [-> ->].
  apply wp_bind. eapply wp_mono; [by apply (find_reported_candidate_spec ref)|].
  intros [q|] w1 [Hg Hr].
  - apply wp_ret. split; [done|]. destruct Hr as (b & br & n & si & Hb & Hrc & Hq).
    split; [left; by exists b, br, n, si|]. intros [_ Hno]. by eapply Hno.
  - destruct Hr as [-> Hnone]. eapply wp_mono; [by apply find_seen_candidate_spec|].
    intros [q|] w2 [-> Hs]; (split; [done|]); [|done].
    split; [by right|]. intros [Hno _]. by eapply Hno.
Qed.

(** The station may connect: the answer of [usteer_check_request]. *)
Definition request_allowed w (p : ptr) si (x : usteer_node) (st : sta_info_stats)
    (type : usteer_event_type) : Prop :=
  type = EVENT_TYPE_ASSOC \/
  max_retry_band (config w) <= blocked_cur st \/
  (snr_to_signal x (min_connect_snr (config w)) <= si_signal si /\
   initial_connect_delay (config w) <= u64 (current_time w - si_created si) /\
   no_candidate w p si).

Lemma event_idx_lt (type : usteer_event_type) : type ≠ __EVENT_TYPE_MAX -> (event_idx type < 4)%nat.
Proof. destruct type; simpl; (done || lia). Qed.

Lemma stats_lookup w p si type :
  inv w -> si_heap w !! p = Some si -> type ≠ __EVENT_TYPE_MAX ->
  exists st, si_stats si !! event_idx type = Some st.
Proof.
  intros Hi Hp Ht. apply lookup_lt_is_Some_2.
  rewrite (proj1 (inv_si _ Hi p si Hp)). by apply event_idx_lt.
Qed.

Lemma usteer_check_request_spec p si x st type w :
  inv w -> si_heap w !! p = Some si -> node_heap w !! si_node si = Some x ->
  si_stats si !! event_idx type = Some st ->
  wp (usteer_check_request p type) (fun r w' =>
    grown (si_node si) w w' /\ (r = true <-> request_allowed w p si x st type)) w.
Proof.
  intros Hi Hp Hx Hst. unfold usteer_check_request, request_allowed.
  case_bool_decide as Ha; [apply wp_ret; split; [by apply grown_refl|]; naive_solver|].
  do 4 wp_step. apply wp_bind. eapply wp_get_si; [done|]. apply wp_bind. eapply wp_deref; [done|].
  destruct (Z.leb_spec (max_retry_band (config w)) (blocked_cur st));
    [apply wp_ret; split; [by apply grown_refl|]; naive_solver|].
  apply wp_bind. eapply wp_get_node; [done|].
  destruct (Z.ltb_spec (si_signal si) (snr_to_signal x (min_connect_snr (config w))));
    [apply wp_ret; split; [by apply grown_refl|]; split; [done|]; intros [?|[?|[? ?]]]; by try lia|].
  destruct (Z.ltb_spec (u64 (current_time w - si_created si)) (initial_connect_delay (config w)));
    [apply wp_ret; split; [by apply grown_refl|]; split; [done|]; intros [?|[?|(? & ? & _)]]; by try lia|].
  apply wp_bind. eapply wp_mono; [by apply find_better_candidate_spec|].
  intros [q|] w' [Hg Hr]; apply wp_ret; (split; [done|]).
  - split; [done|]. intros [?|[?|(_ & _ & ?)]]; [done|lia|]. by destruct Hr.
  - destruct Hr as [-> ?]. split; [auto|done].
Qed.
End candidates.
