(* ===== verification/RemoteMsg.v ===== *)
(** * What an instance announces to its peers (remote.c, sending side; remote.h)

    The message of an update: attributes numbered by the enums of remote.h, one
    nested attribute for each node and, in it, one for each station. *)
From S2P Require Import Prelude Blob Timeout Types Table World.

Definition APMSG_ID : Z := 0.
Definition APMSG_SEQ : Z := 1.
Definition APMSG_NODES : Z := 2.

Definition APMSG_NODE_NAME : Z := 0.
Definition APMSG_NODE_FREQ : Z := 1.
Definition APMSG_NODE_N_ASSOC : Z := 2.
Definition APMSG_NODE_STATIONS : Z := 3.
Definition APMSG_NODE_NOISE : Z := 4.
Definition APMSG_NODE_LOAD : Z := 5.
Definition APMSG_NODE_SSID : Z := 6.
Definition APMSG_NODE_BSSID : Z := 7.
Definition APMSG_NODE_MAX_ASSOC : Z := 8.
Definition APMSG_NODE_RRM_NR : Z := 9.
Definition APMSG_NODE_SCRIPT_DATA : Z := 10.

Definition APMSG_STA_ADDR : Z := 0.
Definition APMSG_STA_SIGNAL : Z := 1.
Definition APMSG_STA_TIMEOUT : Z := 2.
Definition APMSG_STA_SEEN : Z := 3.
Definition APMSG_STA_CONNECTED : Z := 4.

(** [usteer_send_sta_info]: the nested attribute it appends. *)
Definition usteer_send_sta_info (cfg : usteer_config) (now : Z) (sta : sta_info) : Z * wire :=
  let seen := s32 (u64 (now - si_seen sta)) in
  (0, WNested
    [(APMSG_STA_ADDR, WBinary (si_sta sta));
     (APMSG_STA_CONNECTED, WInt8 (b2z (negb (si_connected sta =? 0))));
     (APMSG_STA_SIGNAL, WInt32 (u32 (si_signal sta)));
     (APMSG_STA_SEEN, WInt32 (u32 seen));
     (APMSG_STA_TIMEOUT, WInt32 (u32 (local_sta_timeout cfg - u32 seen)))]).

Section remote_msg.
Context `{!Ether} {T : Type} `{!AvlTree Z ptr T}.

(** [usteer_send_node], which is only called on local nodes; the fields before
    the stations. *)
Definition node_attrs (s : string) (node : usteer_node) : list (Z * wire) :=
  [(APMSG_NODE_NAME, WString s);
   (APMSG_NODE_SSID, WString (ssid node));
   (APMSG_NODE_BSSID, WString (ether_ntoa (bssid node)));
   (APMSG_NODE_FREQ, WInt32 (u32 (freq node)));
   (APMSG_NODE_NOISE, WInt32 (u32 (noise node)));
   (APMSG_NODE_LOAD, WInt32 (u32 (load node)));
   (APMSG_NODE_N_ASSOC, WInt32 (u32 (n_assoc node)));
   (APMSG_NODE_MAX_ASSOC, WInt32 (u32 (max_assoc node)))] ++
  match rrm_nr node with
  | Some nr => [(APMSG_NODE_RRM_NR, WField [VArray nr])]
  | None => []
  end ++
  match script_data node with
  | Some d => [(APMSG_NODE_SCRIPT_DATA, d)]
  | None => []
  end.

Definition usteer_send_node (n : node_id) (sta : option ptr) : M (world T) (Z * wire) :=
  cfg ← gets config;
  now ← gets current_time;
  s ← local_name n;
  node ← get_node n;
  stations ←
    (if remote_disabled cfg then mret []
     else
       match sta with
       | Some p => si ← get_si p; mret [usteer_send_sta_info cfg now si]
       | None =>
           for_fold (fun acc p => si ← get_si p; mret (acc ++ [usteer_send_sta_info cfg now si]))
             [] (node_sta_info node)
       end);
  mret (0, WNested (node_attrs s node ++ [(APMSG_NODE_STATIONS, WNested stations)])).

(** The head of the message; the caller adds the nodes. *)
Definition usteer_update_init : M (world T) (list (Z * wire)) :=
  modify (fun w => w <| msg_seq ::= fun x => u32 (x + 1) |>) ;;
  id ← gets local_id;
  seq ← gets msg_seq;
  mret [(APMSG_ID, WInt32 id); (APMSG_SEQ, WInt32 seq)].

(** [interface_send_msg], up to the bytes given to [sendmsg]. *)
Definition interface_send_msg (iface : string * Z) (data : list (Z * wire)) : M (world T) unit :=
  cfg ← gets config;
  when (negb (remote_disabled cfg)) (emit (SendMsg iface.2 data)).

Definition usteer_update_send (buf c : list (Z * wire)) : M (world T) unit :=
  ifaces ← gets interfaces;
  for_each (fun iface => interface_send_msg iface (buf ++ [(APMSG_NODES, WNested c)])) ifaces.

Definition usteer_send_sta_update (p : ptr) : M (world T) unit :=
  buf ← usteer_update_init;
  si ← get_si p;
  c ← usteer_send_node (si_node si) (Some p);
  usteer_update_send buf [c].
End remote_msg.

(** ** Specifications *)
Section remote_msg_spec.
Context `{!Ether} {T : Type} `{!AvlTree Z ptr T}.
Implicit Types (w : world T) (p : ptr) (si : sta_info).

(** The stations an update tells about. *)
Definition announced (w : world T) (sis : list sta_info) : list (Z * wire) :=
  if remote_disabled (config w) then []
  else map (usteer_send_sta_info (config w) (current_time w)) sis.

Definition node_msg (w : world T) (s : string) (node : usteer_node) (sis : list sta_info) : Z * wire :=
  (0, WNested (node_attrs s node ++ [(APMSG_NODE_STATIONS, WNested (announced w sis))])).

(** The whole message with sequence number [seq]. *)
Definition update_msg (w : world T) (seq : Z) (nodes : list (Z * wire)) : list (Z * wire) :=
  [(APMSG_ID, WInt32 (local_id w)); (APMSG_SEQ, WInt32 seq); (APMSG_NODES, WNested nodes)].

(** One copy for each interface, unless the exchange is disabled. *)
Definition sent_updates (w : world T) (data : list (Z * wire)) : list action :=
  if remote_disabled (config w) then [] else map (fun i => SendMsg i.2 data) (interfaces w).

Definition updated (w : world T) (nodes : list (Z * wire)) : world T :=
  let seq := u32 (msg_seq w + 1) in
  w <| msg_seq := seq |> <| out ::= fun l => l ++ sent_updates w (update_msg w seq nodes) |>.

Lemma update_send_run buf c w :
  usteer_update_send buf c w =
    Ok (tt, w <| out ::= fun l => l ++ sent_updates w (buf ++ [(APMSG_NODES, WNested c)]) |>).
Proof.
  unfold usteer_update_send, sent_updates, gets, mbind, M_bind.
  set (data := buf ++ _). generalize (interfaces w) as l. intros l. revert w.
  induction l as [|i l IH]; intros w; cbn [for_each].
  - destruct (remote_disabled (config w)); unfold mret, M_ret, set_field; simpl;
      rewrite app_nil_r; by destruct w.
  - unfold interface_send_msg, gets, mbind, M_bind, when.
    destruct (remote_disabled (config w)) eqn:E; simpl.
    + unfold mret, M_ret. rewrite IH, E. done.
    + unfold emit, modify. rewrite IH. simpl. rewrite E. unfold set_field. simpl.
      by rewrite <- app_assoc.
Qed.

Lemma usteer_send_sta_update_spec p si s x w :
  si_heap w !! p = Some si -> si_node si = NLocal s -> node_heap w !! NLocal s = Some x ->
  wp (usteer_send_sta_update p) (fun _ w' => w' = updated w [node_msg w s x [si]]) w.
Proof.
  intros Hp Hs Hx. unfold usteer_send_sta_update, usteer_update_init. wp_steps.
  eapply wp_get_si; [done|]. apply wp_bind. unfold usteer_send_node. wp_steps.
  rewrite Hs. eapply wp_deref; [done|]. apply wp_bind. eapply wp_get_node; [done|].
  apply wp_bind. eapply wp_mono with (P := fun r w1 =>
    r = announced w [si] /\ w1 = w <| msg_seq ::= fun x => u32 (x + 1) |>).
  { unfold announced. destruct (remote_disabled (config w)); [by apply wp_ret|].
    apply wp_bind. eapply wp_get_si; [done|]. by apply wp_ret. }
  intros r w1 [-> ->]. apply wp_ret. apply wp_ok. eexists _, _. split; [apply update_send_run|]. done.
Qed.

Lemma inv_updated w nodes : inv w -> inv (updated w nodes).
Proof. intros [? ? ? []]. by split; [..|split]. Qed.
Lemma frame_updated w nodes : frame w (updated w nodes).
Proof. by split. Qed.
End remote_msg_spec.
