(* ===== verification/Parse.v ===== *)
(** * What an instance reads of its peers' messages (parse.c; node.c)

    A message is a tree of attributes ([wire]). The bytes of an attribute do not
    say what they hold: libubox's [blob_parse] only checks their length against
    the policy, so the tree stands for the bytes as the policies below read them.
    [blob_parse] is a parameter with the laws the code relies on. *)
From S2P Require Import Prelude Blob Types RemoteMsg.

Inductive blob_type :=
| BLOB_ATTR_BINARY
| BLOB_ATTR_INT8
| BLOB_ATTR_INT32
| BLOB_ATTR_STRING
| BLOB_ATTR_NESTED.

(** [None] is the policy's type 0, which accepts everything. *)
Definition wire_ok (ty : option blob_type) (v : wire) : bool :=
  match ty, v with
  | None, _ => true
  | Some BLOB_ATTR_BINARY, WBinary _ => true
  | Some BLOB_ATTR_INT8, WInt8 _ => true
  | Some BLOB_ATTR_INT32, WInt32 _ => true
  | Some BLOB_ATTR_STRING, WString _ => true
  | Some BLOB_ATTR_NESTED, (WNested _ | WField _) => true
  | _, _ => false
  end.

Notation blob_policy := (list (option blob_type)) (only parsing).

Class BlobParse := blob_parse : blob_policy -> list (Z * wire) -> list (option wire).
Class BlobParseLaws `{BlobParse} : Prop := {
  blob_sound pol msg i ty v :
    pol !! i = Some ty -> blob_parse pol msg !! i = Some (Some v) ->
    (Z.of_nat i, v) ∈ msg /\ wire_ok ty v = true;
  blob_complete pol msg i ty v :
    pol !! i = Some ty -> NoDup msg.*1 -> (Z.of_nat i, v) ∈ msg -> wire_ok ty v = true ->
    blob_parse pol msg !! i = Some (Some v);
}.

(** [tb[id]] *)
Definition wattr (tb : list (option wire)) (id : Z) : option wire := mjoin (tb !! Z.to_nat id).

(** The attributes inside an attribute. *)
Definition nested (v : wire) : list (Z * wire) :=
  match v with WNested l => l | _ => [] end.

(** [blob_get_int32] and [blob_get_int8] of an attribute that passed the policy,
    and its [blob_data] as a string. *)
Definition blob_get_int32 (v : wire) : Z := match v with WInt32 x => u32 x | _ => 0 end.
Definition blob_get_int8 (v : wire) : Z := match v with WInt8 x => x | _ => 0 end.
Definition blob_string (v : wire) : string := match v with WString s => s | _ => "" end.
Definition blob_bytes (v : wire) : list Z := match v with WBinary b => b | _ => [] end.

(** [struct apmsg], [struct apmsg_node], [struct apmsg_sta] *)
Record apmsg := mkApmsg { msg_id : Z; msg_sequence : Z; msg_nodes : list (Z * wire) }.

Record apmsg_node := mkApmsgNode {
  mn_name : string;
  mn_ssid : wire;  (** the attribute, of whatever type: its bytes are taken as a string *)
  mn_bssid : option wire;  (** likewise; without the attribute an invalid pointer *)
  mn_freq : Z;
  mn_n_assoc : Z;
  mn_max_assoc : Z;
  mn_noise : Z;
  mn_load : Z;
  mn_stations : list (Z * wire);
  mn_rrm_nr : option (list bval);
  mn_script_data : option wire;
}.

Record apmsg_sta := mkApmsgSta {
  ms_addr : mac;
  ms_connected : bool;
  ms_signal : Z;
  ms_timeout : Z;
  ms_seen : Z;
}.

(** [usteer_node_set_blob]: the copy that replaces the old attribute, or none. *)
Definition usteer_node_set_blob {A} (dest val : option A) : option A :=
  match val with
  | None => None
  | Some v => Some v
  end.

Section parse.
Context `{BlobParse}.

Definition apmsg_policy : blob_policy :=
  [Some BLOB_ATTR_INT32; Some BLOB_ATTR_INT32; Some BLOB_ATTR_NESTED].

Definition parse_apmsg (data : list (Z * wire)) : option apmsg :=
  let tb := blob_parse apmsg_policy data in
  match wattr tb APMSG_ID, wattr tb APMSG_SEQ, wattr tb APMSG_NODES with
  | Some id, Some seq, Some nodes =>
      Some (mkApmsg (blob_get_int32 id) (blob_get_int32 seq) (nested nodes))
  | _, _, _ => None
  end.

Definition get_int32 (a : option wire) : Z :=
  match a with
  | None => 0
  | Some v => s32 (blob_get_int32 v)
  end.

(** By index; [APMSG_NODE_SSID] and [APMSG_NODE_BSSID] have no type. *)
Definition apmsg_node_policy : blob_policy :=
  [Some BLOB_ATTR_STRING;
   Some BLOB_ATTR_INT32;
   Some BLOB_ATTR_INT32;
   Some BLOB_ATTR_NESTED;
   Some BLOB_ATTR_INT32;
   Some BLOB_ATTR_INT32;
   None;
   None;
   Some BLOB_ATTR_INT32;
   Some BLOB_ATTR_NESTED;
   Some BLOB_ATTR_NESTED].

(** The field in [APMSG_NODE_RRM_NR] when it is an array. The loop over its
    elements skips the valid ones ([blobmsg_check_attr]), and the elements of a
    tree are valid, so none of them is looked at. *)
Definition rrm_field (cur : option wire) : option (list bval) :=
  match cur with
  | Some (WField (VArray nr :: _)) => Some nr
  | _ => None
  end.

Definition parse_apmsg_node (data : wire) : option apmsg_node :=
  let tb := blob_parse apmsg_node_policy (nested data) in
  match wattr tb APMSG_NODE_NAME, wattr tb APMSG_NODE_FREQ, wattr tb APMSG_NODE_N_ASSOC,
        wattr tb APMSG_NODE_STATIONS, wattr tb APMSG_NODE_SSID with
  | Some name, Some freq, Some n_assoc, Some stations, Some ssid =>
      Some {|
        mn_name := blob_string name;
        mn_ssid := ssid;
        mn_bssid := wattr tb APMSG_NODE_BSSID;
        mn_freq := s32 (blob_get_int32 freq);
        mn_n_assoc := s32 (blob_get_int32 n_assoc);
        mn_max_assoc := get_int32 (wattr tb APMSG_NODE_MAX_ASSOC);
        mn_noise := get_int32 (wattr tb APMSG_NODE_NOISE);
        mn_load := get_int32 (wattr tb APMSG_NODE_LOAD);
        mn_stations := nested stations;
        mn_rrm_nr := rrm_field (wattr tb APMSG_NODE_RRM_NR);
        mn_script_data := wattr tb APMSG_NODE_SCRIPT_DATA;
      |}
  | _, _, _, _, _ => None
  end.

Definition apmsg_sta_policy : blob_policy :=
  [Some BLOB_ATTR_BINARY; Some BLOB_ATTR_INT32; Some BLOB_ATTR_INT32; Some BLOB_ATTR_INT32;
   Some BLOB_ATTR_INT8].

Definition parse_apmsg_sta (data : wire) : option apmsg_sta :=
  let tb := blob_parse apmsg_sta_policy (nested data) in
  match wattr tb APMSG_STA_ADDR, wattr tb APMSG_STA_SIGNAL, wattr tb APMSG_STA_SEEN,
        wattr tb APMSG_STA_TIMEOUT, wattr tb APMSG_STA_CONNECTED with
  | Some addr, Some signal, Some seen, Some timeout, Some connected =>
      if negb (length (blob_bytes addr) =? 6)%nat then None
      else Some {|
        ms_addr := blob_bytes addr;
        ms_connected := negb (blob_get_int8 connected =? 0);
        ms_signal := s32 (blob_get_int32 signal);
        ms_timeout := s32 (blob_get_int32 timeout);
        ms_seen := s32 (blob_get_int32 seen);
      |}
  | _, _, _, _, _ => None
  end.
End parse.

(** ** A parser that satisfies the laws: the last attribute counts *)

Definition find_wire (pol : option blob_type) (id : nat) (msg : list (Z * wire)) : option wire :=
  snd <$> list.last (filter (fun x => x.1 = Z.of_nat id /\ wire_ok pol x.2 = true) msg).

Definition seq_blob_parse : BlobParse := fun pol msg => imap (fun i ty => find_wire ty i msg) pol.

Lemma seq_blob_parse_laws : @BlobParseLaws seq_blob_parse.
Proof.
  split; unfold blob_parse, seq_blob_parse; intros pol msg i ty v Hp; rewrite list_lookup_imap, Hp; simpl.
  - unfold find_wire. destruct (list.last _) as [[id v']|] eqn:E; [|done]. intros Hv. simplify_eq/=.
    apply last_Some_elem_of, list_elem_of_filter in E as [[? ?] ?]. simpl in *. by subst.
  - intros Hnd Hin Hty. do 2 f_equal. unfold find_wire.
    assert (Hf : (Z.of_nat i, v) ∈ filter (fun x => x.1 = Z.of_nat i /\ wire_ok ty x.2 = true) msg)
      by by apply list_elem_of_filter.
    destruct (list.last _) as [[id v']|] eqn:E.
    + apply last_Some_elem_of, list_elem_of_filter in E as [[Hid _] Hin']. simpl in *. subst id. f_equal.
      apply list_elem_of_lookup in Hin as [j Hj], Hin' as [j' Hj'].
      assert (j = j') as <-; [|congruence].
      eapply (NoDup_lookup msg.*1 j j' (Z.of_nat i)); [done|..]; rewrite list_lookup_fmap;
        [by rewrite Hj|by rewrite Hj'].
    + apply last_None in E. rewrite E in Hf. by apply elem_of_nil in Hf.
Qed.

(** ** What is sent is read back *)
Section roundtrip.
Context {ET : Ether} {BP : BlobParse} {BPL : BlobParseLaws}.
Context {T : Type} `{!Timeout.AvlTree Z ptr T}.

Lemma wattr_found pol msg id ty v :
  0 <= id -> pol !! Z.to_nat id = Some ty -> NoDup msg.*1 -> (id, v) ∈ msg -> wire_ok ty v = true ->
  wattr (blob_parse pol msg) id = Some v.
Proof.
  intros Hid Hp Hnd Hin Hok. unfold wattr.
  rewrite (blob_complete pol msg (Z.to_nat id) ty v); [done|done|done| |done]. by rewrite Z2Nat.id.
Qed.
Lemma wattr_absent pol msg id ty :
  0 <= id -> pol !! Z.to_nat id = Some ty -> id ∉ msg.*1 -> wattr (blob_parse pol msg) id = None.
Proof.
  intros Hid Hp Hn. unfold wattr. destruct (blob_parse pol msg !! Z.to_nat id) as [[v|]|] eqn:E; [|done..].
  exfalso. apply Hn. destruct (blob_sound _ _ _ _ _ Hp E) as [Hin _]. rewrite Z2Nat.id in Hin by done.
  apply list_elem_of_fmap. by exists (id, v).
Qed.

Lemma s32_sub_u32 a b : s32 (a - u32 b) = s32 (a - b).
Proof. by rewrite <- s32_u32, u32_sub_r, s32_u32. Qed.

(** Attributes of a message that is spelled out. *)
Ltac known_ids := apply (bool_decide_unpack _); by vm_compute.
Ltac absent := cbn [fmap list_fmap fst app]; rewrite !elem_of_cons, elem_of_nil; by intuition.
Ltac found := erewrite wattr_found;
  [|lia|by vm_compute|cbn [fmap list_fmap fst app]; known_ids|rewrite !elem_of_cons; by eauto 20|done].

Lemma parse_send_sta cfg now si :
  length (si_sta si) = 6%nat ->
  parse_apmsg_sta (usteer_send_sta_info cfg now si).2 = Some {|
    ms_addr := si_sta si;
    ms_connected := negb (si_connected si =? 0);
    ms_signal := s32 (si_signal si);
    ms_timeout := s32 (local_sta_timeout cfg - s32 (u64 (now - si_seen si)));
    ms_seen := s32 (u64 (now - si_seen si));
  |}.
Proof.
  intros Hl. unfold parse_apmsg_sta, usteer_send_sta_info. cbn [snd nested].
  unfold APMSG_STA_ADDR, APMSG_STA_CONNECTED, APMSG_STA_SIGNAL, APMSG_STA_SEEN, APMSG_STA_TIMEOUT.
  do 5 found. cbn [blob_bytes blob_get_int8 blob_get_int32]. rewrite Hl. simpl. f_equal.
  rewrite !s32_u32, s32_sub_u32, (s32_id (s32 _)) by apply s32_range. by destruct (si_connected si =? 0).
Qed.

Lemma parse_send_node s node stations :
  wire_ok (Some BLOB_ATTR_NESTED) (default (WNested []) (script_data node)) = true ->
  parse_apmsg_node (WNested (node_attrs s node ++ [(APMSG_NODE_STATIONS, WNested stations)])) = Some {|
    mn_name := s;
    mn_ssid := WString (ssid node);
    mn_bssid := Some (WString (ether_ntoa (bssid node)));
    mn_freq := s32 (freq node);
    mn_n_assoc := s32 (n_assoc node);
    mn_max_assoc := s32 (max_assoc node);
    mn_noise := s32 (noise node);
    mn_load := s32 (load node);
    mn_stations := stations;
    mn_rrm_nr := rrm_nr node;
    mn_script_data := script_data node;
  |}.
Proof.
  intros Hsd. unfold parse_apmsg_node, node_attrs. cbn [nested].
  unfold APMSG_NODE_NAME, APMSG_NODE_FREQ, APMSG_NODE_N_ASSOC, APMSG_NODE_STATIONS, APMSG_NODE_NOISE,
    APMSG_NODE_LOAD, APMSG_NODE_SSID, APMSG_NODE_BSSID, APMSG_NODE_MAX_ASSOC, APMSG_NODE_RRM_NR,
    APMSG_NODE_SCRIPT_DATA.
  destruct (rrm_nr node) as [nr|], (script_data node) as [sd|]; cbn [app default] in *.
  all: do 9 found.
  all: repeat first [found|erewrite (wattr_absent _ _ 9); [|lia|by vm_compute|absent]
    |erewrite (wattr_absent _ _ 10); [|lia|by vm_compute|absent]].
  all: cbn [blob_string blob_get_int32 get_int32 nested rrm_field]; by rewrite !s32_u32.
Qed.

Lemma parse_update (w : world T) seq nodes :
  parse_apmsg (update_msg w seq nodes) = Some (mkApmsg (u32 (local_id w)) (u32 seq) nodes).
Proof.
  unfold parse_apmsg, update_msg, APMSG_ID, APMSG_SEQ, APMSG_NODES. by do 3 found.
Qed.
End roundtrip.
