(* ===== verification/StaEvent.v ===== *)
(** * A station asks to connect (sta.c, [usteer_handle_sta_event])

    The event that hostapd reports for every probe, authentication and
    association request, the answer the policy gives to it, and the book-keeping
    of requests that were refused. *)
From Stdlib Require Import Floats.SpecFloat.
From S2P Require Import Prelude Blob Timeout Types Table World Beacon Sta Policy RemoteMsg.

(** ** The [sta_info] of a station at a node, found or created *)
Section ensure.
Context {T : Type} `{!AvlTree Z ptr T} `{!AvlLaws Z ptr T}.
Implicit Types (w : world T) (p q : ptr) (si : sta_info) (a : mac) (n : node_id).

(** The station is there, with or without a [sta_info]. *)
Record sta_there (a : mac) (w w1 : world T) : Prop := {
  st_inv : inv w1;
  st_frame : frame w w1;
  st_abs : abs w1 = table_sta_add a (abs w);
  st_heap : si_heap w1 = si_heap w;
  st_tq : tq w1 = tq w;
  st_out : out w1 = out w;
  st_sta : is_Some (stations w1 !! a);
}.

Lemma usteer_sta_get_there a w :
  inv w -> wp (usteer_sta_get a true) (fun r w1 => r = Some a /\ sta_there a w w1) w.
Proof.
  intros Hi. eapply wp_mono; [by apply usteer_sta_get_spec|].
  intros r w1 (H1 & H2 & H3 & H4 & H5 & Hr). destruct r as [b|]; [|by destruct Hr].
  destruct Hr as (-> & ? & ?). split; [done|]. by split.
Qed.

Lemma sta_there_upd a f w w1 (Q : unit -> world T -> Prop) :
  sta_there a w w1 -> (forall s, sta_nodes (f s) = sta_nodes s) ->
  (forall w2, sta_there a w w2 -> Q tt w2) -> wp (upd_sta a f) Q w1.
Proof.
  intros [Hi Hf Ha Hh Ht Ho [s Hs]] Hn HQ. eapply wp_upd_sta; [done|]. apply HQ. split; try done.
  - by eapply inv_set_sta.
  - by etrans; [|split].
  - by erewrite abs_set_sta.
  - simpl. rewrite lookup_insert_eq. eauto.
Qed.

(** [p] is the object of station [a] at node [n]; [create] says it is new. *)
Record ensured (a : mac) (n : node_id) (x : usteer_node) (w : world T) (p : ptr) (create : bool)
    (si : sta_info) (w1 : world T) : Prop := {
  en_inv : inv w1;
  en_frame : frame w w1;
  en_find : table_find a n (abs w) = if create then None else Some p;
  en_old : if create then si = calloc_sta_info a n (freq x) (current_time w) /\ si_heap w !! p = None
           else si_heap w !! p = Some si;
  en_si : si_heap w1 !! p = Some si;
  en_key : si_key si = (a, n);
  en_others q : q ≠ p -> si_heap w1 !! q = si_heap w !! q;
  en_tq : tq w1 = tq w;
  en_out : out w1 = out w;
  en_empty : no_empty_sta (abs w) -> no_empty_sta (abs w1);
}.

Lemma table_find_sta_add a n t : table_find a n (table_sta_add a t) = table_find a n t.
Proof.
  unfold table_find, table_sta_add. destruct (t_sta t !! a) eqn:E; [by rewrite E|]. simpl.
  by rewrite lookup_insert_eq.
Qed.

Lemma ensured_intro a n x w w1 :
  sta_there a w w1 -> node_heap w !! n = Some x ->
  wp (usteer_sta_info_get a n true) (fun r w2 => exists p create si,
    r = Some (p, create) /\ ensured a n x w p create si w2) w1.
Proof.
  intros [Hi Hf Ha Hh Ht Ho [s Hs]] Hx.
  destruct (frame_node_Some w w1 n x Hf Hx) as (x1 & Hx1 & Hd).
  assert (Hfind : table_find a n (abs w1) = table_find a n (abs w))
    by by rewrite Ha, table_find_sta_add.
  eapply wp_mono; [by eapply usteer_sta_info_get_spec|]. intros [[p []]|] w2; [..|by intros []].
  - intros (_ & Hnone & -> & Hc). destruct Hc as [Hi2 Ha2 Hf2 Hh2 Hfr Ht2 Ho2].
    assert (freq x1 = freq x) as Hfq by (unfold node_data, set_field in Hd; congruence).
    rewrite Hfq, (fr_time _ _ Hf), Hh in Hh2. rewrite Hh in Hfr.
    exists (si_brk w1), true. eexists. split; [done|]. split; try done.
    + by etrans.
    + congruence.
    + rewrite Hh2. apply lookup_insert_eq.
    + intros q Hq. rewrite Hh2. by apply lookup_insert_ne.
    + congruence.
    + congruence.
    + intros Hne. rewrite Ha2. apply table_add_no_empty. intros b Hb. rewrite Ha.
      unfold table_sta_add. destruct (t_sta (abs w) !! a); [apply Hne|]. simpl.
      rewrite lookup_insert_ne by done. apply Hne.
  - intros [-> Hf1]. exists p, false.
    assert (Hs1 := Hf1). apply table_find_spec, abs_si_Some in Hs1 as (si & Hp & Hk); [|apply Hi].
    exists si. split; [done|]. split; try done.
    + congruence.
    + by rewrite <- Hh.
    + intros q _. by rewrite Hh.
    + intros Hne. rewrite Ha. unfold table_sta_add.
      destruct (t_sta (abs w) !! a) eqn:E; [done|].
      rewrite Hfind in Hf1. unfold table_find in Hf1. by rewrite E in Hf1.
Qed.
End ensure.

(** ** The handler *)
Section sta_event.
Context {ET : Ether} {T : Type} `{!AvlTree Z ptr T}.

(** [si->stats[type]] as a place. *)
Definition get_stats (p : ptr) (type : usteer_event_type) : M (world T) sta_info_stats :=
  si ← get_si p;
  deref OutOfBounds (fun _ => si_stats si !! event_idx type).
Definition upd_stats (p : ptr) (type : usteer_event_type) (f : sta_info_stats -> sta_info_stats) :
    M (world T) unit :=
  st ← get_stats p type;
  upd_si p (fun si => si <| si_stats ::= <[event_idx type := f st]> |>).

Definition usteer_handle_sta_event (n : node_id) (addr : mac) (type : usteer_event_type)
    (freq signal : Z) : M (world T) bool :=
  r ← usteer_sta_get addr true;
  match r with
  | None => mret true (* [return -1] *)
  | Some a =>
      upd_sta a (fun s => if freq <? 4000 then s <| seen_2ghz := 1 |> else s <| seen_5ghz := 1 |>) ;;
      r ← usteer_sta_info_get a n true;
      '(p, create) ← deref NullDeref (fun _ => r);
      usteer_sta_info_update p signal false ;;
      now ← gets current_time;
      upd_si p (fun si => si <| si_roam_scan_done := now |>) ;;
      upd_stats p type (fun st => st <| requests ::= fun x => u32 (x + 1) |>) ;;
      st ← get_stats p type;
      cfg ← gets config;
      let diff := u32 (u64 (blocked_last_time st - now)) in
      when (sta_block_timeout cfg <? diff) (upd_stats p type (fun st => st <| blocked_cur := 0 |>)) ;;
      ret ← usteer_check_request p type;
      (if (ret : bool) then upd_stats p type (fun st => st <| blocked_cur := 0 |>)
       else upd_stats p type (fun st => st <| blocked_cur ::= fun x => u32 (x + 1) |>
                                           <| blocked_total ::= fun x => u32 (x + 1) |>
                                           <| blocked_last_time := u32 now |>)) ;;
      when create (usteer_send_sta_update p) ;;
      mret ret
  end.
End sta_event.

(** ** What it does to the counters *)

(** Before the policy is asked. *)
Definition event_counted (cfg : usteer_config) (now : Z) (st : sta_info_stats) : sta_info_stats :=
  let st := st <| requests ::= fun x => u32 (x + 1) |> in
  if sta_block_timeout cfg <? u32 (blocked_last_time st - now) then st <| blocked_cur := 0 |> else st.

(** After its answer. *)
Definition event_answered (now : Z) (ret : bool) (st : sta_info_stats) : sta_info_stats :=
  if ret then st <| blocked_cur := 0 |>
  else st <| blocked_cur ::= fun x => u32 (x + 1) |>
          <| blocked_total ::= fun x => u32 (x + 1) |> <| blocked_last_time := u32 now |>.

(** The object when the policy is asked. *)
Definition event_si (cfg : usteer_config) (now signal : Z) (type : usteer_event_type)
    (st : sta_info_stats) (si : sta_info) : sta_info :=
  si <| si_signal := updated_signal si signal false |> <| si_seen := now |>
     <| si_roam_scan_done := now |> <| si_stats ::= <[event_idx type := event_counted cfg now st]> |>.

Lemma u32_u64 x : u32 (u64 x) = u32 x.
Proof.
  unfold u32, u64. symmetry. apply Znumtheory.Zmod_div_mod; [lia..|]. by exists (2 ^ 32).
Qed.

Section sta_event_spec.
Context {ET : Ether} {T : Type} `{!AvlTree Z ptr T} `{!AvlLaws Z ptr T}.
Implicit Types (w : world T) (p q : ptr) (si : sta_info) (a : mac) (n : node_id).

Lemma wp_upd_stats p type f si st w (Q : unit -> world T -> Prop) :
  si_heap w !! p = Some si -> si_stats si !! event_idx type = Some st ->
  Q tt (w <| si_heap ::= <[p := si <| si_stats ::= <[event_idx type := f st]> |>]> |>) ->
  wp (upd_stats p type f) Q w.
Proof.
  intros Hp Hst HQ. unfold upd_stats, get_stats. apply wp_bind, wp_bind.
  eapply wp_get_si; [done|]. eapply wp_deref; [done|]. by eapply wp_upd_si.
Qed.

(** From [w], the object [p] of the event became [si] and nothing else changed
    but what a search may create. *)
Record event_step (n : node_id) (p : ptr) (si : sta_info) (w w1 : world T) : Prop := {
  ev_inv : inv w1;
  ev_frame : frame w w1;
  ev_si : si_heap w1 !! p = Some si;
  ev_key : si_node si = n;
  ev_others q sq : q ≠ p -> si_heap w !! q = Some sq -> si_heap w1 !! q = Some sq;
  ev_out : out w1 = out w;
  ev_empty : no_empty_sta (abs w) -> no_empty_sta (abs w1);
  ev_timer q : q ≠ p -> q ∈ q_ids (tq w1) <-> q ∈ q_ids (tq w);
  ev_armed : p ∈ q_ids (tq w1) <-> si_connected si ≠ 1;
}.

Lemma event_step_upd n p si si' w w1 :
  event_step n p si w w1 -> si_key si' = si_key si -> si_ok p si' ->
  si_connected si' = si_connected si ->
  event_step n p si' w (w1 <| si_heap ::= <[p := si']> |>).
Proof.
  intros [] Hk Hok Hc. split; try done.
  - by eapply inv_set_si.
  - by etrans; [|split].
  - apply lookup_insert_eq.
  - unfold si_key in Hk. congruence.
  - intros q sq Hq Hsq. simpl. rewrite lookup_insert_ne by done. by apply ev_others0.
  - simpl. rewrite Hc. done.
Qed.

Lemma event_step_stats n p si type st w w1 :
  event_step n p si w w1 -> event_step n p (si <| si_stats ::= <[event_idx type := st]> |>) w
    (w1 <| si_heap ::= <[p := si <| si_stats ::= <[event_idx type := st]> |>]> |>).
Proof.
  intros Hs. eapply event_step_upd; [done|done| |done].
  destruct (inv_si _ (ev_inv _ _ _ _ _ Hs) p si (ev_si _ _ _ _ _ Hs)) as [Hl Hb].
  split; [simpl; by rewrite length_insert|done].
Qed.

Lemma event_step_grown n p si w w1 w2 :
  event_step n p si w w1 -> grown n w1 w2 -> event_step n p si w w2.
Proof.
  intros [] Hg. split; try done.
  - apply Hg.
  - etrans; [done|apply Hg].
  - by apply (gr_heap _ _ _ Hg).
  - intros q sq Hq Hsq. apply (gr_heap _ _ _ Hg). auto.
  - rewrite (gr_out _ _ _ Hg). done.
  - intros Hne. apply (gr_empty _ _ _ Hg). auto.
  - intros q. rewrite (gr_tq _ _ _ Hg). auto.
  - by rewrite (gr_tq _ _ _ Hg).
Qed.

(** [usteer_sta_info_update], when it does not free the object. *)
Lemma event_update n a x p create si signal w w1 :
  ensured a n x w p create si w1 -> 0 < s32 (local_sta_timeout (config w)) -> signal_ok signal ->
  wp (usteer_sta_info_update p signal false) (fun _ w2 =>
    event_step n p (si <| si_signal := updated_signal si signal false |>
                       <| si_seen := current_time w |>) w w2) w1.
Proof.
  intros [Hi Hf Hfi Hold Hp Hk Hoth Htq Ho He] Ht Hsok.
  assert (Hc := fr_config _ _ Hf). assert (Hti := fr_time _ _ Hf).
  eapply wp_mono; [by eapply usteer_sta_info_update_spec|].
  intros [] w2 [Hi2 Hup]. rewrite Hc, Hti in Hup. cbv zeta in Hup.
  set (si' := si <| si_signal := _ |> <| si_seen := _ |>) in *.
  destruct (timeout_updated_pos _ _ _ _ _ Ht Hup) as (Hf2 & Hh2 & Hs2 & Hn2 & Ho2 & Ha2).
  assert (Ha1 : abs (w1 <| si_heap ::= <[p := si']> |>) = abs w1) by by eapply abs_set_si.
  assert (Harm : forall q, q ∈ q_ids (tq w2) <->
    q ∈ (if si_connected si =? 1 then t_armed (abs w1) ∖ {[p]} else {[p]} ∪ t_armed (abs w1))).
  { intros q. rewrite <- (abs_armed q w2), Ha2, Ha1. by destruct (si_connected si' =? 1) eqn:E;
      change (si_connected si') with (si_connected si) in E; rewrite E. }
  assert (Hin : forall q, q ∈ t_armed (abs w1) <-> q ∈ q_ids (tq w)) by (intros; rewrite abs_armed; by rewrite Htq).
  split.
  - done.
  - etrans; [done|]. by etrans; [|apply Hf2].
  - rewrite Hh2. apply lookup_insert_eq.
  - unfold si_key in Hk. simpl. congruence.
  - intros q sq Hq Hsq. rewrite Hh2. simpl. rewrite lookup_insert_ne, Hoth by done. done.
  - rewrite Ho2. done.
  - intros Hne a'. change (t_sta (abs w2)) with (sta_nodes <$> stations w2). rewrite Hs2.
    exact (He Hne a').
  - intros q Hq. rewrite Harm, <- Hin. destruct (_ =? 1); set_solver.
  - rewrite Harm. simpl. destruct (Z.eqb_spec (si_connected si) 1); set_solver.
Qed.

(** The counters and the question, from the updated object on. *)
Lemma event_stats_step n p si type f st w w1 (Q : unit -> world T -> Prop) :
  event_step n p si w w1 -> si_stats si !! event_idx type = Some st ->
  (forall w2, event_step n p (si <| si_stats ::= <[event_idx type := f st]> |>) w w2 -> Q tt w2) ->
  wp (upd_stats p type f) Q w1.
Proof.
  intros Hs Hst HQ. eapply wp_upd_stats; [apply Hs|done|]. apply HQ. by apply event_step_stats.
Qed.

Lemma stats_insert_twice si type st st' :
  si <| si_stats ::= <[event_idx type := st]> |> <| si_stats ::= <[event_idx type := st']> |> =
  si <| si_stats ::= <[event_idx type := st']> |>.
Proof. unfold set_field. simpl. by rewrite list_insert_insert_eq. Qed.

Lemma stats_insert_lookup si type st st0 :
  si_stats si !! event_idx type = Some st0 ->
  si_stats (si <| si_stats ::= <[event_idx type := st]> |>) !! event_idx type = Some st.
Proof. intros H. simpl. apply list_lookup_insert_eq. by eapply lookup_lt_Some. Qed.

Lemma node_data_noise x y : node_data x = node_data y -> noise x = noise y.
Proof. unfold node_data, set_field. congruence. Qed.

(** The outcome of the event: the object [si] of the station, found or new, has
    the signal, times and counters of the event in state [w1], when the policy
    is asked; its answer settles the counters; a new station is announced. *)
Record event_handled (s : string) (x : usteer_node) (a : mac) (type : usteer_event_type) (signal : Z)
    (w : world T) (r : bool) (w' : world T) (p : ptr) (create : bool) (si : sta_info)
    (st : sta_info_stats) (w1 w2 : world T) : Prop := {
  eh_find : table_find a (NLocal s) (abs w) = if create then None else Some p;
  eh_old : if create then si = calloc_sta_info a (NLocal s) (freq x) (current_time w) /\ si_heap w !! p = None
           else si_heap w !! p = Some si;
  eh_key : si_key si = (a, NLocal s);
  eh_st : si_stats si !! event_idx type = Some st;
  eh_asked : event_step (NLocal s) p (event_si (config w) (current_time w) signal type st si) w w1;
  eh_answer : r = true <->
    request_allowed w1 p (event_si (config w) (current_time w) signal type st si) x
      (event_counted (config w) (current_time w) st) type;
  eh_done : event_step (NLocal s) p
    (event_si (config w) (current_time w) signal type st si
       <| si_stats ::= <[event_idx type :=
            event_answered (current_time w) r (event_counted (config w) (current_time w) st)]> |>) w w2;
  eh_sent : if create
            then exists x2 si2, node_heap w2 !! NLocal s = Some x2 /\ si_heap w2 !! p = Some si2 /\
                   w' = updated w2 [node_msg w2 s x2 [si2]]
            else w' = w2;
}.

Lemma usteer_handle_sta_event_spec s x a type fr signal w :
  inv w -> node_heap w !! NLocal s = Some x -> type ≠ __EVENT_TYPE_MAX ->
  0 < s32 (local_sta_timeout (config w)) -> signal_ok signal ->
  wp (usteer_handle_sta_event (NLocal s) a type fr signal) (fun r w' =>
    exists p create si st w1 w2, event_handled s x a type signal w r w' p create si st w1 w2) w.
Proof.
  intros Hi Hx Hty Ht Hsok. unfold usteer_handle_sta_event.
  apply wp_bind. eapply wp_mono; [by apply usteer_sta_get_there|]. intros r wa [-> Ha].
  apply wp_bind. eapply sta_there_upd; [done|by intros; case_match|]. intros wb Hb.
  apply wp_bind. eapply wp_mono; [by eapply ensured_intro|]. intros r wc (p & create & si & -> & Hen).
  apply wp_bind. eapply wp_deref; [done|]. simpl.
  apply wp_bind. eapply wp_mono; [by eapply event_update|]. intros [] wd Hd.
  destruct (stats_lookup wd p _ type (ev_inv _ _ _ _ _ Hd) (ev_si _ _ _ _ _ Hd) Hty) as [st Hst].
  simpl in Hst. do 2 wp_step. rewrite (fr_time _ _ (ev_frame _ _ _ _ _ Hd)).
  set (now := current_time w). fold now in Hd.
  set (si0 := si <| si_signal := updated_signal si signal false |> <| si_seen := now |>) in *.
  set (si1 := si0 <| si_roam_scan_done := now |>).
  apply wp_bind. eapply wp_upd_si; [apply Hd|]. fold si1.
  assert (Hd1 : event_step (NLocal s) p si1 w (wd <| si_heap ::= <[p := si1]> |>)).
  { eapply event_step_upd; [exact Hd|done| |done].
    exact (inv_si _ (ev_inv _ _ _ _ _ Hd) p _ (ev_si _ _ _ _ _ Hd)). }
  assert (Hst1 : si_stats si1 !! event_idx type = Some st) by done.
  assert (Hev : event_si (config w) now signal type st si =
    si1 <| si_stats ::= <[event_idx type := event_counted (config w) now st]> |>) by done.
  clearbody si1.
  apply wp_bind. eapply event_stats_step; [exact Hd1|exact Hst1|]. intros we He.
  assert (Hst2 := stats_insert_lookup si1 type (st <| requests ::= fun x => u32 (x + 1) |>) st Hst1).
  apply wp_bind. unfold get_stats at 1. apply wp_bind. eapply wp_get_si; [apply He|].
  eapply wp_deref; [exact Hst2|]. do 2 wp_step. rewrite u32_u64, (fr_config _ _ (ev_frame _ _ _ _ _ He)).
  set (ste := event_counted (config w) now st) in *.
  apply wp_bind. eapply wp_mono with (P := fun _ wf =>
    event_step (NLocal s) p (event_si (config w) now signal type st si) w wf).
  { rewrite Hev. unfold ste, event_counted. cbv zeta. apply wp_when; intros Hblk; rewrite Hblk.
    - eapply event_stats_step; [exact He|exact Hst2|]. intros wf. by rewrite stats_insert_twice.
    - exact He. }
  intros [] wf Hf.
  assert (Hste : si_stats (event_si (config w) now signal type st si) !! event_idx type = Some ste).
  { rewrite Hev. by eapply stats_insert_lookup. }
  assert (Hkey : si_key (event_si (config w) now signal type st si) = (a, NLocal s)) by apply Hen.
  remember (event_si (config w) now signal type st si) as se eqn:Hse.
  destruct (frame_node_Some w wf _ x (ev_frame _ _ _ _ _ Hf) Hx) as (x1 & Hx1 & Hd1x).
  assert (Hn : si_node se = NLocal s) by apply Hf.
  apply wp_bind. eapply wp_mono; [eapply usteer_check_request_spec; [apply Hf|apply Hf| |exact Hste]|].
  { by rewrite Hn. }
  intros r wg [Hg Hr]. rewrite Hn in Hg. assert (Hsg := event_step_grown _ _ _ _ _ _ Hf Hg).
  apply wp_bind. eapply wp_mono with (P := fun _ wh =>
    event_step (NLocal s) p (se <| si_stats ::= <[event_idx type := event_answered now r ste]> |>) w wh).
  { destruct r; (eapply event_stats_step; [exact Hsg|exact Hste|]); auto. }
  intros [] wh Hh. set (sf := se <| si_stats ::= _ |>) in *.
  destruct (frame_node_Some w wh _ x (ev_frame _ _ _ _ _ Hh) Hx) as (x2 & Hx2 & _).
  apply wp_bind. eapply wp_mono with (P := fun _ wi =>
    if create then wi = updated wh [node_msg wh s x2 [sf]] else wi = wh).
  { destruct create; [|by apply wp_ret]. eapply usteer_send_sta_update_spec; [apply Hh|apply Hh|done]. }
  intros [] wi Hwi. apply wp_ret. exists p, create, si, st, wf, wh.
  split; fold now; rewrite <- ?Hse; fold ste.
  - apply Hen.
  - apply Hen.
  - apply Hen.
  - done.
  - done.
  - rewrite Hr. unfold request_allowed, snr_to_signal. by rewrite (node_data_noise x1 x Hd1x).
  - done.
  - destruct create; [|done]. exists x2, sf. split; [done|]. split; [apply Hh|done].
Qed.
End sta_event_spec.
