(* ===== verification/Roam.v ===== *)
(** * Kicking clients (policy.c, second part)

    The roaming state machine of a station, the check that runs it for every
    station of a node, the kick of stations with a low SNR and the kick that
    relieves an overloaded node. The node an operation works on is the one named
    [s]; it walks the stations the node had when the loop began, which nothing in
    the loops adds to or removes. *)
From S2P Require Import Prelude Blob Timeout Types Table World Beacon Sta UbusClient Policy.

(** [usteer_roam_set_state] on the struct. *)
Definition roam_set_state (now : Z) (state : roam_trigger_state) (si : sta_info) : sta_info :=
  let si := si <| si_roam_event := now |> in
  if bool_decide (si_roam_state si = state) then
    if bool_decide (si_roam_state si = ROAM_TRIGGER_IDLE) then si <| si_roam_tries := 0 |>
    else si <| si_roam_tries ::= fun t => u8 (t + 1) |> <| si_roam_state := state |>
  else si <| si_roam_tries := 0 |> <| si_roam_state := state |>.

Section roam.
Context {BM : Blobmsg} {T : Type} `{!AvlTree Z ptr T}.

Definition usteer_roam_set_state (p : ptr) (state : roam_trigger_state) : M (world T) unit :=
  now ← gets current_time;
  upd_si p (roam_set_state now state).

Definition usteer_roam_trigger_sm (p : ptr) : M (world T) bool :=
  cfg ← gets config;
  now ← gets current_time;
  si ← get_si p;
  node ← get_node (si_node si);
  let min_signal := snr_to_signal node (roam_trigger_snr cfg) in
  match si_roam_state si with
  | ROAM_TRIGGER_SCAN =>
      if u64 (now - si_roam_event si) <? roam_scan_interval cfg then mret false else
        found ← find_better_candidate p;
        si ← get_si p;
        if bool_decide (is_Some found) || (si_roam_event si <? si_roam_scan_done si) then
          usteer_roam_set_state p ROAM_TRIGGER_SCAN_DONE ;; mret false
        else if negb (roam_scan_tries cfg =? 0) && (roam_scan_tries cfg <=? si_roam_tries si) then
          usteer_roam_set_state p ROAM_TRIGGER_WAIT_KICK ;; mret false
        else
          usteer_ubus_trigger_client_scan p ;;
          usteer_roam_set_state p ROAM_TRIGGER_SCAN ;;
          mret false
  | ROAM_TRIGGER_IDLE =>
      found ← find_better_candidate p;
      if bool_decide (is_Some found) then
        usteer_roam_set_state p ROAM_TRIGGER_SCAN_DONE ;; mret false
      else
        usteer_roam_set_state p ROAM_TRIGGER_SCAN ;; mret false
  | ROAM_TRIGGER_SCAN_DONE =>
      (* check for stale scan results, kick back to SCAN state if necessary *)
      if u32 (2 * roam_scan_interval cfg) <? u64 (now - si_roam_scan_done si) then
        usteer_roam_set_state p ROAM_TRIGGER_SCAN ;; mret false
      else
        found ← find_better_candidate p;
        if bool_decide (is_Some found) then
          usteer_roam_set_state p ROAM_TRIGGER_WAIT_KICK ;; mret false
        else mret false
  | ROAM_TRIGGER_WAIT_KICK =>
      if min_signal <? si_signal si then mret false else
        usteer_roam_set_state p ROAM_TRIGGER_NOTIFY_KICK ;;
        usteer_ubus_notify_client_disassoc p ;;
        mret false
  | ROAM_TRIGGER_NOTIFY_KICK =>
      if u64 (now - si_roam_event si) <? u32 (roam_kick_delay cfg * 100) then mret false else
        usteer_roam_set_state p ROAM_TRIGGER_KICK ;; mret false
  | ROAM_TRIGGER_KICK =>
      usteer_ubus_kick_client p ;;
      usteer_roam_set_state p ROAM_TRIGGER_IDLE ;;
      mret true
  end.

(** The body of the loop of [usteer_local_node_roam_check]; [Some tt] is the
    [return] that ends it. *)
Definition roam_check_body (min_signal : Z) (q : ptr) : M (world T) (option unit) :=
  cfg ← gets config;
  now ← gets current_time;
  si ← get_si q;
  idle ← (if (si_connected si =? 0) || (min_signal <=? si_signal si) then mret true
          else
            active ← is_active_client q;
            mret ((active : bool) || (u64 (now - si_roam_kick si) <? roam_trigger_interval cfg)));
  if (idle : bool) then usteer_roam_set_state q ROAM_TRIGGER_IDLE ;; mret None
  else
    kicked ← usteer_roam_trigger_sm q;
    mret (if (kicked : bool) then Some tt else None).

Definition usteer_local_node_roam_check (s : string) : M (world T) unit :=
  cfg ← gets config;
  let min_signal :=
    if negb (roam_scan_snr cfg =? 0) then Some (roam_scan_snr cfg)
    else if negb (roam_trigger_snr cfg =? 0) then Some (roam_trigger_snr cfg)
    else None in
  match min_signal with
  | None => mret tt
  | Some min_signal =>
      usteer_update_time ;;
      node ← get_node (NLocal s);
      for_until (roam_check_body (snr_to_signal node min_signal)) (node_sta_info node) ;;
      mret tt
  end.

Definition snr_kick_body (min_signal : Z) (q : ptr) : M (world T) (option unit) :=
  si ← get_si q;
  if si_connected si =? 0 then mret None else
    active ← is_active_client q;
    if (active : bool) then mret None
    else if min_signal <=? si_signal si then mret None
    else
      upd_si q (fun si => si <| si_kick_count ::= fun k => s32 (k + 1) |>) ;;
      usteer_ubus_kick_client q ;;
      mret (Some tt).

Definition usteer_local_node_snr_kick (s : string) : M (world T) unit :=
  cfg ← gets config;
  if min_snr cfg =? 0 then mret tt else
    node ← get_node (NLocal s);
    for_until (snr_kick_body (snr_to_signal node (min_snr cfg))) (node_sta_info node) ;;
    mret tt.

(** [is_more_kickable] on the pointers the loop keeps. *)
Definition more_kickable (cur : option ptr) (q : ptr) : M (world T) bool :=
  si ← get_si q;
  match cur with
  | None => mret (is_more_kickable None si)
  | Some c => si_cur ← get_si c; mret (is_more_kickable (Some si_cur) si)
  end.

(** The loop of [usteer_local_node_kick]; its locals [kick1] and [kick2]
    ([candidate] is only printed). *)
Definition load_kick_body (acc : option ptr * option ptr) (q : ptr) :
    M (world T) (option ptr * option ptr) :=
  let '(kick1, kick2) := acc in
  si ← get_si q;
  if si_connected si =? 0 then mret (kick1, kick2) else
    active ← is_active_client q;
    if (active : bool) then mret (kick1, kick2) else
      more1 ← more_kickable kick1 q;
      let kick1 := if (more1 : bool) then Some q else kick1 in
      tmp ← find_better_candidate q;
      match tmp with
      | None => mret (kick1, kick2)
      | Some _ =>
          more2 ← more_kickable kick2 q;
          mret (kick1, if (more2 : bool) then Some q else kick2)
      end.

Definition load_kick (s : string) : M (world T) unit :=
  cfg ← gets config;
  node ← get_node (NLocal s);
  if negb (load_kick_enabled cfg) || (load_kick_threshold cfg =? 0) || (load_kick_delay cfg =? 0)
  then mret tt
  else if u32 (load node) <? load_kick_threshold cfg then
    upd_ln s (fun ln => ln <| load_thr_count := 0 |>)
  else
    upd_ln s (fun ln => ln <| load_thr_count ::= fun c => s32 (c + 1) |>) ;;
    ln ← get_ln s;
    delay ← deref DivByZero (fun _ => if local_sta_update cfg =? 0 then None
                                      else Some (DIV_ROUND_UP (load_kick_delay cfg) (local_sta_update cfg)));
    if u32 (load_thr_count ln) <=? delay then mret tt
    else
      upd_ln s (fun ln => ln <| load_thr_count := 0 |>) ;;
      if u32 (n_assoc node) <? load_kick_min_clients cfg then mret tt
      else
        '(kick1, kick2) ← for_fold load_kick_body (None, None) (node_sta_info node);
        match kick1 with
        | None => mret tt
        | Some k1 =>
            let k := default k1 kick2 in
            upd_si k (fun si => si <| si_kick_count ::= fun c => s32 (c + 1) |>) ;;
            usteer_ubus_kick_client k
        end.

Definition usteer_local_node_kick (s : string) : M (world T) unit :=
  usteer_local_node_roam_check s ;;
  usteer_local_node_snr_kick s ;;
  load_kick s.
End roam.

(** ** What the loops may change *)
Section node_step.
Context {T : Type} `{!AvlTree Z ptr T} `{!AvlLaws Z ptr T}.
Implicit Types (w : world T) (p q : ptr) (si : sta_info) (n : node_id).

(** What no decision here changes in a [sta_info]. *)
Record kept (si si' : sta_info) : Prop := {
  kp_key : si_key si' = si_key si;
  kp_reports : si_beacon_reports si' = si_beacon_reports si;
  kp_stats : si_stats si' = si_stats si;
  kp_created : si_created si' = si_created si;
  kp_seen : si_seen si' = si_seen si;
  kp_signal : si_signal si' = si_signal si;
  kp_active : si_active_bytes si' = si_active_bytes si;
}.
#[export] Instance kept_preorder : PreOrder kept.
Proof. split; [by intros si|]. intros ? ? ? [] []. split; congruence. Qed.

(** From [w] to [w'] the stations of node [n] stay the same, only the
    [sta_info]s of [ps] change, and [acts] is sent. *)
Record node_step (n : node_id) (ps : list ptr) (acts : list action) (w w' : world T) : Prop := {
  ns_inv : inv w';
  ns_frame : frame w w';
  ns_si q si : si_heap w !! q = Some si ->
    exists si', si_heap w' !! q = Some si' /\ kept si si' /\ (q ∉ ps -> si' = si);
  ns_node : node_heap w' !! n = node_heap w !! n;
  ns_stations a : is_Some (stations w !! a) -> is_Some (stations w' !! a);
  ns_tq : tq w' = tq w;
  ns_out : out w' = out w ++ acts;
  ns_empty : no_empty_sta (abs w) -> no_empty_sta (abs w');
}.

Lemma grown_step n w w' : grown n w w' -> node_step n [] [] w w'.
Proof.
  intros []. split; try done.
  - intros q si Hq. exists si. by split; [eauto|].
  - by rewrite app_nil_r.
Qed.

Lemma step_refl n w : inv w -> node_step n [] [] w w.
Proof. intros. by apply grown_step, grown_refl. Qed.

Lemma step_trans n ps1 ps2 a1 a2 w w1 w2 :
  node_step n ps1 a1 w w1 -> node_step n ps2 a2 w1 w2 -> node_step n (ps1 ++ ps2) (a1 ++ a2) w w2.
Proof.
  intros [? ? H1 ? ? ? Ho1 ?] [? ? H2 ? ? ? Ho2 ?]. split; try done.
  - by etrans.
  - intros q si Hq. destruct (H1 q si Hq) as (si1 & Hq1 & Hk1 & Hn1).
    destruct (H2 q si1 Hq1) as (si2 & Hq2 & Hk2 & Hn2).
    exists si2. split; [done|]. split; [by etrans|].
    intros [Hn3 Hn4]%not_elem_of_app. rewrite (Hn2 Hn4). auto.
  - congruence.
  - auto.
  - congruence.
  - by rewrite Ho2, Ho1, app_assoc.
  - auto.
Qed.

Lemma step_weaken n ps ps' acts w w' : ps ⊆ ps' -> node_step n ps acts w w' -> node_step n ps' acts w w'.
Proof.
  intros Hsub []. split; try done. intros q si Hq.
  destruct (ns_si0 q si Hq) as (si' & ? & ? & Hn). exists si'. set_solver.
Qed.

Lemma step_upd n p si si' w :
  inv w -> si_heap w !! p = Some si -> kept si si' ->
  node_step n [p] [] w (w <| si_heap ::= <[p := si']> |>).
Proof.
  intros Hi Hp Hk. assert (Ha := abs_set_si p si si' w Hp (kp_key _ _ Hk)). split; try done.
  - eapply inv_set_si; [done..|apply Hk|]. destruct (inv_si _ Hi p si Hp), Hk. split; congruence.
  - intros q si0 Hq. simpl. rewrite lookup_insert. case_decide as Hpq; [subst|].
    + simplify_eq. exists si'. split; [done|]. split; [done|]. set_solver.
    + exists si0. split; [done|]. by split.
  - simpl. by rewrite app_nil_r.
Qed.

Lemma step_emit n acts w : inv w -> node_step n [] acts w (w <| out ::= fun l => l ++ acts |>).
Proof.
  intros Hi. split; try done; [by apply inv_emit|].
  intros q si Hq. exists si. split; [done|]. by split.
Qed.

(** The object [p] after a step that ends by writing it. *)
Lemma step_upd_at n ps acts p si si' w w' :
  node_step n ps acts w w' -> si_heap w' !! p = Some si -> kept si si' ->
  node_step n (ps ++ [p]) acts w (w' <| si_heap ::= <[p := si']> |>).
Proof.
  intros Hs Hp Hk. rewrite <- (app_nil_r acts). eapply step_trans; [done|].
  eapply step_upd; [apply Hs|done..].
Qed.

Lemma step_emit_at n ps acts acts' w w' :
  node_step n ps acts w w' -> node_step n ps (acts ++ acts') w (w' <| out ::= fun l => l ++ acts' |>).
Proof.
  intros Hs. rewrite <- (app_nil_r ps). eapply step_trans; [done|]. apply step_emit, Hs.
Qed.

Lemma step_same n ps acts p si w w' :
  node_step n ps acts w w' -> si_heap w !! p = Some si -> p ∉ ps -> si_heap w' !! p = Some si.
Proof. intros Hs Hp Hn. destruct (ns_si _ _ _ _ _ Hs p si Hp) as (? & ? & _ & <-); done. Qed.

Lemma step_ln n ps acts w w' s : node_step n ps acts w w' -> ln_heap w' !! s = ln_heap w !! s.
Proof. intros Hs. by rewrite (fr_ln _ _ (ns_frame _ _ _ _ _ Hs)). Qed.

(** The search and its answer, as a function of the state. *)
Definition has_candidate (w : world T) (p : ptr) : bool :=
  match find_better_candidate p w with
  | Ok (Some _, _) => true
  | _ => false
  end.

Lemma wp_find_better_candidate p si w (Q : option ptr -> world T -> Prop) :
  inv w -> si_heap w !! p = Some si ->
  (forall r w', grown (si_node si) w w' -> bool_decide (is_Some r) = has_candidate w p -> Q r w') ->
  wp (find_better_candidate p) Q w.
Proof.
  intros Hi Hp HQ. eapply wp_mono_run; [by eapply find_better_candidate_spec|].
  intros r w' Hrun [Hg _]. apply HQ; [done|]. unfold has_candidate. rewrite Hrun.
  destruct r; [by rewrite bool_decide_true by eauto|]. apply bool_decide_false. by intros [].
Qed.

Lemma has_candidate_spec w p si :
  inv w -> si_heap w !! p = Some si -> has_candidate w p = false <-> no_candidate w p si.
Proof.
  intros Hi Hp. unfold has_candidate.
  destruct (proj1 (wp_ok _ _ _) (find_better_candidate_spec p si w Hi Hp)) as (r & w' & -> & _ & Hr).
  destruct r; naive_solver.
Qed.

Lemma is_active_client_spec p si w :
  si_heap w !! p = Some si -> kick_client_active_sec (config w) ≠ 0 ->
  wp (is_active_client p) (fun r w' => w' = w /\
    r = (kick_client_active_bits (config w) <=?
         default 0 (usteer_get_client_active_bits (config w) si))) w.
Proof.
  intros Hp Hs. unfold is_active_client, usteer_get_client_active_bits.
  apply wp_bind. eapply wp_get_si; [done|]. do 2 wp_step. apply wp_bind.
  rewrite (proj2 (Z.eqb_neq _ _) Hs). by eapply wp_deref.
Qed.
End node_step.

(** ** The state machine, abstractly

    What a run of [usteer_roam_trigger_sm] asks for, and the [sta_info] after
    it, as a function of the [sta_info], the time and whether a better candidate
    is there. *)
Inductive roam_label := RNone | RScan | RNotify | RKick.
#[export] Instance roam_label_eq_dec : EqDecision roam_label.
Proof. solve_decision. Defined.

Definition roam_next (cfg : usteer_config) (now min_signal : Z) (found : bool) (si : sta_info) :
    roam_label * sta_info :=
  let goto st := (RNone, roam_set_state now st si) in
  match si_roam_state si with
  | ROAM_TRIGGER_IDLE => goto (if found then ROAM_TRIGGER_SCAN_DONE else ROAM_TRIGGER_SCAN)
  | ROAM_TRIGGER_SCAN =>
      if u64 (now - si_roam_event si) <? roam_scan_interval cfg then (RNone, si)
      else if found || (si_roam_event si <? si_roam_scan_done si) then goto ROAM_TRIGGER_SCAN_DONE
      else if negb (roam_scan_tries cfg =? 0) && (roam_scan_tries cfg <=? si_roam_tries si)
      then goto ROAM_TRIGGER_WAIT_KICK
      else (RScan, roam_set_state now ROAM_TRIGGER_SCAN (scan_toggled si))
  | ROAM_TRIGGER_SCAN_DONE =>
      if u32 (2 * roam_scan_interval cfg) <? u64 (now - si_roam_scan_done si)
      then goto ROAM_TRIGGER_SCAN
      else if found then goto ROAM_TRIGGER_WAIT_KICK else (RNone, si)
  | ROAM_TRIGGER_WAIT_KICK =>
      if min_signal <? si_signal si then (RNone, si)
      else (RNotify, roam_set_state now ROAM_TRIGGER_NOTIFY_KICK si)
  | ROAM_TRIGGER_NOTIFY_KICK =>
      if u64 (now - si_roam_event si) <? u32 (roam_kick_delay cfg * 100) then (RNone, si)
      else goto ROAM_TRIGGER_KICK
  | ROAM_TRIGGER_KICK =>
      (RKick, roam_set_state now ROAM_TRIGGER_IDLE
                (si <| si_connected := 0 |> <| si_roam_kick := now |>))
  end.

Section roam_spec.
Context {BM : Blobmsg} {T : Type} `{!AvlTree Z ptr T} `{!AvlLaws Z ptr T}.
Implicit Types (w : world T) (p q : ptr) (si : sta_info) (s : string) (ln : usteer_local_node).

Definition label_acts w si ln (lab : roam_label) (acts : list action) : Prop :=
  match lab with
  | RNone => acts = []
  | RScan => acts = [scan_call (scan_toggled si) ln]
  | RNotify => exists neighbors, acts = [notify_call w si ln neighbors]
  | RKick => acts = [kick_call w si ln]
  end.

Lemma kept_set_state now st si : kept si (roam_set_state now st si).
Proof. unfold roam_set_state. repeat case_bool_decide; by split. Qed.

Lemma wp_roam_set_state p st si w (Q : unit -> world T -> Prop) :
  si_heap w !! p = Some si ->
  Q tt (w <| si_heap ::= <[p := roam_set_state (current_time w) st si]> |>) ->
  wp (usteer_roam_set_state p st) Q w.
Proof. intros Hp HQ. unfold usteer_roam_set_state. wp_steps. by eapply wp_upd_si. Qed.

(** A run that sent [acts] and leaves [si'] in [p]. *)
Definition si_step (s : string) (p : ptr) (acts : list action) (si' : sta_info) w w' : Prop :=
  node_step (NLocal s) [p] acts w w' /\ si_heap w' !! p = Some si'.

Lemma si_step_grown s p si w w1 :
  grown (NLocal s) w w1 -> si_heap w !! p = Some si -> si_step s p [] si w w1.
Proof.
  intros Hg Hp. split; [|by apply (gr_heap _ _ _ Hg)].
  eapply step_weaken; [|by apply grown_step]. set_solver.
Qed.

Lemma si_step_upd s p acts si si' w w' :
  si_step s p acts si w w' -> kept si si' ->
  si_step s p acts si' w (w' <| si_heap ::= <[p := si']> |>).
Proof.
  intros [Hs Hp] Hk. split; [|apply lookup_insert_eq].
  eapply step_weaken; [|by eapply step_upd_at]. set_solver.
Qed.

Lemma si_step_emit s p acts acts' si w w' :
  si_step s p acts si w w' -> si_step s p (acts ++ acts') si w (w' <| out ::= fun l => l ++ acts' |>).
Proof. intros [Hs Hp]. split; [by apply step_emit_at|done]. Qed.

(** The statements of the decisions, after a part of the run. *)
Lemma goto_step s p st acts si w w1 :
  si_step s p acts si w w1 ->
  wp (usteer_roam_set_state p st) (fun _ w' =>
    si_step s p acts (roam_set_state (current_time w) st si) w w') w1.
Proof.
  intros Hs. eapply wp_roam_set_state; [apply Hs|].
  rewrite (fr_time _ _ (ns_frame _ _ _ _ _ (proj1 Hs))).
  eapply si_step_upd; [done|apply kept_set_state].
Qed.

Lemma scan_step s p acts si ln w w1 :
  si_step s p acts si w w1 -> si_node si = NLocal s -> ln_heap w !! s = Some ln ->
  wp (usteer_ubus_trigger_client_scan p) (fun _ w' =>
    si_step s p (acts ++ [scan_call (scan_toggled si) ln]) (scan_toggled si) w w') w1.
Proof.
  intros Hs Hn Hl. eapply usteer_ubus_trigger_client_scan_spec; [apply Hs|done| |].
  { by rewrite (step_ln _ _ _ _ _ _ (proj1 Hs)). }
  apply si_step_emit. eapply si_step_upd; [done|by split].
Qed.

Lemma notify_step s p acts si x ln w w1 :
  si_step s p acts si w w1 -> si_node si = NLocal s -> ln_heap w !! s = Some ln ->
  node_heap w !! NLocal s = Some x ->
  wp (usteer_ubus_notify_client_disassoc p) (fun _ w' =>
    exists nbs, si_step s p (acts ++ [notify_call w si ln nbs]) si w w') w1.
Proof.
  intros Hs Hn Hl Hx. eapply wp_mono.
  { eapply usteer_ubus_notify_client_disassoc_spec; [apply Hs|apply Hs|done| |].
    - by rewrite (step_ln _ _ _ _ _ _ (proj1 Hs)).
    - by rewrite (ns_node _ _ _ _ _ (proj1 Hs)). }
  intros [] w2 ->. eexists. unfold notify_call.
  rewrite (fr_config _ _ (ns_frame _ _ _ _ _ (proj1 Hs))). by apply si_step_emit.
Qed.

Lemma kick_step s p acts si ln w w1 :
  si_step s p acts si w w1 -> si_node si = NLocal s -> ln_heap w !! s = Some ln ->
  wp (usteer_ubus_kick_client p) (fun _ w' =>
    si_step s p (acts ++ [kick_call w si ln]) (kicked w si) w w') w1.
Proof.
  intros Hs Hn Hl. eapply usteer_ubus_kick_client_spec; [apply Hs|done| |].
  { by rewrite (step_ln _ _ _ _ _ _ (proj1 Hs)). }
  unfold kick_call, kicked. assert (Hf := ns_frame _ _ _ _ _ (proj1 Hs)).
  rewrite (fr_config _ _ Hf), (fr_time _ _ Hf).
  eapply si_step_upd; [by apply si_step_emit|by split].
Qed.

Lemma usteer_roam_trigger_sm_spec p si s x ln w :
  inv w -> si_heap w !! p = Some si -> si_node si = NLocal s ->
  node_heap w !! NLocal s = Some x -> ln_heap w !! s = Some ln ->
  let r := roam_next (config w) (current_time w) (snr_to_signal x (roam_trigger_snr (config w)))
             (has_candidate w p) si in
  wp (usteer_roam_trigger_sm p) (fun b w' => b = bool_decide (r.1 = RKick) /\
    exists acts, label_acts w si ln r.1 acts /\ si_step s p acts r.2 w w') w.
Proof.
  intros Hi Hp Hs Hx Hl r. unfold usteer_roam_trigger_sm, r, roam_next. clear r.
  do 4 wp_step. apply wp_bind. eapply wp_get_si; [done|].
  apply wp_bind. eapply wp_get_node; [by rewrite Hs|].
  assert (H0 : si_step s p [] si w w) by (apply si_step_grown; [by apply grown_refl|done]).
  assert (Hfind : forall Q : option ptr -> world T -> Prop, (forall r w', si_step s p [] si w w' ->
    bool_decide (is_Some r) = has_candidate w p -> Q r w') -> wp (find_better_candidate p) Q w).
  { intros Q HQ. eapply wp_find_better_candidate; [done..|]. rewrite Hs. intros r w' Hg.
    apply HQ. by apply si_step_grown. }
  assert (Hgoto : forall st w1, si_step s p [] si w w1 ->
    wp (usteer_roam_set_state p st ;; mret false) (fun b w' => b = false /\
      exists acts, acts = [] /\ si_step s p acts (roam_set_state (current_time w) st si) w w') w1).
  { intros st w1 Hg1. apply wp_bind. eapply wp_mono; [by eapply goto_step|].
    intros [] w2 H2. apply wp_ret. eauto. }
  assert (Hstay : forall w1, si_step s p [] si w w1 ->
    wp (mret false) (fun b w' => b = false /\
      exists acts, acts = [] /\ si_step s p acts si w w') w1).
  { intros w1 Hg1. apply wp_ret. split; [done|]. by exists []. }
  destruct (si_roam_state si) eqn:Est; simpl.
  - apply wp_bind, Hfind. intros f w1 Hg1 ->. by destruct (has_candidate w p); apply Hgoto.
  - case_match; [by apply Hstay|].
    apply wp_bind, Hfind. intros f w1 Hg1 ->.
    apply wp_bind. eapply wp_get_si; [apply Hg1|].
    case_match; [by apply Hgoto|]. case_match; [by apply Hgoto|].
    apply wp_bind. eapply wp_mono; [by eapply scan_step|]. intros [] w2 Hw2.
    apply wp_bind. eapply wp_mono; [by eapply goto_step|]. intros [] w3 Hw3.
    apply wp_ret. split; [done|]. by eexists.
  - case_match; [by apply Hgoto|].
    apply wp_bind, Hfind. intros f w1 Hg1 ->.
    destruct (has_candidate w p); [by apply Hgoto|by apply Hstay].
  - case_match; [by apply Hstay|].
    apply wp_bind. eapply wp_mono; [by eapply goto_step|]. intros [] w1 Hw1.
    assert (Hk := kp_key _ _ (kept_set_state (current_time w) ROAM_TRIGGER_NOTIFY_KICK si)).
    unfold si_key in Hk. injection Hk as Hk1 Hk2.
    apply wp_bind. eapply wp_mono; [eapply notify_step; [done|congruence|done|done]|].
    intros [] w2 (nbs & Hw2). apply wp_ret. split; [done|]. eexists. split; [by exists nbs|].
    unfold notify_call in Hw2. by rewrite Hk1 in Hw2.
  - case_match; [by apply Hstay|by apply Hgoto].
  - apply wp_bind. eapply wp_mono; [by eapply kick_step|]. intros [] w1 Hw1.
    apply wp_bind. eapply wp_mono; [by eapply goto_step|]. intros [] w2 Hw2.
    apply wp_ret. split; [done|]. by eexists.
Qed.

(** ** The check of all stations of a node *)

Definition is_kick (a : action) : bool :=
  match a with
  | UbusInvoke _ m _ => bool_decide (m = "del_client"%string)
  | _ => false
  end.
Definition n_kicks (acts : list action) : nat := length (filter is_kick acts).

Lemma n_kicks_app a1 a2 : n_kicks (a1 ++ a2) = (n_kicks a1 + n_kicks a2)%nat.
Proof. unfold n_kicks. by rewrite list.filter_app, length_app. Qed.
Lemma n_kicks_kick w si ln : n_kicks [kick_call w si ln] = 1%nat.
Proof. done. Qed.

Lemma label_acts_kicks w si ln lab acts :
  label_acts w si ln lab acts -> lab ≠ RKick -> n_kicks acts = 0%nat.
Proof. destruct lab; simpl; [intros ->|intros ->|intros [? ->]|]; done. Qed.

Definition client_active (cfg : usteer_config) (si : sta_info) : bool :=
  kick_client_active_bits cfg <=? default 0 (usteer_get_client_active_bits cfg si).

(** The stations the check sends back to [ROAM_TRIGGER_IDLE]. *)
Definition roam_idle (cfg : usteer_config) (now min_signal : Z) (si : sta_info) : bool :=
  (si_connected si =? 0) || (min_signal <=? si_signal si) ||
  client_active cfg si || (u64 (now - si_roam_kick si) <? roam_trigger_interval cfg).

(** [acts] kicks nobody, or it ends with the kick of a station of [l] that
    satisfies [P]. *)
Definition kicks_one (w : world T) (P : sta_info -> Prop) (l : list ptr) (acts : list action) : Prop :=
  n_kicks acts = 0%nat \/
  exists acts' q si ln, acts = acts' ++ [kick_call w si ln] /\ n_kicks acts' = 0%nat /\
    q ∈ l /\ si_heap w !! q = Some si /\ P si.

Lemma kicks_one_le w P l acts : kicks_one w P l acts -> (n_kicks acts <= 1)%nat.
Proof.
  intros [->|(acts' & q & si & ln & -> & Hk & _)]; [lia|]. rewrite n_kicks_app, Hk, n_kicks_kick. lia.
Qed.

(** The stations of a local node, as the loops find them. *)
Definition local_stations w s (l : list ptr) : Prop :=
  NoDup l /\ is_Some (ln_heap w !! s) /\ is_Some (node_heap w !! NLocal s) /\
  forall q, q ∈ l -> exists si, si_heap w !! q = Some si /\ si_node si = NLocal s.

Lemma inv_local_stations w s x :
  inv w -> node_heap w !! NLocal s = Some x -> local_stations w s (node_sta_info x).
Proof.
  intros Hi Hx. split; [|split; [|split]].
  - eapply tw_node_nodup; [apply Hi|]. by rewrite abs_node, Hx.
  - apply (no_ln _ (inv_nodes _ Hi)). eauto.
  - eauto.
  - intros q Hq. destruct (inv_node_si w _ x q Hi Hx Hq) as (si & ? & ?). eauto.
Qed.

Lemma roam_check_body_spec ms q si s x ln w :
  inv w -> si_heap w !! q = Some si -> si_node si = NLocal s ->
  node_heap w !! NLocal s = Some x -> ln_heap w !! s = Some ln ->
  kick_client_active_sec (config w) ≠ 0 ->
  wp (roam_check_body ms q) (fun r w' => exists acts,
    if roam_idle (config w) (current_time w) ms si
    then r = None /\ acts = [] /\
         si_step s q acts (roam_set_state (current_time w) ROAM_TRIGGER_IDLE si) w w'
    else let o := roam_next (config w) (current_time w)
                    (snr_to_signal x (roam_trigger_snr (config w))) (has_candidate w q) si in
         r = (if decide (o.1 = RKick) then Some tt else None) /\
         label_acts w si ln o.1 acts /\ si_step s q acts o.2 w w') w.
Proof.
  intros Hi Hq Hs Hx Hl Hsec. unfold roam_check_body, roam_idle.
  do 4 wp_step. apply wp_bind. eapply wp_get_si; [done|]. apply wp_bind.
  eapply wp_mono with (P := fun b w' => w' = w /\ b = roam_idle (config w) (current_time w) ms si).
  { unfold roam_idle. destruct ((si_connected si =? 0) || (ms <=? si_signal si)); [by apply wp_ret|].
    apply wp_bind. eapply wp_mono; [by apply is_active_client_spec|]. intros b w1 [-> ->].
    by apply wp_ret. }
  intros b w1 [-> ->]. fold (roam_idle (config w) (current_time w) ms si).
  assert (H0 : si_step s q [] si w w) by (apply si_step_grown; [by apply grown_refl|done]).
  destruct (roam_idle _ _ _ _).
  - apply wp_bind. eapply wp_mono; [by eapply goto_step|]. intros [] w2 Hw2. apply wp_ret. by exists [].
  - apply wp_bind. eapply wp_mono; [by eapply usteer_roam_trigger_sm_spec|].
    intros b w2 (-> & acts & Ha & Hw2). apply wp_ret. exists acts. split; [|done].
    case_bool_decide; [by rewrite decide_True|by rewrite decide_False].
Qed.

Lemma label_kick w si ln lab acts :
  label_acts w si ln lab acts -> lab = RKick -> acts = [kick_call w si ln].
Proof. by intros H ->. Qed.

Lemma roam_next_kick cfg now ms f si :
  (roam_next cfg now ms f si).1 = RKick <-> si_roam_state si = ROAM_TRIGGER_KICK.
Proof. unfold roam_next. destruct (si_roam_state si); repeat case_match; done. Qed.

(** The general shape of the two loops that kick at most one station. *)
Lemma kick_loop_spec s (P : sta_info -> Prop) (body : ptr -> M (world T) (option unit)) l w :
  inv w -> local_stations w s l ->
  (forall q si ps acts w1, q ∈ l -> si_heap w !! q = Some si ->
     node_step (NLocal s) ps acts w w1 -> si_heap w1 !! q = Some si ->
     wp (body q) (fun r w2 => exists acts', node_step (NLocal s) [q] acts' w1 w2 /\
       match r with
       | None => n_kicks acts' = 0%nat
       | Some _ => P si /\ exists ln, acts' = [kick_call w si ln]
       end) w1) ->
  wp (for_until body l) (fun _ w' => exists acts, node_step (NLocal s) l acts w w' /\
    kicks_one w P l acts) w.
Proof.
  intros Hi (Hnd & _ & _ & Hl) Hbody. eapply wp_mono.
  - apply (wp_for_until
      (fun don _ w' => exists acts, node_step (NLocal s) don acts w w' /\ n_kicks acts = 0%nat)
      (fun _ w' => exists acts, node_step (NLocal s) l acts w w' /\ kicks_one w P l acts)).
    { exists []. split; [by apply step_refl|done]. }
    intros don q rest w1 -> (acts & Hst & Hk).
    destruct (Hl q) as (si & Hq & Hn); [set_solver|].
    assert (Hqd : q ∉ don).
    { apply list.NoDup_app in Hnd as (_ & Hd & _). intros Hin. apply (Hd q Hin). set_solver. }
    eapply wp_mono; [eapply (Hbody q si don acts); [set_solver|done|done|by eapply step_same]|].
    intros r w2 (acts' & Hst' & Hr).
    assert (Hst2 := step_trans _ _ _ _ _ _ _ _ Hst Hst'). destruct r as [[]|].
    + destruct Hr as [HP [ln ->]]. exists (acts ++ [kick_call w si ln]).
      split; [eapply step_weaken; [|done]; set_solver|]. right.
      exists acts, q, si, ln. repeat split; try done. set_solver.
    + exists (acts ++ acts'). rewrite n_kicks_app, Hk, Hr. done.
  - intros [[]|] w' (acts & Hst & Hk); exists acts; (split; [done|]); [done|by left].
Qed.

Lemma local_stations_si w s l q si :
  local_stations w s l -> q ∈ l -> si_heap w !! q = Some si -> si_node si = NLocal s.
Proof. intros (_ & _ & _ & Hl) Hq Hsi. destruct (Hl q Hq) as (si' & ? & ?). by simplify_eq. Qed.

(** The two bodies, in that shape. *)
Lemma roam_check_kick ms s x ln l w q si ps acts w1 :
  local_stations w s l -> node_heap w !! NLocal s = Some x -> ln_heap w !! s = Some ln ->
  kick_client_active_sec (config w) ≠ 0 ->
  q ∈ l -> si_heap w !! q = Some si ->
  node_step (NLocal s) ps acts w w1 -> si_heap w1 !! q = Some si ->
  wp (roam_check_body ms q) (fun r w2 => exists acts', node_step (NLocal s) [q] acts' w1 w2 /\
    match r with
    | None => n_kicks acts' = 0%nat
    | Some _ => (roam_idle (config w) (current_time w) ms si = false /\
                 si_roam_state si = ROAM_TRIGGER_KICK) /\
                exists ln, acts' = [kick_call w si ln]
    end) w1.
Proof.
  intros Hl Hx Hln Hsec Hq Hsi Hst Hsi1.
  assert (Hf := ns_frame _ _ _ _ _ Hst).
  eapply wp_mono; [eapply (roam_check_body_spec ms q si s x ln w1)|].
  - apply Hst.
  - done.
  - by eapply local_stations_si.
  - by rewrite (ns_node _ _ _ _ _ Hst).
  - by rewrite (fr_ln _ _ Hf).
  - by rewrite (fr_config _ _ Hf).
  - rewrite (fr_config _ _ Hf), (fr_time _ _ Hf). intros r w2 (acts' & Hr). exists acts'.
    destruct (roam_idle _ _ _ _) eqn:Ei.
    + destruct Hr as (-> & -> & Hs2). by split; [apply Hs2|].
    + destruct Hr as (-> & Ha & Hs2). split; [apply Hs2|]. case_decide as Hd.
      * split; [by rewrite <- (roam_next_kick (config w) (current_time w)
          (snr_to_signal x (roam_trigger_snr (config w))) (has_candidate w1 q))|].
        exists ln. apply label_kick in Ha; [|done]. unfold kick_call in *.
        by rewrite (fr_config _ _ Hf) in Ha.
      * by eapply label_acts_kicks.
Qed.

(** The condition under which [usteer_local_node_snr_kick] kicks. *)
Definition snr_kickable (cfg : usteer_config) (min_signal : Z) (si : sta_info) : Prop :=
  si_connected si ≠ 0 /\ client_active cfg si = false /\ si_signal si < min_signal.

Lemma snr_kick_kick ms s ln l w q si ps acts w1 :
  local_stations w s l -> ln_heap w !! s = Some ln -> kick_client_active_sec (config w) ≠ 0 ->
  q ∈ l -> si_heap w !! q = Some si ->
  node_step (NLocal s) ps acts w w1 -> si_heap w1 !! q = Some si ->
  wp (snr_kick_body ms q) (fun r w2 => exists acts', node_step (NLocal s) [q] acts' w1 w2 /\
    match r with
    | None => n_kicks acts' = 0%nat
    | Some _ => snr_kickable (config w) ms si /\ exists ln, acts' = [kick_call w si ln]
    end) w1.
Proof.
  intros Hl Hln Hsec Hq Hsi Hst Hsi1. assert (Hf := ns_frame _ _ _ _ _ Hst).
  assert (H0 : si_step s q [] si w1 w1) by (apply si_step_grown; [by apply grown_refl, Hst|done]).
  assert (Hstay : wp (mret None) (fun (r : option unit) w2 => exists acts',
    node_step (NLocal s) [q] acts' w1 w2 /\ match r with
      | None => n_kicks acts' = 0%nat
      | Some _ => snr_kickable (config w) ms si /\ exists ln, acts' = [kick_call w si ln]
      end) w1) by (apply wp_ret; exists []; by split; [apply H0|]).
  unfold snr_kick_body. apply wp_bind. eapply wp_get_si; [done|].
  destruct (Z.eqb_spec (si_connected si) 0) as [Hc|Hc]; [apply Hstay|].
  apply wp_bind. eapply wp_mono; [apply (is_active_client_spec q si)|].
  { done. } { by rewrite (fr_config _ _ Hf). }
  rewrite (fr_config _ _ Hf). fold (client_active (config w) si).
  intros a w2 [-> ->]. destruct (client_active (config w) si) eqn:Ea; [apply Hstay|].
  destruct (Z.leb_spec ms (si_signal si)); [apply Hstay|].
  apply wp_bind. eapply wp_upd_si; [done|]. apply wp_bind.
  eapply wp_mono; [eapply (kick_step s q [])|].
  - eapply si_step_upd; [done|by split].
  - simpl; by eapply local_stations_si.
  - by rewrite (fr_ln _ _ Hf).
  - intros [] w2 Hw2. apply wp_ret. eexists. split; [apply Hw2|]. split; [by split|].
    exists ln. unfold kick_call. simpl. by rewrite (fr_config _ _ Hf).
Qed.

(** [usteer_update_time] on the state. *)
Definition time_updated (w : world T) : world T :=
  w <| current_time := u64 (u64 (tv_sec (clock w)) * 1000 + tv_nsec (clock w) / 1000000) |>.
Lemma inv_time w : inv w -> inv (time_updated w).
Proof. intros [? ? ? []]. by split; [..|split]. Qed.

(** The signal below which a station is made to roam, when that is enabled. *)
Definition roam_min_snr (cfg : usteer_config) : option Z :=
  if negb (roam_scan_snr cfg =? 0) then Some (roam_scan_snr cfg)
  else if negb (roam_trigger_snr cfg =? 0) then Some (roam_trigger_snr cfg)
  else None.

Lemma usteer_local_node_roam_check_spec s x ln w :
  inv w -> node_heap w !! NLocal s = Some x -> ln_heap w !! s = Some ln ->
  kick_client_active_sec (config w) ≠ 0 ->
  wp (usteer_local_node_roam_check s) (fun _ w' =>
    match roam_min_snr (config w) with
    | None => w' = w
    | Some snr => exists acts,
        node_step (NLocal s) (node_sta_info x) acts (time_updated w) w' /\
        kicks_one (time_updated w)
          (fun si => roam_idle (config w) (current_time (time_updated w)) (snr_to_signal x snr) si = false /\
                     si_roam_state si = ROAM_TRIGGER_KICK) (node_sta_info x) acts
    end) w.
Proof.
  intros Hi Hx Hln Hsec. unfold usteer_local_node_roam_check. do 2 wp_step.
  fold (roam_min_snr (config w)). destruct (roam_min_snr (config w)) as [snr|]; [|by apply wp_ret].
  apply wp_bind. apply wp_modify. fold (time_updated w).
  apply wp_bind. eapply wp_get_node; [done|]. apply wp_bind.
  assert (Hl : local_stations (time_updated w) s (node_sta_info x))
    by (apply inv_local_stations; [by apply inv_time|done]).
  eapply wp_mono.
  - apply kick_loop_spec; [by apply inv_time|exact Hl|].
    intros q si ps acts w1 Hq Hsi Hst Hsi1. eapply roam_check_kick; [exact Hl|exact Hx|done..].
  - intros r w' Hr. apply wp_ret. exact Hr.
Qed.

Lemma usteer_local_node_snr_kick_spec s x ln w :
  inv w -> node_heap w !! NLocal s = Some x -> ln_heap w !! s = Some ln ->
  kick_client_active_sec (config w) ≠ 0 ->
  wp (usteer_local_node_snr_kick s) (fun _ w' => exists acts,
    node_step (NLocal s) (node_sta_info x) acts w w' /\
    kicks_one w (fun si => min_snr (config w) ≠ 0 /\
        snr_kickable (config w) (snr_to_signal x (min_snr (config w))) si) (node_sta_info x) acts) w.
Proof.
  intros Hi Hx Hln Hsec. unfold usteer_local_node_snr_kick. do 2 wp_step.
  destruct (Z.eqb_spec (min_snr (config w)) 0) as [Hz|Hz].
  { apply wp_ret. exists []. split; [|by left].
    eapply step_weaken; [|by apply step_refl]. set_solver. }
  apply wp_bind. eapply wp_get_node; [done|]. apply wp_bind. eapply wp_mono.
  - apply (kick_loop_spec s (fun si => min_snr (config w) ≠ 0 /\
      snr_kickable (config w) (snr_to_signal x (min_snr (config w))) si)); [done|by apply inv_local_stations|].
    intros q si ps acts w1 Hq Hsi Hst Hsi1.
    eapply wp_mono; [eapply (snr_kick_kick (snr_to_signal x (min_snr (config w))) s ln
      (node_sta_info x) w q si); [by apply inv_local_stations|done..]|].
    intros r w2 (acts' & Hst' & Hr). exists acts'. split; [exact Hst'|]. destruct r as [u|]; [|exact Hr].
    destruct Hr as [Hr ?]. split; [exact (conj Hz Hr)|done].
  - intros r w' Hr. apply wp_ret. exact Hr.
Qed.

(** ** The kick that relieves an overloaded node *)

(** [k] is a station of [l] and no station of [l] is more kickable. *)
Definition best_of w (l : list ptr) (k : option ptr) : Prop :=
  match k with
  | None => l = []
  | Some k => k ∈ l /\ exists sk, si_heap w !! k = Some sk /\
      forall q si, q ∈ l -> si_heap w !! q = Some si -> is_more_kickable (Some sk) si = false
  end.

Lemma more_kickable_false a b :
  is_more_kickable (Some a) b = false <-> si_kick_count a < si_kick_count b \/ si_signal a <= si_signal b.
Proof.
  unfold is_more_kickable. destruct (Z.ltb_spec (si_kick_count a) (si_kick_count b)); [naive_solver|].
  rewrite Z.ltb_ge. lia.
Qed.
Lemma more_kickable_true a b :
  is_more_kickable (Some a) b = true <-> si_kick_count b <= si_kick_count a /\ si_signal b < si_signal a.
Proof.
  unfold is_more_kickable. destruct (Z.ltb_spec (si_kick_count a) (si_kick_count b)); [lia|].
  rewrite Z.ltb_lt. lia.
Qed.

Lemma best_of_snoc w l k q si :
  best_of w l k -> si_heap w !! q = Some si ->
  best_of w (l ++ [q])
    (if is_more_kickable (k ≫= fun k => si_heap w !! k) si then Some q else k).
Proof.
  intros Hb Hq. destruct k as [k|]; simpl in *.
  2: { subst. split; [set_solver|]. exists si. split; [done|].
       intros q' si' ?%list_elem_of_singleton ?. simplify_eq. apply more_kickable_false. lia. }
  destruct Hb as (Hk & sk & Hsk & Hbest). rewrite Hsk.
  destruct (is_more_kickable (Some sk) si) eqn:E; simpl.
  - split; [set_solver|]. exists si. split; [done|].
    apply more_kickable_true in E.
    intros q' si' [Hq'|?%list_elem_of_singleton]%elem_of_app Hsi'; simplify_eq; apply more_kickable_false; [|lia].
    specialize (Hbest _ _ Hq' Hsi'). apply more_kickable_false in Hbest. lia.
  - split; [set_solver|]. exists sk. split; [done|].
    intros q' si' [Hq'|?%list_elem_of_singleton]%elem_of_app Hsi'; simplify_eq; [by eauto|done].
Qed.

(** A station that may be kicked to relieve the node. *)
Definition load_kickable w q : Prop :=
  exists si, si_heap w !! q = Some si /\ si_connected si ≠ 0 /\ client_active (config w) si = false.

(** What the search for [q] answers in the course of the loop, which only
    creates [sta_info]s. *)
Definition found_at w s q (b : bool) : Prop :=
  exists w1, node_step (NLocal s) [] [] w w1 /\ has_candidate w1 q = b.

(** The locals of the loop: [l1] are the kickable stations of [don], [l2] those
    of them with a better candidate. *)
Record load_choice w s (don : list ptr) (l1 l2 : list ptr) (k : option ptr * option ptr) : Prop := {
  lc_l1 q : q ∈ l1 <-> q ∈ don /\ load_kickable w q;
  lc_l2 q : q ∈ l1 -> found_at w s q (bool_decide (q ∈ l2));
  lc_sub : l2 ⊆ l1;
  lc_kick1 : best_of w l1 k.1;
  lc_kick2 : best_of w l2 k.2;
}.

Lemma more_kickable_spec s w w1 cur q si :
  node_step (NLocal s) [] [] w w1 -> si_heap w !! q = Some si ->
  (forall c, cur = Some c -> is_Some (si_heap w !! c)) ->
  wp (more_kickable cur q) (fun r w2 => w2 = w1 /\
    r = is_more_kickable (cur ≫= fun c => si_heap w !! c) si) w1.
Proof.
  intros Hst Hq Hc. unfold more_kickable. apply wp_bind.
  eapply wp_get_si; [eapply step_same; [done..|set_solver]|].
  destruct cur as [c|]; [|by apply wp_ret]. destruct (Hc c eq_refl) as [sc Hsc].
  apply wp_bind. eapply wp_get_si; [eapply step_same; [done..|set_solver]|].
  apply wp_ret. simpl. by rewrite Hsc.
Qed.

Lemma best_of_Some w l k c : best_of w l k -> k = Some c -> is_Some (si_heap w !! c).
Proof. intros Hb ->. destruct Hb as (_ & sk & ? & _). eauto. Qed.

Lemma load_kick_body_spec s don q si l1 l2 k w w1 :
  node_step (NLocal s) [] [] w w1 -> load_choice w s don l1 l2 k -> q ∉ don ->
  si_heap w !! q = Some si -> si_node si = NLocal s -> kick_client_active_sec (config w) ≠ 0 ->
  wp (load_kick_body k q) (fun k' w2 => node_step (NLocal s) [] [] w w2 /\
    exists l1' l2', load_choice w s (don ++ [q]) l1' l2' k') w1.
Proof.
  intros Hst [H1 H2 Hsub Hk1 Hk2] Hqd Hq Hn Hsec. destruct k as [kick1 kick2]. simpl in *.
  assert (Hq1 : si_heap w1 !! q = Some si) by (eapply step_same; [done..|set_solver]).
  assert (Hf := ns_frame _ _ _ _ _ Hst).
  assert (Hql : q ∉ l1) by (rewrite H1; tauto).
  assert (Hskip : ~ load_kickable w q -> wp (mret (kick1, kick2)) (fun k' w2 =>
    node_step (NLocal s) [] [] w w2 /\ exists l1' l2', load_choice w s (don ++ [q]) l1' l2' k') w1).
  { intros Hnk. apply wp_ret. split; [done|]. exists l1, l2. split; try done.
    intros q'. rewrite H1, elem_of_app, list_elem_of_singleton. naive_solver. }
  unfold load_kick_body. apply wp_bind. eapply wp_get_si; [done|].
  destruct (Z.eqb_spec (si_connected si) 0) as [Hc|Hc].
  { apply Hskip. intros (? & ? & ? & _). by simplify_eq. }
  apply wp_bind. eapply wp_mono; [apply (is_active_client_spec q si)|].
  { done. } { by rewrite (fr_config _ _ Hf). }
  rewrite (fr_config _ _ Hf). fold (client_active (config w) si).
  intros a w2 [-> ->]. destruct (client_active (config w) si) eqn:Ea.
  { apply Hskip. intros (? & ? & _ & ?). simplify_eq. congruence. }
  assert (Hlk : load_kickable w q) by by exists si.
  apply wp_bind. eapply wp_mono; [eapply (more_kickable_spec s); [done..|]|].
  { intros c. by apply (best_of_Some w l1 kick1). }
  intros m1 w2 [-> ->]. apply wp_bind. eapply wp_find_better_candidate; [apply Hst|done|].
  intros r w2 Hg Hr. rewrite Hn in Hg.
  assert (Hst2 : node_step (NLocal s) [] [] w w2).
  { apply (step_trans _ _ _ _ _ _ _ _ Hst (grown_step _ _ _ Hg)). }
  assert (Hfound : found_at w s q (bool_decide (is_Some r))) by (exists w1; by split).
  assert (Hl1 : forall q', q' ∈ l1 ++ [q] <-> q' ∈ don ++ [q] /\ load_kickable w q').
  { intros q'. rewrite !elem_of_app, !list_elem_of_singleton, H1. naive_solver. }
  assert (Hb1 := best_of_snoc w l1 kick1 q si Hk1 Hq).
  destruct r as [t|]; simpl in *.
  - apply wp_bind. eapply wp_mono; [eapply (more_kickable_spec s w); [done..|]|].
    { intros c. by apply (best_of_Some w l2 kick2). }
    intros m2 w3 [-> ->]. apply wp_ret. split; [done|]. exists (l1 ++ [q]), (l2 ++ [q]).
    split; simpl; try done; [|set_solver|by apply best_of_snoc].
    intros q' [Hq'|?%list_elem_of_singleton]%elem_of_app.
    + assert (q' ≠ q) by naive_solver. specialize (H2 q' Hq').
      by rewrite (bool_decide_ext _ (q' ∈ l2)) by set_solver.
    + subst. by rewrite (bool_decide_true (q ∈ _)) by set_solver.
  - apply wp_ret. split; [done|]. exists (l1 ++ [q]), l2. split; simpl; try done; [|set_solver].
    intros q' [Hq'|?%list_elem_of_singleton]%elem_of_app; [by auto|]. subst.
    by rewrite (bool_decide_false (q ∈ _)) by set_solver.
Qed.

(** The counter of consecutive updates above the load threshold, and whether
    they were enough to kick. *)
Definition thr_next (cfg : usteer_config) (ld count : Z) : bool * Z :=
  if u32 ld <? load_kick_threshold cfg then (false, 0)
  else
    let c := s32 (count + 1) in
    if u32 c <=? DIV_ROUND_UP (load_kick_delay cfg) (local_sta_update cfg) then (false, c)
    else (true, 0).

Definition load_kick_off (cfg : usteer_config) : bool :=
  negb (load_kick_enabled cfg) || (load_kick_threshold cfg =? 0) || (load_kick_delay cfg =? 0).

Definition thr_counted w s ln (c : Z) : world T :=
  w <| ln_heap ::= <[s := ln <| load_thr_count := c |>]> |>.

(** The kick: of the choice with a better candidate if there is one, else of the
    choice among all. *)
Definition load_kicked w s l acts w' : Prop :=
  exists l1 l2 kick1 kick2, load_choice w s l l1 l2 (kick1, kick2) /\
    match kick1 with
    | None => acts = [] /\ node_step (NLocal s) [] acts w w'
    | Some k1 =>
        let k := default k1 kick2 in
        exists si ln, si_heap w !! k = Some si /\ k ∈ l /\ load_kickable w k /\
          ln_heap w !! s = Some ln /\ acts = [kick_call w si ln] /\
          node_step (NLocal s) [k] acts w w'
    end.

Lemma load_kick_loop_spec s l w :
  inv w -> local_stations w s l -> kick_client_active_sec (config w) ≠ 0 ->
  wp (for_fold load_kick_body (None, None) l) (fun k w' => node_step (NLocal s) [] [] w w' /\
    exists l1 l2, load_choice w s l l1 l2 k) w.
Proof.
  intros Hi (Hnd & _ & _ & Hl) Hsec.
  apply (wp_for_fold (fun don _ k w1 => node_step (NLocal s) [] [] w w1 /\
    exists l1 l2, load_choice w s don l1 l2 k)).
  { split; [by apply step_refl|]. exists [], []. split; try done; set_solver. }
  intros don q rest k w1 -> (Hst & l1 & l2 & Hlc). destruct (Hl q) as (si & Hq & Hn); [set_solver|].
  eapply load_kick_body_spec; [done..| |done|done|done].
  apply list.NoDup_app in Hnd as (_ & Hd & _). intros Hin. apply (Hd q Hin). set_solver.
Qed.

Lemma load_kick_spec s x ln w :
  inv w -> node_heap w !! NLocal s = Some x -> ln_heap w !! s = Some ln ->
  kick_client_active_sec (config w) ≠ 0 -> local_sta_update (config w) ≠ 0 ->
  wp (load_kick s) (fun _ w' =>
    if load_kick_off (config w) then w' = w
    else
      let '(try, c) := thr_next (config w) (load x) (load_thr_count ln) in
      let w0 := thr_counted w s ln c in
      if try && (load_kick_min_clients (config w) <=? u32 (n_assoc x))
      then exists acts, load_kicked w0 s (node_sta_info x) acts w'
      else w' = w0) w.
Proof.
  intros Hi Hx Hln Hsec Hup. unfold load_kick, thr_next. do 2 wp_step.
  apply wp_bind. eapply wp_get_node; [done|]. fold (load_kick_off (config w)).
  destruct (load_kick_off (config w)); [by apply wp_ret|].
  case_match; [by eapply wp_upd_ln|].
  apply wp_bind. eapply wp_upd_ln; [done|]. apply wp_bind.
  eapply wp_get_ln; [simpl; apply lookup_insert_eq|]. apply wp_bind.
  rewrite (proj2 (Z.eqb_neq _ _) Hup). eapply wp_deref; [done|]. simpl.
  destruct (u32 _ <=? DIV_ROUND_UP _ _); [by apply wp_ret|].
  apply wp_bind. eapply wp_upd_ln; [simpl; apply lookup_insert_eq|]. simpl.
  rewrite insert_insert_eq.
  match goal with |- wp _ _ ?w1 => set (w0 := w1) end.
  assert (Hw0 : w0 = thr_counted w s ln 0) by done.
  assert (Hi0 : inv w0) by (rewrite Hw0; by eapply inv_set_ln).
  rewrite Z.leb_antisym. destruct (u32 (n_assoc x) <? _); simpl; [by apply wp_ret|].
  assert (Hls : local_stations w0 s (node_sta_info x)) by by apply inv_local_stations.
  apply wp_bind. eapply wp_mono; [by eapply load_kick_loop_spec|].
  intros [kick1 kick2] w1 (Hst & l1 & l2 & Hlc). rewrite <- Hw0.
  destruct kick1 as [k1|]; [|apply wp_ret; exists [], l1, l2, None, kick2; by split].
  set (k := default k1 kick2).
  assert (Hk1 : k ∈ l1).
  { destruct (lc_kick1 _ _ _ _ _ _ Hlc) as [Hk1 _]. destruct Hlc as [_ _ Hsub _ Hk2].
    unfold k. destruct kick2 as [k2|]; [|done]. apply Hsub. apply Hk2. }
  apply (lc_l1 _ _ _ _ _ _ Hlc) in Hk1 as [Hkl Hlk].
  assert (Hlk0 := Hlk). destruct Hlk0 as (si & Hk & _).
  assert (Hs0 : si_step s k [] si w0 w1).
  { split; [eapply step_weaken; [|done]; set_solver|eapply step_same; [done..|set_solver]]. }
  apply wp_bind. eapply wp_upd_si; [apply Hs0|].
  assert (Hl0 : ln_heap w0 !! s = Some (ln <| load_thr_count := 0 |>)) by apply lookup_insert_eq.
  eapply wp_mono; [eapply (kick_step s k []); [eapply si_step_upd; [done|by split]| |done]|].
  - simpl. by eapply local_stations_si.
  - intros [] w2 [Hw2 _]. eexists. exists l1, l2, (Some k1), kick2. split; [done|].
    exists si. eexists. split; [done|]. split; [done|]. split; [done|]. split; [done|].
    split; [|exact Hw2]. done.
Qed.

(** Everything in a local node but the counter of updates above the threshold. *)
Definition ln_data ln : usteer_local_node := ln <| load_thr_count := 0 |>.

(** The whole of [usteer_local_node_kick]: what it keeps, and what it sends. *)
Record kick_run (s : string) (acts : list action) w w' : Prop := {
  kr_inv : inv w';
  kr_config : config w' = config w;
  kr_clock : clock w' = clock w;
  kr_nodes : node_data <$> node_heap w' = node_data <$> node_heap w;
  kr_node : node_heap w' !! NLocal s = node_heap w !! NLocal s;
  kr_ln : ln_data <$> ln_heap w' = ln_data <$> ln_heap w;
  kr_local : local_nodes w' = local_nodes w;
  kr_remote : remote_nodes w' = remote_nodes w;
  kr_si q si : si_heap w !! q = Some si -> exists si', si_heap w' !! q = Some si' /\ kept si si';
  kr_tq : tq w' = tq w;
  kr_out : out w' = out w ++ acts;
  kr_empty : no_empty_sta (abs w) -> no_empty_sta (abs w');
}.

Lemma kick_run_refl s w : inv w -> kick_run s [] w w.
Proof.
  intros Hi. split; try done.
  - intros q si Hq. by exists si.
  - by rewrite app_nil_r.
Qed.
Lemma kick_run_trans s a1 a2 w w1 w2 :
  kick_run s a1 w w1 -> kick_run s a2 w1 w2 -> kick_run s (a1 ++ a2) w w2.
Proof.
  intros [] []. split; try congruence; try done; auto.
  - intros q si Hq. destruct (kr_si0 q si Hq) as (si1 & Hq1 & ?).
    destruct (kr_si1 q si1 Hq1) as (si2 & ? & ?). exists si2. split; [done|by etrans].
  - by rewrite kr_out1, kr_out0, app_assoc.
Qed.
Lemma step_kick_run s ps acts w w' : node_step (NLocal s) ps acts w w' -> kick_run s acts w w'.
Proof.
  intros [? Hf Hsi]. destruct Hf as [? ? ? ? Hln]. split; try done; [by rewrite Hln|].
  intros q si Hq. destruct (Hsi q si Hq) as (si' & ? & ? & _). eauto.
Qed.
Lemma time_kick_run s w : inv w -> kick_run s [] w (time_updated w).
Proof.
  intros Hi. destruct (kick_run_refl s w Hi) as []. split; try done. by apply inv_time.
Qed.
Lemma counted_kick_run s ln c w :
  inv w -> ln_heap w !! s = Some ln -> kick_run s [] w (thr_counted w s ln c).
Proof.
  intros Hi Hln. destruct (kick_run_refl s w Hi). split; try done; [by eapply inv_set_ln|].
  simpl. by eapply fmap_insert_same.
Qed.

Lemma kick_run_ln s acts w w' t ln :
  kick_run s acts w w' -> ln_heap w !! t = Some ln ->
  exists ln', ln_heap w' !! t = Some ln' /\ ln_data ln' = ln_data ln.
Proof.
  intros Hr Hl. assert (H := f_equal (fun m => m !! t) (kr_ln _ _ _ _ Hr)).
  rewrite !lookup_fmap, Hl in H. destruct (ln_heap w' !! t) as [ln'|]; [|done].
  simpl in H. exists ln'. split; congruence.
Qed.

Lemma usteer_local_node_kick_spec s x ln w :
  inv w -> node_heap w !! NLocal s = Some x -> ln_heap w !! s = Some ln ->
  kick_client_active_sec (config w) ≠ 0 -> local_sta_update (config w) ≠ 0 ->
  wp (usteer_local_node_kick s) (fun _ w' => exists acts,
    kick_run s acts w w' /\ (n_kicks acts <= 3)%nat) w.
Proof.
  intros Hi Hx Hln Hsec Hup. unfold usteer_local_node_kick.
  apply wp_bind. eapply wp_mono; [by eapply usteer_local_node_roam_check_spec|].
  intros [] w1 H1.
  assert (exists a1, kick_run s a1 w w1 /\ (n_kicks a1 <= 1)%nat) as (a1 & Hr1 & Hk1).
  { destruct (roam_min_snr (config w)); [|subst; exists []; split; [by apply kick_run_refl|unfold n_kicks; simpl; lia]].
    destruct H1 as (a1 & Hst & Hk). exists a1. split; [|by eapply kicks_one_le].
    eapply (kick_run_trans s [] a1); [by apply time_kick_run|by eapply step_kick_run]. }
  assert (Hx1 : node_heap w1 !! NLocal s = Some x) by by rewrite (kr_node _ _ _ _ Hr1).
  destruct (kick_run_ln _ _ _ _ _ _ Hr1 Hln) as (ln1 & Hln1 & _).
  assert (Hc1 := kr_config _ _ _ _ Hr1).
  apply wp_bind. eapply wp_mono;
    [eapply usteer_local_node_snr_kick_spec; [apply Hr1|done|done|by rewrite Hc1]|].
  intros [] w2 (a2 & Hst2 & Hk2%kicks_one_le). apply step_kick_run in Hst2 as Hr2.
  assert (Hx2 : node_heap w2 !! NLocal s = Some x) by by rewrite (kr_node _ _ _ _ Hr2).
  destruct (kick_run_ln _ _ _ _ _ _ Hr2 Hln1) as (ln2 & Hln2 & _).
  assert (Hc2 : config w2 = config w) by (rewrite (kr_config _ _ _ _ Hr2); done).
  assert (Hr12 := kick_run_trans _ _ _ _ _ _ Hr1 Hr2).
  eapply wp_mono; [eapply load_kick_spec; [apply Hr2|done|done|by rewrite Hc2..]|].
  intros [] w3 H3.
  assert (exists a3, kick_run s a3 w2 w3 /\ (n_kicks a3 <= 1)%nat) as (a3 & Hr3 & Hk3).
  { destruct (load_kick_off _); [subst; exists []; split; [apply kick_run_refl, Hr2|unfold n_kicks; simpl; lia]|].
    destruct (thr_next _ _ _) as [try c]. cbv zeta in H3.
    assert (Hr0 : kick_run s [] w2 (thr_counted w2 s ln2 c)) by (apply counted_kick_run; [apply Hr2|done]).
    destruct (try && _); [|subst; exists []; split; [done|unfold n_kicks; simpl; lia]].
    destruct H3 as (a3 & l1 & l2 & k1 & k2 & _ & H3). exists a3. destruct k1 as [k1|].
    - destruct H3 as (si & ln3 & _ & _ & _ & _ & -> & Hst3). split; [|done].
      by apply (kick_run_trans s [] _ _ _ _ Hr0), (step_kick_run _ _ _ _ _ Hst3).
    - destruct H3 as [-> Hst3]. split; [|unfold n_kicks; simpl; lia].
      by apply (kick_run_trans s [] _ _ _ _ Hr0), (step_kick_run _ _ _ _ _ Hst3). }
  exists ((a1 ++ a2) ++ a3). split; [by eapply kick_run_trans|]. rewrite !n_kicks_app. lia.
Qed.
End roam_spec.
