(* ===== verification/BeaconRequest.v ===== *)
(** * Beacon requests and reports (hearing_map.c, second part)

    A station that is associated is asked, one band after the other, to report
    the access points it hears; the reports hostapd hands over are kept with the
    station's [sta_info]. *)
From S2P Require Import Prelude CFloat Blob Timeout Types Table World Beacon Sta Policy.

(** [beacon_rep_policy], by the indices of its enum. *)
Definition BEACON_REP_ADDR : nat := 0.
Definition BEACON_REP_OP_CLASS : nat := 1.
Definition BEACON_REP_CHANNEL : nat := 2.
Definition BEACON_REP_RCPI : nat := 3.
Definition BEACON_REP_RSNI : nat := 4.
Definition BEACON_REP_BSSID : nat := 5.
Definition beacon_rep_policy : list (string * blobmsg_type) :=
  [("address", BLOBMSG_TYPE_STRING);
   ("op-class", BLOBMSG_TYPE_INT16);
   ("channel", BLOBMSG_TYPE_INT16);
   ("rcpi", BLOBMSG_TYPE_INT16);
   ("rsni", BLOBMSG_TYPE_INT16);
   ("bssid", BLOBMSG_TYPE_STRING)]%string.

(** [FF:FF:FF:FF:FF:FF] *)
Definition mac_broadcast : mac := replicate 6 255.

(** The first half of [usteer_get_beacon_request_mode], when the band is the one
    of the station's node; [long] is 64 bits wide. *)
Definition count_failed (br : beacon_request) : beacon_request :=
  let time_diff := s64 (u64 (lastReportTime br - lastRequestTime br)) in
  let br := if 0 <? time_diff then br <| failed_requests ::= fun f => f / 2 |> else br in
  br <| failed_requests ::= fun f => u8 (f + 1) |>.

(** The mode for a band, from the failures so far: 1 active, 0 passive, 2 the
    station's own table. *)
Definition request_mode (band failed : Z) : Z :=
  if (band <? 4000) && (failed <? 3) then 1
  else if (band <? 4000) && (failed <? 7) then 0
  else if (4000 <? band) && (failed <? 5) then 0
  else 2.

(** The wait between two rounds of requests, by the signal of the station. *)
Definition dyn_freq (cfg : usteer_config) (signal : Z) : float :=
  let adj_signal := float_of_Z (s32 (signal + 60)) in
  let weight := fdiv adj_signal (float_of_Z (s32 (1 + Z.abs (Z_of_float adj_signal)))) in
  fadd (float_of_Z (beacon_request_frequency cfg))
       (fmul (float_of_Z (beacon_request_signal_modifier cfg)) weight).

Section beacon_request.
Context {ET : Ether} {BM : Blobmsg} {T : Type} `{!AvlTree Z ptr T}.

Definition usteer_get_beacon_request_mode (p : ptr) (band : Z) : M (world T) Z :=
  si ← get_si p;
  node ← get_node (si_node si);
  when (freq node =? band) (upd_si p (fun si => si <| si_beacon_request ::= count_failed |>)) ;;
  si ← get_si p;
  mret (request_mode band (failed_requests (si_beacon_request si))).

Definition usteer_beacon_request_send (p : ptr) (band mode : Z) : M (world T) unit :=
  si ← get_si p;
  s ← local_name (si_node si);
  ln ← get_ln s;
  let channel := get_channel_from_freq band in
  let opClass := get_op_class_from_channel channel in
  emit (UbusInvoke (obj_id ln) "rrm_beacon_req"
    [("addr", VString (mac_addr_fmt (si_sta si)));
     ("mode", VU32 mode);
     ("duration", VU32 200);
     ("channel", VU32 (u32 channel));
     ("op_class", VU32 opClass);
     ("bssid", VString "ff:ff:ff:ff:ff:ff")]).

(** The loop of [usteer_beacon_request_next_band], with its flag. *)
Fixpoint next_band_scan (band : Z) (band_already_scanned : bool) (l : list string) :
    M (world T) (option Z) :=
  match l with
  | [] => mret None
  | s :: l' =>
      node ← get_node (NLocal s);
      if band =? freq node then next_band_scan band false l'
      else if band_already_scanned then next_band_scan band true l'
      else mret (Some (freq node))
  end.

Definition usteer_beacon_request_next_band (band : Z) : M (world T) Z :=
  l ← gets local_nodes;
  r ← next_band_scan band true l;
  match r with
  | Some f => mret f
  | None =>
      s ← deref NullDeref (fun _ => head l);
      node ← get_node (NLocal s);
      mret (freq node)
  end.

Definition usteer_beacon_request_check (p : ptr) : M (world T) unit :=
  cfg ← gets config;
  ctime ← gets current_time;
  si ← get_si p;
  node ← get_node (si_node si);
  let band := br_band (si_beacon_request si) in
  if (band =? freq node) &&
     flt (float_of_Z (u64 (ctime - lastRequestTime (si_beacon_request si))))
         (dyn_freq cfg (si_signal si))
  then mret tt
  else
    mode ← usteer_get_beacon_request_mode p band;
    usteer_beacon_request_send p band mode ;;
    (* do only once in a scan row (multiple bands) *)
    when (band =? freq node)
      (upd_si p (fun si => si <| si_beacon_request ::= fun br => br <| lastRequestTime := ctime |> |>) ;;
       usteer_beacon_report_cleanup p (Some mac_broadcast)) ;;
    next ← usteer_beacon_request_next_band band;
    upd_si p (fun si => si <| si_beacon_request ::= fun br => br <| br_band := next |> |>).

Definition usteer_handle_event_beacon_report (s : string) (msg : list (string * bval)) :
    M (world T) unit :=
  let tb := blobmsg_parse beacon_rep_policy msg in
  match attr tb BEACON_REP_BSSID, attr tb BEACON_REP_ADDR with
  | Some _, Some _ =>
      address ← blobmsg_get_string (attr tb BEACON_REP_ADDR);
      sts ← gets stations;
      match ether_aton address with
      | None =>
          (* the search compares the keys of the tree with a null pointer *)
          if bool_decide (sts = ∅) then mret tt else throw NullDeref
      | Some addr_sta =>
          sta ← usteer_sta_get addr_sta false;
          match sta with
          | None => mret tt
          | Some a =>
              r ← usteer_sta_info_get a (NLocal s) false;
              match r with
              | None => mret tt
              | Some (p, _) =>
                  bssid ← blobmsg_get_string (attr tb BEACON_REP_BSSID);
                  addr ← deref NullDeref (fun _ => ether_aton bssid);
                  node ← get_usteer_node_from_bssid addr;
                  match node with
                  | None => mret tt
                  | Some _ =>
                      rcpi ← blobmsg_get_u16 (attr tb BEACON_REP_RCPI);
                      rsni ← blobmsg_get_u16 (attr tb BEACON_REP_RSNI);
                      op_class ← blobmsg_get_u16 (attr tb BEACON_REP_OP_CLASS);
                      channel ← blobmsg_get_u16 (attr tb BEACON_REP_CHANNEL);
                      now ← gets current_time;
                      let br := mkBeaconReport p addr rcpi rsni op_class channel now in
                      upd_si p (fun si => si <| si_beacon_request ::=
                                  fun b => b <| lastReportTime := now |> |>) ;;
                      usteer_beacon_report_cleanup p (Some addr) ;;
                      upd_si p (fun si => si <| si_beacon_reports ::= cons br |>)
                  end
              end
          end
      end
  | _, _ => mret tt
  end.
End beacon_request.

(** ** Specifications *)

(** The band after [band] among the frequencies [l] of the local nodes. *)
Fixpoint next_freq (band : Z) (seen : bool) (l : list Z) : option Z :=
  match l with
  | [] => None
  | f :: l' => if band =? f then next_freq band true l'
               else if seen then Some f else next_freq band false l'
  end.
Definition next_band (band : Z) (l : list Z) : option Z :=
  match next_freq band false l with
  | Some f => Some f
  | None => head l
  end.

(** On pairwise different frequencies it goes round. *)
Lemma next_freq_seen band l : band ∉ l -> next_freq band true l = head l.
Proof.
  destruct l as [|f l]; [done|]. intros [Hne _]%not_elem_of_cons. simpl.
  by rewrite (proj2 (Z.eqb_neq _ _) Hne).
Qed.
Lemma next_freq_app band l1 l2 :
  band ∉ l1 -> band ∉ l2 -> next_freq band false (l1 ++ band :: l2) = head l2.
Proof.
  intros H1 H2. induction l1 as [|f l1 IH]; simpl.
  - rewrite Z.eqb_refl. by apply next_freq_seen.
  - apply not_elem_of_cons in H1 as [Hne H1]. rewrite (proj2 (Z.eqb_neq _ _) Hne). auto.
Qed.
Lemma next_band_cycle band l i :
  NoDup l -> l !! i = Some band -> next_band band l = l !! ((i + 1) mod length l)%nat.
Proof.
  intros Hnd Hi. assert (Hlt := lookup_lt_Some _ _ _ Hi).
  assert (Hl := take_drop_middle l i band Hi).
  assert (Hn : next_freq band false l = head (drop (S i) l)).
  { rewrite <- Hl in Hnd. apply list.NoDup_app in Hnd as (_ & Hd & Hnd).
    apply list.NoDup_cons in Hnd as [Hn2 _]. rewrite <- Hl at 1.
    apply next_freq_app; [|done]. intros Hin. apply (Hd _ Hin). set_solver. }
  unfold next_band. rewrite Hn. assert (Hlen := length_drop l (S i)).
  destruct (drop (S i) l) as [|f l2] eqn:E; simpl in *.
  - replace (i + 1)%nat with (length l) by lia. rewrite Nat.Div0.mod_same. by destruct l.
  - rewrite Nat.mod_small by lia. replace (i + 1)%nat with (S i + 0)%nat by lia.
    by rewrite <- lookup_drop, E.
Qed.

Section beacon_request_spec.
Context {ET : Ether} {BM : Blobmsg} {T : Type} `{!AvlTree Z ptr T} `{!AvlLaws Z ptr T}.
Implicit Types (w : world T) (p : ptr) (si : sta_info) (s : string).

(** The frequencies of the local nodes, in the order of the tree. *)
Definition local_freqs (w : world T) : list Z :=
  map (fun s => default 0 (freq <$> node_heap w !! NLocal s)) (local_nodes w).

Lemma next_band_scan_spec band seen l w :
  (forall s, s ∈ l -> is_Some (node_heap w !! NLocal s)) ->
  wp (next_band_scan band (negb seen) l) (fun r w' => w' = w /\
    r = next_freq band seen (map (fun s => default 0 (freq <$> node_heap w !! NLocal s)) l)) w.
Proof.
  revert seen. induction l as [|s l IH]; intros seen Hl; [by apply wp_ret|]. simpl.
  destruct (Hl s) as [x Hx]; [set_solver|]. apply wp_bind. eapply wp_get_node; [done|].
  rewrite Hx. simpl. assert (Hl' : forall t, t ∈ l -> is_Some (node_heap w !! NLocal t)) by set_solver.
  destruct (band =? freq x); [apply (IH true Hl')|]. destruct seen; simpl; [by apply wp_ret|].
  apply (IH false Hl').
Qed.

Lemma usteer_beacon_request_next_band_spec band w :
  nodes_ok w -> local_nodes w ≠ [] ->
  wp (usteer_beacon_request_next_band band) (fun r w' => w' = w /\
    next_band band (local_freqs w) = Some r) w.
Proof.
  intros Hno Hne. unfold usteer_beacon_request_next_band, next_band, local_freqs. do 2 wp_step.
  apply wp_bind. eapply wp_mono; [apply (next_band_scan_spec band false)|].
  { intros s. apply (no_local _ Hno). }
  intros r w' [-> ->]. case_match; [by apply wp_ret|].
  destruct (local_nodes w) as [|s l] eqn:El; [done|]. simpl.
  apply wp_bind. eapply wp_deref; [done|].
  destruct (proj1 (no_local _ Hno s)) as [x Hx]; [rewrite El; set_solver|].
  apply wp_bind. eapply wp_get_node; [done|]. apply wp_ret. by rewrite Hx.
Qed.

(** The next request is due. *)
Definition request_due (cfg : usteer_config) (now : Z) (node : usteer_node) si : bool :=
  negb ((br_band (si_beacon_request si) =? freq node) &&
        flt (float_of_Z (u64 (now - lastRequestTime (si_beacon_request si)))) (dyn_freq cfg (si_signal si))).

(** The request sent for the band whose turn it is. *)
Definition request_counted (node : usteer_node) (br : beacon_request) : beacon_request :=
  if freq node =? br_band br then count_failed br else br.
Definition request_call (node : usteer_node) (ln : usteer_local_node) si : action :=
  let band := br_band (si_beacon_request si) in
  let channel := get_channel_from_freq band in
  UbusInvoke (obj_id ln) "rrm_beacon_req"
    [("addr", VString (mac_addr_fmt (si_sta si)));
     ("mode", VU32 (request_mode band (failed_requests (request_counted node (si_beacon_request si)))));
     ("duration", VU32 200);
     ("channel", VU32 (u32 channel));
     ("op_class", VU32 (get_op_class_from_channel channel));
     ("bssid", VString "ff:ff:ff:ff:ff:ff")].

(** The [sta_info] after a request, with the next band [next]. A new round (the
    band of the node itself) drops the stale reports and those of the broadcast
    address. *)
Definition request_sent (cfg : usteer_config) (now : Z) (node : usteer_node) (next : Z) si : sta_info :=
  let band := br_band (si_beacon_request si) in
  let br := request_counted node (si_beacon_request si) in
  let si := si <| si_beacon_request := br |> in
  let si :=
    if band =? freq node then
      si <| si_beacon_request := br <| lastRequestTime := now |> |>
         <| si_beacon_reports ::= filter (fun b =>
              usteer_beacon_report_delete cfg now b (Some mac_broadcast) = false) |>
    else si in
  si <| si_beacon_request ::= fun br => br <| br_band := next |> |>.

Lemma count_failed_band br : br_band (count_failed br) = br_band br.
Proof. unfold count_failed. by case_match. Qed.

Lemma usteer_beacon_request_check_spec p si s x ln w :
  inv w -> si_heap w !! p = Some si -> si_node si = NLocal s ->
  node_heap w !! NLocal s = Some x -> ln_heap w !! s = Some ln ->
  wp (usteer_beacon_request_check p) (fun _ w' =>
    if request_due (config w) (current_time w) x si
    then exists next, next_band (br_band (si_beacon_request si)) (local_freqs w) = Some next /\
      w' = w <| si_heap ::= <[p := request_sent (config w) (current_time w) x next si]> |>
             <| out ::= fun l => l ++ [request_call x ln si] |>
    else w' = w) w.
Proof.
  intros Hi Hp Hs Hx Hl. unfold usteer_beacon_request_check, request_due.
  do 4 wp_step. apply wp_bind. eapply wp_get_si; [done|].
  apply wp_bind. eapply wp_get_node; [by rewrite Hs|]. simpl.
  set (band := br_band (si_beacon_request si)).
  destruct ((band =? freq x) && flt _ _); simpl; [by apply wp_ret|].
  set (si1 := si <| si_beacon_request := request_counted x (si_beacon_request si) |>).
  set (w1 := w <| si_heap ::= <[p := si1]> |>).
  apply wp_bind. eapply wp_mono with (P := fun m w2 => w2 = w1 /\
    m = request_mode band (failed_requests (si_beacon_request si1))).
  { unfold usteer_get_beacon_request_mode. apply wp_bind. eapply wp_get_si; [done|].
    apply wp_bind. eapply wp_get_node; [by rewrite Hs|]. apply wp_bind.
    eapply wp_mono with (P := fun _ w2 => w2 = w1).
    { unfold w1, si1, request_counted. fold band. apply wp_when; intros Hb; rewrite Hb.
      - eapply wp_upd_si; [done|]. done.
      - unfold set_field. simpl. destruct w. simpl in *. f_equal.
        rewrite insert_id; [done|]. by destruct si. }
    intros [] w2 ->. apply wp_bind. eapply wp_get_si; [simpl; apply lookup_insert_eq|]. by apply wp_ret. }
  intros m w2 [-> ->]. apply wp_bind. unfold usteer_beacon_request_send.
  apply wp_bind. eapply wp_get_si; [simpl; apply lookup_insert_eq|].
  apply wp_bind. unfold local_name. eapply wp_deref; [simpl; by rewrite Hs|].
  apply wp_bind. eapply wp_get_ln; [done|]. apply wp_modify.
  set (acts := [UbusInvoke _ _ _]).
  set (si2 := if band =? freq x then
      si1 <| si_beacon_request ::= fun br => br <| lastRequestTime := current_time w |> |>
          <| si_beacon_reports ::= filter (fun b =>
              usteer_beacon_report_delete (config w) (current_time w) b (Some mac_broadcast) = false) |>
      else si1).
  set (w2 := w <| si_heap ::= <[p := si2]> |> <| out ::= fun l => l ++ acts |>).
  apply wp_bind. eapply wp_mono with (P := fun _ w3 => w3 = w2).
  { unfold w2, si2. apply wp_when; intros Hb; rewrite Hb; [|done].
    apply wp_bind. eapply wp_upd_si; [simpl; apply lookup_insert_eq|].
    eapply usteer_beacon_report_cleanup_spec; [simpl; apply lookup_insert_eq|].
    intros si' ->. unfold set_field. simpl. by rewrite !insert_insert_eq. }
  intros [] w3 ->.
  assert (Hi2 : nodes_ok w2) by (destruct (inv_nodes _ Hi); by split).
  assert (Hsl : s ∈ local_nodes w) by (apply (inv_nodes _ Hi); eauto).
  apply wp_bind. eapply wp_mono; [apply usteer_beacon_request_next_band_spec; [done|]|].
  { simpl. intros E. rewrite E in Hsl. set_solver. }
  intros next w4 [-> Hn]. eapply wp_upd_si; [simpl; apply lookup_insert_eq|].
  exists next. split; [exact Hn|]. unfold w2, request_sent, request_call, si2, acts, si1. fold band.
  unfold set_field. simpl. rewrite insert_insert_eq. by destruct (band =? freq x).
Qed.

(** A complete report: what the handler reads of the message. *)
Record report_msg := mkReportMsg {
  rm_addr : mac;
  rm_bssid : mac;
  rm_rcpi : Z;
  rm_rsni : Z;
  rm_op_class : Z;
  rm_channel : Z;
}.

Definition parse_report (msg : list (string * bval)) : option report_msg :=
  let tb := blobmsg_parse beacon_rep_policy msg in
  match attr tb BEACON_REP_ADDR, attr tb BEACON_REP_BSSID, attr tb BEACON_REP_RCPI,
        attr tb BEACON_REP_RSNI, attr tb BEACON_REP_OP_CLASS, attr tb BEACON_REP_CHANNEL with
  | Some (VString a), Some (VString b), Some (VU16 rcpi), Some (VU16 rsni), Some (VU16 op), Some (VU16 ch) =>
      match ether_aton a, ether_aton b with
      | Some a, Some b => Some (mkReportMsg a b rcpi rsni op ch)
      | _, _ => None
      end
  | _, _, _, _, _, _ => None
  end.

(** The [sta_info] with the new report, in place of the one of the same BSSID
    and without the stale ones. *)
Definition report_stored (cfg : usteer_config) (now : Z) (p : ptr) (m : report_msg) si : sta_info :=
  si <| si_beacon_request ::= fun b => b <| lastReportTime := now |> |>
     <| si_beacon_reports :=
          mkBeaconReport p (rm_bssid m) (rm_rcpi m) (rm_rsni m) (rm_op_class m) (rm_channel m) now ::
          filter (fun br => usteer_beacon_report_delete cfg now br (Some (rm_bssid m)) = false)
            (si_beacon_reports si) |>.

Lemma usteer_handle_event_beacon_report_spec s msg m x w :
  inv w -> node_heap w !! NLocal s = Some x -> parse_report msg = Some m ->
  wp (usteer_handle_event_beacon_report s msg) (fun _ w' =>
    match table_find (rm_addr m) (NLocal s) (abs w), node_of_bssid w (rm_bssid m) with
    | Some p, Some _ => exists si, si_heap w !! p = Some si /\
        w' = w <| si_heap ::= <[p := report_stored (config w) (current_time w) p m si]> |>
    | _, _ => w' = w
    end) w.
Proof.
  intros Hi Hx. unfold parse_report, usteer_handle_event_beacon_report.
  destruct (attr _ BEACON_REP_ADDR) as [[| | | |a| |]|]; try done.
  destruct (attr _ BEACON_REP_BSSID) as [[| | | |b| |]|]; try done.
  destruct (attr _ BEACON_REP_RCPI) as [[|rcpi| | | | |]|]; try done.
  destruct (attr _ BEACON_REP_RSNI) as [[|rsni| | | | |]|]; try done.
  destruct (attr _ BEACON_REP_OP_CLASS) as [[|op| | | | |]|]; try done.
  destruct (attr _ BEACON_REP_CHANNEL) as [[|ch| | | | |]|]; try done.
  destruct (ether_aton a) as [ma|] eqn:Ea; [|done].
  destruct (ether_aton b) as [mb|] eqn:Eb; [|done]. intros Hm. injection Hm as <-. simpl.
  apply wp_bind. eapply wp_deref; [done|]. do 2 wp_step. rewrite Ea.
  apply wp_bind. unfold usteer_sta_get. apply wp_bind, wp_gets.
  destruct (stations w !! ma) as [st|] eqn:Est.
  2: { simpl. apply wp_ret. unfold table_find. rewrite abs_sta, Est. by apply wp_ret. }
  apply wp_ret. apply wp_bind. eapply wp_mono; [by eapply usteer_sta_info_get_spec|].
  intros [[p []]|] w1; [by intros [?]| |intros (_ & -> & ->); by apply wp_ret].
  intros [-> Hf]. rewrite Hf. apply table_find_spec, abs_si_Some in Hf as (si & Hp & _); [|apply Hi].
  apply wp_bind. eapply wp_deref; [done|]. apply wp_bind. eapply wp_deref; [exact Eb|].
  apply wp_bind, wp_node_of_bssid; [apply Hi|]. intros _.
  destruct (node_of_bssid w mb) as [n|]; [|by apply wp_ret].
  do 4 (apply wp_bind; eapply wp_deref; [done|]). do 2 wp_step.
  apply wp_bind. eapply wp_upd_si; [done|]. apply wp_bind.
  eapply usteer_beacon_report_cleanup_spec; [simpl; apply lookup_insert_eq|]. intros si' ->.
  eapply wp_upd_si; [simpl; apply lookup_insert_eq|]. exists si. split; [done|].
  unfold set_field, report_stored. simpl. by rewrite !insert_insert_eq.
Qed.

(** A message without an address or a BSSID is ignored. *)
Lemma beacon_report_incomplete s msg w :
  attr (blobmsg_parse beacon_rep_policy msg) BEACON_REP_BSSID = None \/
  attr (blobmsg_parse beacon_rep_policy msg) BEACON_REP_ADDR = None ->
  usteer_handle_event_beacon_report s msg w = Ok (tt, w).
Proof.
  unfold usteer_handle_event_beacon_report. intros [-> | ->]; [done|]. by case_match.
Qed.
End beacon_request_spec.
