(* ===== verification/LocalNode.v ===== *)
(** * The access points of this device (local_node.c)

    A local node is an interface of hostapd: the daemon subscribes to its events,
    polls its clients and its neighbor report, and forgets it when it goes away.
    The other components that follow the local nodes register themselves as
    [usteer_node_handler]s; the model takes their list as an interface. *)
From S2P Require Import Prelude Blob Timeout Types Table World Ssid Beacon Sta UbusClient.
From S2P Require Import Policy RemoteMsg StaEvent Roam BeaconRequest.

(** ** The interface of the handlers (usteer.h) *)

(** [struct usteer_node_handler], without the functions nothing calls. *)
Record usteer_node_handler (T : Type) := mkHandler {
  init_node : option (node_id -> M (world T) unit);
  free_node : option (node_id -> M (world T) unit);
  update_node : option (node_id -> M (world T) unit);
  update_sta : option (node_id -> ptr -> M (world T) unit);
}.
Arguments init_node {T}. Arguments free_node {T}.
Arguments update_node {T}. Arguments update_sta {T}.

(** [node_handlers] *)
Class NodeHandlers (T : Type) := node_handlers : list (usteer_node_handler T).

Section local_node.
Context {ET : Ether} {BM : Blobmsg} {T : Type} `{!AvlTree Z ptr T} {NH : NodeHandlers T}.
(** libc's [if_nametoindex] *)
Context (if_nametoindex : string -> Z).

(** [list_for_each_entry(h, &node_handlers, list) if (h->op) h->op(...)] *)
Definition call_handlers (op : usteer_node_handler T -> option (M (world T) unit)) : M (world T) unit :=
  for_each (fun h => match op h with Some m => m | None => mret tt end) node_handlers.

(** [uloop_timeout_set]: the millisecond a timer set now is due. *)
Definition due_in (msecs : Z) : M (world T) Z := gets (fun w => ts_ms (clock w) + msecs).

(** ** Requests to hostapd: [enum local_req_state] *)
Definition REQ_IDLE : Z := 0.
Definition REQ_CLIENTS : Z := 1.
Definition REQ_RRM_SET_LIST : Z := 2.
Definition REQ_RRM_GET_OWN : Z := 3.
Definition __REQ_MAX : Z := 4.

(** [ubus_abort_request] only concerns the pending request. *)
Definition usteer_local_node_state_reset (s : string) : M (world T) unit :=
  ln ← get_ln s;
  when (negb (req_state ln =? REQ_IDLE)) (upd_ln s (fun ln => ln <| req_state := REQ_IDLE |>)).

Definition usteer_free_node (s : string) : M (world T) unit :=
  call_handlers (fun h => (fun f => f (NLocal s)) <$> free_node h) ;;
  usteer_local_node_state_reset s ;;
  usteer_sta_node_cleanup (NLocal s) ;;
  upd_ln s (fun ln => ln <| req_timer := None |>) ;;
  upd_ln s (fun ln => ln <| update_timer := None |>) ;;
  modify (fun w => w <| local_nodes ::= list_del s |>) ;;
  modify (fun w => w <| node_heap ::= delete (NLocal s) |> <| ln_heap ::= delete s |>).

Definition usteer_handle_remove (s : string) : M (world T) unit := usteer_free_node s.

(** ** Events *)

(** The policy of [usteer_handle_event], by the indices of its enum. *)
Definition EVENT_ADDR : nat := 0.
Definition EVENT_SIGNAL : nat := 1.
Definition EVENT_TARGET : nat := 2.
Definition EVENT_FREQ : nat := 3.
Definition event_policy : list (string * blobmsg_type) :=
  [("address", BLOBMSG_TYPE_STRING);
   ("signal", BLOBMSG_TYPE_INT32);
   ("target", BLOBMSG_TYPE_STRING);
   ("freq", BLOBMSG_TYPE_INT32)]%string.

(** The event type of a method, [__EVENT_TYPE_MAX] if it is none. *)
Definition event_of_method (method : string) : usteer_event_type :=
  match list_find (fun t => t = method) event_types with
  | Some (0%nat, _) => EVENT_TYPE_PROBE
  | Some (1%nat, _) => EVENT_TYPE_ASSOC
  | Some (2%nat, _) => EVENT_TYPE_AUTH
  | Some (3%nat, _) => EVENT_TYPE_BEACON
  | _ => __EVENT_TYPE_MAX
  end.

Definition UBUS_STATUS_INVALID_ARGUMENT : Z := 2.
Definition WLAN_STATUS_AP_UNABLE_TO_HANDLE_NEW_STA : Z := 17.

Definition usteer_handle_event (s : string) (method : string) (msg : list (string * bval)) :
    M (world T) Z :=
  usteer_update_time ;;
  let ev_type := event_of_method method in
  if bool_decide (ev_type = EVENT_TYPE_BEACON) then
    usteer_handle_event_beacon_report s msg ;; mret 0
  else
    let tb := blobmsg_parse event_policy msg in
    match attr tb EVENT_ADDR, attr tb EVENT_FREQ with
    | Some _, Some _ =>
        signal ← match attr tb EVENT_SIGNAL with
                 | Some v => x ← blobmsg_get_u32 (Some v); mret (s32 x)
                 | None => mret NO_SIGNAL
                 end;
        x ← blobmsg_get_u32 (attr tb EVENT_FREQ);
        let freq := s32 x in
        addr_str ← blobmsg_get_string (attr tb EVENT_ADDR);
        match ether_aton addr_str with
        | None => mret UBUS_STATUS_INVALID_ARGUMENT
        | Some addr =>
            ret ← usteer_handle_sta_event (NLocal s) addr ev_type freq signal;
            mret (if (ret : bool) then 0 else WLAN_STATUS_AP_UNABLE_TO_HANDLE_NEW_STA)
        end
    | _, _ => mret UBUS_STATUS_INVALID_ARGUMENT
    end.

(** ** The clients of a node *)

(** The members of an attribute that should be a table. *)
Definition table_data (v : bval) : list (string * bval) :=
  match v with VTable l => l | _ => [] end.

Definition usteer_local_node_assoc_update (p : ptr) (data : bval) : M (world T) unit :=
  let tb := blobmsg_parse [("assoc", BLOBMSG_TYPE_BOOL)]%string (table_data data) in
  assoc ← match attr tb 0 with
          | Some v => blobmsg_get_u8 (Some v)
          | None => mret 0
          end;
  when (negb (assoc =? 0)) (upd_si p (fun si => si <| si_connected := 1 |>)) ;;
  si ← get_si p;
  node ← get_node (si_node si);
  upd_sta (si_sta si) (fun s =>
    if freq node <? 4000 then s <| seen_2ghz := 1 |> else s <| seen_5ghz := 1 |>).

(** The policies have unnamed entries before and after these, which match nothing. *)
Definition usteer_update_client_active_bytes (p : ptr) (data : bval) : M (world T) unit :=
  cfg ← gets config;
  ctime ← gets current_time;
  si ← get_si p;
  let active_bytes := si_active_bytes si in
  if u64 (ctime - last_time active_bytes) <? u32 (kick_client_active_sec cfg * 1000) then mret tt
  else
    let tb_bytes := blobmsg_parse [("bytes", BLOBMSG_TYPE_TABLE)]%string (table_data data) in
    match attr tb_bytes 0 with
    | None => mret tt
    | Some bytes =>
        let tb_rxtx := blobmsg_parse
          [("rx", BLOBMSG_TYPE_INT64); ("tx", BLOBMSG_TYPE_INT64)]%string (table_data bytes) in
        match attr tb_rxtx 0, attr tb_rxtx 1 with
        | Some _, Some _ =>
            rx ← blobmsg_get_u64 (attr tb_rxtx 0);
            tx ← blobmsg_get_u64 (attr tb_rxtx 1);
            upd_si p (fun si => si <| si_active_bytes :=
              mkActiveBytes (data_1_0 active_bytes) (data_1_1 active_bytes) rx tx ctime |>)
        | _, _ => mret tt
        end
    end.

(** The body of the loop over the clients; [n_assoc] is the local of the caller. *)
Definition set_assoc_client (s : string) (n_assoc : Z) (cur : string * bval) : M (world T) Z :=
  match ether_aton cur.1 with
  | None => mret n_assoc
  | Some addr =>
      sta ← usteer_sta_get addr true;
      a ← deref NullDeref (fun _ => sta);
      r ← usteer_sta_info_get a (NLocal s) true;
      '(p, _) ← deref NullDeref (fun _ => r);
      call_handlers (fun h => (fun f => f (NLocal s) p) <$> update_sta h) ;;
      usteer_local_node_assoc_update p cur.2 ;;
      si ← get_si p;
      let n_assoc := if si_connected si =? 1 then s32 (n_assoc + 1) else n_assoc in
      usteer_update_client_active_bytes p cur.2 ;;
      usteer_beacon_request_check p ;;
      mret n_assoc
  end.

(** The body of the last loop. The message it prints and the step to the next
    entry read the [sta_info] after the timer was updated. *)
Definition set_assoc_gone (q : ptr) : M (world T) unit :=
  cfg ← gets config;
  si ← get_si q;
  when (si_connected si =? 2)
    (upd_si q (fun si => si <| si_connected := 0 |>) ;;
     usteer_sta_info_update_timeout q (s32 (local_sta_timeout cfg)) ;;
     get_si q ;;
     mret tt).

Definition usteer_local_node_set_assoc (s : string) (cl : list (string * bval)) : M (world T) unit :=
  node ← get_node (NLocal s);
  for_each (fun q =>
    si ← get_si q;
    when (negb (si_connected si =? 0)) (upd_si q (fun si => si <| si_connected := 2 |>)))
    (node_sta_info node) ;;
  n ← for_fold (set_assoc_client s) 0 cl;
  upd_node (NLocal s) (fun x => x <| n_assoc := n |>) ;;
  node ← get_node (NLocal s);
  for_each set_assoc_gone (node_sta_info node).

Definition usteer_local_node_list_cb (s : string) (msg : list (string * bval)) : M (world T) unit :=
  let tb := blobmsg_parse [("freq", BLOBMSG_TYPE_INT32); ("clients", BLOBMSG_TYPE_TABLE)]%string msg in
  match attr tb 0, attr tb 1 with
  | Some _, Some clients =>
      x ← blobmsg_get_u32 (attr tb 0);
      upd_node (NLocal s) (fun node => node <| freq := s32 x |>) ;;
      usteer_local_node_set_assoc s (table_data clients)
  | _, _ => mret tt
  end.

(** The elements of an array attribute. *)
Definition array_data (v : bval) : list bval :=
  match v with VArray l => l | _ => [] end.

Definition usteer_local_node_rrm_nr_cb (s : string) (msg : list (string * bval)) : M (world T) unit :=
  let tb := blobmsg_parse [("value", BLOBMSG_TYPE_ARRAY)]%string msg in
  match attr tb 0 with
  | None => mret tt
  | Some v =>
      upd_node (NLocal s) (fun x => x <| rrm_nr := Some (array_data v) |>) ;;
      let ba := blobmsg_parse_array (replicate 3 BLOBMSG_TYPE_STRING) (array_data v) in
      match attr ba 0 with
      | None => mret tt
      | Some _ =>
          str ← blobmsg_get_string (attr ba 0);
          bssid_ ← deref NullDeref (fun _ => ether_aton str);
          upd_node (NLocal s) (fun x => x <| bssid := bssid_ |>)
      end ;;
      match attr ba 1 with
      | None => mret tt
      | Some _ =>
          ssid_ ← blobmsg_get_string (attr ba 1);
          valid ← usteer_is_valid_ssid ssid_;
          when (negb valid) (usteer_free_node s)
      end
  end.

(** ** The cycle of requests *)

Definition usteer_local_node_req_cb (s : string) : M (world T) unit :=
  due ← due_in 1;
  upd_ln s (fun ln => ln <| req_timer := Some due |>).

(** [usteer_add_rrm_data]: the elements it adds to the list. *)
Definition usteer_add_rrm_data (s : string) (n : node_id) : M (world T) (list bval) :=
  if bool_decide (n = NLocal s) then mret [] else
    node ← get_node n;
    match rrm_nr node with
    | None => mret []
    | Some nr =>
        ln ← get_node (NLocal s);
        mret (if negb (bool_decide (ssid ln = ssid node)) then [] else [VArray nr])
    end.

Definition usteer_local_node_prepare_rrm_set (s : string) : M (world T) (string * bval) :=
  locals ← gets local_nodes;
  remotes ← gets remote_nodes;
  l ← for_fold (fun acc n => x ← usteer_add_rrm_data s n; mret (acc ++ x)) []
        (map NLocal locals ++ map (fun k => NRemote k.1 k.2) remotes);
  mret ("list"%string, VArray l).

(** The timer [req_timer] fired; [complete_cb] of the request is
    [usteer_local_node_req_cb], its [data_cb] the function of the state. *)
Definition usteer_local_node_state_next (s : string) : M (world T) unit :=
  upd_ln s (fun ln => ln <| req_timer := None |> <| req_state ::= fun x => x + 1 |>) ;;
  ln ← get_ln s;
  if __REQ_MAX <=? req_state ln then
    upd_ln s (fun ln => ln <| req_state := REQ_IDLE |>)
  else if req_state ln =? REQ_CLIENTS then
    emit (UbusInvoke (obj_id ln) "get_clients" [])
  else if req_state ln =? REQ_RRM_SET_LIST then
    l ← usteer_local_node_prepare_rrm_set s;
    emit (UbusInvoke (obj_id ln) "rrm_nr_set" [l])
  else if req_state ln =? REQ_RRM_GET_OWN then
    emit (UbusInvoke (obj_id ln) "rrm_nr_get_own" [])
  else mret tt.

Definition usteer_local_node_update (s : string) : M (world T) unit :=
  upd_ln s (fun ln => ln <| update_timer := None |>) ;;
  call_handlers (fun h => (fun f => f (NLocal s)) <$> update_node h) ;;
  usteer_local_node_state_reset s ;;
  due ← due_in 1;
  upd_ln s (fun ln => ln <| req_timer := Some due |>) ;;
  usteer_local_node_kick s ;;
  cfg ← gets config;
  due ← due_in (s32 (local_sta_update cfg));
  upd_ln s (fun ln => ln <| update_timer := Some due |>).

(** ** Registration *)

(** The place of a name in a tree ordered by [strcmp]. *)
Fixpoint strcmp_insert (s : string) (l : list string) : list string :=
  match l with
  | [] => [s]
  | t :: l' => if String.ltb s t then s :: l else t :: strcmp_insert s l'
  end.

Definition ln_zero : usteer_local_node :=
  mkLocalNode 0 0 0 0 (CFloat.float_of_Z 0) 0 0 0 false false false None None None.
Definition node_zero : usteer_node := mkNode [] None None "" (replicate 6 0) 0 0 0 0 0.

Definition usteer_get_node (name : string) : M (world T) string :=
  l ← gets local_nodes;
  if bool_decide (name ∈ l) then mret name
  else
    modify (fun w => w <| node_heap ::= <[NLocal name := node_zero]> |>
                       <| ln_heap ::= <[name := ln_zero]> |>) ;;
    modify (fun w => w <| local_nodes ::= strcmp_insert name |>) ;;
    due ← due_in 1;
    upd_ln name (fun ln => ln <| update_timer := Some due |>) ;;
    mret name.

(** The interface of a node: its name after [hostapd.]. *)
Definition iface_name (s : string) : string := String.substring 8 (String.length s - 8) s.

(** [usteer_node_run_update_script]; the result of the command is only printed. *)
Definition usteer_node_run_update_script (s : string) : M (world T) unit :=
  script ← gets node_up_script;
  match script with
  | None => mret tt
  | Some cmd => emit (System (cmd ++ " '" ++ iface_name s ++ "'"))
  end.

Definition usteer_register_node (name : string) (id : Z) : M (world T) unit :=
  if negb (String.prefix "hostapd." name) then mret tt
  else
    s ← usteer_get_node name;
    let iface := iface_name name in
    upd_ln s (fun ln => ln <| obj_id := id |>) ;;
    upd_ln s (fun ln => ln <| ifindex := if_nametoindex iface |>) ;;
    emit (UbusInvoke id "notify_response" [("notify_response", VU32 1)]) ;;
    emit (UbusInvoke id "bss_mgmt_enable"
      [("neighbor_report", VU8 1); ("beacon_report", VU8 1); ("bss_transition", VU8 1)]) ;;
    emit (UbusSubscribe id) ;;
    call_handlers (fun h => (fun f => f (NLocal s)) <$> init_node h) ;;
    usteer_node_run_update_script s.

Definition usteer_event_handler (msg : list (string * bval)) : M (world T) unit :=
  let tb := blobmsg_parse [("id", BLOBMSG_TYPE_INT32); ("path", BLOBMSG_TYPE_STRING)]%string msg in
  match attr tb 0, attr tb 1 with
  | Some _, Some _ =>
      path ← blobmsg_get_string (attr tb 1);
      id ← blobmsg_get_u32 (attr tb 0);
      usteer_register_node path id
  | _, _ => mret tt
  end.

(** [usteer_local_nodes_init]: [node_list_cb] for every object [ubus_lookup] finds. *)
Definition usteer_local_nodes_init (objs : list (string * Z)) : M (world T) unit :=
  for_each (fun o => usteer_register_node o.1 o.2) objs.
End local_node.

(** ** What a handler may do *)
Section handlers.
Context {T : Type} `{!AvlTree Z ptr T}.
Implicit Types (w : world T) (p : ptr) (si : sta_info) (s : string).

(** The state keeps its invariant, its configuration, its clocks and its nodes. *)
Record env (w w' : world T) : Prop := {
  env_inv : inv w';
  env_config : config w' = config w;
  env_time : current_time w' = current_time w;
  env_clock : clock w' = clock w;
  env_local : local_nodes w' = local_nodes w;
  env_remote : remote_nodes w' = remote_nodes w;
  env_ifaces : interfaces w' = interfaces w;
  env_ssids : config_ssid_list w' = config_ssid_list w;
  env_script : node_up_script w' = node_up_script w;
}.

Lemma env_refl w : inv w -> env w w.
Proof. by split. Qed.
Lemma env_trans w w1 w2 : env w w1 -> env w1 w2 -> env w w2.
Proof. intros [] []. split; congruence. Qed.
Lemma frame_env w w' : inv w' -> frame w w' -> env w w'.
Proof. intros ? []. by split. Qed.
Lemma env_ln w w' s : env w w' -> is_Some (ln_heap w !! s) -> inv w -> is_Some (ln_heap w' !! s).
Proof.
  intros He Hs Hi. apply (no_ln _ (inv_nodes _ (env_inv _ _ He))).
  apply (no_local _ (inv_nodes _ (env_inv _ _ He))). rewrite (env_local _ _ He).
  apply (no_local _ (inv_nodes _ Hi)). by apply (no_ln _ (inv_nodes _ Hi)).
Qed.
Lemma env_node w w' s :
  env w w' -> is_Some (node_heap w !! NLocal s) -> inv w -> is_Some (node_heap w' !! NLocal s).
Proof.
  intros He Hs Hi. apply (no_local _ (inv_nodes _ (env_inv _ _ He))). rewrite (env_local _ _ He).
  by apply (no_local _ (inv_nodes _ Hi)).
Qed.

(** A handler may also arm timers and change what the [sta_info]s and the nodes
    hold, but not which there are nor who is associated. *)
Record handled (w w' : world T) : Prop := {
  hd_env : env w w';
  hd_si : t_si (abs w') = t_si (abs w);
  hd_sta : t_sta (abs w') = t_sta (abs w);
  hd_node : t_node (abs w') = t_node (abs w);
  hd_conn p : si_connected <$> si_heap w' !! p = si_connected <$> si_heap w !! p;
}.

Lemma handled_refl w : inv w -> handled w w.
Proof. intros. by split; [apply env_refl|..]. Qed.
Lemma handled_trans w w1 w2 : handled w w1 -> handled w1 w2 -> handled w w2.
Proof.
  intros [He1 ? ? ? H1] [He2 ? ? ? H2]. split; [by eapply env_trans|congruence..|].
  intros p. by rewrite H2.
Qed.

Lemma handled_si w w' p si :
  handled w w' -> si_heap w !! p = Some si ->
  exists si', si_heap w' !! p = Some si' /\ si_key si' = si_key si /\ si_connected si' = si_connected si.
Proof.
  intros [_ Hs _ _ Hc] Hp. specialize (Hc p). apply (f_equal (fun m => m !! p)) in Hs.
  rewrite !abs_si in Hs. rewrite Hp in Hs, Hc.
  destruct (si_heap w' !! p) as [si'|]; [|done]. simpl in *. exists si'. split; [done|]. split; congruence.
Qed.

(** The contract of the handlers, for the local node [s]. *)
Definition node_handler_ok (f : node_id -> M (world T) unit) : Prop :=
  forall s w, inv w -> is_Some (ln_heap w !! s) -> wp (f (NLocal s)) (fun _ w' => handled w w') w.
Definition sta_handler_ok (f : node_id -> ptr -> M (world T) unit) : Prop :=
  forall s p si w, inv w -> is_Some (ln_heap w !! s) -> si_heap w !! p = Some si ->
    si_node si = NLocal s -> 0 < s32 (local_sta_timeout (config w)) ->
    wp (f (NLocal s) p) (fun _ w' => handled w w') w.

Class NodeHandlersLaws {NH : NodeHandlers T} : Prop := {
  nh_init h f : h ∈ node_handlers -> init_node h = Some f -> node_handler_ok f;
  nh_free h f : h ∈ node_handlers -> free_node h = Some f -> node_handler_ok f;
  nh_update h f : h ∈ node_handlers -> update_node h = Some f -> node_handler_ok f;
  nh_sta h f : h ∈ node_handlers -> update_sta h = Some f -> sta_handler_ok f;
}.

(** Calling them all keeps the contract. *)
Lemma call_handlers_spec {NH : NodeHandlers T} op w :
  inv w ->
  (forall h m w1, h ∈ node_handlers -> op h = Some m -> handled w w1 -> wp m (fun _ w2 => handled w1 w2) w1) ->
  wp (call_handlers op) (fun _ w' => handled w w') w.
Proof.
  intros Hi Hop. apply (wp_for_each (fun _ _ w1 => handled w w1)); [by apply handled_refl| |done].
  intros don h rest w1 Hl Hw1. destruct (op h) as [m|] eqn:E; [|by apply wp_ret].
  eapply wp_mono; [eapply (Hop h m w1); [rewrite Hl; set_solver|done|done]|].
  intros [] w2 Hw2. by eapply handled_trans.
Qed.

Lemma call_node_handlers {NH : NodeHandlers T} s (op : usteer_node_handler T -> option (node_id -> M (world T) unit)) w :
  inv w -> is_Some (ln_heap w !! s) ->
  (forall h f, h ∈ node_handlers -> op h = Some f -> node_handler_ok f) ->
  wp (call_handlers (fun h => (fun f => f (NLocal s)) <$> op h)) (fun _ w' => handled w w') w.
Proof.
  intros Hi Hs Hop. apply call_handlers_spec; [done|]. intros h m w1 Hh Hm Hw1.
  destruct (op h) as [f|] eqn:E; [|done]. simpl in Hm. simplify_eq.
  eapply (Hop h f Hh E); [apply Hw1|]. by eapply env_ln; [apply Hw1|..].
Qed.

Lemma call_sta_handlers {NH : NodeHandlers T} {NHL : NodeHandlersLaws} s p si w :
  inv w -> is_Some (ln_heap w !! s) -> si_heap w !! p = Some si -> si_node si = NLocal s ->
  0 < s32 (local_sta_timeout (config w)) ->
  wp (call_handlers (fun h => (fun f => f (NLocal s) p) <$> update_sta h)) (fun _ w' => handled w w') w.
Proof.
  intros Hi Hs Hp Hn Ht. apply call_handlers_spec; [done|]. intros h m w1 Hh Hm Hw1.
  destruct (update_sta h) as [f|] eqn:E; [|done]. simpl in Hm. simplify_eq.
  destruct (handled_si _ _ _ _ Hw1 Hp) as (si1 & Hp1 & Hk & _).
  eapply (nh_sta h f Hh E); [apply Hw1| |done|unfold si_key in Hk; congruence|].
  - by eapply env_ln; [apply Hw1|..].
  - by rewrite (env_config _ _ (hd_env _ _ Hw1)).
Qed.
End handlers.

(** No handler at all, and how a law-abiding one looks. *)
Lemma no_handlers_laws {T} `{!AvlTree Z ptr T} : @NodeHandlersLaws T _ [].
Proof. split; intros h f Hh; by apply elem_of_nil in Hh. Qed.

(** ** The clients, abstractly *)
Section clients.
Context {ET : Ether} {BM : Blobmsg}.

(** The [assoc] attribute of a client. *)
Definition assoc_flag (data : bval) : bool :=
  match attr (blobmsg_parse [("assoc", BLOBMSG_TYPE_BOOL)]%string (table_data data)) 0 with
  | Some (VU8 x) => negb (x =? 0)
  | _ => false
  end.

(** The addresses of a client list, and those of the associated clients. *)
Definition client_addrs (cl : list (string * bval)) : list mac := omap (fun c => ether_aton c.1) cl.
Definition assoc_addrs (cl : list (string * bval)) : list mac :=
  omap (fun c => if assoc_flag c.2 then ether_aton c.1 else None) cl.

(** The sample of a client after an update. *)
Definition next_active_bytes (cfg : usteer_config) (now : Z) (data : bval) (ab : sta_active_bytes) :
    sta_active_bytes :=
  if u64 (now - last_time ab) <? u32 (kick_client_active_sec cfg * 1000) then ab
  else
    match attr (blobmsg_parse [("bytes", BLOBMSG_TYPE_TABLE)]%string (table_data data)) 0 with
    | None => ab
    | Some bytes =>
        let tb := blobmsg_parse [("rx", BLOBMSG_TYPE_INT64); ("tx", BLOBMSG_TYPE_INT64)]%string
                    (table_data bytes) in
        match attr tb 0, attr tb 1 with
        | Some (VU64 rx), Some (VU64 tx) => mkActiveBytes (data_1_0 ab) (data_1_1 ab) rx tx now
        | _, _ => ab
        end
    end.

Lemma attr_type {BML : BlobmsgLaws} pol msg i n ty v :
  pol !! i = Some (n, ty) -> attr (blobmsg_parse pol msg) i = Some v -> type_of_bval v = ty.
Proof.
  intros Hp Hv. unfold attr in Hv. destruct (blobmsg_parse pol msg !! i) as [[v'|]|] eqn:E; simpl in Hv; try done.
  simplify_eq. by eapply parse_sound.
Qed.
End clients.

Section set_assoc_spec.
Context {ET : Ether} {BM : Blobmsg} {BML : BlobmsgLaws}.
Context {T : Type} `{!AvlTree Z ptr T} `{!AvlLaws Z ptr T} {NH : NodeHandlers T} {NHL : NodeHandlersLaws}.
Implicit Types (w : world T) (p q : ptr) (si : sta_info) (s : string) (a : mac).

(** The objects stay; [p] becomes associated when [b], the others stay what they are. *)
Record conn_step (p : ptr) (b : bool) (w w' : world T) : Prop := {
  cs_env : env w w';
  cs_si : t_si (abs w') = t_si (abs w);
  cs_sta : t_sta (abs w') = t_sta (abs w);
  cs_conn q : si_connected <$> si_heap w' !! q =
    (fun c => if b && bool_decide (q = p) then 1 else c) <$> (si_connected <$> si_heap w !! q);
}.

Lemma conn_step_handled p w w' : handled w w' -> conn_step p false w w'.
Proof. intros []. split; try done. intros q. rewrite hd_conn0. by destruct (si_heap w !! q). Qed.
Lemma conn_step_trans p b1 b2 w w1 w2 :
  conn_step p b1 w w1 -> conn_step p b2 w1 w2 -> conn_step p (b1 || b2) w w2.
Proof.
  intros [He1 ? ? H1] [He2 ? ? H2]. split; [by eapply env_trans|congruence..|].
  intros q. rewrite H2, H1. destruct (si_heap w !! q); [|done]. simpl. f_equal.
  by destruct b1, b2, (bool_decide (q = p)).
Qed.

Lemma conn_step_si p si si' w :
  inv w -> si_heap w !! p = Some si -> si_key si' = si_key si -> si_ok p si' ->
  si_connected si' = si_connected si ->
  conn_step p false w (w <| si_heap ::= <[p := si']> |>).
Proof.
  intros Hi Hp Hk Hok Hc. split; [|by erewrite abs_set_si..|].
  - apply frame_env; [by eapply inv_set_si|by split].
  - intros q. simpl. rewrite lookup_insert. case_decide; subst.
    + rewrite Hp. simpl. by rewrite Hc.
    + by destruct (si_heap w !! q).
Qed.

Lemma assoc_update_spec p data si w :
  inv w -> si_heap w !! p = Some si ->
  wp (usteer_local_node_assoc_update p data) (fun _ w' => conn_step p (assoc_flag data) w w') w.
Proof.
  intros Hi Hp. unfold usteer_local_node_assoc_update, assoc_flag.
  set (tb := blobmsg_parse _ _).
  assert (Hty : forall v, attr tb 0 = Some v -> type_of_bval v = BLOBMSG_TYPE_BOOL)
    by (intros v; by eapply attr_type).
  set (b := match attr tb 0 with Some (VU8 x) => negb (x =? 0) | _ => false end).
  set (si1 := if b then si <| si_connected := 1 |> else si).
  set (w1 := w <| si_heap ::= <[p := si1]> |>).
  assert (Hk1 : si_key si1 = si_key si) by (unfold si1; by destruct b).
  assert (H1 : conn_step p b w w1).
  { split; [|unfold w1; by erewrite abs_set_si..|].
    - apply frame_env; [|by split]. eapply inv_set_si; [done..|].
      unfold si1. destruct b; exact (inv_si _ Hi p si Hp).
    - intros q. simpl. rewrite lookup_insert. case_decide; subst.
      + rewrite Hp, bool_decide_true by done. unfold si1. by destruct b.
      + rewrite bool_decide_false by done. rewrite andb_false_r. by destruct (si_heap w !! q). }
  apply wp_bind. eapply wp_mono with (P := fun x w2 => w2 = w /\ negb (x =? 0) = b).
  { unfold b. destruct (attr tb 0) as [v|] eqn:E; [|by apply wp_ret].
    specialize (Hty v eq_refl). by destruct v. }
  intros x w2 [-> Hb]. apply wp_bind.
  eapply wp_mono with (P := fun _ w2 => w2 = w1).
  { unfold w1, si1. rewrite Hb. destruct b; simpl; [by eapply wp_upd_si|].
    apply wp_ret. unfold set_field. destruct w. simpl in *. by rewrite insert_id. }
  intros [] w2 ->.
  assert (Hp1 : si_heap w1 !! p = Some si1) by apply lookup_insert_eq.
  assert (Hi1 := env_inv _ _ (cs_env _ _ _ _ H1)).
  destruct (inv_si_node w1 p si1 Hi1 Hp1) as (x1 & Hx1 & _).
  destruct (inv_si_sta w1 p si1 Hi1 Hp1) as (s1 & Hs1 & _).
  apply wp_bind. eapply wp_get_si; [done|]. apply wp_bind. eapply wp_get_node; [done|].
  eapply wp_upd_sta; [done|]. rewrite <- (orb_false_r b). eapply conn_step_trans; [done|].
  assert (Hn : sta_nodes (if freq x1 <? 4000 then s1 <| seen_2ghz := 1 |> else s1 <| seen_5ghz := 1 |>)
    = sta_nodes s1) by by case_match.
  split; [|by erewrite abs_set_sta..|].
  - apply frame_env; [by eapply inv_set_sta|by split].
  - intros q. simpl. by destruct (_ !! q).
Qed.

Lemma active_bytes_spec p data si w :
  si_heap w !! p = Some si ->
  wp (usteer_update_client_active_bytes p data) (fun _ w' =>
    w' = w <| si_heap ::= <[p := si <| si_active_bytes :=
      next_active_bytes (config w) (current_time w) data (si_active_bytes si) |>]> |>) w.
Proof.
  intros Hp. unfold usteer_update_client_active_bytes, next_active_bytes. do 4 wp_step.
  apply wp_bind. eapply wp_get_si; [done|].
  assert (Hsame : w = w <| si_heap ::= <[p := si <| si_active_bytes := si_active_bytes si |>]> |>).
  { unfold set_field. destruct w. simpl in *. f_equal. rewrite insert_id; [done|]. by destruct si. }
  case_match; [by apply wp_ret|].
  destruct (attr _ 0) as [bytes|] eqn:Eb; [|by apply wp_ret].
  set (tb := blobmsg_parse _ (table_data bytes)).
  destruct (attr tb 0) as [rx|] eqn:E0; [|by apply wp_ret].
  assert (Hrx : type_of_bval rx = BLOBMSG_TYPE_INT64) by (eapply attr_type; [|exact E0]; done).
  destruct (attr tb 1) as [tx|] eqn:E1; [|by destruct rx; apply wp_ret].
  assert (Htx : type_of_bval tx = BLOBMSG_TYPE_INT64) by (eapply attr_type; [|exact E1]; done).
  destruct rx, tx; try done.
  do 2 (apply wp_bind; eapply wp_deref; [done|]). by eapply wp_upd_si.
Qed.

(** One client of the list: [p] is its object, new or not. *)
Record client_step (s : string) (a : mac) (flag : bool) (n : Z) w (n' : Z) w' (p : ptr) : Prop := {
  cl_env : env w w';
  cl_key : t_si (abs w') !! p = Some (a, NLocal s);
  cl_old : t_si (abs w) !! p = None \/ t_si (abs w) !! p = Some (a, NLocal s);
  cl_others q : q ≠ p -> t_si (abs w') !! q = t_si (abs w) !! q /\
    si_connected <$> si_heap w' !! q = si_connected <$> si_heap w !! q;
  cl_conn : si_connected <$> si_heap w' !! p =
    Some (if flag then 1 else default 0 (si_connected <$> si_heap w !! p));
  cl_count : n' = if (if flag then 1 else default 0 (si_connected <$> si_heap w !! p)) =? 1
                  then s32 (n + 1) else n;
  cl_empty : no_empty_sta (abs w) -> no_empty_sta (abs w');
}.

Lemma beacon_check_conn_step p si s w :
  inv w -> si_heap w !! p = Some si -> si_node si = NLocal s -> is_Some (ln_heap w !! s) ->
  wp (usteer_beacon_request_check p) (fun _ w' => conn_step p false w w') w.
Proof.
  intros Hi Hp Hn [ln Hl]. destruct (inv_si_node w p si Hi Hp) as (x & Hx & _). rewrite Hn in Hx.
  eapply wp_mono; [by eapply usteer_beacon_request_check_spec|]. intros [] w1.
  destruct (request_due _ _ _ _); [|intros ->; by apply conn_step_handled, handled_refl].
  intros (next & _ & ->). set (si' := request_sent _ _ _ _ _).
  assert (Hsi' : si_key si' = si_key si /\ si_connected si' = si_connected si /\ si_ok p si').
  { unfold si', request_sent. destruct (inv_si _ Hi p si Hp) as (Hst & Hbr & Hsg).
    case_match; (split; [done|]; split; [done|]; split; [done|]; split; [|done]); [|done]. simpl.
    rewrite list.Forall_forall in Hbr |- *. intros b [_ Hb]%list_elem_of_filter. auto. }
  destruct Hsi' as (Hk & Hc & Hok).
  destruct (conn_step_si p si si' w Hi Hp Hk Hok Hc) as [He ? ? ?]. split; try done.
  eapply env_trans; [done|]. apply frame_env; [apply inv_emit, He|by split].
Qed.

Lemma set_assoc_client_spec s a n cur w :
  inv w -> ether_aton cur.1 = Some a -> is_Some (ln_heap w !! s) ->
  0 < s32 (local_sta_timeout (config w)) ->
  wp (set_assoc_client s n cur) (fun n' w' => exists p,
    client_step s a (assoc_flag cur.2) n w n' w' p) w.
Proof.
  intros Hi Ha Hl Ht. unfold set_assoc_client. rewrite Ha.
  assert (Hln := Hl). apply (no_ln _ (inv_nodes _ Hi)) in Hln as [x Hx].
  apply wp_bind. eapply wp_mono; [by apply usteer_sta_get_there|]. intros r w1 [-> H1].
  apply wp_bind. eapply wp_deref; [done|].
  apply wp_bind. eapply wp_mono; [by eapply ensured_intro|]. intros r w2 (p & create & si & -> & Hen).
  apply wp_bind. eapply wp_deref; [done|]. simpl.
  destruct Hen as [Hi2 Hf2 Hfind Hold Hp2 Hk2 Hoth Htq Hout Hem].
  assert (He2 := frame_env _ _ Hi2 Hf2).
  assert (Hn : si_node si = NLocal s) by (unfold si_key in Hk2; congruence).
  apply wp_bind. eapply wp_mono; [eapply call_sta_handlers; [done| |done..|]|].
  { by eapply env_ln. } { by rewrite (env_config _ _ He2). }
  intros [] w3 H3.
  destruct (handled_si _ _ _ _ H3 Hp2) as (si3 & Hp3 & Hk3 & Hc3).
  apply wp_bind. eapply wp_mono; [eapply assoc_update_spec; [apply H3|done]|]. intros [] w4 H4.
  assert (H24 := conn_step_trans _ _ _ _ _ _ (conn_step_handled p _ _ H3) H4). simpl in H24.
  assert (Hc4 := cs_conn _ _ _ _ H24 p). rewrite Hp2, bool_decide_true, andb_true_r in Hc4 by done.
  destruct (si_heap w4 !! p) as [si4|] eqn:Hp4; [|done]. simpl in Hc4. injection Hc4 as Hc4.
  assert (Hk4 : si_key si4 = si_key si).
  { assert (E := cs_si _ _ _ _ H24). apply (f_equal (fun m => m !! p)) in E.
    rewrite !abs_si, Hp4, Hp2 in E. simpl in E. congruence. }
  apply wp_bind. eapply wp_get_si; [done|]. apply wp_bind.
  eapply wp_mono; [by eapply active_bytes_spec|]. intros [] w5 ->.
  set (si5 := si4 <| si_active_bytes := _ |>). set (w5 := w4 <| si_heap ::= <[p := si5]> |>).
  assert (H5 : conn_step p false w4 w5).
  { eapply conn_step_si; [apply H24|done|done| |done].
    exact (inv_si _ (env_inv _ _ (cs_env _ _ _ _ H24)) p si4 Hp4). }
  assert (H25 := conn_step_trans _ _ _ _ _ _ H24 H5). rewrite orb_false_r in H25.
  apply wp_bind. eapply wp_mono; [eapply (beacon_check_conn_step p si5 s w5)|].
  { apply H25. } { apply lookup_insert_eq. } { unfold si_key in Hk4. simpl. congruence. }
  { eapply env_ln; [eapply env_trans; [exact He2|apply H25]|done..]. }
  intros [] w6 H6. apply wp_ret.
  assert (H26 := conn_step_trans _ _ _ _ _ _ H25 H6). rewrite orb_false_r in H26.
  assert (Hdef : default 0 (si_connected <$> si_heap w !! p) = si_connected si).
  { destruct create; [destruct Hold as [-> Hnone]; by rewrite Hnone|by rewrite Hold]. }
  exists p. split; rewrite ?Hdef.
  - eapply env_trans; [done|apply H26].
  - rewrite (cs_si _ _ _ _ H26), abs_si, Hp2. simpl. by f_equal.
  - rewrite abs_si. destruct create; [destruct Hold as [_ Hnone]; rewrite Hnone; by left|].
    rewrite Hold. simpl. right. by f_equal.
  - intros q Hq. rewrite (cs_si _ _ _ _ H26), !abs_si, (cs_conn _ _ _ _ H26 q), Hoth by done.
    split; [done|]. rewrite bool_decide_false, andb_false_r by done. by destruct (si_heap w !! q).
  - rewrite (cs_conn _ _ _ _ H26 p), Hp2, bool_decide_true, andb_true_r by done. done.
  - by rewrite Hc4.
  - intros Hne b. rewrite (cs_sta _ _ _ _ H26). by apply Hem.
Qed.

(** The first loop: whoever was associated is to be checked again. *)
Definition recheck (c : Z) : Z := if c =? 0 then 0 else 2.

(** A loop over objects [l] that changes [connected] of each by [f]. *)
Record conn_loop (f : Z -> Z) (l : list ptr) w w' : Prop := {
  lp_env : env w w';
  lp_si : t_si (abs w') = t_si (abs w);
  lp_sta : t_sta (abs w') = t_sta (abs w);
  lp_nodes : node_heap w' = node_heap w;
  lp_conn q : si_connected <$> si_heap w' !! q =
    (fun c => if bool_decide (q ∈ l) then f c else c) <$> (si_connected <$> si_heap w !! q);
}.

Lemma conn_loop_spec f (body : ptr -> M (world T) unit) l w :
  inv w -> NoDup l -> (forall q, q ∈ l -> is_Some (si_heap w !! q)) ->
  (forall q si w1, q ∈ l -> env w w1 -> si_heap w1 !! q = Some si ->
     wp (body q) (fun _ w2 => conn_loop f [q] w1 w2) w1) ->
  wp (for_each body l) (fun _ w' => conn_loop f l w w') w.
Proof.
  intros Hi Hnd Hl Hbody. apply (wp_for_each (fun don _ w' => conn_loop f don w w')).
  - split; [by apply env_refl|done..|]. intros q. by destruct (si_heap w !! q).
  - intros don q rest w1 -> H1.
    assert (Hc := lp_conn _ _ _ _ H1 q).
    destruct (Hl q) as [si Hq]; [set_solver|]. rewrite Hq in Hc.
    destruct (si_heap w1 !! q) as [si1|] eqn:Hq1; [|done].
    eapply wp_mono; [eapply (Hbody q si1 w1); [set_solver|apply H1|done]|]. intros [] w2 H2.
    destruct H1 as [He1 ? ? ? Hc1], H2 as [He2 ? ? ? Hc2].
    split; [by eapply env_trans|congruence..|]. intros q'. rewrite Hc2, Hc1.
    destruct (si_heap w !! q') as [si'|]; [|done]. simpl. f_equal.
    apply list.NoDup_app in Hnd as (_ & Hd & _).
    repeat case_bool_decide; try done; exfalso; set_solver.
  - done.
Qed.

(** [connected] of one object set, on a state that stays otherwise. *)
Lemma conn_loop_one f q si w :
  inv w -> si_heap w !! q = Some si ->
  conn_loop f [q] w (w <| si_heap ::= <[q := si <| si_connected := f (si_connected si) |>]> |>).
Proof.
  intros Hi Hq. split; [|by erewrite abs_set_si..|done|].
  - apply frame_env; [|by split]. eapply inv_set_si; [done..|]. exact (inv_si _ Hi q si Hq).
  - intros q'. simpl. rewrite lookup_insert. case_decide; subst.
    + rewrite Hq. simpl. rewrite bool_decide_true by set_solver. done.
    + rewrite bool_decide_false by set_solver. by destruct (si_heap w !! q').
Qed.

Lemma conn_loop_skip f q si w :
  inv w -> si_heap w !! q = Some si -> f (si_connected si) = si_connected si -> conn_loop f [q] w w.
Proof.
  intros Hi Hq Hf. split; [by apply env_refl|done..|]. intros q'.
  destruct (si_heap w !! q') as [si'|] eqn:E; [|done]. simpl. f_equal.
  case_bool_decide; [|done]. assert (q' = q) as -> by set_solver. simplify_eq. done.
Qed.

Lemma set_assoc_recheck q si w :
  inv w -> si_heap w !! q = Some si ->
  wp (si ← get_si q;
      when (negb (si_connected si =? 0)) (upd_si q (fun si => si <| si_connected := 2 |>)))
     (fun _ w' => conn_loop recheck [q] w w') w.
Proof.
  intros Hi Hq. apply wp_bind. eapply wp_get_si; [done|].
  destruct (Z.eqb_spec (si_connected si) 0) as [Hc|Hc]; simpl.
  - apply wp_ret. eapply conn_loop_skip; [done..|]. by rewrite Hc.
  - eapply wp_upd_si; [done|]. assert (H := conn_loop_one recheck q si w Hi Hq).
    unfold recheck at 2 in H. by rewrite (proj2 (Z.eqb_neq _ _) Hc) in H.
Qed.

(** The last loop: whoever was not reported as associated again is not. *)
Definition settle (c : Z) : Z := if c =? 2 then 0 else c.

Lemma set_assoc_gone_spec q si w :
  inv w -> si_heap w !! q = Some si -> 0 < s32 (local_sta_timeout (config w)) ->
  wp (set_assoc_gone q) (fun _ w' => conn_loop settle [q] w w') w.
Proof.
  intros Hi Hq Ht. unfold set_assoc_gone. do 2 wp_step. apply wp_bind. eapply wp_get_si; [done|].
  destruct (Z.eqb_spec (si_connected si) 2) as [Hc|Hc]; simpl.
  2: { apply wp_ret. eapply conn_loop_skip; [done..|]. unfold settle. by rewrite (proj2 (Z.eqb_neq _ _) Hc). }
  assert (H1 := conn_loop_one settle q si w Hi Hq). unfold settle at 2 in H1. rewrite Hc in H1. simpl in H1.
  apply wp_bind. eapply wp_upd_si; [done|].
  set (si1 := si <| si_connected := 0 |>) in *. set (w1 := w <| si_heap ::= <[q := si1]> |>) in *.
  assert (Hq1 : si_heap w1 !! q = Some si1) by apply lookup_insert_eq.
  apply wp_bind. eapply wp_mono; [eapply usteer_sta_info_update_timeout_spec; [apply H1|done]|].
  intros [] w2 [Hi2 Hup].
  destruct (timeout_updated_pos _ _ _ _ _ Ht Hup) as (Hf & Hh & Hs & Hn & Ho & Ha).
  apply wp_bind. eapply wp_get_si; [by rewrite Hh|]. apply wp_ret.
  destruct H1 as [He ? ? ? Hcn]. split.
  - eapply env_trans; [done|by apply frame_env].
  - rewrite Ha. by destruct (_ =? 1).
  - rewrite Ha. by destruct (_ =? 1).
  - rewrite Hn. done.
  - intros q'. rewrite Hh. apply Hcn.
Qed.

(** The middle loop, over the clients [don] so far, from [w] on; [n] is the
    local [n_assoc]. *)
Record clients_loop (s : string) (don : list (string * bval)) w (n : Z) w' : Prop := {
  cp_env : env w w';
  cp_old q k : t_si (abs w) !! q = Some k -> t_si (abs w') !! q = Some k;
  cp_other q k : t_si (abs w') !! q = Some k -> k.2 ≠ NLocal s \/ k.1 ∉ client_addrs don ->
    t_si (abs w) !! q = Some k /\ si_connected <$> si_heap w' !! q = si_connected <$> si_heap w !! q;
  cp_conn q a : t_si (abs w') !! q = Some (a, NLocal s) -> a ∈ client_addrs don ->
    si_connected <$> si_heap w' !! q =
      Some (if decide (a ∈ assoc_addrs don) then 1 else default 0 (si_connected <$> si_heap w !! q));
  cp_there a : a ∈ client_addrs don -> exists q, t_si (abs w') !! q = Some (a, NLocal s);
  cp_count : n = s32 (Z.of_nat (length (assoc_addrs don)));
  cp_empty : no_empty_sta (abs w) -> no_empty_sta (abs w');
}.

Lemma client_addrs_snoc don cur :
  client_addrs (don ++ [cur]) = client_addrs don ++ option_list (ether_aton cur.1).
Proof. unfold client_addrs. rewrite omap_app. simpl. by destruct (ether_aton cur.1). Qed.
Lemma assoc_addrs_snoc don cur :
  assoc_addrs (don ++ [cur]) =
    assoc_addrs don ++ (if assoc_flag cur.2 then option_list (ether_aton cur.1) else []).
Proof.
  unfold assoc_addrs. rewrite omap_app. simpl.
  destruct (assoc_flag cur.2); [|done]. by destruct (ether_aton cur.1).
Qed.
Lemma assoc_addrs_sub l a : a ∈ assoc_addrs l -> a ∈ client_addrs l.
Proof.
  unfold assoc_addrs, client_addrs. rewrite !list_elem_of_omap. intros (c & Hc & Ha).
  exists c. split; [done|]. by case_match.
Qed.

Lemma s32_succ x : s32 (s32 x + 1) = s32 (x + 1).
Proof. rewrite <- (s32_u32 (s32 x + 1)), <- u32_add_l, u32_s32, u32_add_l. apply s32_u32. Qed.

Lemma clients_loop_skip s don cur n w w1 :
  clients_loop s don w n w1 -> ether_aton cur.1 = None -> clients_loop s (don ++ [cur]) w n w1.
Proof.
  intros [] Hn.
  assert (Ha : assoc_addrs (don ++ [cur]) = assoc_addrs don).
  { rewrite assoc_addrs_snoc, Hn. destruct (assoc_flag cur.2); apply app_nil_r. }
  assert (Hc : client_addrs (don ++ [cur]) = client_addrs don).
  { rewrite client_addrs_snoc, Hn. apply app_nil_r. }
  split; rewrite ?Ha, ?Hc; done.
Qed.

(** Every old object of [s] is in a state that the first loop leaves. *)
Definition rechecked s w : Prop :=
  forall q si, si_heap w !! q = Some si -> si_node si = NLocal s -> si_connected si ≠ 1.

Lemma clients_loop_step s don cur a n w w1 n2 w2 p :
  rechecked s w -> clients_loop s don w n w1 -> ether_aton cur.1 = Some a -> a ∉ client_addrs don ->
  client_step s a (assoc_flag cur.2) n w1 n2 w2 p -> clients_loop s (don ++ [cur]) w n2 w2.
Proof.
  intros Hre [He Hold Hoth Hcn Hth Hct Hem] Ha Hna [He2 Hk2 Ho2 Hot2 Hc2 Hct2 Hem2].
  assert (Hca := client_addrs_snoc don cur). rewrite Ha in Hca. simpl in Hca.
  assert (Haa := assoc_addrs_snoc don cur). rewrite Ha in Haa. simpl in Haa.
  assert (Hnas : a ∉ assoc_addrs don) by (intros ?%assoc_addrs_sub; done).
  assert (Huniq : forall q, t_si (abs w2) !! q = Some (a, NLocal s) -> q = p).
  { intros q Hq. by eapply (tw_uniq _ (inv_table _ (env_inv _ _ He2))). }
  (* the object before this client, in the state the loop began with *)
  assert (Hprev : si_connected <$> si_heap w1 !! p = si_connected <$> si_heap w !! p).
  { destruct Ho2 as [Hn|Hs].
    - rewrite abs_si in Hn. destruct (si_heap w1 !! p) eqn:E1; [done|].
      destruct (si_heap w !! p) as [si|] eqn:E; [|done]. exfalso.
      assert (H : t_si (abs w1) !! p = Some (si_key si)) by (apply Hold; by rewrite abs_si, E).
      rewrite abs_si, E1 in H. done.
    - destruct (Hoth p _ Hs) as [_ ?]; [by right|done]. }
  assert (Hne1 : default 0 (si_connected <$> si_heap w !! p) ≠ 1).
  { destruct (si_heap w !! p) as [si|] eqn:E; [|done]. simpl. eapply Hre; [done|].
    assert (H : t_si (abs w1) !! p = Some (si_key si)) by (apply Hold; by rewrite abs_si, E).
    destruct Ho2 as [Hn|Hs]; [congruence|]. rewrite Hs in H. unfold si_key in H. congruence. }
  rewrite Hprev in Hc2, Hct2. split.
  - by eapply env_trans.
  - intros q k Hq. destruct (decide (q = p)) as [->|Hqp].
    + specialize (Hold _ _ Hq). destruct Ho2 as [Hn|Hs]; congruence.
    + rewrite (proj1 (Hot2 q Hqp)). auto.
  - intros q k Hq Hk. destruct (decide (q = p)) as [->|Hqp].
    + rewrite Hk2 in Hq. simplify_eq. simpl in Hk. rewrite Hca in Hk. set_solver.
    + destruct (Hot2 q Hqp) as [Hs Hc]. rewrite Hs in Hq. rewrite Hc. apply Hoth; [done|].
      destruct Hk as [?|Hk]; [by left|]. right. rewrite Hca in Hk. set_solver.
  - intros q b Hq Hb. rewrite Haa. destruct (decide (q = p)) as [->|Hqp].
    + rewrite Hk2 in Hq. simplify_eq. rewrite Hc2. f_equal.
      destruct (assoc_flag cur.2); [by rewrite decide_True by set_solver|].
      by rewrite app_nil_r, decide_False.
    + destruct (Hot2 q Hqp) as [Hs Hc].
      assert (b ≠ a) by (intros ->; by apply Hqp, Huniq). rewrite Hs in Hq.
      rewrite Hc, (Hcn q b Hq) by (rewrite Hca in Hb; set_solver). f_equal.
      apply decide_ext. destruct (assoc_flag cur.2); set_solver.
  - intros b Hb. destruct (decide (b = a)) as [->|Hba]; [by exists p|].
    destruct (Hth b) as [q Hq]; [rewrite Hca in Hb; set_solver|]. exists q.
    rewrite (proj1 (Hot2 q ltac:(intros ->; destruct Ho2; congruence))). done.
  - rewrite Hct2, Haa. destruct (assoc_flag cur.2); simpl.
    + rewrite length_app, Hct. simpl. rewrite s32_succ. f_equal. lia.
    + rewrite (proj2 (Z.eqb_neq _ _) Hne1), app_nil_r. done.
  - auto.
Qed.

Lemma clients_loop_spec s cl w :
  inv w -> is_Some (ln_heap w !! s) -> 0 < s32 (local_sta_timeout (config w)) ->
  rechecked s w -> NoDup (client_addrs cl) ->
  wp (for_fold (set_assoc_client s) 0 cl) (fun n w' => clients_loop s cl w n w') w.
Proof.
  intros Hi Hl Ht Hre Hnd. apply (wp_for_fold (fun don _ n w' => clients_loop s don w n w')).
  { split; [by apply env_refl|done|done|by intros q a _ ?%elem_of_nil|by intros a ?%elem_of_nil|done|done]. }
  intros don cur rest n w1 -> H1.
  destruct (ether_aton cur.1) as [a|] eqn:Ha.
  - eapply wp_mono; [eapply (set_assoc_client_spec s a n cur w1)|].
    + apply H1.
    + done.
    + by eapply env_ln; [apply H1|..].
    + by rewrite (env_config _ _ (cp_env _ _ _ _ _ H1)).
    + intros n2 w2 (p & Hp). eapply clients_loop_step; [done..| |done].
      unfold client_addrs in Hnd. rewrite omap_app in Hnd. simpl in Hnd. rewrite Ha in Hnd.
      apply list.NoDup_app in Hnd as (_ & Hd & _). intros Hin. apply (Hd a Hin). set_solver.
  - unfold set_assoc_client. rewrite Ha. apply wp_ret. by apply clients_loop_skip.
Qed.

Lemma env_set_node n x x' w :
  inv w -> node_heap w !! n = Some x -> node_sta_info x' = node_sta_info x ->
  env w (w <| node_heap ::= <[n := x']> |>).
Proof. intros Hi Hx Hn. split; try done. by eapply inv_set_node. Qed.

Lemma conn_in_range f l w w' q si :
  conn_loop f l w w' -> si_heap w' !! q = Some si -> exists si0, si_heap w !! q = Some si0 /\
    si_key si0 = si_key si /\ si_connected si = if bool_decide (q ∈ l) then f (si_connected si0) else si_connected si0.
Proof.
  intros [_ Hs _ _ Hc] Hq. specialize (Hc q). apply (f_equal (fun m => m !! q)) in Hs.
  rewrite !abs_si in Hs. rewrite Hq in Hs, Hc.
  destruct (si_heap w !! q) as [si0|]; [|done]. exists si0. simpl in *. split; [done|]. split; congruence.
Qed.

Lemma node_list_mem w s x q si :
  inv w -> node_heap w !! NLocal s = Some x -> si_heap w !! q = Some si ->
  q ∈ node_sta_info x <-> si_node si = NLocal s.
Proof.
  intros Hi Hx Hq. split.
  - intros Hin. destruct (inv_node_si w _ x q Hi Hx Hin) as (si' & ? & ?). by simplify_eq.
  - intros Hn. destruct (inv_si_node w q si Hi Hq) as (x' & Hx' & Hin). rewrite Hn in Hx'. by simplify_eq.
Qed.

(** The outcome: who is associated with the node is who hostapd says is. *)
Record assoc_set (s : string) (cl : list (string * bval)) w w' : Prop := {
  as_env : env w w';
  as_conn q si : si_heap w' !! q = Some si -> si_node si = NLocal s ->
    si_connected si = if decide (si_sta si ∈ assoc_addrs cl) then 1 else 0;
  as_there a : a ∈ assoc_addrs cl -> exists q, t_si (abs w') !! q = Some (a, NLocal s);
  as_count : exists x', node_heap w' !! NLocal s = Some x' /\
    n_assoc x' = s32 (Z.of_nat (length (assoc_addrs cl)));
  as_kept q k : t_si (abs w) !! q = Some k -> t_si (abs w') !! q = Some k;
  as_others q si : si_heap w' !! q = Some si -> si_node si ≠ NLocal s ->
    exists si0, si_heap w !! q = Some si0 /\ si_connected si0 = si_connected si;
  as_empty : no_empty_sta (abs w) -> no_empty_sta (abs w');
}.

Lemma assoc_set_combine s cl w w1 w2 w3 w4 x x2 n :
  node_heap w !! NLocal s = Some x -> conn_loop recheck (node_sta_info x) w w1 -> inv w ->
  clients_loop s cl w1 n w2 -> node_heap w2 !! NLocal s = Some x2 ->
  w3 = w2 <| node_heap ::= <[NLocal s := x2 <| n_assoc := n |>]> |> ->
  conn_loop settle (node_sta_info x2) w3 w4 -> assoc_set s cl w w4.
Proof.
  intros Hx H1 Hi H2 Hx2 -> H4.
  assert (Hi2 := env_inv _ _ (cp_env _ _ _ _ _ H2)).
  assert (Ha3 : abs (w2 <| node_heap ::= <[NLocal s := x2 <| n_assoc := n |>]> |>) = abs w2)
    by by eapply abs_set_node.
  assert (Hback : forall q si, si_heap w4 !! q = Some si -> exists si2, si_heap w2 !! q = Some si2 /\
    si_key si2 = si_key si /\
    si_connected si = if decide (si_node si = NLocal s) then settle (si_connected si2) else si_connected si2).
  { intros q si Hq. destruct (conn_in_range _ _ _ _ _ _ H4 Hq) as (si2 & Hq2 & Hk & Hc). simpl in Hq2.
    exists si2. split; [done|]. split; [done|]. rewrite Hc.
    assert (Hn : si_node si = si_node si2) by (unfold si_key in Hk; congruence). rewrite Hn.
    assert (Hm := node_list_mem w2 s x2 q si2 Hi2 Hx2 Hq2).
    case_bool_decide; case_decide; tauto. }
  split.
  - eapply env_trans; [apply H1|]. eapply env_trans; [apply H2|].
    eapply env_trans; [|apply H4]. by eapply env_set_node.
  - intros q si Hq Hn. destruct (Hback q si Hq) as (si2 & Hq2 & Hk & ->). rewrite decide_True by done.
    assert (Hs2 : t_si (abs w2) !! q = Some (si_sta si, NLocal s)).
    { rewrite abs_si, Hq2. simpl. rewrite Hk. unfold si_key. congruence. }
    assert (Hr : default 0 (si_connected <$> si_heap w1 !! q) = 0 \/
                 default 0 (si_connected <$> si_heap w1 !! q) = 2).
    { destruct (si_heap w1 !! q) as [si1|] eqn:Hq1; [|by left].
      destruct (conn_in_range _ _ _ _ _ _ H1 Hq1) as (si0 & Hq0 & Hk0 & Hc1). simpl. rewrite Hc1.
      assert (Hold := cp_old _ _ _ _ _ H2 q (si_key si1)). rewrite abs_si, Hq1 in Hold.
      specialize (Hold eq_refl). rewrite Hs2 in Hold.
      assert (si_node si0 = NLocal s) by (unfold si_key in *; congruence).
      rewrite bool_decide_true by (by eapply (node_list_mem w s x)).
      unfold recheck. destruct (si_connected si0 =? 0); auto. }
    destruct (decide (si_sta si ∈ client_addrs cl)) as [Hin|Hin].
    + assert (Hc := cp_conn _ _ _ _ _ H2 q _ Hs2 Hin). rewrite Hq2 in Hc. simpl in Hc.
      injection Hc as ->. case_decide; [done|]. destruct Hr as [-> | ->]; done.
    + destruct (cp_other _ _ _ _ _ H2 q _ Hs2) as [_ Hc]; [by right|].
      rewrite Hq2 in Hc. rewrite <- Hc in Hr. simpl in Hr.
      rewrite decide_False by (intros ?%assoc_addrs_sub; done). destruct Hr as [-> | ->]; done.
  - intros a Ha%assoc_addrs_sub. destruct (cp_there _ _ _ _ _ H2 a Ha) as [q Hq]. exists q.
    by rewrite (lp_si _ _ _ _ H4), Ha3.
  - rewrite (lp_nodes _ _ _ _ H4). eexists. split; [apply lookup_insert_eq|]. apply H2.
  - intros q k Hq. rewrite (lp_si _ _ _ _ H4), Ha3. apply (cp_old _ _ _ _ _ H2). by rewrite (lp_si _ _ _ _ H1).
  - intros q si Hq Hn. destruct (Hback q si Hq) as (si2 & Hq2 & Hk & ->). rewrite decide_False by done.
    assert (Hs2 : t_si (abs w2) !! q = Some (si_key si)) by (rewrite abs_si, Hq2; simpl; congruence).
    destruct (cp_other _ _ _ _ _ H2 q _ Hs2) as [Hs1 Hc]; [by left|]. rewrite Hq2 in Hc.
    destruct (si_heap w1 !! q) as [si1|] eqn:Hq1; [|done]. simpl in Hc. injection Hc as ->.
    destruct (conn_in_range _ _ _ _ _ _ H1 Hq1) as (si0 & Hq0 & Hk0 & ->). exists si0. split; [done|].
    rewrite bool_decide_false; [done|]. rewrite (node_list_mem w s x q si0) by done.
    rewrite abs_si, Hq1 in Hs1. simpl in Hs1. unfold si_key in *. congruence.
  - intros Hne b. rewrite (lp_sta _ _ _ _ H4), Ha3. apply (cp_empty _ _ _ _ _ H2).
    intros c. rewrite (lp_sta _ _ _ _ H1). apply Hne.
Qed.

Lemma usteer_local_node_set_assoc_spec s cl x w :
  inv w -> node_heap w !! NLocal s = Some x -> 0 < s32 (local_sta_timeout (config w)) ->
  NoDup (client_addrs cl) ->
  wp (usteer_local_node_set_assoc s cl) (fun _ w' => assoc_set s cl w w') w.
Proof.
  intros Hi Hx Ht Hnd. unfold usteer_local_node_set_assoc. apply wp_bind. eapply wp_get_node; [done|].
  destruct (inv_local_stations w s x Hi Hx) as (Hnl & Hl & _ & Hmem).
  apply wp_bind. eapply wp_mono.
  { apply (conn_loop_spec recheck _ (node_sta_info x) w Hi Hnl).
    - intros q Hq. destruct (Hmem q Hq) as (si & ? & _). eauto.
    - intros q si w1 _ He Hq. by apply (set_assoc_recheck q si); [apply He|]. }
  intros [] w1 H1. assert (He1 := lp_env _ _ _ _ H1).
  apply wp_bind. eapply wp_mono; [apply (clients_loop_spec s cl w1)|].
  { apply He1. } { by eapply env_ln. } { by rewrite (env_config _ _ He1). }
  { intros q si1 Hq1 Hn1. destruct (conn_in_range _ _ _ _ _ _ H1 Hq1) as (si0 & Hq0 & Hk0 & ->).
    rewrite bool_decide_true; [unfold recheck; by case_match|].
    apply (node_list_mem w s x q si0); [done..|]. unfold si_key in Hk0. congruence. }
  { done. }
  intros n w2 H2. assert (He2 := env_trans _ _ _ He1 (cp_env _ _ _ _ _ H2)).
  destruct (env_node w w2 s He2) as [x2 Hx2]; [by eauto|done|].
  apply wp_bind. eapply wp_upd_node; [done|]. apply wp_bind.
  eapply wp_get_node; [simpl; apply lookup_insert_eq|]. simpl.
  set (w3 := w2 <| node_heap ::= <[NLocal s := x2 <| n_assoc := n |>]> |>).
  assert (He3 : env w2 w3) by (by eapply env_set_node; [apply He2|..]).
  destruct (inv_local_stations w2 s x2 (env_inv _ _ He2) Hx2) as (Hnl2 & _ & _ & Hmem2).
  eapply wp_mono.
  { apply (conn_loop_spec settle _ (node_sta_info x2) w3 (env_inv _ _ He3) Hnl2).
    - intros q Hq. destruct (Hmem2 q Hq) as (si & ? & _). eauto.
    - intros q si w4 _ He4 Hq. apply (set_assoc_gone_spec q si); [apply He4|done|].
      by rewrite (env_config _ _ He4), (env_config _ _ He3), (env_config _ _ He2). }
  intros [] w4 H4. by eapply assoc_set_combine.
Qed.
End set_assoc_spec.

(** ** Nodes come and go *)
Section node_life.
Context {T : Type} `{!AvlTree Z ptr T} `{!AvlLaws Z ptr T}.
Implicit Types (w : world T) (n : node_id) (s : string).

Lemma table_node_del_wf n (t : table) :
  table_wf t -> t_node t !! n = Some [] -> table_wf (t <| t_node ::= delete n |>).
Proof.
  intros Hwf Hn. destruct Hwf. split; simpl; eauto.
  - intros p a m Hp. destruct (tw_node _ _ _ Hp) as (l & Hl & Hin). exists l.
    rewrite lookup_delete_ne; [done|]. intros <-. rewrite Hn in Hl. simplify_eq. set_solver.
  - intros m l p Hm. apply lookup_delete_Some in Hm as [_ Hm]. eauto.
  - intros m l Hm. apply lookup_delete_Some in Hm as [_ Hm]. eauto.
Qed.
Lemma table_node_add_wf n (t : table) :
  table_wf t -> t_node t !! n = None -> table_wf (t <| t_node ::= <[n := []]> |>).
Proof.
  intros Hwf Hn. destruct Hwf. split; simpl; eauto.
  - intros p a m Hp. destruct (tw_node _ _ _ Hp) as (l & Hl & Hin). exists l.
    rewrite lookup_insert_ne; [done|]. intros <-. congruence.
  - intros m l p. rewrite lookup_insert. case_decide; [|by eauto]. intros. simplify_eq. set_solver.
  - intros m l. rewrite lookup_insert. case_decide; [|by eauto]. intros. simplify_eq. constructor.
Qed.

(** The statements at the end of [usteer_free_node]. *)
Definition node_dropped w s : world T :=
  w <| local_nodes ::= list_del s |> <| node_heap ::= delete (NLocal s) |> <| ln_heap ::= delete s |>.

Lemma inv_node_dropped w s :
  inv w -> t_node (abs w) !! NLocal s = Some [] -> inv (node_dropped w s).
Proof.
  intros [Ht Hq Hsi Hno] Hn. split; [|done|done|].
  - assert (abs (node_dropped w s) = abs w <| t_node ::= delete (NLocal s) |>) as ->.
    { unfold abs, node_dropped, set_field. simpl. f_equal. apply fmap_delete. }
    by apply table_node_del_wf.
  - destruct Hno. split; simpl; intros; rewrite ?elem_of_list_del, ?lookup_delete; auto.
    + rewrite no_local. case_decide as E; [injection E as ->|].
      * split; [by intros [_ []]|by intros []].
      * split; [by intros []|]. intros ?. split; [done|congruence].
    + repeat case_decide; simplify_eq; auto. split; by intros [].
Qed.

(** The statements of [usteer_get_node] on a new name. *)
Definition node_added w name : world T :=
  w <| node_heap ::= <[NLocal name := node_zero]> |> <| ln_heap ::= <[name := ln_zero]> |>
    <| local_nodes ::= strcmp_insert name |>.

Lemma strcmp_insert_perm s l : strcmp_insert s l ≡ₚ s :: l.
Proof.
  induction l as [|t l IH]; [done|]. simpl. case_match; [done|].
  rewrite IH. apply Permutation_swap.
Qed.

Lemma inv_node_added w name : inv w -> name ∉ local_nodes w -> inv (node_added w name).
Proof.
  intros [Ht Hq Hsi Hno] Hn. split; [|done|done|].
  - assert (abs (node_added w name) = abs w <| t_node ::= <[NLocal name := []]> |>) as ->.
    { unfold abs, node_added, set_field. simpl. f_equal. by rewrite fmap_insert. }
    apply table_node_add_wf; [done|]. rewrite abs_node.
    destruct (node_heap w !! NLocal name) eqn:E; [|done]. destruct Hn. apply Hno. eauto.
  - destruct Hno. split; simpl; intros.
    + rewrite strcmp_insert_perm, elem_of_cons, lookup_insert. case_decide as E; [injection E as ->|].
      * split; [eauto|by left].
      * rewrite <- no_local. split; [intros [->|?]; [done|done]|by right].
    + rewrite lookup_insert_ne by done. auto.
    + rewrite !lookup_insert. repeat case_decide; simplify_eq; auto. split; eauto.
    + rewrite lookup_insert_ne by done. auto.
    + rewrite strcmp_insert_perm. by apply list.NoDup_cons.
    + auto.
Qed.
End node_life.

Section local_node_spec.
Context {ET : Ether} {BM : Blobmsg} {BML : BlobmsgLaws}.
Context {T : Type} `{!AvlTree Z ptr T} `{!AvlLaws Z ptr T} {NH : NodeHandlers T} {NHL : NodeHandlersLaws}.
Implicit Types (w : world T) (p q : ptr) (si : sta_info) (s : string) (ln : usteer_local_node).

Lemma state_reset_spec s ln w :
  inv w -> ln_heap w !! s = Some ln ->
  wp (usteer_local_node_state_reset s) (fun _ w' =>
    w' = w <| ln_heap ::= <[s := ln <| req_state := REQ_IDLE |>]> |>) w.
Proof.
  intros Hi Hl. unfold usteer_local_node_state_reset. apply wp_bind. eapply wp_get_ln; [done|].
  destruct (Z.eqb_spec (req_state ln) REQ_IDLE) as [Hr|]; simpl; [|by eapply wp_upd_ln].
  apply wp_ret. unfold set_field. destruct w. simpl in *. f_equal. rewrite insert_id; [done|].
  destruct ln. simpl in *. by subst.
Qed.

Lemma env_set_ln s ln ln' w :
  inv w -> ln_heap w !! s = Some ln -> env w (w <| ln_heap ::= <[s := ln']> |>).
Proof. intros Hi Hl. split; try done. by eapply inv_set_ln. Qed.

(** After [usteer_free_node] neither the node nor a station at it is left. *)
Record node_freed (s : string) w w' : Prop := {
  nf_inv : inv w';
  nf_config : config w' = config w;
  nf_local : local_nodes w' = list_del s (local_nodes w);
  nf_gone : node_heap w' !! NLocal s = None;
  nf_ln : ln_heap w' !! s = None;
  nf_si q si : si_heap w' !! q = Some si -> si_node si ≠ NLocal s;
  nf_others q si : si_heap w !! q = Some si -> si_node si ≠ NLocal s ->
    exists si', si_heap w' !! q = Some si' /\ si_key si' = si_key si;
  nf_empty : no_empty_sta (abs w) -> no_empty_sta (abs w');
}.

Lemma usteer_free_node_spec s x w :
  inv w -> node_heap w !! NLocal s = Some x ->
  wp (usteer_free_node s) (fun _ w' => node_freed s w w') w.
Proof.
  intros Hi Hx. unfold usteer_free_node.
  destruct (inv_local_stations w s x Hi Hx) as (_ & Hl & _ & _).
  apply wp_bind. eapply wp_mono; [apply (call_node_handlers s free_node); [done|done|]|].
  { intros h f. apply nh_free. }
  intros [] w1 H1. assert (He1 := hd_env _ _ H1).
  destruct (env_ln _ _ _ He1 Hl Hi) as [ln1 Hl1].
  apply wp_bind. eapply wp_mono; [by eapply state_reset_spec; [apply He1|]|]. intros [] w2 ->.
  set (ln2 := ln1 <| req_state := REQ_IDLE |>). set (w2 := w1 <| ln_heap ::= <[s := ln2]> |>).
  assert (Hi2 : inv w2) by (eapply inv_set_ln; [apply He1|done]).
  destruct (env_node _ _ _ He1 (ex_intro _ _ Hx) Hi) as [x1 Hx1].
  apply wp_bind. eapply wp_mono; [by apply (usteer_sta_node_cleanup_spec (NLocal s) x1 w2)|].
  intros [] w3 [Hr Hempty3].
  assert (Hln3 : ln_heap w3 = ln_heap w2) by (rewrite (fr_ln _ _ (sr_frame _ _ _ Hr)); done).
  apply wp_bind. eapply wp_upd_ln; [rewrite Hln3; apply lookup_insert_eq|]. apply wp_bind.
  eapply wp_upd_ln; [simpl; apply lookup_insert_eq|]. simpl. rewrite insert_insert_eq.
  set (ln4 := ln2 <| req_timer := None |> <| update_timer := None |>).
  set (w4 := w3 <| ln_heap ::= <[s := ln4]> |>).
  assert (Hi4 : inv w4) by (eapply inv_set_ln; [apply Hr|rewrite Hln3; apply lookup_insert_eq]).
  do 2 wp_step. apply wp_modify.
  change (node_freed s w (node_dropped w4 s)).
  assert (Hsi : forall q, si_heap w4 !! q = if decide (q ∈ node_sta_info x1) then None else si_heap w1 !! q).
  { intros q. apply (sr_heap _ _ _ Hr). }
  split.
  - by apply inv_node_dropped.
  - simpl. rewrite (fr_config _ _ (sr_frame _ _ _ Hr)). apply He1.
  - simpl. rewrite (fr_local _ _ (sr_frame _ _ _ Hr)). simpl. by rewrite (env_local _ _ He1).
  - simpl. apply lookup_delete_eq.
  - simpl. apply lookup_delete_eq.
  - intros q si Hq Hn. change (si_heap w4 !! q = Some si) in Hq. rewrite Hsi in Hq.
    case_decide as Hin; [done|]. destruct Hin. by eapply node_list_mem; [apply He1|..].
  - intros q si Hq Hn. destruct (handled_si _ _ _ _ H1 Hq) as (si1 & Hq1 & Hk1 & _).
    exists si1. split; [|done]. change (si_heap w4 !! q = Some si1). rewrite Hsi, decide_False; [done|].
    rewrite (node_list_mem w1 s x1 q si1) by (done || apply He1). unfold si_key in Hk1. congruence.
  - intros Hne b. change (t_sta (abs w3) !! b ≠ Some []). apply (sr_empty _ _ _ Hr).
    intros c. change (t_sta (abs w1) !! c ≠ Some []). rewrite (hd_sta _ _ H1). apply Hne.
Qed.

(** ** The cycle of requests *)

(** The neighbor reports of the other nodes with the SSID of [s]. *)
Definition rrm_entry w s (n : node_id) : list bval :=
  if bool_decide (n = NLocal s) then []
  else match node_heap w !! n, node_heap w !! NLocal s with
       | Some node, Some ln =>
           match rrm_nr node with
           | Some nr => if bool_decide (ssid ln = ssid node) then [VArray nr] else []
           | None => []
           end
       | _, _ => []
       end.
Definition rrm_list w s : list bval :=
  mjoin (map (rrm_entry w s)
    (map NLocal (local_nodes w) ++ map (fun k => NRemote k.1 k.2) (remote_nodes w))).

Lemma add_rrm_data_spec s x n y w :
  node_heap w !! NLocal s = Some x -> node_heap w !! n = Some y ->
  wp (usteer_add_rrm_data s n) (fun r w' => w' = w /\ r = rrm_entry w s n) w.
Proof.
  intros Hx Hy. unfold usteer_add_rrm_data, rrm_entry.
  case_bool_decide; [by apply wp_ret|]. apply wp_bind. eapply wp_get_node; [done|]. rewrite Hy, Hx.
  destruct (rrm_nr y) as [nr|]; [|by apply wp_ret].
  apply wp_bind. eapply wp_get_node; [done|]. apply wp_ret. split; [done|]. by case_bool_decide.
Qed.

Lemma prepare_rrm_set_spec s w :
  inv w -> is_Some (node_heap w !! NLocal s) ->
  wp (usteer_local_node_prepare_rrm_set s) (fun r w' => w' = w /\ r = ("list"%string, VArray (rrm_list w s))) w.
Proof.
  intros Hi [x Hx]. unfold usteer_local_node_prepare_rrm_set, rrm_list. do 4 wp_step.
  set (l := map NLocal (local_nodes w) ++ _).
  assert (Hl : forall n, n ∈ l -> is_Some (node_heap w !! n)).
  { intros n. unfold l. rewrite elem_of_app.
    intros [(t & -> & Ht)%list_elem_of_fmap|([i t] & -> & Ht)%list_elem_of_fmap]; by apply (inv_nodes _ Hi). }
  clearbody l. apply wp_bind. eapply wp_mono.
  { apply (wp_for_fold (fun don _ r w' => w' = w /\ r = mjoin (map (rrm_entry w s) don))); [done|].
    intros don n rest acc w1 -> [-> ->]. destruct (Hl n) as [y Hy]; [set_solver|].
    apply wp_bind. eapply wp_mono; [by eapply add_rrm_data_spec|]. intros r w1 [-> ->]. apply wp_ret.
    split; [done|]. rewrite map_app. simpl. rewrite join_app. simpl. by rewrite app_nil_r. }
  intros r w1 [-> ->]. by apply wp_ret.
Qed.

(** The request that a state stands for. *)
Definition req_call w s ln (st : Z) : list action :=
  if st =? REQ_CLIENTS then [UbusInvoke (obj_id ln) "get_clients" []]
  else if st =? REQ_RRM_SET_LIST then
    [UbusInvoke (obj_id ln) "rrm_nr_set" [("list"%string, VArray (rrm_list w s))]]
  else if st =? REQ_RRM_GET_OWN then [UbusInvoke (obj_id ln) "rrm_nr_get_own" []]
  else [].

Lemma usteer_local_node_state_next_spec s ln w :
  inv w -> ln_heap w !! s = Some ln -> REQ_IDLE <= req_state ln < __REQ_MAX ->
  wp (usteer_local_node_state_next s) (fun _ w' =>
    let st := (req_state ln + 1) mod __REQ_MAX in
    w' = w <| ln_heap ::= <[s := ln <| req_timer := None |> <| req_state := st |>]> |>
           <| out ::= fun l => l ++ req_call w s ln st |>) w.
Proof.
  intros Hi Hl Hr. unfold usteer_local_node_state_next, REQ_IDLE, __REQ_MAX in *.
  assert (Hn : is_Some (node_heap w !! NLocal s)) by (apply (no_ln _ (inv_nodes _ Hi)); eauto).
  apply wp_bind. eapply wp_upd_ln; [done|]. apply wp_bind.
  eapply wp_get_ln; [simpl; apply lookup_insert_eq|]. cbv beta zeta. simpl.
  set (w1 := w <| ln_heap ::= <[s := _]> |>).
  assert (Hi1 : inv w1) by by eapply inv_set_ln.
  assert (Hst : req_state ln = 0 \/ req_state ln = 1 \/ req_state ln = 2 \/ req_state ln = 3) by lia.
  unfold w1 in *. destruct Hst as [E|[E|[E|E]]]; rewrite E in *; cbn -[usteer_local_node_prepare_rrm_set].
  - apply wp_modify. done.
  - apply wp_bind. eapply wp_mono; [by apply prepare_rrm_set_spec|].
    intros r w2 [-> ->]. apply wp_modify. done.
  - apply wp_modify. done.
  - eapply wp_upd_ln; [simpl; apply lookup_insert_eq|]. unfold set_field. simpl.
    by rewrite insert_insert_eq, app_nil_r.
Qed.

(** ** The periodic update *)

Lemma due_in_spec ms w (Q : Z -> world T -> Prop) : Q (ts_ms (clock w) + ms) w -> wp (due_in ms) Q w.
Proof. done. Qed.

(** After an update both timers are armed again and the cycle of requests starts over. *)
Record node_updated (s : string) w w' : Prop := {
  nu_inv : inv w';
  nu_config : config w' = config w;
  nu_local : local_nodes w' = local_nodes w;
  nu_ln : exists ln, ln_heap w' !! s = Some ln /\ req_state ln = REQ_IDLE /\
    req_timer ln = Some (ts_ms (clock w) + 1) /\
    update_timer ln = Some (ts_ms (clock w) + s32 (local_sta_update (config w)));
  nu_si q si : si_heap w !! q = Some si -> exists si', si_heap w' !! q = Some si' /\ si_key si' = si_key si;
  nu_out : exists pre acts, out w' = pre ++ acts /\ (n_kicks acts <= 3)%nat;
  nu_empty : no_empty_sta (abs w) -> no_empty_sta (abs w');
}.

Lemma ln_data_eq ln ln' : ln_data ln' = ln_data ln ->
  req_state ln' = req_state ln /\ req_timer ln' = req_timer ln.
Proof. unfold ln_data, set_field. intros H. split; congruence. Qed.

Lemma usteer_local_node_update_spec s ln w :
  inv w -> ln_heap w !! s = Some ln ->
  kick_client_active_sec (config w) ≠ 0 -> local_sta_update (config w) ≠ 0 ->
  wp (usteer_local_node_update s) (fun _ w' => node_updated s w w') w.
Proof.
  intros Hi Hl Hsec Hup. unfold usteer_local_node_update.
  apply wp_bind. eapply wp_upd_ln; [done|]. set (w0 := w <| ln_heap ::= _ |>).
  assert (He0 : env w w0) by by eapply env_set_ln.
  apply wp_bind. eapply wp_mono; [apply (call_node_handlers s update_node); [apply He0| |]|].
  { simpl. rewrite lookup_insert_eq. eauto. } { intros h f. apply nh_update. }
  intros [] w1 H1. assert (He1 := env_trans _ _ _ He0 (hd_env _ _ H1)).
  destruct (env_ln _ _ _ He1 (ex_intro _ _ Hl) Hi) as [ln1 Hl1].
  apply wp_bind. eapply wp_mono; [by eapply state_reset_spec; [apply He1|]|]. intros [] w2 ->.
  apply wp_bind, due_in_spec. apply wp_bind. eapply wp_upd_ln; [simpl; apply lookup_insert_eq|]. simpl.
  rewrite insert_insert_eq.
  set (ln2 := ln1 <| req_state := REQ_IDLE |> <| req_timer := Some (ts_ms (clock w1) + 1) |>).
  set (w2 := w1 <| ln_heap ::= <[s := ln2]> |>).
  assert (Hw2 : env w1 w2) by (eapply env_set_ln; [apply He1|done]).
  assert (He2 := env_trans _ _ _ He1 Hw2).
  assert (Hl2 : ln_heap w2 !! s = Some ln2) by apply lookup_insert_eq.
  destruct (proj1 (no_ln _ (inv_nodes _ (env_inv _ _ He2)) s)) as [x2 Hx2]; [eauto|].
  apply wp_bind. eapply wp_mono; [eapply usteer_local_node_kick_spec; [apply He2|done|done|..]|].
  { by rewrite <- (env_config _ _ He2) in Hsec. } { by rewrite <- (env_config _ _ He2) in Hup. }
  intros [] w3 (acts & Hr & Hk). do 2 wp_step. apply wp_bind, due_in_spec.
  destruct (kick_run_ln _ _ _ _ _ _ Hr Hl2) as (ln3 & Hl3 & Hd3). apply ln_data_eq in Hd3 as [Hrs Hrt].
  eapply wp_upd_ln; [done|].
  assert (Hi3 := kr_inv _ _ _ _ Hr).
  split; [by eapply inv_set_ln| | | | | |].
  - simpl. rewrite (kr_config _ _ _ _ Hr). apply He2.
  - simpl. rewrite (kr_local _ _ _ _ Hr). apply He2.
  - simpl. rewrite lookup_insert_eq. eexists. split; [done|]. simpl. rewrite Hrs, Hrt.
    rewrite (kr_config _ _ _ _ Hr), (kr_clock _ _ _ _ Hr).
    unfold ln2. simpl. by rewrite (env_clock _ _ He1), (env_config _ _ He1).
  - intros q si Hq. destruct (handled_si _ _ q si H1) as (si1 & Hq1 & Hk1 & _); [done|].
    destruct (kr_si _ _ _ _ Hr q si1 Hq1) as (si3 & Hq3 & Hkp). exists si3. split; [done|].
    rewrite (kp_key _ _ Hkp). done.
  - exists (out w2), acts. split; [apply (kr_out _ _ _ _ Hr)|done].
  - intros Hne. apply (kr_empty _ _ _ _ Hr). intros b. change (t_sta (abs w1) !! b ≠ Some []).
    rewrite (hd_sta _ _ H1). apply Hne.
Qed.

(** ** Registration *)

(** The node [name] is there, new or not, with the id of its hostapd object. *)
Record node_registered (name : string) (id : Z) w w' : Prop := {
  ng_inv : inv w';
  ng_config : config w' = config w;
  ng_local : local_nodes w' = if bool_decide (name ∈ local_nodes w) then local_nodes w
                              else strcmp_insert name (local_nodes w);
  ng_ln : is_Some (ln_heap w' !! name);
  ng_si : t_si (abs w') = t_si (abs w);
  ng_empty : no_empty_sta (abs w) -> no_empty_sta (abs w');
  ng_ifaces : interfaces w' = interfaces w;
  ng_ssids : config_ssid_list w' = config_ssid_list w;
  ng_script : node_up_script w' = node_up_script w;
}.

Lemma usteer_get_node_spec name w :
  inv w -> wp (usteer_get_node name) (fun r w' => r = name /\ node_registered name 0 w w') w.
Proof.
  intros Hi. unfold usteer_get_node. do 2 wp_step. case_bool_decide as Hin.
  - apply wp_ret. split; [done|]. split; try done; [by rewrite bool_decide_true|].
    apply (no_ln _ (inv_nodes _ Hi)). by apply (no_local _ (inv_nodes _ Hi)).
  - do 4 wp_step. apply wp_bind, due_in_spec.
    apply wp_bind. eapply wp_upd_ln; [simpl; apply lookup_insert_eq|]. apply wp_ret. split; [done|].
    assert (Ha := inv_node_added w name Hi Hin). split; simpl.
    + apply (inv_set_ln name ln_zero _ (node_added w name)); [exact Ha|]. simpl. apply lookup_insert_eq.
    + done.
    + by rewrite bool_decide_false.
    + rewrite lookup_insert_eq. eauto.
    + done.
    + done.
    + done.
    + done.
    + done.
Qed.

Lemma run_update_script_spec s w :
  wp (usteer_node_run_update_script s) (fun _ w' => exists acts, w' = w <| out ::= fun l => l ++ acts |>) w.
Proof.
  unfold usteer_node_run_update_script. do 2 wp_step. destruct (node_up_script w) as [cmd|].
  - apply wp_modify. by eexists.
  - apply wp_ret. exists []. destruct w. unfold set_field. simpl. by rewrite app_nil_r.
Qed.

Lemma usteer_register_node_spec (if_nametoindex : string -> Z) name id w :
  inv w -> wp (usteer_register_node if_nametoindex name id) (fun _ w' =>
    if String.prefix "hostapd." name then node_registered name id w w' else w' = w) w.
Proof.
  intros Hi. unfold usteer_register_node. destruct (String.prefix "hostapd." name); simpl; [|by apply wp_ret].
  apply wp_bind. eapply wp_mono; [by apply usteer_get_node_spec|].
  intros r w1 [-> H1]. destruct H1 as [Hi1 Hc1 Hl1 [ln1 Hln1] Hs1 Hem1 Hif1 Hss1 Hsc1].
  apply wp_bind. eapply wp_upd_ln; [done|]. apply wp_bind.
  eapply wp_upd_ln; [simpl; apply lookup_insert_eq|]. simpl. rewrite insert_insert_eq.
  unfold emit. do 6 wp_step.
  match goal with |- wp _ _ ?w2 => set (w2' := w2) end.
  assert (Hi2 : inv w2').
  { unfold w2'. do 3 apply inv_emit. by eapply inv_set_ln. }
  apply wp_bind. eapply wp_mono; [apply (call_node_handlers name init_node w2' Hi2)|].
  { simpl. rewrite lookup_insert_eq. eauto. } { intros h f. apply nh_init. }
  intros [] w3 H3. assert (He3 := hd_env _ _ H3).
  eapply wp_mono; [apply run_update_script_spec|]. intros [] w4 (acts & ->). split; simpl.
  - apply inv_emit, He3.
  - by rewrite (env_config _ _ He3).
  - by rewrite (env_local _ _ He3).
  - eapply env_ln; [exact He3| |done]. simpl. rewrite lookup_insert_eq. eauto.
  - change (t_si (abs w3) = t_si (abs w)). by rewrite (hd_si _ _ H3).
  - intros Hne b. change (t_sta (abs w3) !! b ≠ Some []). rewrite (hd_sta _ _ H3). by apply Hem1.
  - by rewrite (env_ifaces _ _ He3).
  - by rewrite (env_ssids _ _ He3).
  - by rewrite (env_script _ _ He3).
Qed.

(** ** Events *)

(** The address, frequency and signal of an event; [None] when it is refused as
    an invalid argument. *)
Definition parse_event (msg : list (string * bval)) : option (mac * Z * Z) :=
  let tb := blobmsg_parse event_policy msg in
  match attr tb EVENT_ADDR, attr tb EVENT_FREQ with
  | Some (VString str), Some (VU32 fr) =>
      a ← ether_aton str;
      Some (a, s32 fr, match attr tb EVENT_SIGNAL with Some (VU32 x) => s32 x | _ => NO_SIGNAL end)
  | _, _ => None
  end.

(** The signal of an event, if any, is in range. *)
Definition event_signal_ok (msg : list (string * bval)) : Prop :=
  forall a fr sig, parse_event msg = Some (a, fr, sig) -> signal_ok sig.

Lemma usteer_handle_event_spec s method msg x w :
  inv w -> node_heap w !! NLocal s = Some x -> 0 < s32 (local_sta_timeout (config w)) -> event_signal_ok msg ->
  event_of_method method ≠ EVENT_TYPE_BEACON -> event_of_method method ≠ __EVENT_TYPE_MAX ->
  wp (usteer_handle_event s method msg) (fun status w' =>
    match parse_event msg with
    | None => status = UBUS_STATUS_INVALID_ARGUMENT /\ w' = time_updated w
    | Some (a, fr, sig) => exists r p create si st w1 w2,
        event_handled s x a (event_of_method method) sig (time_updated w) r w' p create si st w1 w2 /\
        status = if r then 0 else WLAN_STATUS_AP_UNABLE_TO_HANDLE_NEW_STA
    end) w.
Proof.
  intros Hi Hx Ht Hsg Hb Hm. unfold event_signal_ok in Hsg. unfold usteer_handle_event. unfold parse_event in *.
  apply wp_bind, wp_modify. fold (time_updated w). rewrite bool_decide_false by done.
  set (tb := blobmsg_parse event_policy msg) in *.
  destruct (attr tb EVENT_ADDR) as [va|] eqn:Ea; [|by apply wp_ret].
  destruct (attr tb EVENT_FREQ) as [vf|] eqn:Ef; [|destruct va; by apply wp_ret].
  assert (Hva : type_of_bval va = BLOBMSG_TYPE_STRING) by (eapply attr_type; [|exact Ea]; done).
  assert (Hvf : type_of_bval vf = BLOBMSG_TYPE_INT32) by (eapply attr_type; [|exact Ef]; done).
  destruct va as [| | | |str| |]; try done. destruct vf as [| |fr| | | |]; try done.
  apply wp_bind. eapply wp_mono with (P := fun sig w1 => w1 = time_updated w /\
    sig = match attr tb EVENT_SIGNAL with Some (VU32 x) => s32 x | _ => NO_SIGNAL end).
  { destruct (attr tb EVENT_SIGNAL) as [vs|] eqn:Es; [|by apply wp_ret].
    assert (Hvs : type_of_bval vs = BLOBMSG_TYPE_INT32) by (eapply attr_type; [|exact Es]; done).
    destruct vs; try done. }
  intros sig w1 [-> ->]. apply wp_bind. eapply wp_deref; [done|].
  apply wp_bind. eapply wp_deref; [done|].
  destruct (ether_aton str) as [a|]; simpl in Hsg |- *; [|by apply wp_ret].
  apply wp_bind. eapply wp_mono.
  { eapply (usteer_handle_sta_event_spec s x a _ (s32 fr) _ (time_updated w)); [by apply inv_time|done|done|done|exact (Hsg _ _ _ eq_refl)]. }
  intros r w2 (p & create & si & st & wa & wb & Hev). apply wp_ret.
  by exists r, p, create, si, st, wa, wb.
Qed.

Lemma event_handled_inv s x a type sig w r w' p create si st w1 w2 :
  event_handled s x a type sig w r w' p create si st w1 w2 ->
  inv w' /\ frame w w' /\ (no_empty_sta (abs w) -> no_empty_sta (abs w')).
Proof.
  intros []. destruct create.
  - destruct eh_sent as (x2 & si2 & _ & _ & ->). split; [apply inv_updated, eh_done|].
    split; [etrans; [apply eh_done|apply frame_updated]|]. apply eh_done.
  - subst. split; [apply eh_done|]. split; apply eh_done.
Qed.

(** ** Answers to the requests *)

Lemma usteer_local_node_list_cb_spec s msg x w :
  inv w -> node_heap w !! NLocal s = Some x -> 0 < s32 (local_sta_timeout (config w)) ->
  let tb := blobmsg_parse [("freq", BLOBMSG_TYPE_INT32); ("clients", BLOBMSG_TYPE_TABLE)]%string msg in
  (forall l, attr tb 1 = Some (VTable l) -> NoDup (client_addrs l)) ->
  wp (usteer_local_node_list_cb s msg) (fun _ w' =>
    match attr tb 0, attr tb 1 with
    | Some (VU32 fr), Some (VTable cl) =>
        assoc_set s cl (w <| node_heap ::= <[NLocal s := x <| freq := s32 fr |>]> |>) w'
    | _, _ => w' = w
    end) w.
Proof.
  intros Hi Hx Ht tb Hnd. unfold usteer_local_node_list_cb. fold tb.
  destruct (attr tb 0) as [vf|] eqn:Ef; [|by apply wp_ret].
  destruct (attr tb 1) as [vc|] eqn:Ec; [|destruct vf; by apply wp_ret].
  assert (Hvf : type_of_bval vf = BLOBMSG_TYPE_INT32) by (eapply attr_type; [|exact Ef]; done).
  assert (Hvc : type_of_bval vc = BLOBMSG_TYPE_TABLE) by (eapply attr_type; [|exact Ec]; done).
  destruct vf as [| |fr| | | |]; try done. destruct vc as [| | | | | |cl]; try done.
  apply wp_bind. eapply wp_deref; [done|]. apply wp_bind. eapply wp_upd_node; [done|].
  eapply usteer_local_node_set_assoc_spec; [by eapply inv_set_node| |done|by apply Hnd].
  simpl. apply lookup_insert_eq.
Qed.
(** ** The own neighbor report *)

(** The strings at the head of a node's own neighbor report: its BSSID and SSID. *)
Definition report_string (l : list bval) (i : nat) : option string :=
  match l !! i with Some (VString t) => Some t | _ => None end.

Lemma attr_report_string l i : (i < 3)%nat ->
  match attr (blobmsg_parse_array (replicate 3 BLOBMSG_TYPE_STRING) l) i with
  | Some v => exists t, v = VString t /\ report_string l i = Some t
  | None => report_string l i = None
  end.
Proof.
  intros Hi. unfold attr, report_string.
  rewrite (parse_array_spec _ l i BLOBMSG_TYPE_STRING) by (by apply lookup_replicate_2). simpl.
  destruct (l !! i) as [v|]; simpl; [|done]. case_decide as Hd; [|by destruct v].
  destruct v; try done. by eexists.
Qed.

(** What a node learns from its own neighbor report. *)
Definition report_learned (l : list bval) (b : option mac) (x : usteer_node) : usteer_node :=
  let x := x <| rrm_nr := Some l |> in
  match b with Some b => x <| bssid := b |> | None => x end.

Lemma usteer_local_node_rrm_nr_cb_spec s msg x w :
  inv w -> node_heap w !! NLocal s = Some x ->
  match attr (blobmsg_parse [("value", BLOBMSG_TYPE_ARRAY)]%string msg) 0 with
  | Some v =>
      let l := array_data v in
      let w1 b := w <| node_heap ::= <[NLocal s := report_learned l b x]> |> in
      match ether_aton <$> report_string l 0 with
      | Some None => usteer_local_node_rrm_nr_cb s msg w = Fault NullDeref
      | r => wp (usteer_local_node_rrm_nr_cb s msg) (fun _ w' =>
          match report_string l 1 with
          | Some t => (serves (config_ssid_list w) t /\ w' = w1 (mjoin r)) \/
                      (~ serves (config_ssid_list w) t /\ node_freed s (w1 (mjoin r)) w')
          | None => w' = w1 (mjoin r)
          end) w
      end
  | None => usteer_local_node_rrm_nr_cb s msg w = Ok (tt, w)
  end.
Proof.
  intros Hi Hx. unfold usteer_local_node_rrm_nr_cb.
  destruct (attr _ 0) as [v|]; [|done]. cbv zeta. set (l := array_data v).
  assert (H0 := attr_report_string l 0 ltac:(lia)). assert (H1 := attr_report_string l 1 ltac:(lia)).
  set (ba := blobmsg_parse_array _ _) in *.
  assert (Htail : forall b, wp (match attr ba 1 with
      | None => mret tt
      | Some _ => ssid_ ← blobmsg_get_string (attr ba 1);
                  valid ← usteer_is_valid_ssid ssid_; when (negb valid) (usteer_free_node s)
      end) (fun _ w' => match report_string l 1 with
        | Some t => (serves (config_ssid_list w) t /\ w' = w <| node_heap ::= <[NLocal s := report_learned l b x]> |>) \/
            (~ serves (config_ssid_list w) t /\ node_freed s (w <| node_heap ::= <[NLocal s := report_learned l b x]> |>) w')
        | None => w' = w <| node_heap ::= <[NLocal s := report_learned l b x]> |>
        end) (w <| node_heap ::= <[NLocal s := report_learned l b x]> |>)).
  { intros b. destruct (attr ba 1) as [v1|]; [|rewrite H1; by apply wp_ret].
    destruct H1 as (t & -> & ->). apply wp_bind. eapply wp_deref; [done|].
    apply wp_bind. eapply wp_mono; [apply usteer_is_valid_ssid_spec|]. intros valid w2 [-> Hv].
    apply wp_when; intros Hb.
    - eapply wp_mono; [eapply usteer_free_node_spec; [|apply lookup_insert_eq]|].
      + eapply inv_set_node; [done..|]. by destruct b.
      + intros [] w2 Hf. right. split; [|done]. rewrite <- Hv. by destruct valid.
    - left. split; [|done]. apply Hv. by destruct valid. }
  destruct (attr ba 0) as [v0|].
  - destruct H0 as (t & -> & ->). simpl. destruct (ether_aton t) as [b|] eqn:Ea.
    + apply wp_bind. eapply wp_upd_node; [done|]. apply wp_bind.
      apply wp_bind. eapply wp_deref; [done|]. apply wp_bind. eapply wp_deref; [done|].
      eapply wp_upd_node; [simpl; apply lookup_insert_eq|]. simpl.
      specialize (Htail (Some b)). unfold set_field in *. simpl in *. by rewrite insert_insert_eq.
    + apply fault_bind. eapply wp_upd_node; [done|]. unfold mbind, M_bind, deref, blobmsg_get_string. simpl.
      by rewrite Ea.
  - rewrite H0. simpl. apply wp_bind. eapply wp_upd_node; [done|]. apply wp_bind, wp_ret. apply (Htail None).
Qed.
End local_node_spec.
