(* ===== verification/Netifd.v ===== *)
(** * The node handler for netifd (netifd.c)

    The limit on the number of clients that the administrator set for an access
    point, from the status of [network.wireless]. *)
From S2P Require Import Prelude Blob Timeout Types Table World Beacon Sta UbusClient.
From S2P Require Import Policy RemoteMsg StaEvent Roam BeaconRequest LocalNode.

(** [ubus_lookup_id]: the object of that path, when there is one now. *)
Class UbusLookup (T : Type) := ubus_lookup_id : world T -> string -> option Z.

(** The elements of a table or an array. *)
Definition table_data (v : bval) : list (string * bval) :=
  match v with VTable l => l | _ => [] end.
Definition elements (v : bval) : list bval :=
  match v with VArray l => l | _ => [] end.

Section netifd.
Context {BM : Blobmsg} {T : Type} `{!AvlTree Z ptr T} {UL : UbusLookup T}.

Definition netifd_parse_interface_config (s : string) (msg : bval) : M (world T) unit :=
  let cur := attr (blobmsg_parse [("maxassoc", BLOBMSG_TYPE_INT32)]%string (table_data msg)) 0 in
  val ← match cur with
        | Some _ => v ← blobmsg_get_u32 cur; mret (s32 v)
        | None => mret 0
        end;
  upd_node (NLocal s) (fun x => x <| max_assoc := val |>) ;;
  upd_ln s (fun ln => ln <| netifd_status_complete := true |>).

Definition netifd_parse_interface (s : string) (msg : bval) : M (world T) unit :=
  if negb (bool_decide (type_of_bval msg = BLOBMSG_TYPE_TABLE)) then mret tt
  else
    let tb := blobmsg_parse [("config", BLOBMSG_TYPE_TABLE); ("ifname", BLOBMSG_TYPE_STRING)]%string
      (table_data msg) in
    match attr tb 0, attr tb 1 with
    | Some config, Some _ =>
        name ← blobmsg_get_string (attr tb 1);
        if negb (String.eqb name (iface_name s)) then mret tt
        else netifd_parse_interface_config s config
    | _, _ => mret tt
    end.

Definition netifd_parse_radio (s : string) (msg : bval) : M (world T) unit :=
  if negb (bool_decide (type_of_bval msg = BLOBMSG_TYPE_TABLE)) then mret tt
  else
    match attr (blobmsg_parse [("interfaces", BLOBMSG_TYPE_ARRAY)]%string (table_data msg)) 0 with
    | None => mret tt
    | Some iface => for_each (netifd_parse_interface s) (elements iface)
    end.

Definition netifd_status_cb (s : string) (msg : list (string * bval)) : M (world T) unit :=
  upd_ln s (fun ln => ln <| netifd_req_pending := false |>) ;;
  for_each (fun cur => netifd_parse_radio s cur.2) msg.

(** [ubus_abort_request] only concerns the pending request. *)
Definition netifd_update_node (node : node_id) : M (world T) unit :=
  s ← local_name node;
  ln ← get_ln s;
  if netifd_status_complete ln then mret tt
  else
    id ← gets (fun w => ubus_lookup_id w "network.wireless");
    match id with
    | None => mret tt
    | Some id =>
        emit (UbusInvoke id "status" []) ;;
        upd_ln s (fun ln => ln <| netifd_req_pending := true |>)
    end.

Definition netifd_init_node (node : node_id) : M (world T) unit :=
  s ← local_name node;
  upd_ln s (fun ln => ln <| netifd_status_complete := false |>) ;;
  netifd_update_node node.

(** All it does is abort the pending request. *)
Definition netifd_free_node (node : node_id) : M (world T) unit :=
  s ← local_name node;
  get_ln s ;;
  mret tt.

Definition netifd_handler : usteer_node_handler T := {|
  init_node := Some netifd_init_node;
  free_node := Some netifd_free_node;
  update_node := Some netifd_update_node;
  update_sta := None;
|}.
End netifd.

(** ** Specifications *)

Lemma alter_insert_Some {K V} `{Countable K} (f : V -> V) k x (m : gmap K V) :
  m !! k = Some x -> alter f k m = <[k := f x]> m.
Proof.
  intros Hx. apply map_eq. intros j. rewrite lookup_alter, lookup_insert. case_decide; [subst; by rewrite Hx|done].
Qed.

(** The limit an interface entry of the status sets for the interface [iface]. *)
Section status.
Context {BM : Blobmsg} {BML : BlobmsgLaws}.

Definition entry_limit (iface : string) (msg : bval) : option Z :=
  match msg with
  | VTable l =>
      let tb := blobmsg_parse [("config", BLOBMSG_TYPE_TABLE); ("ifname", BLOBMSG_TYPE_STRING)]%string l in
      match attr tb 0, attr tb 1 with
      | Some config, Some (VString name) =>
          if String.eqb name iface then
            Some (match attr (blobmsg_parse [("maxassoc", BLOBMSG_TYPE_INT32)]%string (table_data config)) 0 with
                  | Some (VU32 v) => s32 v
                  | _ => 0
                  end)
          else None
      | _, _ => None
      end
  | _ => None
  end.
Definition radio_limits (iface : string) (msg : bval) : list Z :=
  match msg with
  | VTable l =>
      match attr (blobmsg_parse [("interfaces", BLOBMSG_TYPE_ARRAY)]%string l) 0 with
      | Some v => omap (entry_limit iface) (elements v)
      | None => []
      end
  | _ => []
  end.
(** All of them, in the order of the status. *)
Definition status_limits (iface : string) (msg : list (string * bval)) : list Z :=
  msg ≫= fun cur => radio_limits iface cur.2.

Context {T : Type} `{!AvlTree Z ptr T} `{!AvlLaws Z ptr T} {UL : UbusLookup T}.
Implicit Types (w : world T) (s : string).

(** The last of the limits [l] holds. *)
Definition limited s (l : list Z) w : world T :=
  match list.last l with
  | Some v => w <| node_heap ::= alter (fun x => x <| max_assoc := v |>) (NLocal s) |>
                <| ln_heap ::= alter (fun ln => ln <| netifd_status_complete := true |>) s |>
  | None => w
  end.

Lemma upd_node_alter n f w :
  is_Some (node_heap w !! n) -> wp (upd_node n f) (fun _ w' => w' = w <| node_heap ::= alter f n |>) w.
Proof.
  intros [x Hx]. eapply wp_upd_node; [done|]. unfold set_field. simpl. f_equal.
  apply map_eq. intros m. rewrite lookup_insert, lookup_alter. case_decide; [subst; by rewrite Hx|done].
Qed.
Lemma upd_ln_alter s f w :
  is_Some (ln_heap w !! s) -> wp (upd_ln s f) (fun _ w' => w' = w <| ln_heap ::= alter f s |>) w.
Proof.
  intros [x Hx]. eapply wp_upd_ln; [done|]. unfold set_field. simpl. f_equal.
  apply map_eq. intros m. rewrite lookup_insert, lookup_alter. case_decide; [subst; by rewrite Hx|done].
Qed.
Lemma alter_twice {K V} `{Countable K} (f g : V -> V) (k : K) (m : gmap K V) :
  (forall v, g (f v) = g v) -> alter g k (alter f k m) = alter g k m.
Proof.
  intros Hfg. apply map_eq. intros j. rewrite !lookup_alter. repeat case_decide; try done.
  destruct (m !! k) as [v|]; [|done]. change (Some (g (f v)) = Some (g v)). by rewrite Hfg.
Qed.

(** The node and its local part are there. *)
Definition node_there s w : Prop := is_Some (node_heap w !! NLocal s) /\ is_Some (ln_heap w !! s).

Lemma limited_there s l w : node_there s w -> node_there s (limited s l w).
Proof.
  unfold node_there, limited. destruct (list.last l); [|done]. simpl.
  rewrite !lookup_alter, !decide_True by done. by rewrite !fmap_is_Some.
Qed.
Lemma limited_snoc s l v w : limited s [v] (limited s l w) = limited s (l ++ [v]) w.
Proof.
  unfold limited. rewrite last_snoc. simpl. destruct (list.last l); [|done].
  unfold set_field. simpl. f_equal; apply alter_twice; by intros [].
Qed.
Lemma limited_app s l1 l2 w : limited s l2 (limited s l1 w) = limited s (l1 ++ l2) w.
Proof.
  revert l1. induction l2 as [|v l2 IH] using rev_ind; intros l1; [by rewrite app_nil_r|].
  by rewrite <- limited_snoc, IH, app_assoc, <- limited_snoc.
Qed.

Lemma netifd_parse_interface_spec s msg w :
  node_there s w ->
  wp (netifd_parse_interface s msg) (fun _ w' =>
    w' = limited s (option_list (entry_limit (iface_name s) msg)) w) w.
Proof.
  intros [Hn Hl]. unfold netifd_parse_interface, entry_limit. case_bool_decide as Ht; cbn [negb].
  2:{ apply wp_ret. by destruct msg. }
  destruct msg as [| | | | | |l]; try done. cbn [table_data].
  destruct (attr _ 0) as [config|]; [|by apply wp_ret].
  destruct (attr _ 1) as [v|] eqn:Ev; [|by apply wp_ret].
  assert (Hv : type_of_bval v = BLOBMSG_TYPE_STRING) by (eapply attr_type; [|exact Ev]; done).
  destruct v as [| | | |name| |]; try done. apply wp_bind. eapply wp_deref; [done|].
  destruct (String.eqb name (iface_name s)); cbn [negb]; [|by apply wp_ret].
  unfold netifd_parse_interface_config. set (cur := attr _ 0).
  assert (Hc : match cur with Some v => type_of_bval v = BLOBMSG_TYPE_INT32 | None => True end).
  { destruct cur as [v|] eqn:Ec; [|done]. eapply attr_type; [|exact Ec]. done. }
  apply wp_bind. eapply wp_mono with (P := fun val w1 => w1 = w /\
    val = match cur with Some (VU32 v) => s32 v | _ => 0 end).
  { destruct cur as [v|]; [|by apply wp_ret]. by destruct v. }
  intros val w1 [-> ->]. apply wp_bind. eapply wp_mono; [by apply upd_node_alter|]. intros [] w1 ->.
  eapply wp_mono; [by apply upd_ln_alter|]. intros [] w2 ->. unfold limited. simpl. done.
Qed.

Lemma netifd_parse_radio_spec s msg w :
  node_there s w ->
  wp (netifd_parse_radio s msg) (fun _ w' => w' = limited s (radio_limits (iface_name s) msg) w) w.
Proof.
  intros Hs. unfold netifd_parse_radio, radio_limits. case_bool_decide as Ht; cbn [negb].
  2:{ apply wp_ret. by destruct msg. }
  destruct msg as [| | | | | |l]; try done. cbn [table_data].
  destruct (attr _ 0) as [v|]; [|by apply wp_ret].
  apply (wp_for_each (fun don _ w' => w' = limited s (omap (entry_limit (iface_name s)) don) w)); [done| |done].
  intros don cur rest w1 _ ->. eapply wp_mono; [apply netifd_parse_interface_spec, limited_there, Hs|].
  intros [] w2 ->. rewrite limited_app, omap_app. simpl. by destruct (entry_limit _ _).
Qed.

Lemma netifd_status_cb_spec s msg w :
  node_there s w ->
  wp (netifd_status_cb s msg) (fun _ w' =>
    w' = limited s (status_limits (iface_name s) msg)
           (w <| ln_heap ::= alter (fun ln => ln <| netifd_req_pending := false |>) s |>)) w.
Proof.
  intros [Hn Hl]. unfold netifd_status_cb. apply wp_bind. eapply wp_mono; [by apply upd_ln_alter|].
  intros [] w1 ->. set (w1 := w <| ln_heap ::= _ |>).
  assert (H1 : node_there s w1).
  { split; [done|]. unfold w1. simpl. rewrite lookup_alter, decide_True by done. by apply fmap_is_Some. }
  apply (wp_for_each (fun don _ w' => w' = limited s (status_limits (iface_name s) don) w1)); [done| |done].
  intros don cur rest w2 _ ->. eapply wp_mono; [apply netifd_parse_radio_spec, limited_there, H1|].
  intros [] w3 ->. rewrite limited_app. unfold status_limits. rewrite bind_app. simpl. by rewrite app_nil_r.
Qed.

(** ** The contract of node handlers *)

Lemma handled_set_ln s ln ln' w : inv w -> ln_heap w !! s = Some ln -> handled w (w <| ln_heap ::= <[s := ln']> |>).
Proof. intros Hi Hl. split; try done. by eapply env_set_ln. Qed.
Lemma handled_emit a w : inv w -> handled w (w <| out ::= fun l => l ++ [a] |>).
Proof. intros Hi. split; try done. split; try done. by apply inv_emit. Qed.

(** The answer at a node that is there: the limit and the flags. *)
Definition status_taken s (x : usteer_node) (ln : usteer_local_node) (l : list Z) w : world T :=
  let ln1 := ln <| netifd_req_pending := false |> in
  match list.last l with
  | Some v => w <| ln_heap ::= <[s := ln1 <| netifd_status_complete := true |>]> |>
                <| node_heap ::= <[NLocal s := x <| max_assoc := v |>]> |>
  | None => w <| ln_heap ::= <[s := ln1]> |>
  end.

Lemma netifd_status_taken s x ln msg w :
  node_heap w !! NLocal s = Some x -> ln_heap w !! s = Some ln ->
  wp (netifd_status_cb s msg) (fun _ w' => w' = status_taken s x ln (status_limits (iface_name s) msg) w) w.
Proof.
  intros Hx Hl. eapply wp_mono; [apply netifd_status_cb_spec; split; eauto|]. intros [] w' ->. unfold status_taken.
  assert (Ha : forall (f : usteer_local_node -> usteer_local_node), alter f s (ln_heap w) = <[s := f ln]> (ln_heap w)).
  { intros f. by apply alter_insert_Some. }
  unfold limited. destruct (list.last _) as [v|]; unfold set_field; simpl; rewrite Ha; [|done].
  f_equal.
  - exact (alter_insert_Some (fun x => x <| max_assoc := v |>) _ x _ Hx).
  - apply map_eq. intros j. rewrite lookup_alter, !lookup_insert. by repeat case_decide.
Qed.

Lemma status_taken_handled s x ln l w :
  inv w -> node_heap w !! NLocal s = Some x -> ln_heap w !! s = Some ln -> handled w (status_taken s x ln l w).
Proof.
  intros Hi Hx Hl. unfold status_taken. destruct (list.last l) as [v|]; [|by eapply handled_set_ln].
  set (w1 := w <| ln_heap ::= _ |>). assert (H1 : handled w w1) by by eapply handled_set_ln.
  eapply handled_trans; [exact H1|].
  assert (Ha : abs (w1 <| node_heap ::= <[NLocal s := x <| max_assoc := v |>]> |>) = abs w1) by (by eapply abs_set_node).
  split; try (by rewrite Ha); [|done]. split; try done. eapply inv_set_node; [apply H1|done|done].
Qed.

Lemma netifd_update_ok : node_handler_ok netifd_update_node.
Proof.
  intros s w Hi [ln Hl]. unfold netifd_update_node. apply wp_bind. eapply wp_deref; [done|].
  apply wp_bind. eapply wp_get_ln; [done|]. destruct (netifd_status_complete ln).
  { apply wp_ret. by apply handled_refl. }
  do 2 wp_step. destruct (ubus_lookup_id _ _) as [id|].
  - apply wp_bind, wp_modify. eapply wp_upd_ln; [done|].
    eapply handled_trans; [by apply handled_emit|]. eapply handled_set_ln; [by apply inv_emit|done].
  - apply wp_ret. by apply handled_refl.
Qed.
Lemma netifd_init_ok : node_handler_ok netifd_init_node.
Proof.
  intros s w Hi [ln Hl]. unfold netifd_init_node. apply wp_bind. eapply wp_deref; [done|].
  apply wp_bind. eapply wp_upd_ln; [done|].
  assert (H1 : handled w (w <| ln_heap ::= <[s := ln <| netifd_status_complete := false |>]> |>))
    by by eapply handled_set_ln.
  eapply wp_mono; [apply netifd_update_ok; [apply H1|]|].
  - simpl. rewrite lookup_insert_eq. eauto.
  - intros [] w' H'. by eapply handled_trans.
Qed.
Lemma netifd_free_ok : node_handler_ok netifd_free_node.
Proof.
  intros s w Hi [ln Hl]. unfold netifd_free_node. apply wp_bind. eapply wp_deref; [done|].
  apply wp_bind. eapply wp_get_ln; [done|]. apply wp_ret. by apply handled_refl.
Qed.
End status.
