(* ===== verification/Nl80211.v ===== *)
(** * The node handler for the wireless driver (nl80211.c)

    The survey from which the load of a channel is derived, the signal of a
    station, and the results of scans. netlink (libnl, libunl) and the driver
    behind it are parameters: [Nl80211] is what they answer to a request, given as
    the attributes that [nla_parse] finds in it. *)
From Stdlib Require Import Floats.SpecFloat.
From S2P Require Import Prelude CFloat Blob Timeout Types Table World Beacon Sta UbusClient.
From S2P Require Import Policy RemoteMsg StaEvent Roam BeaconRequest LocalNode Netifd.

(** ** Messages of the driver *)

(** The survey attributes of a message. *)
Record survey_attrs := mkSurveyAttrs {
  sv_frequency : option Z;         (** [NL80211_SURVEY_INFO_FREQUENCY], u32 *)
  sv_noise : option Z;             (** [.._NOISE], u8 *)
  sv_channel_time : option Z;      (** [.._CHANNEL_TIME], u64 *)
  sv_channel_time_busy : option Z; (** [.._CHANNEL_TIME_BUSY], u64 *)
}.

(** [struct usteer_survey_data] *)
Record usteer_survey_data := mkSurvey {
  sd_freq : Z;  (** [uint16_t] *)
  sd_noise : Z;  (** [int8_t] *)
  sd_time : Z;
  sd_time_busy : Z;
}.

(** [nl80211_survey_result] up to the callback; [None] is a message without
    [NL80211_ATTR_SURVEY_INFO] or one that does not parse. *)
Definition nl80211_survey_result (msg : option survey_attrs) : option usteer_survey_data :=
  tb_s ← msg;
  freq ← sv_frequency tb_s;
  let noise := match sv_noise tb_s with Some n => s8 (u8 n) | None => 0 end in
  let '(time, busy) :=
    match sv_channel_time tb_s, sv_channel_time_busy tb_s with
    | Some t, Some b => (u64 t, u64 b)
    | _, _ => (0, 0)
    end in
  Some (mkSurvey (u16 (u32 freq)) noise time busy).

(** The interface attributes of a message: the radio and the SSID as bytes. *)
Record interface_attrs := mkInterfaceAttrs {
  ia_wiphy : option Z;
  ia_ssid : option string;
}.

(** What the driver answers, in the state of the daemon in which it is asked. *)
Class Nl80211 (T : Type) := {
  nl_genl_init : world T -> bool;  (** whether [unl_genl_init] succeeds *)
  nl_get_survey : world T -> Z -> list (option survey_attrs);
  nl_get_interface : world T -> Z -> option interface_attrs;
  (** [None] when there is no usable answer, otherwise [NL80211_STA_INFO_SIGNAL_AVG] *)
  nl_get_station : world T -> Z -> mac -> option (option Z);
}.

(** A C string: the characters before the first NUL. *)
Fixpoint c_string (s : string) : string :=
  match s with
  | EmptyString => EmptyString
  | String c s' => if bool_decide (c = Ascii.zero) then EmptyString else String c (c_string s')
  end.

(** ** Floating point

    [0.85 * x + 0.15 * y] on [double]s, converted back to [float]. *)
Definition f64_prec : Z := 53.
Definition f64_emax : Z := 1024.
Definition double_of_ratio (n d : Z) : spec_float :=
  SFdiv f64_prec f64_emax (binary_normalize f64_prec f64_emax n 0 false) (binary_normalize f64_prec f64_emax d 0 false).
Definition d_0_85 : spec_float := double_of_ratio 85 100.
Definition d_0_15 : spec_float := double_of_ratio 15 100.
Definition float_of_double (x : spec_float) : CFloat.float :=
  match x with
  | S754_finite s m e => binary_round f32_prec f32_emax s m e
  | x => x
  end.
Definition ewma (x y : CFloat.float) : CFloat.float :=
  float_of_double (SFadd f64_prec f64_emax (SFmul f64_prec f64_emax d_0_85 x) (SFmul f64_prec f64_emax d_0_15 y)).

(** ** The handler *)
Section nl80211.
Context {ET : Ether} {T : Type} `{!AvlTree Z ptr T} {NL : Nl80211 T} (if_nametoindex : string -> Z).

Definition nl80211_get_survey (s : string) (cb : usteer_survey_data -> M (world T) unit) : M (world T) unit :=
  ln ← get_ln s;
  if negb (nl80211_present ln) then mret tt
  else
    msgs ← gets (fun w => nl_get_survey w (ifindex ln));
    for_each (fun msg =>
      match nl80211_survey_result msg with
      | Some data => cb data
      | None => mret tt
      end) msgs.

Definition nl80211_update_node_result (s : string) (d : usteer_survey_data) : M (world T) unit :=
  ln ← get_ln s;
  node ← get_node (NLocal s);
  if negb (sd_freq d =? freq node) then mret tt
  else
    when (negb (sd_noise d =? 0)) (upd_node (NLocal s) (fun x => x <| noise := sd_noise d |>)) ;;
    let '(delta, delta_busy) :=
      if negb (ln_time ln =? 0)
      then (u32 (u64 (sd_time d - ln_time ln)), u32 (u64 (sd_time_busy d - ln_time_busy ln)))
      else (0, 0) in
    upd_ln s (fun ln => ln <| ln_time := sd_time d |> <| ln_time_busy := sd_time_busy d |>) ;;
    if negb (delta =? 0) then
      let cur := float_of_Z (u32 (100 * delta_busy) / delta) in
      ln ← get_ln s;
      let load' := if flt (load_ewma ln) (float_of_Z 0) then cur else ewma (load_ewma ln) cur in
      upd_ln s (fun ln => ln <| load_ewma := load' |>) ;;
      upd_node (NLocal s) (fun x => x <| load := Z_of_float load' |>)
    else mret tt.

Definition nl80211_update_node (s : string) : M (world T) unit :=
  due ← due_in 1000;
  upd_ln s (fun ln => ln <| survey_timer := Some due |>) ;;
  upd_ln s (fun ln => ln <| ifindex := if_nametoindex (iface_name s) |>) ;;
  nl80211_get_survey s (nl80211_update_node_result s).

Definition nl80211_init_node (node : node_id) : M (world T) unit :=
  match node with
  | NRemote _ _ => mret tt
  | NLocal s =>
      upd_ln s (fun ln => ln <| nl80211_present := false |> <| wiphy := -1 |>) ;;
      ln ← get_ln s;
      if ifindex ln =? 0 then mret tt
      else
        ok ← gets nl_genl_init;
        if negb ok then mret tt
        else
          msg ← gets (fun w => nl_get_interface w (ifindex ln));
          match msg with
          | None => mret tt
          | Some tb =>
              match ia_wiphy tb with
              | None => mret tt
              | Some wi =>
                  upd_ln s (fun ln => ln <| wiphy := s32 (u32 wi) |>) ;;
                  match ia_ssid tb with
                  | Some str =>
                      upd_node node (fun x => x <| ssid := c_string (String.substring 0 32 str) |>)
                  | None => mret tt
                  end ;;
                  upd_ln s (fun ln => ln <| load_ewma := float_of_Z (-1) |> <| nl80211_present := true |>) ;;
                  nl80211_update_node s
              end
          end
  end.

Definition nl80211_free_node (node : node_id) : M (world T) unit :=
  s ← local_name node;
  ln ← get_ln s;
  if negb (nl80211_present ln) then mret tt
  else upd_ln s (fun ln => ln <| survey_timer := None |>).

Definition nl80211_update_sta (node : node_id) (si : ptr) : M (world T) unit :=
  s ← local_name node;
  ln ← get_ln s;
  if negb (nl80211_present ln) then mret tt
  else
    x ← get_si si;
    get_sta (si_sta x) ;;
    msg ← gets (fun w => nl_get_station w (ifindex ln) (si_sta x));
    match msg with
    | None => mret tt
    | Some sig =>
        let signal := match sig with Some v => s8 (u8 v) | None => NO_SIGNAL end in
        usteer_sta_info_update si signal true
    end.

Definition nl80211_handler : usteer_node_handler T := {|
  init_node := Some nl80211_init_node;
  free_node := Some nl80211_free_node;
  update_node := None;
  update_sta := Some nl80211_update_sta;
|}.
End nl80211.

(** ** The contract of node handlers *)
Section contract.
Context {ET : Ether} {BM : Blobmsg} {T : Type} `{!AvlTree Z ptr T} `{!AvlLaws Z ptr T} {NL : Nl80211 T}.
Context (if_nametoindex : string -> Z).
Implicit Types (w : world T) (s : string) (ln : usteer_local_node) (x : usteer_node).

Lemma node_there_handled s w w' : inv w -> handled w w' -> node_there s w -> node_there s w'.
Proof.
  intros Hi Hh [Hn Hl]. split; [by eapply env_node; [apply Hh|..]|by eapply env_ln; [apply Hh|..]].
Qed.

(** Steps that stay within the contract. *)
Lemma wp_handled_ln s f w w0 (Q : unit -> world T -> Prop) :
  inv w -> handled w w0 -> node_there s w ->
  (forall w1, handled w w1 -> Q tt w1) -> wp (upd_ln s f) Q w0.
Proof.
  intros Hi Hh Hs HQ. destruct (node_there_handled s w w0 Hi Hh Hs) as [_ [ln Hl]].
  eapply wp_upd_ln; [done|]. apply HQ. eapply handled_trans; [exact Hh|]. eapply handled_set_ln; [apply Hh|done].
Qed.
Lemma wp_handled_node s f w w0 (Q : unit -> world T -> Prop) :
  (forall x, node_sta_info (f x) = node_sta_info x) ->
  inv w -> handled w w0 -> node_there s w ->
  (forall w1, handled w w1 -> Q tt w1) -> wp (upd_node (NLocal s) f) Q w0.
Proof.
  intros Hf Hi Hh Hs HQ. destruct (node_there_handled s w w0 Hi Hh Hs) as [[x Hx] _].
  eapply wp_upd_node; [done|]. apply HQ. eapply handled_trans; [exact Hh|].
  assert (Ha : abs (w0 <| node_heap ::= <[NLocal s := f x]> |>) = abs w0) by (by eapply abs_set_node).
  split; try (by rewrite Ha); [|done].
  split; try done. eapply inv_set_node; [apply Hh|done|done].
Qed.

(** The state is [w0] now, at a distance within the contract from [w]. *)
Ltac handled_step :=
  match goal with
  | |- wp (upd_ln _ _) _ _ => eapply wp_handled_ln; [done|done|done|]; intros ? ?
  | |- wp (upd_node _ _) _ _ => eapply wp_handled_node; [done|done|done|done|]; intros ? ?
  | |- wp (mret _) _ _ => apply wp_ret; done
  | |- wp (_ ≫= _) _ _ => apply wp_bind
  end.

Ltac wp_if := match goal with |- wp (if ?c then _ else _) _ _ => destruct c end.

Lemma update_node_result_ok s d w w0 :
  inv w -> node_there s w -> handled w w0 ->
  wp (nl80211_update_node_result s d) (fun _ w' => handled w w') w0.
Proof.
  intros Hi Hs Hh. destruct (node_there_handled s w w0 Hi Hh Hs) as [[x Hx] [ln Hl]].
  unfold nl80211_update_node_result. apply wp_bind. eapply wp_get_ln; [done|].
  apply wp_bind. eapply wp_get_node; [done|]. wp_if; [by apply wp_ret|]. apply wp_bind.
  eapply wp_mono with (P := fun _ w1 => handled w w1).
  { apply wp_when; intros _; [|done]. by handled_step. }
  intros [] w1 H1. case_match. do 2 handled_step. wp_if; [|by handled_step].
  match goal with Hw : handled w ?w2 |- wp _ _ ?w2 =>
    destruct (node_there_handled s w w2 Hi Hw Hs) as [_ [ln2 Hl2]] end.
  apply wp_bind. eapply wp_get_ln; [done|]. by repeat handled_step.
Qed.

Lemma nl80211_update_node_ok s w w0 :
  inv w -> node_there s w -> handled w w0 ->
  wp (nl80211_update_node if_nametoindex s) (fun _ w' => handled w w') w0.
Proof.
  intros Hi Hs Hh. unfold nl80211_update_node. apply wp_bind, due_in_spec. do 4 handled_step.
  unfold nl80211_get_survey.
  match goal with Hw : handled w ?w2 |- wp _ _ ?w2 =>
    destruct (node_there_handled s w w2 Hi Hw Hs) as [_ [ln2 Hl2]] end.
  apply wp_bind. eapply wp_get_ln; [done|]. wp_if; [by apply wp_ret|]. do 2 wp_step.
  apply (wp_for_each (fun _ _ w' => handled w w')); [done| |done].
  intros don msg rest w3 _ H3. destruct (nl80211_survey_result msg); [by apply update_node_result_ok|by apply wp_ret].
Qed.

Lemma nl80211_init_ok : node_handler_ok (nl80211_init_node if_nametoindex).
Proof.
  intros s w Hi Hl. assert (Hs : node_there s w) by (split; [by apply (no_ln _ (inv_nodes _ Hi))|done]).
  assert (Hr := handled_refl w Hi). unfold nl80211_init_node. do 2 handled_step.
  match goal with Hw : handled w ?w2 |- wp _ _ ?w2 =>
    destruct (node_there_handled s w w2 Hi Hw Hs) as [_ [ln2 Hl2]] end.
  apply wp_bind. eapply wp_get_ln; [done|]. wp_if; [by apply wp_ret|].
  do 2 wp_step. wp_if; [by apply wp_ret|]. do 2 wp_step.
  destruct (nl_get_interface _ _) as [tb|]; [|by apply wp_ret].
  destruct (ia_wiphy tb) as [wi|]; [|by apply wp_ret]. do 2 handled_step.
  apply wp_bind. eapply wp_mono with (P := fun _ w1 => handled w w1).
  { destruct (ia_ssid tb); by handled_step. }
  intros [] w3 H3. do 2 handled_step. by apply nl80211_update_node_ok.
Qed.

Lemma nl80211_free_ok : node_handler_ok nl80211_free_node.
Proof.
  intros s w Hi Hl. assert (Hs : node_there s w) by (split; [by apply (no_ln _ (inv_nodes _ Hi))|done]).
  assert (Hr := handled_refl w Hi). unfold nl80211_free_node. apply wp_bind. eapply wp_deref; [done|].
  destruct Hl as [ln Hl]. apply wp_bind. eapply wp_get_ln; [done|]. wp_if; by handled_step.
Qed.

Lemma nl80211_update_sta_ok : sta_handler_ok nl80211_update_sta.
Proof.
  intros s p si w Hi [ln Hl] Hp Hn Ht. unfold nl80211_update_sta. apply wp_bind. eapply wp_deref; [done|].
  apply wp_bind. eapply wp_get_ln; [done|]. wp_if; [by apply wp_ret, handled_refl|].
  destruct (inv_si_sta w p si Hi Hp) as (sa & Hsa & _).
  apply wp_bind. eapply wp_get_si; [done|]. apply wp_bind. eapply wp_get_sta; [done|]. do 2 wp_step.
  destruct (nl_get_station _ _ _) as [sig|]; [|by apply wp_ret, handled_refl].
  set (signal := match sig with Some _ => _ | None => _ end).
  assert (Hsok : signal_ok signal).
  { unfold signal, signal_ok. destruct sig; [|unfold NO_SIGNAL; lia]. int_lia. }
  eapply wp_mono; [by apply usteer_sta_info_update_spec|]. intros [] w' [Hi' Hup]. cbv zeta in Hup.
  set (si' := si <| si_signal := _ |> <| si_seen := _ |>) in *.
  destruct (timeout_updated_pos _ _ _ _ _ Ht Hup) as (Hf & Hh & Hst & Hno & Ho & Ha).
  assert (Hsame : abs (w <| si_heap ::= <[p := si']> |>) = abs w) by (by eapply abs_set_si).
  split.
  - apply frame_env; [done|]. etrans; [|exact Hf]. by split.
  - rewrite Ha, Hsame. by case_match.
  - rewrite Ha, Hsame. by case_match.
  - rewrite Ha, Hsame. by case_match.
  - intros q. rewrite Hh. simpl. rewrite lookup_insert. case_decide; [subst; by rewrite Hp|done].
Qed.

(** The handlers of the daemon, in the order in which their constructors ran. *)
Context {UL : UbusLookup T}.
Definition daemon_handlers : NodeHandlers T := [nl80211_handler if_nametoindex; netifd_handler].

Lemma daemon_handlers_laws : @NodeHandlersLaws T _ daemon_handlers.
Proof.
  split; intros h f [->|[->|Hh%elem_of_nil]%elem_of_cons]%elem_of_cons; try done; intros [= <-];
    auto using nl80211_init_ok, nl80211_free_ok, nl80211_update_sta_ok, netifd_init_ok, netifd_free_ok, netifd_update_ok.
Qed.
End contract.
