(* ===== verification/Scan.v ===== *)
(** * Results of scans and lists of channels (nl80211.c, second part)

    What is read of the driver's answers to a scan and to a request for the
    properties of the radio. The attributes are given as [nla_parse] finds them;
    the information elements of a beacon are bytes, which the code walks itself. *)
From S2P Require Import Prelude Blob Timeout Types Table World Nl80211.

(** ** Scan results *)

Record bss_attrs := mkBssAttrs {
  bss_bssid : option (list Z);
  bss_frequency : option Z;  (** u32 *)
  bss_signal_mbm : option Z;  (** u32 *)
  bss_information_elements : option (list Z);
  bss_beacon_ies : option (list Z);
}.

(** [struct usteer_scan_result]; [ssid] is the array of 33 bytes *)
Record usteer_scan_result := mkScanResult {
  sr_bssid : mac;
  sr_ssid : list Z;
  sr_freq : Z;
  sr_signal : Z;
}.

(** The loop over the information elements: [ie] is what is left of the attribute,
    [ielen] the length the code counts down; reading past the attribute is out of
    bounds. *)
Fixpoint ie_loop (fuel : nat) (ie : list Z) (ielen : Z) (ssid : list Z) : res (list Z) :=
  match fuel with
  | O => Fault OutOfFuel
  | S fuel' =>
      if ielen <? 2 then Ok ssid
      else
        match ie with
        | id :: len :: rest =>
            if ielen <? len then Ok ssid
            else
              let next := ie_loop fuel' (drop (Z.to_nat len) rest) (ielen - (len + 2)) in
              if id =? 0 then
                if 32 <? len then next ssid
                else if (length rest <? Z.to_nat len)%nat then Fault OutOfBounds
                else next (take (Z.to_nat len) rest ++ drop (Z.to_nat len) ssid)
              else next ssid
        | _ => Fault OutOfBounds
        end
  end.

(** [nl80211_scan_result] up to the callback; [None] is a message without
    [NL80211_ATTR_BSS] or one that does not parse. *)
Definition nl80211_scan_result (msg : option bss_attrs) : res (option usteer_scan_result) :=
  match msg with
  | None => Ok None
  | Some bss =>
      match bss_bssid bss, bss_frequency bss with
      | Some bssid, Some freq =>
          if (length bssid <? 6)%nat then Fault OutOfBounds
          else
            let signal := match bss_signal_mbm bss with
                          | Some m => Z.quot (s32 (u32 m)) 100
                          | None => -127
                          end in
            let ie_attr := match bss_information_elements bss with
                           | Some ie => Some ie
                           | None => bss_beacon_ies bss
                           end in
            let result ssid := mkScanResult (take 6 bssid) ssid (s32 (u32 freq)) signal in
            match ie_attr with
            | None => Ok (Some (result (replicate 33 0)))
            | Some ie =>
                match ie_loop (S (length ie)) ie (Z.of_nat (length ie)) (replicate 33 0) with
                | Ok ssid => Ok (Some (result ssid))
                | Fault e => Fault e
                end
            end
      | _, _ => Ok None
      end
  end.

(** ** Channels *)

Record freq_attrs := mkFreqAttrs {
  fa_disabled : bool;
  fa_no_ir : bool;
  fa_freq : option Z;  (** u32 *)
  fa_radar : bool;
  fa_max_tx_power : option Z;  (** u32 *)
}.

(** [struct usteer_freq_data] *)
Record usteer_freq_data := mkFreqData {
  fd_freq : Z;  (** [uint16_t] *)
  fd_txpower : Z;  (** [uint8_t] *)
  fd_dfs : bool;
}.

Definition wiphy_freq (tb_freq : freq_attrs) : option usteer_freq_data :=
  if fa_disabled tb_freq then None
  else if fa_no_ir tb_freq then None
  else
    match fa_freq tb_freq with
    | None => None
    | Some cur =>
        let txpower := match fa_max_tx_power tb_freq with Some p => u8 (u32 p / 100) | None => 0 end in
        Some (mkFreqData (u16 (u32 cur)) txpower (fa_radar tb_freq))
    end.

(** [nl80211_wiphy_result]: what it reports to the callback, in order, of the
    bands of a message; a band may have no frequencies. *)
Definition nl80211_wiphy_result (bands : option (list (option (list freq_attrs)))) : list usteer_freq_data :=
  match bands with
  | None => []
  | Some bands => bands ≫= fun band => match band with
      | None => []
      | Some freqs => omap wiphy_freq freqs
      end
  end.

(** ** Requests

    What the driver answers to them is a parameter: the result of the request that
    triggers a scan, once it ended, the scan results, and the parts of the
    description of a radio. *)

(** [struct usteer_scan_request] *)
Record usteer_scan_request := mkScanRequest {
  n_freq : Z;
  req_freq : list Z;
  passive : bool;
}.

(** The attributes of [NL80211_CMD_TRIGGER_SCAN]. *)
Record trigger_scan := mkTriggerScan {
  ts_ifindex : Z;
  ts_ssids : option (list string);
  ts_flags : Z;
  ts_frequencies : option (list Z);
}.
Class Nl80211Scan (T : Type) := {
  nl_trigger_scan : world T -> trigger_scan -> Z;
  nl_get_scan : world T -> Z -> list (option bss_attrs);
  nl_get_wiphy : world T -> Z -> list (option (list (option (list freq_attrs))));
}.

Definition ENODEV : Z := 19.
Definition NL80211_SCAN_FLAG_AP : Z := 4.

Section requests.
Context {T : Type} `{!AvlTree Z ptr T} {NS : Nl80211Scan T}.

Definition scan_message (index : Z) (req : usteer_scan_request) (freqs : list Z) : trigger_scan := {|
  ts_ifindex := index;
  ts_ssids := if passive req then None else Some [""%string];
  ts_flags := NL80211_SCAN_FLAG_AP;
  ts_frequencies := if n_freq req =? 0 then None else Some (map u32 freqs);
|}.

(** [nl80211_scan]; [cb] may be null. *)
Definition nl80211_scan (s : string) (req : usteer_scan_request)
    (cb : option (usteer_scan_result -> M (world T) unit)) : M (world T) Z :=
  ln ← get_ln s;
  if negb (nl80211_present ln) then mret (- ENODEV)
  else
    freqs ← deref OutOfBounds (fun _ => mapM (fun i => req_freq req !! i) (seq 0 (Z.to_nat (n_freq req))));
    ret ← gets (fun w => nl_trigger_scan w (scan_message (ifindex ln) req freqs));
    if ret <? 0 then mret ret
    else
      match cb with
      | None => mret 0
      | Some cb =>
          msgs ← gets (fun w => nl_get_scan w (ifindex ln));
          for_each (fun msg =>
            match nl80211_scan_result msg with
            | Ok (Some d) => cb d
            | Ok None => mret tt
            | Fault e => throw e
            end) msgs ;;
          mret 0
      end.

Definition nl80211_get_freqlist (s : string) (cb : usteer_freq_data -> M (world T) unit) : M (world T) unit :=
  ln ← get_ln s;
  if negb (nl80211_present ln) then mret tt
  else
    msgs ← gets (fun w => nl_get_wiphy w (wiphy ln));
    for_each (fun msg => for_each cb (nl80211_wiphy_result msg)) msgs.
End requests.

(** ** Information elements that are complete *)

(** An element as it stands in a beacon. *)
Definition ie_bytes (e : Z * list Z) : list Z := e.1 :: Z.of_nat (length e.2) :: e.2.
Definition ies_bytes (l : list (Z * list Z)) : list Z := l ≫= ie_bytes.

(** The array after the element [e]: an SSID overwrites its beginning. *)
Definition ie_ssid (ssid : list Z) (e : Z * list Z) : list Z :=
  if (e.1 =? 0) && (Z.of_nat (length e.2) <=? 32) then e.2 ++ drop (length e.2) ssid else ssid.

Lemma ie_bytes_length e : length (ie_bytes e) = S (S (length e.2)).
Proof. done. Qed.

Lemma ies_bytes_length l : (length l <= length (ies_bytes l))%nat.
Proof.
  induction l as [|e l IH]; [done|]. change (ies_bytes (e :: l)) with (ie_bytes e ++ ies_bytes l).
  rewrite length_app, ie_bytes_length. simpl. lia.
Qed.

(** The walk over complete elements. *)
Lemma ie_loop_prefix l tail fuel ssid :
  ie_loop (length l + fuel) (ies_bytes l ++ tail) (Z.of_nat (length (ies_bytes l ++ tail))) ssid =
  ie_loop fuel tail (Z.of_nat (length tail)) (foldl ie_ssid ssid l).
Proof.
  revert ssid. induction l as [|e l IH]; intros ssid; [done|].
  assert (Hb : ies_bytes (e :: l) ++ tail = e.1 :: Z.of_nat (length e.2) :: (e.2 ++ (ies_bytes l ++ tail))).
  { unfold ies_bytes. simpl. by rewrite <- app_assoc. }
  rewrite Hb. set (n := length e.2). set (r := ies_bytes l ++ tail) in *. cbn [ie_loop foldl length Nat.add].
  rewrite length_app. fold n.
  destruct (Z.ltb_spec (Z.of_nat (S (S (n + length r)))) 2); [lia|].
  destruct (Z.ltb_spec (Z.of_nat (S (S (n + length r)))) (Z.of_nat n)); [lia|].
  replace (Z.of_nat (S (S (n + length r))) - (Z.of_nat n + 2)) with (Z.of_nat (length r)) by lia.
  rewrite Nat2Z.id. unfold n. rewrite drop_app_length, take_app_length, !IH.
  assert (He : ie_ssid ssid e = if e.1 =? 0 then if 32 <? Z.of_nat (length e.2) then ssid
    else e.2 ++ drop (length e.2) ssid else ssid).
  { unfold ie_ssid. destruct (e.1 =? 0); [|done]. simpl. rewrite Z.leb_antisym. by destruct (32 <? _). }
  rewrite He. destruct (e.1 =? 0); [|done]. destruct (32 <? _); [done|].
  by rewrite (proj2 (Nat.ltb_ge _ _)) by lia.
Qed.

Lemma ie_loop_complete l fuel ssid :
  (length l < fuel)%nat ->
  ie_loop fuel (ies_bytes l) (Z.of_nat (length (ies_bytes l))) ssid = Ok (foldl ie_ssid ssid l).
Proof.
  intros Hf. assert (H := ie_loop_prefix l [] (fuel - length l) ssid). rewrite app_nil_r in H.
  replace (length l + (fuel - length l))%nat with fuel in H by lia. rewrite H.
  destruct (fuel - length l)%nat eqn:E; [lia|]. done.
Qed.

(** Whatever the bytes are, the walk ends. *)
Lemma ie_loop_ends fuel ie ssid n :
  (length ie < fuel)%nat -> n <= Z.of_nat (length ie) -> Forall (fun b => 0 <= b) ie ->
  ie_loop fuel ie n ssid ≠ Fault OutOfFuel.
Proof.
  revert ie ssid n. induction fuel as [|fuel IH]; intros ie ssid n Hf Hn Hb; [lia|]. cbn [ie_loop].
  destruct (Z.ltb_spec n 2); [done|]. destruct ie as [|id [|len rest]]; [done..|].
  destruct (Z.ltb_spec n len); [done|]. simpl in Hf, Hn.
  apply list.Forall_cons in Hb as [_ [Hl Hb]%list.Forall_cons].
  assert (Hnext : forall s, ie_loop fuel (drop (Z.to_nat len) rest) (n - (len + 2)) s ≠ Fault OutOfFuel).
  { intros s. apply IH.
    - rewrite length_drop. lia.
    - rewrite length_drop. lia.
    - by apply Forall_drop. }
  repeat case_match; auto.
Qed.
