(* ===== verification/Interfaces.v ===== *)
(** * The LAN interfaces (remote.c, [usteer_interface_add] and its callers)

    The interfaces over which instances talk are a [vlist] of libubox, ordered by
    name. The model takes the list operations as a parameter, [Vlist]: whether a
    name is there, insertion, and which elements a flush removes. *)
From S2P Require Import Prelude Blob Timeout Types Table World Beacon Sta UbusClient.
From S2P Require Import Policy RemoteMsg StaEvent Roam BeaconRequest LocalNode.

#[export] Instance VString_inj : Inj eq eq VString.
Proof. by intros ?? [= ->]. Qed.
Lemma map_VString_inj l l' : map VString l = map VString l' -> l = l'.
Proof. apply (inj (fmap (M := list) VString)). Qed.

Class Vlist := {
  vlist_find : string -> list (string * Z) -> bool;
  vlist_insert : string * Z -> list (string * Z) -> list (string * Z);
  (** the elements that were not added since [vlist_update], given those that were *)
  vlist_stale : list string -> list (string * Z) -> list string;
}.
Class VlistLaws `{Vlist} : Prop := {
  vlist_find_spec n l : vlist_find n l = true <-> n ∈ l.*1;
  vlist_insert_perm x l : vlist_insert x l ≡ₚ x :: l;
  vlist_stale_spec added l n : n ∈ vlist_stale added l <-> n ∈ l.*1 /\ n ∉ added;
  vlist_stale_nodup added l : NoDup l.*1 -> NoDup (vlist_stale added l);
}.

Section interfaces.
Context {VL : Vlist} {T : Type} (if_nametoindex : string -> Z).

(** [interface_check] on the element named [name]. *)
Definition interface_check (name : string) : M (world T) unit :=
  modify (fun w => w <| interfaces ::= map (fun i => if String.eqb i.1 name then (i.1, if_nametoindex i.1) else i) |>) ;;
  due ← due_in 1;
  modify (fun w => w <| reload_timer := Some due |>).

Definition interface_free (name : string) : M (world T) unit :=
  modify (fun w => w <| interfaces ::= filter (fun i => i.1 ≠ name) |>).

(** [interfaces_update_cb]: a new node, an old one, or both. *)
Definition interfaces_update_cb (node_new node_old : option string) : M (world T) unit :=
  match node_new, node_old with
  | Some _, Some old => interface_check old
  | _, Some old => interface_free old
  | Some new, None => interface_check new
  | None, None => throw NullDeref
  end.

(** The element is new or kept; the callback is told. *)
Definition usteer_interface_add (name : string) : M (world T) unit :=
  l ← gets interfaces;
  if vlist_find name l then interfaces_update_cb (Some name) (Some name)
  else
    modify (fun w => w <| interfaces ::= vlist_insert (name, 0) |>) ;;
    interfaces_update_cb (Some name) None.

Definition config_set_interfaces (data : bval) : M (world T) unit :=
  let l := array_data data in
  if negb (forallb (fun v => bool_decide (type_of_bval v = BLOBMSG_TYPE_STRING)) l) then mret tt
  else
    for_each (fun cur => n ← blobmsg_get_string (Some cur); usteer_interface_add n) l ;;
    l' ← gets interfaces;
    let added := omap (fun v => match v with VString n => Some n | _ => None end) l in
    for_each (fun n => interfaces_update_cb None (Some n)) (vlist_stale added l').

Definition config_get_interfaces : M (world T) (list (string * bval)) :=
  l ← gets interfaces;
  mret [("interfaces"%string, VArray (map (fun i => VString i.1) l))].
End interfaces.

(** ** Specifications *)

(** All elements of an array are strings. *)
Definition string_list (v : bval) : option (list string) :=
  mapM (fun v => match v with VString s => Some s | _ => None end) (array_data v).

Lemma string_list_Some v l : string_list v = Some l -> array_data v = map VString l.
Proof.
  unfold string_list. generalize (array_data v). intros k. revert l. induction k as [|x k IH]; intros l H; simpl in *.
  - by injection H as <-.
  - apply bind_Some in H as (s & Hs & H). apply bind_Some in H as (k' & Hk & H). injection H as <-.
    rewrite (IH _ Hk). destruct x; (discriminate || by simplify_eq).
Qed.
Lemma string_list_strings l : string_list (VArray (map VString l)) = Some l.
Proof. unfold string_list. simpl. induction l as [|s l IH]; [done|]. simpl. by rewrite IH. Qed.
Lemma string_list_check v :
  forallb (fun v => bool_decide (type_of_bval v = BLOBMSG_TYPE_STRING)) (array_data v) = bool_decide (is_Some (string_list v)).
Proof.
  unfold string_list. generalize (array_data v). intros k. induction k as [|x k IH]; simpl; [done|].
  rewrite IH. destruct x; simpl; try done.
  destruct (mapM _ k); simpl; repeat case_bool_decide; try done; exfalso; unfold is_Some in *; naive_solver.
Qed.

Section interfaces_spec.
Context {VL : Vlist} {VLL : VlistLaws} {T : Type} `{!AvlTree Z ptr T} (if_nametoindex : string -> Z).
Implicit Types (w : world T).

(** Only the interfaces and the timer that reopens the socket changed. *)
Record ifaces_changed w w' : Prop := {
  ic_eq : w' = w <| interfaces := interfaces w' |> <| reload_timer := reload_timer w' |>;
}.
Lemma ifaces_changed_refl w : ifaces_changed w w.
Proof. split. by destruct w. Qed.
Lemma ifaces_changed_trans w w1 w2 : ifaces_changed w w1 -> ifaces_changed w1 w2 -> ifaces_changed w w2.
Proof. intros [H1] [H2]. split. rewrite H2. rewrite H1. by destruct w. Qed.

(** Every interface of [l] has the index the system gives it now. *)
Definition indexed (l : list (string * Z)) (names : list string) : Prop :=
  forall n i, (n, i) ∈ l -> n ∈ names -> i = if_nametoindex n.

Lemma interface_check_spec name w :
  wp (interface_check if_nametoindex name) (fun _ w' => ifaces_changed w w' /\
    interfaces w' = map (fun i => if String.eqb i.1 name then (i.1, if_nametoindex i.1) else i) (interfaces w) /\
    is_Some (reload_timer w')) w.
Proof.
  unfold interface_check. apply wp_bind, wp_modify. apply wp_bind, due_in_spec. apply wp_modify.
  split; [split; by destruct w|]. split; [done|]. simpl. eauto.
Qed.

Lemma checked_names name (l : list (string * Z)) :
  (map (fun i => if String.eqb i.1 name then (i.1, if_nametoindex i.1) else i) l).*1 = l.*1.
Proof. induction l as [|[n i] l IH]; [done|]. cbn [map fst]. rewrite !fmap_cons, IH. by destruct (String.eqb n name). Qed.

Lemma checked_indexed name (l : list (string * Z)) names :
  indexed l names -> indexed (map (fun i => if String.eqb i.1 name then (i.1, if_nametoindex i.1) else i) l) (names ++ [name]).
Proof.
  intros Hl n i (x & Hx & Hin)%list_elem_of_fmap Hn.
  destruct (String.eqb_spec x.1 name) as [He|He]; [by simplify_eq|]. subst x. simpl in He.
  apply (Hl n i Hin). apply elem_of_app in Hn as [?|?%list_elem_of_singleton]; [done|by subst].
Qed.

(** [usteer_interface_add] in the midst of others. *)
Lemma usteer_interface_add_spec name names w :
  NoDup (interfaces w).*1 -> indexed (interfaces w) names ->
  wp (usteer_interface_add if_nametoindex name) (fun _ w' => ifaces_changed w w' /\
    NoDup (interfaces w').*1 /\ indexed (interfaces w') (names ++ [name]) /\
    (forall n, n ∈ (interfaces w').*1 <-> n ∈ (interfaces w).*1 \/ n = name)) w.
Proof.
  intros Hnd Hix. unfold usteer_interface_add. do 2 wp_step. destruct (vlist_find name (interfaces w)) eqn:E.
  - apply vlist_find_spec in E. eapply wp_mono; [apply interface_check_spec|]. intros [] w' (Hc & Hi & _).
    split; [done|]. rewrite Hi, checked_names. split; [done|]. split; [by apply checked_indexed|].
    intros n. split; [by left|]. by intros [?| ->].
  - assert (Hn : name ∉ (interfaces w).*1) by (rewrite <- vlist_find_spec; by rewrite E).
    apply wp_bind, wp_modify. set (w1 := w <| interfaces ::= _ |>).
    assert (Hp : interfaces w1 ≡ₚ (name, 0) :: interfaces w) by apply vlist_insert_perm.
    eapply wp_mono; [apply interface_check_spec|]. intros [] w' (Hc & Hi & _).
    split; [eapply ifaces_changed_trans; [|exact Hc]; split; by destruct w|].
    rewrite Hi, checked_names. split; [rewrite Hp; by apply list.NoDup_cons|].
    split.
    + intros n i (x & Hx & Hin)%list_elem_of_fmap Hm. rewrite Hp in Hin.
      destruct (String.eqb_spec x.1 name) as [He|He]; [by simplify_eq|]. subst x. simpl in He.
      apply elem_of_cons in Hin as [[= -> ->]|Hin]; [done|].
      apply (Hix n i Hin). apply elem_of_app in Hm as [?|?%list_elem_of_singleton]; [done|by subst].
    + intros n. rewrite Hp. simpl. rewrite elem_of_cons. naive_solver.
Qed.

Lemma config_set_interfaces_spec data w :
  NoDup (interfaces w).*1 ->
  wp (config_set_interfaces if_nametoindex data) (fun _ w' =>
    match string_list data with
    | Some names => ifaces_changed w w' /\ NoDup (interfaces w').*1 /\ indexed (interfaces w') names /\
        (forall n, n ∈ (interfaces w').*1 <-> n ∈ names)
    | None => w' = w
    end) w.
Proof.
  intros Hnd. unfold config_set_interfaces. cbv zeta. rewrite string_list_check.
  destruct (string_list data) as [names|] eqn:El;
    [rewrite bool_decide_true by eauto|rewrite bool_decide_false by (by intros []); by apply wp_ret].
  cbn [negb]. rewrite (string_list_Some _ _ El). clear El data. apply wp_bind.
  apply (wp_for_each (fun don _ w1 => exists ns, don = map VString ns /\ ifaces_changed w w1 /\
    NoDup (interfaces w1).*1 /\ indexed (interfaces w1) ns /\
    (forall n, n ∈ (interfaces w1).*1 <-> n ∈ (interfaces w).*1 \/ n ∈ ns))).
  - exists []. split; [done|]. split; [apply ifaces_changed_refl|]. split; [done|]. split.
    + intros n i _ Hn. by apply elem_of_nil in Hn.
    + intros n. rewrite elem_of_nil. naive_solver.
  - intros don cur rest w1 Hl (ns & -> & Hc & Hnd1 & Hix & Hn).
    assert (exists m, cur = VString m) as [m ->].
    { assert (Hin : cur ∈ map VString names) by (rewrite Hl; set_solver).
      apply list_elem_of_fmap in Hin as (m & -> & _). by exists m. }
    apply wp_bind. eapply wp_deref; [done|]. eapply wp_mono; [by apply usteer_interface_add_spec|].
    intros [] w2 (Hc2 & Hnd2 & Hix2 & Hn2). exists (ns ++ [m]). split; [by rewrite map_app|].
    split; [by eapply ifaces_changed_trans|]. split; [done|]. split; [done|].
    intros n. rewrite Hn2, Hn, elem_of_app, list_elem_of_singleton. tauto.
  - intros w1 (ns & Hns & Hc & Hnd1 & Hix & Hn).
    apply map_VString_inj in Hns as <-.
    do 2 wp_step. set (added := omap _ _).
    assert (Hadd : added = names).
    { unfold added. clear. induction names as [|n names IH]; [done|]. simpl. by f_equal. }
    rewrite Hadd. clear Hadd added.
    apply (wp_for_each (fun don _ w2 => ifaces_changed w w2 /\
      interfaces w2 = filter (fun i => i.1 ∉ don) (interfaces w1))).
    + split; [done|]. clear. induction (interfaces w1) as [|i k IH]; [done|].
      rewrite filter_cons_True by (rewrite elem_of_nil; tauto). by f_equal.
    + intros don n rest w2 _ [Hc2 Hi2]. cbn [interfaces_update_cb]. apply wp_modify. split.
      * eapply ifaces_changed_trans; [exact Hc2|]. split. by destruct w2.
      * simpl. rewrite Hi2, list_filter_filter. apply list_filter_iff. intros i. simpl.
        rewrite elem_of_app, list_elem_of_singleton. naive_solver.
    + intros w2 [Hc2 Hi2]. split; [done|].
      assert (Hel : forall n, n ∈ (interfaces w2).*1 <-> n ∈ names).
      { intros n. rewrite Hi2. split.
        - intros (i & -> & [Hni Hin]%list_elem_of_filter)%list_elem_of_fmap. rewrite vlist_stale_spec in Hni.
          destruct (decide (i.1 ∈ names)); [done|]. destruct Hni. split; [by apply list_elem_of_fmap_2|done].
        - intros Hin. assert (Hin1 : n ∈ (interfaces w1).*1) by (apply Hn; by right).
          apply list_elem_of_fmap in Hin1 as (i & -> & Hin1). apply list_elem_of_fmap. exists i. split; [done|].
          apply list_elem_of_filter. split; [|done]. rewrite vlist_stale_spec. tauto. }
      split; [|split; [|done]].
      * rewrite Hi2. generalize (vlist_stale names (interfaces w1)). intros stale. clear -Hnd1. induction (interfaces w1) as [|i k IH]; [done|]. simpl in Hnd1.
        apply list.NoDup_cons in Hnd1 as [Hi Hk]. rewrite filter_cons. case_decide; [|by apply IH]. simpl.
        apply list.NoDup_cons. split; [|by apply IH]. intros (j & Hj & [_ Hin]%list_elem_of_filter)%list_elem_of_fmap.
        apply Hi. rewrite Hj. by apply list_elem_of_fmap_2.
      * intros n i Hin Hm. rewrite Hi2 in Hin. apply list_elem_of_filter in Hin as [_ Hin]. by eapply Hix.
Qed.
End interfaces_spec.

(** ** A list that satisfies the laws: sorted by name *)
Fixpoint vlist_place (x : string * Z) (l : list (string * Z)) : list (string * Z) :=
  match l with
  | [] => [x]
  | y :: l' => if String.ltb x.1 y.1 then x :: l else y :: vlist_place x l'
  end.
Definition seq_vlist : Vlist := {|
  vlist_find n l := bool_decide (n ∈ l.*1);
  vlist_insert := vlist_place;
  vlist_stale added l := filter (fun n => n ∉ added) l.*1;
|}.
Lemma seq_vlist_laws : @VlistLaws seq_vlist.
Proof.
  split; simpl.
  - intros n l. apply bool_decide_eq_true.
  - intros x l. induction l as [|y l IH]; simpl; [done|]. destruct (String.ltb _ _); [done|].
    rewrite IH. apply Permutation_swap.
  - intros added l n. rewrite list_elem_of_filter. tauto.
  - intros added l. apply list.NoDup_filter.
Qed.
