(* ===== verification/Info.v ===== *)
(** * What the daemon tells over ubus (ubus.c; the hearing map of hearing_map.c)

    The methods that report the clients and the nodes. A method returns its status
    and, when it sent one, its reply. *)
From S2P Require Import Prelude Blob Timeout Types Table World Beacon Sta UbusClient Policy LocalNode.

Definition UBUS_STATUS_OK : Z := 0.
Definition UBUS_STATUS_NOT_FOUND : Z := 4.

(** [memcmp(k1, k2, 6) <= 0], the order of the tree of stations *)
Fixpoint avl_macaddr_cmp (k1 k2 : mac) : comparison :=
  match k1, k2 with
  | x :: l1, y :: l2 => match x ?= y with Eq => avl_macaddr_cmp l1 l2 | c => c end
  | [], [] => Eq
  | [], _ => Lt
  | _, [] => Gt
  end.
Fixpoint mac_insert (a : mac) (l : list mac) : list mac :=
  match l with
  | [] => [a]
  | b :: l' => match avl_macaddr_cmp a b with Gt => b :: mac_insert a l' | _ => a :: l end
  end.

Definition usteer_ubus_add_stats (stats : sta_info_stats) (name : string) : string * bval :=
  (name, VTable [("requests", VU32 (requests stats));
                 ("blocked_cur", VU32 (blocked_cur stats));
                 ("blocked_total", VU32 (blocked_total stats))]%string).

(** [usteer_dump_node_info], of a node with its name *)
Definition usteer_dump_node_info (name : string) (node : usteer_node) : string * bval :=
  (name, VTable ([("freq", VU32 (u32 (freq node)));
                  ("n_assoc", VU32 (u32 (n_assoc node)));
                  ("noise", VU32 (u32 (noise node)));
                  ("load", VU32 (u32 (load node)));
                  ("max_assoc", VU32 (u32 (max_assoc node)))]%string ++
                 match rrm_nr node with None => [] | Some nr => [("rrm_nr"%string, VArray nr)] end)).

(** A loop that adds one attribute to the message in each step. *)
Definition for_append {S A} (body : A -> M S (string * bval)) (l : list A) : M S (list (string * bval)) :=
  for_fold (fun b a => x ← body a; mret (b ++ [x])) [] l.

Section info.
Context {ET : Ether} {BM : Blobmsg} {T : Type} `{!AvlTree Z ptr T}.

(** The stations in the order of their tree. *)
Definition stations_in_order (w : world T) : list mac :=
  foldr mac_insert [] (map fst (map_to_list (stations w))).

(** [node->avl.key] *)
Definition usteer_node_name (n : node_id) : M (world T) string :=
  match n with
  | NLocal s => mret s
  | NRemote i s => rn ← get_rn (i, s); mret (rn_name rn)
  end.

Definition hearing_map_entry (br : beacon_report) : M (world T) (string * bval) :=
  now ← gets current_time;
  cfg ← gets config;
  node ← get_usteer_node_from_bssid (br_bssid br);
  name ← match node with
         | None => mret []
         | Some n => s ← usteer_node_name n; mret [("node"%string, VString s)]
         end;
  let diff_secs := u64 (now - br_usteer_time br) / 1000 in
  let ttl := u64 (beacon_report_invalide_timeout cfg - diff_secs) in
  mret (ether_ntoa (br_bssid br),
    VTable (name ++ [("rcpi", VU16 (br_rcpi br));
                     ("rsni", VU16 (br_rsni br));
                     ("op_class", VU16 (br_op_class br));
                     ("channel", VU16 (br_channel br));
                     ("time-to-live", VU64 ttl)]%string)).
Definition usteer_ubus_hearing_map (p : ptr) : M (world T) (string * bval) :=
  si ← get_si p;
  hm ← for_append hearing_map_entry (si_beacon_reports si);
  mret ("hearing_map"%string, VTable hm).

(** The bodies of the two loops of [usteer_ubus_get_clients]. *)
Definition clients_node_entry (p : ptr) : M (world T) (string * bval) :=
  si ← get_si p;
  name ← usteer_node_name (si_node si);
  mret (name, VTable [("connected", VU8 (si_connected si)); ("signal", VU32 (u32 (si_signal si)))]%string).
Definition clients_entry (a : mac) : M (world T) (string * bval) :=
  sta ← get_sta a;
  s ← for_append clients_node_entry (sta_nodes sta);
  mret (mac_addr_fmt a, VTable s).
Definition usteer_ubus_get_clients : M (world T) (Z * option (list (string * bval))) :=
  addrs ← gets stations_in_order;
  b ← for_append clients_entry addrs;
  mret (UBUS_STATUS_OK, Some b).

(** The bodies of the two loops of [usteer_ubus_get_client_info]. *)
Definition stats_entry (si : sta_info) (i : nat) : M (world T) (string * bval) :=
  st ← deref OutOfBounds (fun _ => si_stats si !! event_idx EVENT_TYPE_PROBE);
  name ← deref OutOfBounds (fun _ => event_types !! i);
  mret (usteer_ubus_add_stats st name).
Definition client_info_entry (p : ptr) : M (world T) (string * bval) :=
  si ← get_si p;
  name ← usteer_node_name (si_node si);
  stats ← for_append (stats_entry si) (seq 0 (event_idx __EVENT_TYPE_MAX));
  cfg ← gets config;
  rest ←
    (if match si_node si with NLocal _ => true | NRemote _ _ => false end && negb (si_connected si =? 0)
     then
       bits ← deref DivByZero (fun _ => usteer_get_client_active_bits cfg si);
       hm ← usteer_ubus_hearing_map p;
       mret [("average_data_rate"%string, VU64 bits); hm]
     else mret []);
  mret (name, VTable ([("connected", VU8 (si_connected si));
                       ("signal", VU32 (u32 (si_signal si)));
                       ("stats", VTable stats)]%string ++ rest)).

Definition usteer_ubus_get_client_info (msg : list (string * bval)) :
    M (world T) (Z * option (list (string * bval))) :=
  let tb := blobmsg_parse [("address", BLOBMSG_TYPE_STRING)]%string msg in
  match attr tb 0 with
  | None => mret (UBUS_STATUS_INVALID_ARGUMENT, None)
  | Some mac_str =>
      str ← blobmsg_get_string (Some mac_str);
      match ether_aton str with
      | None => mret (UBUS_STATUS_INVALID_ARGUMENT, None)
      | Some addr =>
          r ← usteer_sta_get addr false;
          match r with
          | None => mret (UBUS_STATUS_NOT_FOUND, None)
          | Some a =>
              sta ← get_sta a;
              nodes ← for_append client_info_entry (sta_nodes sta);
              mret (UBUS_STATUS_OK, Some [("2ghz", VU8 (seen_2ghz sta));
                                          ("5ghz", VU8 (seen_5ghz sta));
                                          ("nodes", VTable nodes)]%string)
          end
      end
  end.

(** The reply for one tree of nodes. *)
Definition dump_nodes {A} (nid : A -> node_id) (l : list A) : M (world T) (list (string * bval)) :=
  for_append (fun a =>
    node ← get_node (nid a);
    name ← usteer_node_name (nid a);
    mret (usteer_dump_node_info name node)) l.

Definition usteer_ubus_local_info : M (world T) (Z * option (list (string * bval))) :=
  l ← gets local_nodes;
  b ← dump_nodes NLocal l;
  mret (UBUS_STATUS_OK, Some b).

Definition usteer_ubus_remote_info : M (world T) (Z * option (list (string * bval))) :=
  l ← gets remote_nodes;
  b ← dump_nodes (fun k => NRemote k.1 k.2) l;
  mret (UBUS_STATUS_OK, Some b).
End info.

(** ** Specifications *)
Section info_spec.
Context {ET : Ether} {BM : Blobmsg} {BML : BlobmsgLaws} {T : Type} `{!AvlTree Z ptr T} `{!AvlLaws Z ptr T}.
Implicit Types (w : world T) (p : ptr) (si : sta_info).

(** The name of a node. *)
Definition name_of w (n : node_id) : option string :=
  match n with
  | NLocal s => Some s
  | NRemote i s => rn_name <$> rn_heap w !! (i, s)
  end.

Lemma usteer_node_name_spec n w :
  nodes_ok w -> is_Some (node_heap w !! n) ->
  wp (usteer_node_name n) (fun r w' => w' = w /\ name_of w n = Some r) w.
Proof.
  intros Hno Hn. destruct n as [s|i s]; [by apply wp_ret|].
  apply (no_rn _ Hno) in Hn as [rn Hrn]. apply wp_bind. eapply wp_get_rn; [done|]. apply wp_ret.
  split; [done|]. simpl. by rewrite Hrn.
Qed.

Lemma for_append_spec {A} (R : A -> string * bval -> Prop) (body : A -> M (world T) (string * bval)) (l : list A) w :
  (forall a, a ∈ l -> wp (body a) (fun b w' => w' = w /\ R a b) w) ->
  wp (for_append body l) (fun r w' => w' = w /\ Forall2 R l r) w.
Proof.
  intros Hbody. eapply wp_mono;
    [apply (wp_for_fold (fun don _ r w' => w' = w /\ Forall2 R don r))|by intros r w' [-> H]].
  - by split; [|constructor].
  - intros don x rest acc w' Hl [-> Hacc]. apply wp_bind.
    eapply wp_mono; [apply Hbody; rewrite Hl; set_solver|]. intros b w' [-> Hb]. apply wp_ret.
    split; [done|]. apply Forall2_app; [done|]. by constructor.
Qed.

(** What a report is shown as: the node that has its BSSID, when there is one, and
    the seconds left until it is stale, in [uint64_t]. *)
Definition report_shown w (br : beacon_report) (e : string * bval) : Prop :=
  exists n name, bssid_result w (br_bssid br) n /\
    name = match n with Some n => default ""%string (name_of w n) | None => ""%string end /\
    e = (ether_ntoa (br_bssid br),
         VTable (match n with Some _ => [("node"%string, VString name)] | None => [] end ++
           [("rcpi", VU16 (br_rcpi br)); ("rsni", VU16 (br_rsni br)); ("op_class", VU16 (br_op_class br));
            ("channel", VU16 (br_channel br));
            ("time-to-live", VU64 (u64 (beacon_report_invalide_timeout (config w) -
               u64 (current_time w - br_usteer_time br) / 1000)))]%string)).

Lemma hearing_map_entry_spec br w :
  nodes_ok w -> wp (hearing_map_entry br) (fun e w' => w' = w /\ report_shown w br e) w.
Proof.
  intros Hno. unfold hearing_map_entry. do 4 wp_step. apply wp_bind.
  eapply wp_mono; [by apply get_usteer_node_from_bssid_spec|]. intros [n|] w' [-> Hr].
  - apply wp_bind, wp_bind. eapply wp_mono; [apply usteer_node_name_spec; [done|]|].
    { destruct Hr as (x & Hx & _). eauto. }
    intros s w' [-> Hs]. do 2 apply wp_ret. split; [done|]. exists (Some n), s. rewrite Hs. by split.
  - apply wp_bind. do 2 apply wp_ret. split; [done|]. exists None, ""%string. by split.
Qed.

(** What a [sta_info] of a station is shown as in [get_client_info]. The counters
    of all events are those of the probes. *)
Definition client_shown w p (e : string * bval) : Prop :=
  exists si name probe rest, si_heap w !! p = Some si /\ name_of w (si_node si) = Some name /\
    si_stats si !! event_idx EVENT_TYPE_PROBE = Some probe /\
    e = (name, VTable ([("connected", VU8 (si_connected si)); ("signal", VU32 (u32 (si_signal si)));
                        ("stats", VTable (map (usteer_ubus_add_stats probe) event_types))]%string ++ rest)) /\
    match si_node si with
    | NLocal _ =>
        if si_connected si =? 0 then rest = []
        else exists bits hm, usteer_get_client_active_bits (config w) si = Some bits /\
          Forall2 (report_shown w) (si_beacon_reports si) hm /\
          rest = [("average_data_rate", VU64 bits); ("hearing_map", VTable hm)]%string
    | NRemote _ _ => rest = []
    end.

Lemma stats_entries_spec si probe w :
  si_stats si !! event_idx EVENT_TYPE_PROBE = Some probe ->
  wp (for_append (stats_entry (T := T) si) (seq 0 (event_idx __EVENT_TYPE_MAX))) (fun r w' =>
    w' = w /\ r = map (usteer_ubus_add_stats probe) event_types) w.
Proof.
  intros Hp. unfold wp, for_append, stats_entry. cbn -[event_types]. unfold mbind, M_bind, deref, mret, M_ret.
  cbn in Hp. by rewrite Hp.
Qed.

Lemma client_info_entry_spec p si w :
  inv w -> si_heap w !! p = Some si -> kick_client_active_sec (config w) ≠ 0 ->
  wp (client_info_entry p) (fun e w' => w' = w /\ client_shown w p e) w.
Proof.
  intros Hi Hp Hsec. destruct (inv_si _ Hi p si Hp) as [Hlen _].
  destruct (inv_si_node _ _ _ Hi Hp) as (x & Hx & _). unfold client_info_entry.
  apply wp_bind. eapply wp_get_si; [done|]. apply wp_bind.
  eapply wp_mono; [apply usteer_node_name_spec; [apply Hi|eauto]|]. intros name w' [-> Hname].
  destruct (si_stats si !! event_idx EVENT_TYPE_PROBE) as [probe|] eqn:Est.
  2: { apply lookup_ge_None in Est. rewrite Hlen in Est. simpl in Est. lia. }
  apply wp_bind. eapply wp_mono; [by apply stats_entries_spec|]. intros r w' [-> ->]. do 2 wp_step.
  apply wp_bind. eapply wp_mono with (P := fun rest w' => w' = w /\
    match si_node si with
    | NLocal _ =>
        if si_connected si =? 0 then rest = []
        else exists bits hm, usteer_get_client_active_bits (config w) si = Some bits /\
          Forall2 (report_shown w) (si_beacon_reports si) hm /\
          rest = [("average_data_rate", VU64 bits); ("hearing_map", VTable hm)]%string
    | NRemote _ _ => rest = []
    end).
  - destruct (si_node si); [|by apply wp_ret]. destruct (si_connected si =? 0); [by apply wp_ret|]. cbn [negb andb].
    assert (exists bits, usteer_get_client_active_bits (config w) si = Some bits) as [bits Hbits].
    { unfold usteer_get_client_active_bits. rewrite (proj2 (Z.eqb_neq _ _) Hsec). eauto. }
    apply wp_bind. eapply wp_deref; [done|]. unfold usteer_ubus_hearing_map. apply wp_bind, wp_bind.
    eapply wp_get_si; [done|]. apply wp_bind.
    eapply wp_mono; [apply for_append_spec; intros br _; apply hearing_map_entry_spec, Hi|].
    intros hm w' [-> Hhm]. do 2 apply wp_ret. split; [done|]. by exists bits, hm.
  - intros rest w' [-> Hrest]. apply wp_ret. split; [done|]. by exists si, name, probe, rest.
Qed.

(** The two kinds of entries of [get_clients]. *)
Definition clients_node_shown w p (e : string * bval) : Prop :=
  exists si name, si_heap w !! p = Some si /\ name_of w (si_node si) = Some name /\
    e = (name, VTable [("connected", VU8 (si_connected si)); ("signal", VU32 (u32 (si_signal si)))]%string).
Definition clients_shown w (a : mac) (e : string * bval) : Prop :=
  exists st l, stations w !! a = Some st /\ Forall2 (clients_node_shown w) (sta_nodes st) l /\
    e = (mac_addr_fmt a, VTable l).

Lemma mac_insert_perm a l : mac_insert a l ≡ₚ a :: l.
Proof.
  induction l as [|b l IH]; simpl; [done|]. destruct (avl_macaddr_cmp a b); [done|done|].
  rewrite IH. apply Permutation_swap.
Qed.
(** Every station is in the order once. *)
Lemma stations_in_order_spec w :
  NoDup (stations_in_order w) /\ forall a, a ∈ stations_in_order w <-> is_Some (stations w !! a).
Proof.
  assert (Hp : stations_in_order w ≡ₚ (map_to_list (stations w)).*1).
  { unfold stations_in_order. generalize (map_to_list (stations w)). intros l. change (map fst l) with (l.*1).
    induction l.*1 as [|a k IH]; [done|]. simpl. by rewrite mac_insert_perm, IH. }
  split; [rewrite Hp; apply NoDup_fst_map_to_list|].
  intros a. rewrite Hp, list_elem_of_fmap. split.
  - intros ([b st] & -> & Hin%elem_of_map_to_list). simpl. eauto.
  - intros [st Hst%elem_of_map_to_list]. by exists (a, st).
Qed.

Lemma usteer_ubus_get_clients_spec w :
  inv w -> wp usteer_ubus_get_clients (fun r w' => w' = w /\ exists l,
    r = (UBUS_STATUS_OK, Some l) /\ Forall2 (clients_shown w) (stations_in_order w) l) w.
Proof.
  intros Hi. unfold usteer_ubus_get_clients. do 2 wp_step. apply wp_bind.
  eapply wp_mono; [apply (for_append_spec (clients_shown w))|].
  - intros a [st Hst]%stations_in_order_spec. apply wp_bind. eapply wp_get_sta; [done|]. apply wp_bind.
    eapply wp_mono; [apply (for_append_spec (clients_node_shown w))|].
    + intros p Hp. destruct (inv_sta_si _ _ _ _ Hi Hst Hp) as (si & Hsi & _).
      destruct (inv_si_node _ _ _ Hi Hsi) as (x & Hx & _).
      apply wp_bind. eapply wp_get_si; [done|]. apply wp_bind.
      eapply wp_mono; [apply usteer_node_name_spec; [apply Hi|eauto]|]. intros name w' [-> Hname].
      apply wp_ret. split; [done|]. by exists si, name.
    + intros l w' [-> Hl]. apply wp_ret. split; [done|]. by exists st, l.
  - intros l w' [-> Hl]. apply wp_ret. split; [done|]. by exists l.
Qed.

(** ** The nodes *)
Definition node_shown {A} w (nid : A -> node_id) (a : A) (e : string * bval) : Prop :=
  exists x name, node_heap w !! nid a = Some x /\ name_of w (nid a) = Some name /\
    e = usteer_dump_node_info name x.

Lemma dump_nodes_spec {A} (nid : A -> node_id) l w :
  nodes_ok w -> (forall a, a ∈ l -> is_Some (node_heap w !! nid a)) ->
  wp (dump_nodes nid l) (fun r w' => w' = w /\ Forall2 (node_shown w nid) l r) w.
Proof.
  intros Hno Hl. apply for_append_spec. intros a Ha. destruct (Hl a Ha) as [x Hx].
  apply wp_bind. eapply wp_get_node; [done|]. apply wp_bind.
  eapply wp_mono; [apply usteer_node_name_spec; [done|eauto]|]. intros name w' [-> Hname].
  apply wp_ret. split; [done|]. by exists x, name.
Qed.

Lemma usteer_ubus_local_info_spec w :
  inv w -> wp usteer_ubus_local_info (fun r w' => w' = w /\ exists l,
    r = (UBUS_STATUS_OK, Some l) /\ Forall2 (node_shown w NLocal) (local_nodes w) l) w.
Proof.
  intros Hi. unfold usteer_ubus_local_info. do 2 wp_step. apply wp_bind.
  eapply wp_mono; [apply dump_nodes_spec; [apply Hi|]|intros l w' [-> Hl]; apply wp_ret; split; [done|]; by exists l].
  intros s. apply (no_local _ (inv_nodes _ Hi)).
Qed.
Lemma usteer_ubus_remote_info_spec w :
  inv w -> wp usteer_ubus_remote_info (fun r w' => w' = w /\ exists l,
    r = (UBUS_STATUS_OK, Some l) /\ Forall2 (node_shown w (fun k => NRemote k.1 k.2)) (remote_nodes w) l) w.
Proof.
  intros Hi. unfold usteer_ubus_remote_info. do 2 wp_step. apply wp_bind.
  eapply wp_mono; [apply dump_nodes_spec; [apply Hi|]|intros l w' [-> Hl]; apply wp_ret; split; [done|]; by exists l].
  intros [i s]. apply (no_remote _ (inv_nodes _ Hi)).
Qed.

(** The address that a [get_client_info] asks for. *)
Definition client_asked (msg : list (string * bval)) : option mac :=
  match attr (blobmsg_parse [("address", BLOBMSG_TYPE_STRING)]%string msg) 0 with
  | Some (VString s) => ether_aton s
  | _ => None
  end.

Lemma usteer_ubus_get_client_info_spec msg w :
  inv w -> kick_client_active_sec (config w) ≠ 0 ->
  wp (usteer_ubus_get_client_info msg) (fun r w' => w' = w /\
    match client_asked msg with
    | None => r = (UBUS_STATUS_INVALID_ARGUMENT, None)
    | Some a =>
        match stations w !! a with
        | None => r = (UBUS_STATUS_NOT_FOUND, None)
        | Some st => exists l, Forall2 (client_shown w) (sta_nodes st) l /\
            r = (UBUS_STATUS_OK, Some [("2ghz", VU8 (seen_2ghz st)); ("5ghz", VU8 (seen_5ghz st));
                                       ("nodes", VTable l)]%string)
        end
    end) w.
Proof.
  intros Hi Hsec. unfold usteer_ubus_get_client_info, client_asked. cbv zeta.
  set (tb := blobmsg_parse _ msg). destruct (attr tb 0) as [v|] eqn:Ev; [|by apply wp_ret].
  assert (Hv : type_of_bval v = BLOBMSG_TYPE_STRING) by (by eapply (attr_type _ _ 0); [|exact Ev]).
  destruct v as [| | | |s| |]; try done. apply wp_bind. eapply wp_deref; [done|].
  destruct (ether_aton s) as [a|]; [|by apply wp_ret].
  unfold usteer_sta_get. apply wp_bind. do 2 wp_step. destruct (stations w !! a) as [st|] eqn:Est; [|by do 2 apply wp_ret].
  apply wp_ret, wp_bind. eapply wp_get_sta; [done|]. apply wp_bind.
  eapply wp_mono; [apply (for_append_spec (client_shown w))|].
  - intros p Hp. destruct (inv_sta_si _ _ _ _ Hi Est Hp) as (si & Hsi & _). by eapply client_info_entry_spec.
  - intros l w' [-> Hl]. apply wp_ret. split; [done|]. by exists l.
Qed.
End info_spec.
