(* ===== verification/Config.v ===== *)
(** * The configuration over ubus (ubus.c; the node-up script of local_node.c)

    The table of options, their reading and setting. An option is a [bool], an
    [int32_t] or a [uint32_t] of [config], given by how it is read and assigned,
    or a pair of functions. [option_values] lists, independently of that table, what
    each name stands for; the theorems compare the two. *)
From S2P Require Import Prelude Blob Timeout Types Table World Ssid Beacon Sta UbusClient.
From S2P Require Import Policy RemoteMsg StaEvent Roam BeaconRequest LocalNode Interfaces.

(** [struct cfg_item], by its [enum cfg_type] *)
Inductive cfg_item (T : Type) :=
| CFG_BOOL (ptr : usteer_config -> bool) (assign : bool -> usteer_config -> usteer_config)
| CFG_I32 (ptr : usteer_config -> Z) (assign : Z -> usteer_config -> usteer_config)
| CFG_U32 (ptr : usteer_config -> Z) (assign : Z -> usteer_config -> usteer_config)
| CFG_ARRAY_CB (set : bval -> M (world T) unit) (get : M (world T) (list (string * bval)))
| CFG_STRING_CB (set : bval -> M (world T) unit) (get : M (world T) (list (string * bval))).
Arguments CFG_BOOL {T}. Arguments CFG_I32 {T}. Arguments CFG_U32 {T}.
Arguments CFG_ARRAY_CB {T}. Arguments CFG_STRING_CB {T}.

Notation cfg_bool f := (CFG_BOOL f (fun v c => c <| f := v |>)).
Notation cfg_i32 f := (CFG_I32 f (fun v c => c <| f := v |>)).
Notation cfg_u32 f := (CFG_U32 f (fun v c => c <| f := v |>)).

(** The options with a value of their own. *)
Definition scalar_items (T : Type) : list (string * cfg_item T) :=
  [("syslog", cfg_bool syslog);
   ("remote_disabled", cfg_bool remote_disabled);
   ("debug_level", cfg_u32 debug_level);
   ("sta_block_timeout", cfg_u32 sta_block_timeout);
   ("local_sta_timeout", cfg_u32 local_sta_timeout);
   ("local_sta_update", cfg_u32 local_sta_update);
   ("max_retry_band", cfg_u32 max_retry_band);
   ("seen_policy_timeout", cfg_u32 seen_policy_timeout);
   ("load_balancing_threshold", cfg_u32 load_balancing_threshold);
   ("band_steering_threshold", cfg_u32 band_steering_threshold);
   ("remote_update_interval", cfg_u32 remote_update_interval);
   ("min_connect_snr", cfg_i32 min_connect_snr);
   ("min_snr", cfg_i32 min_snr);
   ("roam_scan_snr", cfg_i32 roam_scan_snr);
   ("roam_scan_tries", cfg_u32 roam_scan_tries);
   ("roam_scan_interval", cfg_u32 roam_scan_interval);
   ("roam_trigger_snr", cfg_i32 roam_trigger_snr);
   ("roam_trigger_interval", cfg_u32 roam_trigger_interval);
   ("roam_kick_delay", cfg_u32 roam_kick_delay);
   ("signal_diff_threshold", cfg_u32 signal_diff_threshold);
   ("initial_connect_delay", cfg_u32 initial_connect_delay);
   ("load_kick_enabled", cfg_bool load_kick_enabled);
   ("load_kick_threshold", cfg_u32 load_kick_threshold);
   ("load_kick_delay", cfg_u32 load_kick_delay);
   ("load_kick_min_clients", cfg_u32 load_kick_min_clients);
   ("load_kick_reason_code", cfg_u32 load_kick_reason_code);
   ("kick_client_active_sec", cfg_u32 kick_client_active_sec);
   ("kick_client_active_bits", cfg_u32 kick_client_active_bits);
   ("beacon_report_invalide_timeout", cfg_u32 beacon_report_invalide_timeout);
   ("beacon_request_frequency", cfg_u32 beacon_request_frequency);
   ("beacon_request_signal_modifier", cfg_u32 beacon_request_signal_modifier)]%string.

(** [BLOBMSG_TYPE_...] of [config_policy] *)
Definition cfg_policy {T} (it : cfg_item T) : blobmsg_type :=
  match it with
  | CFG_BOOL _ _ => BLOBMSG_TYPE_BOOL
  | CFG_I32 _ _ | CFG_U32 _ _ => BLOBMSG_TYPE_INT32
  | CFG_ARRAY_CB _ _ => BLOBMSG_TYPE_ARRAY
  | CFG_STRING_CB _ _ => BLOBMSG_TYPE_STRING
  end.

Section config.
Context {ET : Ether} {BM : Blobmsg} {VL : Vlist} {T : Type} `{!AvlTree Z ptr T} {NH : NodeHandlers T}.
(** libc's [if_nametoindex], and the objects [ubus_lookup] finds for [hostapd.*] *)
Context (if_nametoindex : string -> Z) (objs : list (string * Z)).

Definition config_set_ssid (data : bval) : M (world T) unit :=
  ok ← config_set_ssid_list (array_data data);
  when ok (usteer_local_nodes_init if_nametoindex objs).

Definition config_set_node_up_script (data : bval) : M (world T) unit :=
  val ← blobmsg_get_string (Some data);
  script ← gets node_up_script;
  if bool_decide (script = Some val) then mret tt
  else if (String.length val =? 0)%nat then modify (fun w => w <| node_up_script := None |>)
  else
    modify (fun w => w <| node_up_script := Some val |>) ;;
    l ← gets local_nodes;
    for_each usteer_node_run_update_script l.

Definition config_get_node_up_script : M (world T) (list (string * bval)) :=
  script ← gets node_up_script;
  mret (match script with
        | None => []
        | Some s => [("node_up_script"%string, VString s)]
        end).

(** [config_data] with the names of [config_policy] *)
Definition config_data : list (string * cfg_item T) :=
  scalar_items T ++
  [("interfaces", CFG_ARRAY_CB (config_set_interfaces if_nametoindex) config_get_interfaces);
   ("ssid", CFG_ARRAY_CB config_set_ssid (c ← config_get_ssid; mret [c]));
   ("node_up_script", CFG_STRING_CB config_set_node_up_script config_get_node_up_script)]%string.

Definition config_policy : list (string * blobmsg_type) :=
  map (fun i => (i.1, cfg_policy i.2)) config_data.

(** One step of the loop of [usteer_ubus_get_config]: what it adds to the reply. *)
Definition cfg_get (name : string) (it : cfg_item T) : M (world T) (list (string * bval)) :=
  cfg ← gets config;
  match it with
  | CFG_BOOL ptr _ => mret [(name, VU8 (b2z (ptr cfg)))]
  | CFG_I32 ptr _ | CFG_U32 ptr _ => mret [(name, VU32 (u32 (ptr cfg)))]
  | CFG_ARRAY_CB _ get | CFG_STRING_CB _ get => get
  end.

Definition usteer_ubus_get_config : M (world T) (list (string * bval)) :=
  for_fold (fun b i => r ← cfg_get i.1 i.2; mret (b ++ r)) [] config_data.

(** One step of the loop of [usteer_ubus_set_config]; an [int32_t] is written
    through a pointer to [uint32_t]. *)
Definition cfg_set (it : cfg_item T) (v : bval) : M (world T) unit :=
  match it with
  | CFG_BOOL _ assign =>
      x ← blobmsg_get_u8 (Some v);
      modify (fun w => w <| config ::= assign (negb (x =? 0)) |>)
  | CFG_I32 _ assign =>
      x ← blobmsg_get_u32 (Some v);
      modify (fun w => w <| config ::= assign (s32 x) |>)
  | CFG_U32 _ assign =>
      x ← blobmsg_get_u32 (Some v);
      modify (fun w => w <| config ::= assign (u32 x) |>)
  | CFG_ARRAY_CB set _ | CFG_STRING_CB set _ => set v
  end.

Definition usteer_ubus_set_config (method : string) (msg : list (string * bval)) : M (world T) unit :=
  when (bool_decide (method = "set_config"%string)) (modify (fun w => w <| config := usteer_init_defaults |>)) ;;
  let tb := blobmsg_parse config_policy msg in
  for_each (fun i => match attr tb i.1 with
                     | None => mret tt
                     | Some v => cfg_set i.2.2 v
                     end) (imap pair config_data).
End config.

(** ** Specifications *)

(** The value of an option, and what the value of an attribute makes of it. *)
Definition cfg_field {T} (it : cfg_item T) (c : usteer_config) : bool + Z :=
  match it with
  | CFG_BOOL ptr _ => inl (ptr c)
  | CFG_I32 ptr _ | CFG_U32 ptr _ => inr (ptr c)
  | _ => inr 0
  end.
Definition cfg_given {T} (it : cfg_item T) (v : bval) : bool + Z :=
  match it, v with
  | CFG_BOOL _ _, VU8 x => inl (negb (x =? 0))
  | CFG_I32 _ _, VU32 x => inr (s32 x)
  | CFG_U32 _ _, VU32 x => inr (u32 x)
  | _, _ => inr 0
  end.
Definition cfg_assign {T} (it : cfg_item T) (v : bval) (c : usteer_config) : usteer_config :=
  match it, v with
  | CFG_BOOL _ assign, VU8 x => assign (negb (x =? 0)) c
  | CFG_I32 _ assign, VU32 x => assign (s32 x) c
  | CFG_U32 _ assign, VU32 x => assign (u32 x) c
  | _, _ => c
  end.

(** The options with a value, in the order of the table, and the two fields of
    the struct that no option reaches. *)
Definition fields (c : usteer_config) : list (bool + Z) := map (fun i => cfg_field i.2 c) (scalar_items unit).
Definition fixed_fields (c : usteer_config) : Z * Z := (remote_node_timeout c, vendor_update_interval c).

Lemma fields_inj c c' : fields c = fields c' -> fixed_fields c = fixed_fields c' -> c = c'.
Proof. destruct c, c'. unfold fields, fixed_fields. simpl. intros H1 H2. simplify_eq. reflexivity. Qed.

(** ** The options

    What the options are, by name: the field of [config] each one stands for, with
    its type. *)
Inductive opt_value := OBool (b : bool) | OInt (z : Z) | OUint (z : Z).

Definition option_values (c : usteer_config) : list (string * opt_value) :=
  [("syslog", OBool (syslog c));
   ("remote_disabled", OBool (remote_disabled c));
   ("debug_level", OUint (debug_level c));
   ("sta_block_timeout", OUint (sta_block_timeout c));
   ("local_sta_timeout", OUint (local_sta_timeout c));
   ("local_sta_update", OUint (local_sta_update c));
   ("max_retry_band", OUint (max_retry_band c));
   ("seen_policy_timeout", OUint (seen_policy_timeout c));
   ("load_balancing_threshold", OUint (load_balancing_threshold c));
   ("band_steering_threshold", OUint (band_steering_threshold c));
   ("remote_update_interval", OUint (remote_update_interval c));
   ("min_connect_snr", OInt (min_connect_snr c));
   ("min_snr", OInt (min_snr c));
   ("roam_scan_snr", OInt (roam_scan_snr c));
   ("roam_scan_tries", OUint (roam_scan_tries c));
   ("roam_scan_interval", OUint (roam_scan_interval c));
   ("roam_trigger_snr", OInt (roam_trigger_snr c));
   ("roam_trigger_interval", OUint (roam_trigger_interval c));
   ("roam_kick_delay", OUint (roam_kick_delay c));
   ("signal_diff_threshold", OUint (signal_diff_threshold c));
   ("initial_connect_delay", OUint (initial_connect_delay c));
   ("load_kick_enabled", OBool (load_kick_enabled c));
   ("load_kick_threshold", OUint (load_kick_threshold c));
   ("load_kick_delay", OUint (load_kick_delay c));
   ("load_kick_min_clients", OUint (load_kick_min_clients c));
   ("load_kick_reason_code", OUint (load_kick_reason_code c));
   ("kick_client_active_sec", OUint (kick_client_active_sec c));
   ("kick_client_active_bits", OUint (kick_client_active_bits c));
   ("beacon_report_invalide_timeout", OUint (beacon_report_invalide_timeout c));
   ("beacon_request_frequency", OUint (beacon_request_frequency c));
   ("beacon_request_signal_modifier", OUint (beacon_request_signal_modifier c))]%string.

Definition opt_type (o : opt_value) : blobmsg_type :=
  match o with OBool _ => BLOBMSG_TYPE_BOOL | _ => BLOBMSG_TYPE_INT32 end.
(** How a value is reported, and what an attribute makes of an option. *)
Definition opt_report (o : opt_value) : bval :=
  match o with OBool b => VU8 (b2z b) | OInt z | OUint z => VU32 (u32 z) end.
Definition opt_given (o : opt_value) (v : bval) : opt_value :=
  match o, v with
  | OBool _, VU8 x => OBool (negb (x =? 0))
  | OInt _, VU32 x => OInt (s32 x)
  | OUint _, VU32 x => OUint (u32 x)
  | _, _ => o
  end.
Definition opt_in_range (o : opt_value) : Prop :=
  match o with OBool _ => True | OInt z => - 2 ^ 31 <= z < 2 ^ 31 | OUint z => 0 <= z < 2 ^ 32 end.

(** The names and types of the options. *)
Definition option_policy : list (string * blobmsg_type) :=
  map (fun o => (o.1, opt_type o.2)) (option_values usteer_init_defaults) ++
  [("interfaces", BLOBMSG_TYPE_ARRAY); ("ssid", BLOBMSG_TYPE_ARRAY); ("node_up_script", BLOBMSG_TYPE_STRING)]%string.

(** The options after those given in [tb] were set. *)
Definition options_set (tb : list (option bval)) (l : list (string * opt_value)) : list (string * opt_value) :=
  imap (fun i o => (o.1, match attr tb i with Some v => opt_given o.2 v | None => o.2 end)) l.

(** Every value in the range of its type. *)
Definition cfg_in_range (c : usteer_config) : Prop := Forall (fun o => opt_in_range o.2) (option_values c).

Lemma option_values_inj c c' : option_values c = option_values c' -> fixed_fields c = fixed_fields c' -> c = c'.
Proof. destruct c, c'. unfold option_values, fixed_fields. simpl. intros H1 H2. simplify_eq. reflexivity. Qed.

Section config_fields.
Context {T : Type}.

(** The table the code walks says the same. *)
Definition item_option (it : cfg_item T) (c : usteer_config) : opt_value :=
  match it with
  | CFG_BOOL ptr _ => OBool (ptr c)
  | CFG_I32 ptr _ => OInt (ptr c)
  | CFG_U32 ptr _ => OUint (ptr c)
  | _ => OBool false
  end.
Lemma option_values_items c : option_values c = map (fun i => (i.1, item_option i.2 c)) (scalar_items T).
Proof. reflexivity. Qed.

Lemma fields_items c : fields c = map (fun i => cfg_field i.2 c) (scalar_items T).
Proof. reflexivity. Qed.

(** An assignment changes its own option and no other. *)
Lemma fields_assign i name (it : cfg_item T) v c :
  scalar_items T !! i = Some (name, it) -> type_of_bval v = cfg_policy it ->
  fields (cfg_assign it v c) = <[i := cfg_given it v]> (fields c) /\
  fixed_fields (cfg_assign it v c) = fixed_fields c.
Proof.
  intros Hi Hv.
  do 31 (destruct i as [|i]; [injection Hi as <- <-; destruct v; try discriminate Hv; split; reflexivity|]).
  discriminate Hi.
Qed.
Lemma fields_lookup_item i name (it : cfg_item T) c :
  scalar_items T !! i = Some (name, it) -> fields c !! i = Some (cfg_field it c).
Proof. intros Hi. rewrite fields_items, list_lookup_fmap, Hi. done. Qed.

(** The configuration after the options of [tb] were set in [c]. *)
Definition option_set (tb : list (option bval)) c (i : nat * (string * cfg_item T)) : usteer_config :=
  match attr tb i.1 with None => c | Some v => cfg_assign i.2.2 v c end.
Definition config_of (tb : list (option bval)) (c : usteer_config) : usteer_config :=
  foldl (option_set tb) c (imap pair (scalar_items T)).

Definition typed (tb : list (option bval)) : Prop :=
  forall i name (it : cfg_item T) v, scalar_items T !! i = Some (name, it) -> attr tb i = Some v ->
    type_of_bval v = cfg_policy it.

Lemma option_set_spec tb c n m (itn : cfg_item T) :
  typed tb -> scalar_items T !! n = Some (m, itn) ->
  fixed_fields (option_set tb c (n, (m, itn))) = fixed_fields c /\
  forall i name (it : cfg_item T), scalar_items T !! i = Some (name, it) ->
    cfg_field it (option_set tb c (n, (m, itn))) =
    if decide (i = n) then match attr tb i with Some v => cfg_given it v | None => cfg_field it c end
    else cfg_field it c.
Proof.
  intros Ht En. unfold option_set. cbn [fst snd]. destruct (attr tb n) as [v|] eqn:Ev.
  - destruct (fields_assign n m itn v c En (Ht _ _ _ _ En Ev)) as [Hf Hx].
    split; [exact Hx|]. intros i name it Hi.
    assert (He := fields_lookup_item i name it (cfg_assign itn v c) Hi). rewrite Hf in He.
    destruct (decide (i = n)) as [->|Hne].
    + rewrite list_lookup_insert_eq in He by (apply lookup_lt_Some in Hi; exact Hi). rewrite Ev. congruence.
    + rewrite list_lookup_insert_ne, (fields_lookup_item i name it c Hi) in He by done. congruence.
  - split; [done|]. intros i name it Hi. destruct (decide (i = n)) as [->|]; [by rewrite Ev|done].
Qed.

Lemma config_of_prefix tb c n :
  typed tb ->
  let c' := foldl (option_set tb) c (take n (imap pair (scalar_items T))) in
  fixed_fields c' = fixed_fields c /\
  forall i name (it : cfg_item T), scalar_items T !! i = Some (name, it) ->
    cfg_field it c' = match attr tb i with
                      | Some v => if decide (i < n)%nat then cfg_given it v else cfg_field it c
                      | None => cfg_field it c
                      end.
Proof.
  intros Ht. induction n as [|n IH].
  { split; [done|]. intros i name it _. simpl. by destruct (attr tb i). }
  destruct (scalar_items T !! n) as [[m itn]|] eqn:En.
  2: { apply lookup_ge_None in En. rewrite take_ge in IH |- * by (rewrite length_imap; lia).
       destruct IH as [IHf IH]. split; [exact IHf|]. intros i name it Hi. rewrite (IH i name it Hi).
       apply lookup_lt_Some in Hi. destruct (attr tb i); [|done]. by rewrite !decide_True by lia. }
  rewrite (take_S_r _ n (n, (m, itn))) by (by rewrite list_lookup_imap, En).
  rewrite foldl_snoc. set (c1 := foldl _ _ _) in *. destruct IH as [IHf IH].
  destruct (option_set_spec tb c1 n m itn Ht En) as [Hf H]. split; [by rewrite Hf|].
  intros i name it Hi. rewrite (H i name it Hi), (IH i name it Hi).
  destruct (attr tb i); repeat case_decide; (done || lia).
Qed.

(** Every option given has the value given, the others what they had. *)
Lemma config_of_spec tb c :
  typed tb ->
  fixed_fields (config_of tb c) = fixed_fields c /\
  forall i name (it : cfg_item T), scalar_items T !! i = Some (name, it) ->
    cfg_field it (config_of tb c) = match attr tb i with
                                    | Some v => cfg_given it v
                                    | None => cfg_field it c
                                    end.
Proof.
  intros Ht. destruct (config_of_prefix tb c (length (scalar_items T)) Ht) as [Hf H].
  rewrite take_ge in Hf, H by (by rewrite length_imap). split; [exact Hf|].
  intros i name it Hi. unfold config_of. rewrite (H i name it Hi). destruct (attr tb i); [|done].
  apply lookup_lt_Some in Hi. by rewrite decide_True.
Qed.

Lemma config_of_options tb c : typed tb -> option_values (config_of tb c) = options_set tb (option_values c).
Proof.
  intros Ht. destruct (config_of_spec tb c Ht) as [_ Hc]. unfold options_set.
  rewrite !option_values_items. apply list_eq. intros i. rewrite list_lookup_imap, !list_lookup_fmap.
  destruct (scalar_items T !! i) as [[name it]|] eqn:Hi; [|done]. specialize (Hc i name it Hi). assert (Hty := Ht i name it).
  cbn [fmap option_fmap option_map fst snd]. do 2 f_equal. destruct (attr tb i) as [v|].
  - specialize (Hty v Hi eq_refl). destruct it, v; try done; simpl in Hc |- *; congruence.
  - destruct it; simpl in Hc |- *; congruence.
Qed.
Lemma opt_given_in_range o v : opt_in_range o -> opt_in_range (opt_given o v).
Proof. destruct o, v; simpl; try done; intros _; [apply s32_range|apply u32_range]. Qed.
Lemma config_of_in_range tb c : typed tb -> cfg_in_range c -> cfg_in_range (config_of tb c).
Proof.
  intros Ht Hc. unfold cfg_in_range. rewrite config_of_options by done. unfold options_set. apply Forall_lookup_2.
  intros i o. rewrite list_lookup_imap. destruct (option_values c !! i) as [o'|] eqn:Hi; [|done]. intros [= <-]. simpl.
  assert (Hr := Forall_lookup_1 _ _ _ _ Hc Hi). simpl in Hr. destruct (attr tb i); [by apply opt_given_in_range|done].
Qed.
(** A value that is set from its report. *)
Lemma opt_given_report o o' : opt_in_range o -> opt_type o' = opt_type o ->
  match o, o' with OInt _, OUint _ | OUint _, OInt _ => False | _, _ => True end -> opt_given o' (opt_report o) = o.
Proof.
  destruct o as [b| |], o'; simpl; try done; intros H _ _.
  - by destruct b.
  - by rewrite s32_u32, s32_id.
  - by rewrite (u32_id (u32 _)), u32_id by (done || apply u32_range).
Qed.
End config_fields.

Section config_spec.
Context {ET : Ether} {BM : Blobmsg} {BML : BlobmsgLaws} {VL : Vlist} {VLL : VlistLaws}.
Context {T : Type} `{!AvlTree Z ptr T} `{!AvlLaws Z ptr T} {NH : NodeHandlers T} {NHL : NodeHandlersLaws}.
Context (if_nametoindex : string -> Z) (objs : list (string * Z)).
Implicit Types (w : world T) (tb : list (option bval)).

Lemma inv_set_interfaces w l d : inv w -> inv (w <| interfaces := l |> <| reload_timer := d |>).
Proof. intros [? ? ? []]. by split; [..|split]. Qed.

(** The hostapd objects among [objs]. *)
Definition hostapd_objs (l : list (string * Z)) : list string :=
  filter (fun n => String.prefix "hostapd." n) l.*1.

(** What looking up the hostapd objects [l] does to the daemon. *)
Record nodes_registered (l : list (string * Z)) w w' : Prop := {
  nr_inv : inv w';
  nr_config : config w' = config w;
  nr_ifaces : interfaces w' = interfaces w;
  nr_ssids : config_ssid_list w' = config_ssid_list w;
  nr_script : node_up_script w' = node_up_script w;
  nr_local s : s ∈ local_nodes w' <-> s ∈ local_nodes w \/ s ∈ hostapd_objs l;
  nr_empty : no_empty_sta (abs w) -> no_empty_sta (abs w');
}.

Lemma usteer_local_nodes_init_spec w :
  inv w -> wp (usteer_local_nodes_init if_nametoindex objs) (fun _ w' => nodes_registered objs w w') w.
Proof.
  intros Hi. apply (wp_for_each (fun don _ w1 => nodes_registered don w w1)); [|  |done].
  - split; try done. intros s. rewrite elem_of_nil. naive_solver.
  - intros don [name id] rest w1 _ []. cbn [fst snd].
    eapply wp_mono; [by apply usteer_register_node_spec|]. intros [] w2 H.
    assert (Hsnoc : hostapd_objs (don ++ [(name, id)]) =
                    hostapd_objs don ++ (if String.prefix "hostapd." name then [name] else [])).
    { unfold hostapd_objs. rewrite fmap_app, list.filter_app. f_equal. cbn. by destruct (String.prefix _ _). }
    destruct (String.prefix "hostapd." name) eqn:E.
    + destruct H. split; try congruence; [|auto]. intros s. rewrite ng_local, Hsnoc, elem_of_app, list_elem_of_singleton.
      case_bool_decide as Hn.
      * rewrite nr_local0. apply nr_local0 in Hn. naive_solver.
      * rewrite strcmp_insert_perm, elem_of_cons, nr_local0. naive_solver.
    + subst w2. split; try done. intros s. by rewrite Hsnoc, app_nil_r.
Qed.

Lemma config_set_ssid_spec v w :
  inv w -> wp (config_set_ssid if_nametoindex objs v) (fun _ w' =>
    match string_list v with
    | Some l => nodes_registered objs (w <| config_ssid_list := Some (rev (map usteer_ssid l)) |>) w'
    | None => w' = w
    end) w.
Proof.
  intros Hi. unfold config_set_ssid. apply wp_bind.
  eapply wp_mono; [apply config_set_ssid_list_spec|]. intros r w1. rewrite string_list_check.
  destruct (string_list v) as [l|] eqn:El.
  - rewrite bool_decide_true by eauto. intros [-> (l' & Hl' & ->)]. rewrite (string_list_Some _ _ El) in Hl'.
    apply map_VString_inj in Hl' as <-. cbn [when].
    apply usteer_local_nodes_init_spec. destruct Hi as [? ? ? []]. by split; [..|split].
  - rewrite bool_decide_false by (by intros []). intros [-> ->]. by apply wp_ret.
Qed.

(** The script is run once for each node, unless it was the one already. *)
Definition script_runs (v : string) w : list action :=
  if bool_decide (node_up_script w = Some v) || (String.length v =? 0)%nat then []
  else map (fun s => System (v ++ " '" ++ iface_name s ++ "'")) (local_nodes w).
Definition script_set (v : string) w : world T :=
  w <| node_up_script := if (String.length v =? 0)%nat then None else Some v |>
    <| out ::= fun l => l ++ script_runs v w |>.

Lemma config_set_node_up_script_spec v w :
  node_up_script w ≠ Some ""%string ->
  wp (config_set_node_up_script (VString v)) (fun _ w' => w' = script_set v w) w.
Proof.
  intros Hne. unfold config_set_node_up_script, script_set, script_runs. apply wp_bind. eapply wp_deref; [done|].
  do 2 wp_step. case_bool_decide as Hs; cbn [orb].
  - apply wp_ret. destruct v as [|c v]; [done|]. cbn [String.length Nat.eqb].
    destruct w. unfold set_field. simpl in *. by rewrite app_nil_r, <- Hs.
  - destruct (String.length v =? 0)%nat.
    + apply wp_modify. destruct w. unfold set_field. simpl. by rewrite app_nil_r.
    + do 4 wp_step. set (w1 := w <| node_up_script := Some v |>).
      apply (wp_for_each (fun don _ w2 => w2 = w1 <| out ::= fun l => l ++ map (fun s => System (v ++ " '" ++ iface_name s ++ "'")) don |>)).
      * destruct w. unfold set_field. simpl. by rewrite app_nil_r.
      * intros don s rest w2 _ ->. unfold usteer_node_run_update_script. do 2 wp_step. cbn. apply wp_modify.
        unfold set_field. simpl. by rewrite map_app, app_assoc.
      * intros w2 ->. done.
Qed.

(** ** Setting the configuration *)

(** The places of the options with functions in the table. *)
Definition CFG_interfaces : nat := 31.
Definition CFG_ssid : nat := 32.
Definition CFG_node_up_script : nat := 33.

(** A script that is new and not empty is run for every local node. *)
Definition script_out tb w w' : list action :=
  match attr tb CFG_node_up_script with
  | Some (VString v) =>
      if bool_decide (node_up_script w = Some v) || (String.length v =? 0)%nat then []
      else map (fun s => System (v ++ " '" ++ iface_name s ++ "'")) (local_nodes w')
  | _ => []
  end.

(** What a message with the options [tb] makes of the state, from the
    configuration [base]. *)
Record configured tb (base : usteer_config) w w' : Prop := {
  cd_inv : inv w';
  cd_config : config w' = config_of (T := T) tb base;
  cd_ifaces : match attr tb CFG_interfaces ≫= string_list with
              | Some l => NoDup (interfaces w').*1 /\ indexed if_nametoindex (interfaces w') l /\
                          (forall n, n ∈ (interfaces w').*1 <-> n ∈ l)
              | None => interfaces w' = interfaces w
              end;
  cd_ssids : config_ssid_list w' = match attr tb CFG_ssid ≫= string_list with
                                   | Some l => Some (rev (map usteer_ssid l))
                                   | None => config_ssid_list w
                                   end;
  cd_local s : s ∈ local_nodes w' <->
    s ∈ local_nodes w \/ (is_Some (attr tb CFG_ssid ≫= string_list) /\ s ∈ hostapd_objs objs);
  cd_script : node_up_script w' = match attr tb CFG_node_up_script with
                                  | Some (VString v) => if (String.length v =? 0)%nat then None else Some v
                                  | _ => node_up_script w
                                  end;
  (** last of all the script is run, and nothing else is done unless SSIDs are given *)
  cd_out : exists o, (attr tb CFG_ssid ≫= string_list = None -> o = out w) /\ out w' = o ++ script_out tb w w';
  cd_empty : no_empty_sta (abs w) -> no_empty_sta (abs w');
}.

Lemma cfg_set_spec (it : cfg_item T) v w :
  type_of_bval v = cfg_policy it ->
  match it with CFG_ARRAY_CB _ _ | CFG_STRING_CB _ _ => False | _ => True end ->
  wp (cfg_set it v) (fun _ w' => w' = w <| config ::= cfg_assign it v |>) w.
Proof.
  intros Hv Hit. destruct it; try done; destruct v; try done;
    (apply wp_bind; eapply wp_deref; [done|]; by apply wp_modify).
Qed.

Lemma scalar_item_value (i : nat) name (it : cfg_item T) :
  scalar_items T !! i = Some (name, it) -> match it with CFG_ARRAY_CB _ _ | CFG_STRING_CB _ _ => False | _ => True end.
Proof.
  intros Hi. do 31 (destruct i as [|i]; [by injection Hi as <- <-|]). discriminate Hi.
Qed.

Lemma policy_item i name (it : cfg_item T) :
  config_data if_nametoindex objs !! i = Some (name, it) ->
  config_policy if_nametoindex objs !! i = Some (name, cfg_policy it).
Proof. intros Hi. unfold config_policy. by rewrite list_lookup_fmap, Hi. Qed.
Lemma scalar_item_data i name (it : cfg_item T) :
  scalar_items T !! i = Some (name, it) -> config_data if_nametoindex objs !! i = Some (name, it).
Proof. intros Hi. unfold config_data. apply lookup_app_l_Some, Hi. Qed.
Lemma config_policy_typed msg : typed (T := T) (blobmsg_parse (config_policy if_nametoindex objs) msg).
Proof.
  intros i name it v Hi Hv. eapply attr_type; [|exact Hv]. apply policy_item, scalar_item_data, Hi.
Qed.

Lemma length_scalar_items : length (scalar_items T) = 31%nat.
Proof. reflexivity. Qed.
Lemma script_policy :
  config_policy if_nametoindex objs !! CFG_node_up_script = Some ("node_up_script"%string, BLOBMSG_TYPE_STRING).
Proof. reflexivity. Qed.
#[local] Opaque scalar_items.

(** The body of the loop. *)
Definition set_step tb (i : nat * (string * cfg_item T)) : M (world T) unit :=
  match attr tb i.1 with None => mret tt | Some v => cfg_set i.2.2 v end.

Lemma set_scalars_spec tb w :
  typed (T := T) tb ->
  wp (for_each (set_step tb) (imap pair (scalar_items T))) (fun _ w' => w' = w <| config := config_of (T := T) tb (config w) |>) w.
Proof.
  intros Ht. apply (wp_for_each (fun don _ w' => w' = w <| config := foldl (option_set tb) (config w) don |>));
    [destruct w; reflexivity| |intros w' ->; reflexivity].
  intros don [i [name it]] rest w1 Hl ->. rewrite foldl_snoc. unfold option_set at 1, set_step. cbn [fst snd].
  assert (Hi : scalar_items T !! i = Some (name, it)).
  { assert (Hd : imap pair (scalar_items T) !! length don = Some (i, (name, it))) by (rewrite Hl; by apply list_lookup_middle).
    rewrite list_lookup_imap in Hd. destruct (scalar_items T !! length don) eqn:E; [|done]. simpl in Hd. by simplify_eq. }
  destruct (attr tb i) as [v|] eqn:Ev; [|by apply wp_ret].
  eapply wp_mono; [eapply cfg_set_spec; [by eapply Ht|by eapply scalar_item_value]|]. by intros [] w' ->.
Qed.

Lemma set_interfaces_spec tb v w base :
  inv w -> NoDup (interfaces w).*1 -> attr tb CFG_interfaces = v -> config w = base ->
  wp (match v with None => mret tt | Some v => config_set_interfaces if_nametoindex v end) (fun _ w' =>
    ifaces_changed w w' /\ inv w' /\
    match v ≫= string_list with
    | Some l => NoDup (interfaces w').*1 /\ indexed if_nametoindex (interfaces w') l /\
                (forall n, n ∈ (interfaces w').*1 <-> n ∈ l)
    | None => interfaces w' = interfaces w
    end) w.
Proof.
  intros Hi Hnd Hv Hb. destruct v as [v|]; [|by apply wp_ret; split; [apply ifaces_changed_refl|]].
  eapply wp_mono; [by apply config_set_interfaces_spec|]. intros [] w'. simpl.
  destruct (string_list v) as [l|].
  - intros (Hc & H). split; [done|]. split; [|done]. rewrite (ic_eq _ _ Hc). by apply inv_set_interfaces.
  - intros ->. by split; [apply ifaces_changed_refl|].
Qed.

Lemma inv_set_script x w : inv w -> inv (w <| node_up_script := x |>).
Proof. intros [? ? ? []]. by split; [..|split]. Qed.

(** All but the script. *)
Record configured_but_script tb base w w' : Prop := {
  cb_inv : inv w';
  cb_config : config w' = config_of (T := T) tb base;
  cb_ifaces : match attr tb CFG_interfaces ≫= string_list with
              | Some l => NoDup (interfaces w').*1 /\ indexed if_nametoindex (interfaces w') l /\
                          (forall n, n ∈ (interfaces w').*1 <-> n ∈ l)
              | None => interfaces w' = interfaces w
              end;
  cb_ssids : config_ssid_list w' = match attr tb CFG_ssid ≫= string_list with
                                   | Some l => Some (rev (map usteer_ssid l))
                                   | None => config_ssid_list w
                                   end;
  cb_local s : s ∈ local_nodes w' <->
    s ∈ local_nodes w \/ (is_Some (attr tb CFG_ssid ≫= string_list) /\ s ∈ hostapd_objs objs);
  cb_script : node_up_script w' = node_up_script w;
  cb_out : attr tb CFG_ssid ≫= string_list = None -> out w' = out w;
  cb_empty : no_empty_sta (abs w) -> no_empty_sta (abs w');
}.

Lemma usteer_ubus_set_config_spec method msg w :
  inv w -> NoDup (interfaces w).*1 -> node_up_script w ≠ Some ""%string ->
  wp (usteer_ubus_set_config if_nametoindex objs method msg) (fun _ w' =>
    configured (blobmsg_parse (config_policy if_nametoindex objs) msg)
      (if bool_decide (method = "set_config"%string) then usteer_init_defaults else config w) w w') w.
Proof.
  intros Hi Hnd Hs. unfold usteer_ubus_set_config. set (base := if bool_decide _ then _ else _).
  set (tb := blobmsg_parse _ msg). assert (Ht : typed (T := T) tb) by apply config_policy_typed.
  apply wp_bind. eapply wp_mono with (P := fun _ w1 => w1 = w <| config := base |>).
  { unfold base. destruct (bool_decide _); [by apply wp_modify|]. apply wp_ret. by destruct w. }
  intros [] w1 ->. cbv zeta. fold (set_step tb). unfold config_data. rewrite imap_app.
  apply wp_for_each_app. eapply wp_mono; [by apply set_scalars_spec|]. intros [] w1 ->.
  set (w1 := _ <| config := _ |>). assert (Hi1 : inv w1) by (do 2 apply inv_set_config; done).
  cbn [imap for_each compose]. rewrite length_scalar_items. cbn [Nat.add].
  apply wp_bind. unfold set_step at 1. cbn [fst snd cfg_set].
  eapply wp_mono; [by eapply (set_interfaces_spec tb (attr tb CFG_interfaces) w1)|].
  intros [] w2 (Hc2 & Hi2 & Hif2). destruct Hc2 as [Hc2].
  apply wp_bind. unfold set_step at 1. cbn [fst snd cfg_set]. fold CFG_ssid.
  eapply wp_mono with (P := fun _ w3 => 
    match attr tb CFG_ssid ≫= string_list with
    | Some l => nodes_registered objs (w2 <| config_ssid_list := Some (rev (map usteer_ssid l)) |>) w3
    | None => w3 = w2
    end).
  { destruct (attr tb CFG_ssid) as [v|]; [by apply config_set_ssid_spec|by apply wp_ret]. }
  intros [] w3 H3.
  assert (Hw3 : configured_but_script tb base w w3).
  { destruct (attr tb CFG_ssid ≫= string_list) as [l|] eqn:El; [destruct H3|subst w3]; split.
    all: rewrite ?El; try assumption; try congruence; try (rewrite Hc2; reflexivity).
    - rewrite nr_config0. simpl. by rewrite Hc2.
    - by rewrite nr_ifaces0.
    - intros s. rewrite nr_local0. simpl. rewrite Hc2. simpl. unfold is_Some. naive_solver.
    - rewrite nr_script0. simpl. by rewrite Hc2.
    - intros Hne. apply nr_empty0. rewrite Hc2. exact Hne.
    - intros s. rewrite Hc2. simpl. unfold is_Some. naive_solver.
    - intros Hne. rewrite Hc2. exact Hne. }
  clear Hif2 H3 Hc2 Hi2 w2. destruct Hw3. apply wp_bind. unfold set_step. cbn [fst snd cfg_set].
  change (S CFG_ssid) with CFG_node_up_script.
  destruct (attr tb CFG_node_up_script) as [v|] eqn:Ev.
  - assert (Hv : type_of_bval v = BLOBMSG_TYPE_STRING).
    { eapply attr_type; [exact script_policy|exact Ev]. }
    destruct v; try done. eapply wp_mono; [apply config_set_node_up_script_spec; congruence|].
    intros [] w4 ->. apply wp_ret. split; try assumption; [by apply inv_emit, inv_set_script|by rewrite Ev|].
    exists (out w3). split; [done|]. unfold script_out. rewrite Ev. simpl. unfold script_runs. by rewrite cb_script0.
  - apply wp_ret, wp_ret. split; try assumption; [by rewrite Ev|].
    exists (out w3). split; [done|]. unfold script_out. by rewrite Ev, app_nil_r.
Qed.

(** ** Reading the configuration *)

(** The reply: every option by name, in the order of the table. *)
Definition config_reply w (l : list string) : list (string * bval) :=
  map (fun o => (o.1, opt_report o.2)) (option_values (config w)) ++
  [("interfaces"%string, VArray (map (fun i => VString i.1) (interfaces w)));
   ("ssid"%string, VArray (map VString l))] ++
  match node_up_script w with None => [] | Some s => [("node_up_script"%string, VString s)] end.

Definition get_step (b : list (string * bval)) (i : string * cfg_item T) : M (world T) (list (string * bval)) :=
  r ← cfg_get i.1 i.2; mret (b ++ r).

Lemma get_scalars_run (l k : list (string * cfg_item T)) acc w :
  Forall (fun i => match i.2 with CFG_ARRAY_CB _ _ | CFG_STRING_CB _ _ => False | _ => True end) l ->
  for_fold get_step acc (l ++ k) w =
  for_fold get_step (acc ++ map (fun i => (i.1, opt_report (item_option i.2 (config w)))) l) k w.
Proof.
  revert acc. induction l as [|[name it] l IH]; intros acc Hl; [by rewrite app_nil_r|].
  apply list.Forall_cons in Hl as [Hit Hl].
  transitivity (for_fold get_step (acc ++ [(name, opt_report (item_option it (config w)))]) (l ++ k) w).
  - cbn [app for_fold]. unfold mbind at 1, M_bind at 1.
    replace (get_step acc (name, it) w) with (Ok (acc ++ [(name, opt_report (item_option it (config w)))], w)); [done|].
    by destruct it.
  - rewrite IH by done. cbn [map fst snd]. by rewrite <- app_assoc.
Qed.

Lemma scalar_items_values :
  Forall (fun i : string * cfg_item T => match i.2 with CFG_ARRAY_CB _ _ | CFG_STRING_CB _ _ => False | _ => True end)
    (scalar_items T).
Proof. apply Forall_lookup_2. intros i [name it]. apply scalar_item_value. Qed.

Lemma usteer_ubus_get_config_run w :
  usteer_ubus_get_config if_nametoindex objs w =
  match config_ssid_list w with
  | None => Fault NullDeref
  | Some l => if ssids_end l then Ok (config_reply w l, w) else Fault OutOfBounds
  end.
Proof.
  unfold usteer_ubus_get_config, config_data. fold get_step. rewrite get_scalars_run by apply scalar_items_values.
  unfold config_reply. rewrite (option_values_items (T := T)), map_map. set (sc := map _ _). cbn [for_fold].
  unfold get_step, cfg_get, config_get_interfaces, config_get_node_up_script. unfold mbind, M_bind, gets, mret, M_ret.
  cbn [fst snd]. rewrite config_get_ssid_run.
  destruct (config_ssid_list w) as [l|]; [|done]. destruct (ssids_end l); [|done]. cbn. by rewrite <- !app_assoc.
Qed.

Lemma config_policy_options : config_policy (T := T) if_nametoindex objs = option_policy.
Proof. reflexivity. Qed.
End config_spec.
