(* ===== verification/Remote.v ===== *)
(** * The nodes of other instances (remote.c)

    What an instance does with the messages of its peers and with their silence:
    [interface_recv] down to the stations of an announced node, the periodic
    update, and the removal of nodes that are no longer announced.

    The tree of remote nodes is libubox's AVL tree, here as the sequence of its
    elements; [RemoteTree] is its search and its insertion. *)
From S2P Require Import Prelude Blob Timeout Types Table World Ssid Beacon Sta.
From S2P Require Import UbusClient Policy RemoteMsg Parse Beside StaEvent Roam LocalNode.

(** ** The tree *)

(** The [int] of a difference of [unsigned long]s. *)
Definition remote_node_cmp (k1 k2 : Z) : Z := s32 (u64 (k2 - k1)).

(** A comparison that orders the keys in [ks]. *)
Definition orders (cmp : Z -> Z -> Z) (ks : list Z) : Prop :=
  exists f : Z -> Z, forall x y, x ∈ ks -> y ∈ ks ->
    (cmp x y < 0 <-> f x < f y) /\ (0 < cmp x y <-> f y < f x).

Definition tree_sorted (cmp : Z -> Z -> Z) (l : list (Z * string)) : Prop :=
  StronglySorted (fun x y => cmp x.1 y.1 <= 0) l.

(** [avl_find] gives the elements from the one found to the last. Behind the last
    one [avl_next_element] gives a pointer into the head of the tree, never the null
    pointer; [avl_end_key] is what is found there in the place of a key. *)
Class RemoteTree := {
  avl_end_key : Z;
  avl_find : (Z -> Z -> Z) -> Z -> list (Z * string) -> list (Z * string);
  avl_add : (Z -> Z -> Z) -> Z * string -> list (Z * string) -> list (Z * string);
}.

(** In a tree that is in order, a search finds the first element that compares
    equal, and an insertion goes after the elements that are not greater. *)
Class RemoteTreeLaws `{RemoteTree} : Prop := {
  avl_find_spec cmp k l :
    orders cmp (k :: l.*1) -> tree_sorted cmp l ->
    (avl_find cmp k l = [] /\ Forall (fun x => cmp k x.1 ≠ 0) l) \/
    (exists l1 x l2, l = l1 ++ x :: l2 /\ avl_find cmp k l = x :: l2 /\ cmp k x.1 = 0 /\
       Forall (fun y => cmp k y.1 ≠ 0) l1);
  avl_add_perm cmp x l : avl_add cmp x l ≡ₚ x :: l;
  avl_add_sorted cmp x l :
    orders cmp (x.1 :: l.*1) -> tree_sorted cmp l -> tree_sorted cmp (avl_add cmp x l);
}.

(** ** Receiving *)

(** A datagram as [recvmsg] returns it: its length, the one its header claims
    ([blob_pad_len]), the sender's address as text and the attributes. *)
Record datagram := mkDatagram {
  dg_len : Z;
  dg_pad_len : Z;
  dg_scope : Z;  (** [sin6_scope_id] *)
  dg_addr : string;
  dg_data : list (Z * wire);
}.

Inductive recv_result :=
| Received (d : datagram)
| RecvAgain  (** [EAGAIN] *)
| RecvIntr   (** [EINTR] *)
| RecvError. (** any other error *)

(** The bytes of an attribute as a C string, whatever it holds; [None] when no
    terminator follows within the message, so that reading it leaves the message. *)
Class BlobData := blob_data : wire -> option string.
Class BlobDataLaws `{BlobData} : Prop := blob_data_string s : blob_data (WString s) = Some s.

(** [snprintf(ssid, 33, "%s", s)] *)
Definition snprintf33 (s : string) : string := String.substring 0 32 s.

Section remote.
Context {ET : Ether} {BP : BlobParse} {BD : BlobData} {RT : RemoteTree} {T : Type} `{!AvlTree Z ptr T}.

Definition interface_add_station (node : node_id) (data : wire) : M (world T) unit :=
  match parse_apmsg_sta data with
  | None => mret tt
  | Some msg =>
      if ms_timeout msg <=? 0 then mret tt
      else
        sta ← usteer_sta_get (ms_addr msg) true;
        match sta with
        | None => mret tt
        | Some a =>
            r ← usteer_sta_info_get a node true;
            match r with
            | None => mret tt
            | Some (si, _) =>
                upd_si si (fun x => x <| si_connected := b2z (ms_connected msg) |>) ;;
                upd_si si (fun x => x <| si_signal := ms_signal msg |>) ;;
                now ← gets current_time;
                upd_si si (fun x => x <| si_seen := u64 (now - ms_seen msg) |>) ;;
                usteer_sta_info_update_timeout si (ms_timeout msg)
            end
        end
  end.

Definition remote_node_free (k : Z * string) : M (world T) unit :=
  modify (fun w => w <| remote_nodes ::= list_del k |>) ;;
  usteer_sta_node_cleanup (NRemote k.1 k.2) ;;
  modify (fun w => w <| node_heap ::= delete (NRemote k.1 k.2) |> <| rn_heap ::= delete k |>).

(** The loop of [interface_get_node] from the element found; the outer [None] when
    it takes what is behind the last element for a node. *)
Fixpoint find_named (id : Z) (name : string) (l : list (Z * string)) : option (option (Z * string)) :=
  match l with
  | [] => if avl_end_key =? id then None else Some None
  | node :: l' =>
      if node.1 =? id then
        if String.eqb node.2 name then Some (Some node) else find_named id name l'
      else Some None
  end.

(** A node that is there but was not found would be a second one of its identity,
    which the model does not distinguish. *)
Definition interface_get_node (addr : string) (id : Z) (name : string) : M (world T) (Z * string) :=
  l ← gets remote_nodes;
  found ← match avl_find remote_node_cmp id l with
          | [] => mret None
          | node :: rest => deref OutOfBounds (fun _ => find_named id name (node :: rest))
          end;
  match found with
  | Some node => mret node
  | None =>
      if bool_decide ((id, name) ∈ l) then throw DuplicateNode
      else
        modify (fun w => w <| node_heap ::= <[NRemote id name := node_zero]> |>
          <| rn_heap ::= <[(id, name) := mkRemoteNode (addr ++ "#" ++ name) "" 0]> |>) ;;
        modify (fun w => w <| remote_nodes ::= avl_add remote_node_cmp (id, name) |>) ;;
        mret (id, name)
  end.

Definition interface_add_node (iface : string * Z) (addr : string) (id : Z) (data : wire) : M (world T) unit :=
  match parse_apmsg_node data with
  | None => mret tt
  | Some msg =>
      msg_ssid ← deref OutOfBounds (fun _ => blob_data (mn_ssid msg));
      valid ← usteer_is_valid_ssid msg_ssid;
      if negb valid then mret tt
      else
        k ← interface_get_node addr id (mn_name msg);
        let node := NRemote k.1 k.2 in
        upd_rn k (fun r => r <| rn_check := 0 |>) ;;
        upd_node node (fun x => x <| freq := mn_freq msg |> <| n_assoc := mn_n_assoc msg |>
          <| max_assoc := mn_max_assoc msg |> <| noise := mn_noise msg |> <| load := mn_load msg |>) ;;
        upd_rn k (fun r => r <| rn_iface := iface.1 |>) ;;
        upd_node node (fun x => x <| ssid := snprintf33 msg_ssid |>) ;;
        upd_node node (fun x => x <| rrm_nr ::= fun d => usteer_node_set_blob d (mn_rrm_nr msg) |>
          <| script_data ::= fun d => usteer_node_set_blob d (mn_script_data msg) |>) ;;
        b ← deref NullDeref (fun _ => mn_bssid msg);
        msg_bssid ← deref OutOfBounds (fun _ => blob_data b);
        bss ← deref NullDeref (fun _ => ether_aton msg_bssid);
        upd_node node (fun x => x <| bssid := bss |>) ;;
        for_each (fun cur => interface_add_station node cur.2) (mn_stations msg)
  end.

Definition interface_recv_msg (iface : string * Z) (d : datagram) : M (world T) unit :=
  if negb (dg_pad_len d =? dg_len d) then mret tt
  else
    match parse_apmsg (dg_data d) with
    | None => mret tt
    | Some msg =>
        local ← gets local_id;
        if msg_id msg =? local then mret tt
        else for_each (fun cur => interface_add_node iface (dg_addr d) (msg_id msg) cur.2) (msg_nodes msg)
    end.

Definition interface_find_by_ifindex (index : Z) : M (world T) (option (string * Z)) :=
  l ← gets interfaces;
  mret (snd <$> list_find (fun i => i.2 = index) l).

(** [interface_recv] on what the calls of [recvmsg] return; whether the socket is
    still watched afterwards. The loop ends with the last of them. *)
Fixpoint recv_loop (l : list recv_result) : M (world T) bool :=
  match l with
  | [] | RecvAgain :: _ => mret true
  | RecvIntr :: l' => recv_loop l'
  | RecvError :: _ => mret false
  | Received d :: l' =>
      iface ← interface_find_by_ifindex (dg_scope d);
      match iface with
      | None => recv_loop l'
      | Some iface => interface_recv_msg iface d ;; recv_loop l'
      end
  end.

Definition interface_recv (l : list recv_result) : M (world T) bool :=
  cfg ← gets config;
  if negb (remote_disabled cfg) then recv_loop l else mret true.

(** ** The periodic update *)

Definition usteer_check_timeout : M (world T) unit :=
  cfg ← gets config;
  timeout ← deref DivByZero (fun _ =>
    if remote_update_interval cfg =? 0 then None
    else Some (s32 (remote_node_timeout cfg / remote_update_interval cfg)));
  nodes ← gets remote_nodes;
  for_each (fun node =>
    r ← get_rn node;
    upd_rn node (fun r => r <| rn_check ::= fun c => s32 (c + 1) |>) ;;
    when (timeout <? rn_check r) (remote_node_free node)) nodes.

Definition usteer_send_update_timer : M (world T) unit :=
  usteer_update_time ;;
  cfg ← gets config;
  due ← due_in (s32 (remote_update_interval cfg));
  modify (fun w => w <| remote_timer := Some due |>) ;;
  buf ← usteer_update_init;
  nodes ← gets local_nodes;
  c ← for_fold (fun c s => x ← usteer_send_node (NLocal s) None; mret (c ++ [x])) [] nodes;
  usteer_update_send buf c ;;
  usteer_check_timeout.
End remote.

(** ** The order of the tree *)

(** Identifiers within 2^31 of each other, modulo 2^32. *)
Definition ids_close (ids : list Z) : Prop :=
  exists c, Forall (fun i => 0 <= i < 2 ^ 32 /\ u32 (i - c) < 2 ^ 31) ids.

Lemma remote_node_cmp_close c x y :
  u32 (x - c) < 2 ^ 31 -> u32 (y - c) < 2 ^ 31 -> remote_node_cmp x y = u32 (y - c) - u32 (x - c).
Proof. unfold remote_node_cmp. intros. int_lia. Qed.

Lemma ids_close_orders ids : ids_close ids -> orders remote_node_cmp ids.
Proof.
  intros [c Hc]. rewrite list.Forall_forall in Hc. exists (fun i => - u32 (i - c)). intros x y Hx Hy.
  destruct (Hc x Hx), (Hc y Hy). rewrite (remote_node_cmp_close c) by done. lia.
Qed.
Lemma ids_close_eq ids x y :
  ids_close ids -> x ∈ ids -> y ∈ ids -> remote_node_cmp x y = 0 -> x = y.
Proof.
  intros [c Hc] Hx Hy. rewrite list.Forall_forall in Hc. destruct (Hc x Hx), (Hc y Hy).
  rewrite (remote_node_cmp_close c) by done. int_lia.
Qed.
Lemma ids_close_sub ids ids' : (forall x, x ∈ ids' -> x ∈ ids) -> ids_close ids -> ids_close ids'.
Proof.
  intros Hs [c Hc]. exists c. rewrite list.Forall_forall in Hc |- *. auto.
Qed.

(** Elements that are not before [id] in a sorted tree. *)
Lemma find_named_spec `{RemoteTree} id name l :
  id ≠ avl_end_key -> ids_close (id :: l.*1) -> tree_sorted remote_node_cmp l ->
  Forall (fun x => remote_node_cmp id x.1 <= 0) l ->
  find_named id name l = Some (if bool_decide ((id, name) ∈ l) then Some (id, name) else None).
Proof.
  intros Hend Hc. assert (Ho := ids_close_orders _ Hc). induction l as [|x l IH]; intros Hs Hle.
  { simpl. by rewrite (proj2 (Z.eqb_neq _ _)) by done. }
  inversion Hs as [|? ? Hs' Hx]; inversion Hle as [|? ? Hle1 Hle']; subst.
  simpl. destruct (Z.eqb_spec x.1 id) as [He|Hne].
  - destruct (String.eqb_spec x.2 name) as [Hn|Hn].
    + rewrite bool_decide_true by (destruct x; simpl in *; subst; set_solver). destruct x; simpl in *. by subst.
    + rewrite IH; [|..|done|done].
      * erewrite (bool_decide_ext ((id, name) ∈ x :: l) ((id, name) ∈ l)); [done|].
        rewrite elem_of_cons. split; [|by right]. by intros [<-|?].
      * eapply ids_close_sub; [|done]. set_solver.
      * destruct Ho as [f Hf]. exists f. intros a b Ha Hb. apply Hf; set_solver.
  - rewrite bool_decide_false; [done|]. intros [E|Hin]%elem_of_cons; [by subst|].
    destruct Ho as [f Hf]. rewrite list.Forall_forall in Hx. specialize (Hx _ Hin). simpl in Hx.
    assert (x.1 ∈ id :: (x :: l).*1) as Hx1 by set_solver.
    assert (id ∈ id :: (x :: l).*1) as Hid by set_solver.
    assert (remote_node_cmp id x.1 ≠ 0) as Hz.
    { intros E. apply Hne. symmetry. by eapply ids_close_eq. }
    destruct (Hf id x.1 Hid Hx1), (Hf x.1 id Hx1 Hid). lia.
Qed.

Section remote_spec.
Context {ET : Ether} {BP : BlobParse} {BD : BlobData} {RT : RemoteTree} {RTL : RemoteTreeLaws}.
Context {T : Type} `{!AvlTree Z ptr T} `{!AvlLaws Z ptr T}.
Implicit Types (w : world T) (p q : ptr) (si : sta_info) (a : mac) (n : node_id) (k : Z * string).

(** The tree of remote nodes is in order, [id] can be compared with its keys and is
    not what is read behind its end. *)
Record hears (id : Z) w : Prop := {
  he_sorted : tree_sorted remote_node_cmp (remote_nodes w);
  he_close : ids_close (id :: (remote_nodes w).*1);
  he_end : id ≠ avl_end_key;
}.

Lemma find_remote id name w :
  hears id w ->
  match avl_find remote_node_cmp id (remote_nodes w) with
  | [] => Some None
  | node :: rest => find_named id name (node :: rest)
  end = Some (if bool_decide ((id, name) ∈ remote_nodes w) then Some (id, name) else None).
Proof.
  intros [Hs Hc Hend]. assert (Ho := ids_close_orders _ Hc).
  destruct (avl_find_spec _ _ _ Ho Hs) as [[-> Hn]|(l1 & x & l2 & Hl & -> & Hz & Hn)].
  - rewrite bool_decide_false; [done|]. intros Hin. rewrite list.Forall_forall in Hn.
    apply (Hn _ Hin). unfold remote_node_cmp. simpl. by rewrite Z.sub_diag.
  - rewrite Hl in Hc, Hs, Ho |- *. clear Hl.
    assert (Hs2 : tree_sorted remote_node_cmp (x :: l2)).
    { unfold tree_sorted in *. clear -Hs. induction l1 as [|y l1 IH]; [done|]. apply IH. by inversion Hs. }
    rewrite find_named_spec; [|done|..|done|].
    + erewrite (bool_decide_ext (_ ∈ l1 ++ _)); [done|]. rewrite elem_of_app. split; [|by right].
      intros [Hin|?]; [|done]. rewrite list.Forall_forall in Hn. destruct (Hn _ Hin).
      unfold remote_node_cmp. simpl. by rewrite Z.sub_diag.
    + eapply ids_close_sub; [|done]. intros i. rewrite fmap_app. set_solver.
    + constructor; [lia|]. inversion Hs2 as [|? ? _ Hx]; subst.
      assert (id = x.1) as ->; [|done].
      eapply ids_close_eq; [exact Hc|set_solver|rewrite fmap_app; set_solver|done].
Qed.

(** ** Remote nodes come and go *)

(** The statements of [interface_get_node] on a new node. *)
Definition remote_added w addr id name : world T :=
  w <| node_heap ::= <[NRemote id name := node_zero]> |>
    <| rn_heap ::= <[(id, name) := mkRemoteNode (addr ++ "#" ++ name) "" 0]> |>
    <| remote_nodes ::= avl_add remote_node_cmp (id, name) |>.

Lemma inv_remote_added w addr id name :
  inv w -> (id, name) ∉ remote_nodes w -> inv (remote_added w addr id name).
Proof.
  intros [Ht Hq Hsi Hno] Hn. split; [|done|done|].
  - assert (abs (remote_added w addr id name) = abs w <| t_node ::= <[NRemote id name := []]> |>) as ->.
    { unfold abs, remote_added, set_field. simpl. f_equal. by rewrite fmap_insert. }
    apply table_node_add_wf; [done|]. rewrite abs_node.
    destruct (node_heap w !! NRemote id name) eqn:E; [|done]. destruct Hn. apply Hno. eauto.
  - destruct Hno. split; simpl; intros.
    + rewrite lookup_insert_ne by done. auto.
    + rewrite avl_add_perm, elem_of_cons, lookup_insert. case_decide as E; [injection E as -> ->|].
      * split; [eauto|by left].
      * rewrite <- no_remote. split; [intros [?|?]; [congruence|done]|by right].
    + rewrite lookup_insert_ne by done. auto.
    + rewrite !lookup_insert. repeat case_decide; simplify_eq; auto. split; eauto.
    + auto.
    + rewrite avl_add_perm. by apply list.NoDup_cons.
Qed.

Lemma hears_added id w addr name : hears id w -> hears id (remote_added w addr id name).
Proof.
  intros [Hs Hc Hend]. split; simpl; [..|done].
  - apply avl_add_sorted; [|done]. by apply ids_close_orders.
  - eapply ids_close_sub; [|exact Hc]. intros i. rewrite avl_add_perm. set_solver.
Qed.

Lemma interface_get_node_spec addr id name w :
  hears id w ->
  wp (interface_get_node addr id name) (fun r w' => r = (id, name) /\
    w' = if bool_decide ((id, name) ∈ remote_nodes w) then w else remote_added w addr id name) w.
Proof.
  intros Hh. unfold interface_get_node. do 2 wp_step. assert (Hf := find_remote id name w Hh).
  apply wp_bind. eapply wp_mono with (P := fun r w1 => w1 = w /\
    r = if bool_decide ((id, name) ∈ remote_nodes w) then Some (id, name) else None).
  { destruct (avl_find _ _ _) as [|k rest]; [injection Hf as Hf; by apply wp_ret|by eapply wp_deref]. }
  intros r w1 [-> ->]. case_bool_decide as Hin; [by apply wp_ret|]. by wp_steps.
Qed.

(** [usteer_sta_node_cleanup] does not look at the tree of remote nodes. *)
Definition commutes {A} (f : world T -> world T) (m : M (world T) A) : Prop :=
  forall w, m (f w) = match m w with Ok (r, w') => Ok (r, f w') | Fault e => Fault e end.

Lemma commutes_bind {A B} f (m : M (world T) A) (g : A -> M (world T) B) :
  commutes f m -> (forall r, commutes f (g r)) -> commutes f (m ≫= g).
Proof.
  intros Hm Hg w. unfold mbind, M_bind. rewrite Hm. destruct (m w) as [[r w']|e]; [apply Hg|done].
Qed.
Lemma commutes_ret {A} f (r : A) : commutes f (mret r).
Proof. done. Qed.
Lemma commutes_for_each {A} f (body : A -> M (world T) unit) l :
  (forall x, commutes f (body x)) -> commutes f (for_each body l).
Proof. intros Hb. induction l; simpl; [apply commutes_ret|by apply commutes_bind]. Qed.
Lemma commutes_when f c m : commutes f m -> commutes f (when c m).
Proof. intros ?. by destruct c. Qed.

Definition set_remote_nodes (l : list (Z * string)) w : world T := w <| remote_nodes := l |>.

Lemma cleanup_commutes l n : commutes (set_remote_nodes l) (usteer_sta_node_cleanup n).
Proof.
  assert (Hd : forall A e (f : world T -> option A), (forall w, f (set_remote_nodes l w) = f w) ->
    commutes (set_remote_nodes l) (deref e f)).
  { intros A e f Hf w. unfold deref. rewrite Hf. by destruct (f w). }
  assert (Hm : forall g, (forall w, g (set_remote_nodes l w) = set_remote_nodes l (g w)) ->
    commutes (set_remote_nodes l) (modify g)).
  { intros g Hg w. unfold modify. by rewrite Hg. }
  assert (Hg : forall A (f : world T -> A), (forall w, f (set_remote_nodes l w) = f w) ->
    commutes (set_remote_nodes l) (gets f)).
  { intros A f Hf w. unfold gets. by rewrite Hf. }
  unfold usteer_sta_node_cleanup, usteer_sta_info_del, usteer_beacon_report_cleanup, usteer_sta_del,
    upd_node, upd_si, upd_sta, get_node, get_si, get_sta.
  repeat first [apply commutes_bind; [|intros ?] | apply Hd; done | apply Hm; done | apply Hg; done
    | apply commutes_when | apply commutes_for_each; intros ?].
Qed.

(** After [remote_node_free] neither the node nor a station at it is left. *)
Record remote_freed k w w' : Prop := {
  rf_inv : inv w';
  rf_config : config w' = config w;
  rf_time : current_time w' = current_time w;
  rf_clock : clock w' = clock w;
  rf_nodes n : n ≠ NRemote k.1 k.2 -> node_data <$> node_heap w' !! n = node_data <$> node_heap w !! n;
  rf_gone : node_heap w' !! NRemote k.1 k.2 = None;
  rf_ln : ln_heap w' = ln_heap w;
  rf_rn : rn_heap w' = delete k (rn_heap w);
  rf_local : local_nodes w' = local_nodes w;
  rf_remote : remote_nodes w' = list_del k (remote_nodes w);
  rf_si q : si_heap w' !! q =
    match si_heap w !! q with
    | Some si => if decide (si_node si = NRemote k.1 k.2) then None else Some si
    | None => None
    end;
  rf_out : out w' = out w;
  rf_empty : no_empty_sta (abs w) -> no_empty_sta (abs w');
}.

(** The statements of [remote_node_free] but the cleanup. *)
Definition remote_dropped w k : world T :=
  w <| remote_nodes ::= list_del k |> <| node_heap ::= delete (NRemote k.1 k.2) |> <| rn_heap ::= delete k |>.

Lemma inv_remote_dropped w k :
  inv w -> t_node (abs w) !! NRemote k.1 k.2 = Some [] -> inv (remote_dropped w k).
Proof.
  intros [Ht Hq Hsi Hno] Hn. destruct k as [i s]. simpl in Hn. split; [|done|done|].
  - assert (abs (remote_dropped w (i, s)) = abs w <| t_node ::= delete (NRemote i s) |>) as ->.
    { unfold abs, remote_dropped, set_field. simpl. f_equal. apply fmap_delete. }
    by apply table_node_del_wf.
  - destruct Hno. split; simpl; intros; rewrite ?elem_of_list_del, ?lookup_delete; auto.
    + rewrite no_remote. case_decide as E; [injection E as -> ->|].
      * split; [by intros [_ []]|by intros []].
      * split; [by intros []|]. intros ?. split; [done|congruence].
    + repeat case_decide; simplify_eq; auto. split; by intros [].
Qed.

Lemma remote_node_free_spec k x w :
  inv w -> node_heap w !! NRemote k.1 k.2 = Some x ->
  wp (remote_node_free k) (fun _ w' => remote_freed k w w') w.
Proof.
  intros Hi Hx. unfold remote_node_free. do 2 wp_step.
  destruct (proj1 (wp_ok _ _ _) (usteer_sta_node_cleanup_spec _ _ w Hi Hx)) as ([] & w1 & Hrun & Hr & He).
  apply wp_bind. apply wp_ok. eexists tt, (set_remote_nodes (list_del k (remote_nodes w)) w1).
  split; [|apply wp_modify].
  { change (w <| remote_nodes ::= list_del k |>) with (set_remote_nodes (list_del k (remote_nodes w)) w).
    by rewrite cleanup_commutes, Hrun. }
  assert (Hfr := sr_frame _ _ _ Hr). assert (Hrem := fr_remote _ _ Hfr). simpl in Hrem.
  assert (Hw' : set_remote_nodes (list_del k (remote_nodes w)) w1 <| node_heap ::= delete (NRemote k.1 k.2) |>
    <| rn_heap ::= delete k |> = remote_dropped w1 k) by (unfold remote_dropped, set_field; simpl; by rewrite Hrem).
  match goal with |- remote_freed _ _ ?w2 => change w2 with
    (set_remote_nodes (list_del k (remote_nodes w)) w1 <| node_heap ::= delete (NRemote k.1 k.2) |>
    <| rn_heap ::= delete k |>) end. rewrite Hw'. clear Hw'.
  split; simpl.
  - apply inv_remote_dropped; [apply Hr|done].
  - apply (fr_config _ _ Hfr).
  - apply (fr_time _ _ Hfr).
  - apply (fr_clock _ _ Hfr).
  - intros n Hn. rewrite lookup_delete_ne by done. rewrite (frame_node_data _ _ n Hfr). simpl.
    by rewrite lookup_insert_ne.
  - apply lookup_delete_eq.
  - apply (fr_ln _ _ Hfr).
  - by rewrite (fr_rn _ _ Hfr).
  - apply (fr_local _ _ Hfr).
  - by rewrite Hrem.
  - intros q. rewrite (sr_heap _ _ _ Hr). simpl. destruct (si_heap w !! q) as [si|] eqn:Hq; [|by case_decide].
    destruct (inv_si_node w q si Hi Hq) as (y & Hy & Hin).
    repeat case_decide; try done.
    + destruct (inv_node_si w _ x q Hi Hx) as (si' & ? & ?); [done|]. congruence.
    + congruence.
  - apply (sr_out _ _ _ Hr).
  - apply (sr_empty _ _ _ Hr).
Qed.
End remote_spec.

(** ** Silence *)

Lemma filter_true {A} (P : A -> Prop) `{forall x, Decision (P x)} (l : list A) :
  (forall x, P x) -> filter P l = l.
Proof. intros HP. induction l as [|x l IH]; [done|]. rewrite filter_cons_True by done. by rewrite IH. Qed.

Section check_timeout.
Context {T : Type} `{!AvlTree Z ptr T} `{!AvlLaws Z ptr T}.
Implicit Types (w : world T) (q : ptr) (si : sta_info) (n : node_id) (k : Z * string).
Variable timeout : Z.

(** The node was not heard of for more than [timeout] updates. *)
Definition expired w k : bool :=
  match rn_heap w !! k with Some r => timeout <? rn_check r | None => false end.
Definition dead (don : list (Z * string)) w n : bool :=
  match n with
  | NLocal _ => false
  | NRemote i s => bool_decide ((i, s) ∈ don) && expired w (i, s)
  end.

(** The nodes of [don] are looked at: the expired ones are gone with all their
    [sta_info]s, the others have aged by one update; nothing else changed. *)
Record nodes_checked (don : list (Z * string)) w w' : Prop := {
  nc_inv : inv w';
  nc_config : config w' = config w;
  nc_time : current_time w' = current_time w;
  nc_clock : clock w' = clock w;
  nc_ln : ln_heap w' = ln_heap w;
  nc_local : local_nodes w' = local_nodes w;
  nc_rn k : rn_heap w' !! k =
    match rn_heap w !! k with
    | Some r =>
        if decide (k ∈ don)
        then if timeout <? rn_check r then None else Some (r <| rn_check := s32 (rn_check r + 1) |>)
        else Some r
    | None => None
    end;
  nc_nodes n : node_data <$> node_heap w' !! n = if dead don w n then None else node_data <$> node_heap w !! n;
  nc_remote : remote_nodes w' = filter (fun k => dead don w (NRemote k.1 k.2) = false) (remote_nodes w);
  nc_si q : si_heap w' !! q =
    match si_heap w !! q with
    | Some si => if dead don w (si_node si) then None else Some si
    | None => None
    end;
  nc_out : out w' = out w;
  nc_empty : no_empty_sta (abs w) -> no_empty_sta (abs w');
}.

Lemma nodes_checked_nil w : inv w -> nodes_checked [] w w.
Proof.
  intros Hi. split; try done.
  - intros k. by destruct (rn_heap w !! k).
  - by intros [].
  - symmetry. by apply filter_true.
  - intros q. destruct (si_heap w !! q) as [si|]; [|done]. by destruct (si_node si).
Qed.

Lemma dead_snoc don k w n :
  dead (don ++ [k]) w n = dead don w n || (bool_decide (n = NRemote k.1 k.2) && expired w k).
Proof.
  destruct n as [s|i s]; [done|]. cbn [dead].
  destruct (decide ((i, s) = k)) as [<-|Hne]; simpl.
  - assert (H : (i, s) ∈ don ++ [(i, s)]) by set_solver.
    repeat case_bool_decide; try done. by destruct (expired w (i, s)).
  - assert (NRemote i s ≠ NRemote k.1 k.2) by (destruct k; simpl; congruence).
    assert ((i, s) ∈ don ++ [k] <-> (i, s) ∈ don) by set_solver.
    repeat case_bool_decide; try tauto; by destruct (expired w (i, s)).
Qed.

Lemma nodes_checked_step don k rest w w1 :
  inv w -> remote_nodes w = don ++ k :: rest -> nodes_checked don w w1 ->
  wp (r ← get_rn k;
      upd_rn k (fun r => r <| rn_check ::= fun c => s32 (c + 1) |>) ;;
      when (timeout <? rn_check r) (remote_node_free k))
     (fun _ w2 => nodes_checked (don ++ [k]) w w2) w1.
Proof.
  intros Hi Hl Hc.
  assert (Hnd : k ∉ don).
  { assert (H := no_remote_nodup _ (inv_nodes _ Hi)). rewrite Hl in H.
    apply list.NoDup_app in H as (_ & H & _). intros ?. eapply H; [done|set_solver]. }
  destruct (proj2 (no_rn _ (inv_nodes _ Hi) k.1 k.2)) as [r Hr].
  { apply (no_remote _ (inv_nodes _ Hi)). rewrite Hl. destruct k. set_solver. }
  rewrite <- surjective_pairing in Hr.
  assert (Hr1 : rn_heap w1 !! k = Some r) by (rewrite (nc_rn _ _ _ Hc), Hr; by rewrite decide_False).
  apply wp_bind. eapply wp_get_rn; [done|]. apply wp_bind. eapply wp_upd_rn; [done|].
  change (r <| rn_check ::= fun c => s32 (c + 1) |>) with (r <| rn_check := s32 (rn_check r + 1) |>).
  set (w1' := w1 <| rn_heap ::= _ |>).
  assert (Hi1 : inv w1') by (eapply inv_set_rn; [apply Hc|done]).
  assert (Hdead : forall n, dead (don ++ [k]) w n = dead don w n || (bool_decide (n = NRemote k.1 k.2) && (timeout <? rn_check r))).
  { intros n. rewrite dead_snoc. unfold expired. by rewrite Hr. }
  apply wp_when; intros Hexp.
  - destruct (proj1 (no_rn _ (inv_nodes _ (nc_inv _ _ _ Hc)) k.1 k.2)) as [x Hx].
    { rewrite <- surjective_pairing. eauto. }
    eapply wp_mono; [by apply (remote_node_free_spec k x)|]. intros [] w2 H2. destruct H2, Hc. simpl in *.
    setoid_rewrite Hexp in Hdead. split; try congruence.
    + intros j. rewrite rf_rn0, lookup_delete, lookup_insert, nc_rn0.
      destruct (decide (k = j)) as [<-|]; [rewrite Hr, decide_True by set_solver; by rewrite Hexp|].
      destruct (rn_heap w !! j); [|done]. repeat case_decide; set_solver.
    + intros n. rewrite Hdead. destruct (decide (n = NRemote k.1 k.2)) as [->|Hn].
      * rewrite rf_gone0, bool_decide_true by done. by rewrite orb_true_r.
      * rewrite rf_nodes0, bool_decide_false by done. rewrite orb_false_r. apply nc_nodes0.
    + rewrite rf_remote0, nc_remote0. unfold list_del. rewrite list_filter_filter.
      apply list_filter_iff. intros j. rewrite Hdead, orb_false_iff, andb_true_r, bool_decide_eq_false.
      destruct j, k. simpl. naive_solver congruence.
    + intros q. rewrite rf_si0, nc_si0. destruct (si_heap w !! q) as [si|]; [|done]. rewrite Hdead.
      destruct (dead don w (si_node si)); [done|]. simpl. rewrite andb_true_r.
      by case_decide; [rewrite bool_decide_true by done|rewrite bool_decide_false by done].
    + auto.
  - rewrite Hexp in Hdead. setoid_rewrite andb_false_r in Hdead. setoid_rewrite orb_false_r in Hdead.
    destruct Hc. split; try done.
    + intros j. simpl. rewrite lookup_insert, nc_rn0.
      destruct (decide (k = j)) as [<-|]; [rewrite Hr, decide_True by set_solver; by rewrite Hexp|].
      destruct (rn_heap w !! j); [|done]. repeat case_decide; set_solver.
    + intros n. rewrite Hdead. apply nc_nodes0.
    + etrans; [exact nc_remote0|]. apply list_filter_iff. intros j. by rewrite Hdead.
    + intros q. simpl. rewrite nc_si0. destruct (si_heap w !! q) as [si|]; [|done]. by rewrite Hdead.
Qed.
End check_timeout.

Section update_spec.
Context {ET : Ether} {T : Type} `{!AvlTree Z ptr T} `{!AvlLaws Z ptr T}.
Implicit Types (w : world T) (s : string).

(** How many updates a node may miss. *)
Definition missable (cfg : usteer_config) : Z := s32 (remote_node_timeout cfg / remote_update_interval cfg).

Lemma usteer_check_timeout_spec w :
  inv w -> remote_update_interval (config w) ≠ 0 ->
  wp usteer_check_timeout (fun _ w' => nodes_checked (missable (config w)) (remote_nodes w) w w') w.
Proof.
  intros Hi Hz. unfold usteer_check_timeout. do 2 wp_step. apply wp_bind. eapply wp_deref.
  { by rewrite (proj2 (Z.eqb_neq _ _) Hz). }
  do 2 wp_step. apply (wp_for_each (fun don _ w1 => nodes_checked (missable (config w)) don w w1)).
  - by apply nodes_checked_nil.
  - intros don k rest w1 Hl Hc. by eapply nodes_checked_step.
  - done.
Qed.

(** The stations of a node as its list has them. *)
Definition sis_of w (x : usteer_node) : list sta_info := omap (fun p => si_heap w !! p) (node_sta_info x).

Lemma usteer_send_node_spec s x w :
  inv w -> node_heap w !! NLocal s = Some x ->
  wp (usteer_send_node (NLocal s) None) (fun r w' => r = node_msg w s x (sis_of w x) /\ w' = w) w.
Proof.
  intros Hi Hx. unfold usteer_send_node. do 4 wp_step. apply wp_bind. eapply wp_deref; [done|].
  apply wp_bind. eapply wp_get_node; [done|]. apply wp_bind.
  eapply wp_mono with (P := fun r w1 => r = announced w (sis_of w x) /\ w1 = w).
  { unfold announced. destruct (remote_disabled (config w)); [by apply wp_ret|].
    eapply wp_mono; [apply (wp_for_fold (fun don _ acc w1 => w1 = w /\
      acc = map (usteer_send_sta_info (config w) (current_time w)) (omap (fun p => si_heap w !! p) don)))|].
    - done.
    - intros don p rest acc w1 Hl [-> ->].
      destruct (inv_node_si w (NLocal s) x p Hi Hx) as (si & Hp & _); [rewrite Hl; set_solver|].
      apply wp_bind. eapply wp_get_si; [done|]. apply wp_ret. split; [done|].
      rewrite omap_app, map_app. simpl. by rewrite Hp.
    - by intros r w1 [-> ->]. }
  intros r w1 [-> ->]. by apply wp_ret.
Qed.

(** One message for each node of the instance, in the order of the tree. *)
Definition own_node w s : option (Z * wire) :=
  (fun x => node_msg w s x (sis_of w x)) <$> node_heap w !! NLocal s.
Definition own_nodes w : list (Z * wire) := omap (own_node w) (local_nodes w).

(** The state in which the update is made up. *)
Definition update_due w : world T :=
  time_updated w <| remote_timer := Some (ts_ms (clock w) + s32 (remote_update_interval (config w))) |>.

Lemma inv_update_due w : inv w -> inv (update_due w).
Proof. intros Hi. destruct (inv_time w Hi) as [? ? ? []]. by split; [..|split]. Qed.

Lemma usteer_send_update_timer_spec w :
  inv w -> remote_update_interval (config w) ≠ 0 ->
  let w1 := update_due w in
  wp usteer_send_update_timer (fun _ w' =>
    nodes_checked (missable (config w)) (remote_nodes w) (updated w1 (own_nodes w1)) w') w.
Proof.
  intros Hi Hz w1. unfold usteer_send_update_timer. apply wp_bind, wp_modify. fold (time_updated w).
  do 2 wp_step. apply wp_bind, due_in_spec. apply wp_bind, wp_modify.
  match goal with |- wp _ _ ?w' => change w' with w1 end.
  assert (Hi1 : inv w1) by by apply inv_update_due.
  unfold usteer_update_init. wp_steps.
  match goal with |- wp _ _ ?w' => change w' with (w1 <| msg_seq ::= fun x => u32 (x + 1) |>) end.
  set (w2 := w1 <| msg_seq ::= _ |>).
  assert (Hi2 : inv w2) by (destruct Hi1 as [? ? ? []]; by split; [..|split]).
  eapply wp_mono with (P := fun c w3 => c = own_nodes w1 /\ w3 = w2).
  { change (local_nodes w) with (local_nodes w2).
    eapply wp_mono; [apply (wp_for_fold (fun don _ c w3 => w3 = w2 /\ c = omap (own_node w1) don))|].
    - done.
    - intros don s rest c w3 Hl [-> ->].
      destruct (proj1 (no_local _ (inv_nodes _ Hi2) s)) as [x Hx]; [rewrite Hl; set_solver|].
      apply wp_bind. eapply wp_mono; [by eapply usteer_send_node_spec|]. intros r w3 [-> ->].
      apply wp_ret. split; [done|]. rewrite omap_app. simpl. unfold own_node.
      change (node_heap w1) with (node_heap w2). by rewrite Hx.
    - by intros c w3 [-> ->]. }
  intros c w3 [-> ->]. apply wp_bind. apply wp_ok. eexists _, _. split; [apply update_send_run|].
  cbv beta. apply (usteer_check_timeout_spec (updated w1 (own_nodes w1))); [by apply inv_updated|done].
Qed.
End update_spec.

(** ** What is heard of a peer *)
Section heard.
Context {ET : Ether} {BP : BlobParse} {BD : BlobData} {RT : RemoteTree} {RTL : RemoteTreeLaws}.
Context {T : Type} `{!AvlTree Z ptr T} `{!AvlLaws Z ptr T}.
Implicit Types (w : world T) (p q : ptr) (si : sta_info) (a : mac) (n : node_id) (k : Z * string).

(** What a message says about a station that is taken over. *)
Definition sta_accepted (data : wire) : option apmsg_sta :=
  msg ← parse_apmsg_sta data;
  if ms_timeout msg <=? 0 then None else Some msg.

Definition station_heard (now : Z) (msg : apmsg_sta) (si : sta_info) : sta_info :=
  si <| si_connected := b2z (ms_connected msg) |> <| si_signal := ms_signal msg |>
     <| si_seen := u64 (now - ms_seen msg) |>.

Record station_added n (x : usteer_node) (msg : apmsg_sta) p (create : bool) si w w' : Prop := {
  sn_inv : inv w';
  sn_frame : frame w w';
  sn_old : if create then si = calloc_sta_info (ms_addr msg) n (freq x) (current_time w) /\ si_heap w !! p = None
           else si_heap w !! p = Some si;
  sn_key : si_key si = (ms_addr msg, n);
  sn_new : si_heap w' !! p = Some (station_heard (current_time w) msg si);
  sn_others q : q ≠ p -> si_heap w' !! q = si_heap w !! q;
  sn_tq : tq w' = if ms_connected msg then usteer_timeout_cancel p (tq w)
                  else usteer_timeout_set (clock w) p (ms_timeout msg) (tq w);
  sn_out : out w' = out w;
  sn_beside : beside (eq n) w w';
  sn_empty : no_empty_sta (abs w) -> no_empty_sta (abs w');
}.

(** The signal of a station that is taken over is in range. *)
Definition sta_signal_ok (data : wire) : Prop := forall msg, sta_accepted data = Some msg -> signal_ok (ms_signal msg).

Lemma interface_add_station_spec n data x w :
  inv w -> node_heap w !! n = Some x -> sta_signal_ok data ->
  wp (interface_add_station n data) (fun _ w' =>
    match sta_accepted data with
    | Some msg => exists p create si, station_added n x msg p create si w w'
    | None => w' = w
    end) w.
Proof.
  intros Hi Hx Hok. unfold interface_add_station. unfold sta_signal_ok, sta_accepted in *.
  destruct (parse_apmsg_sta data) as [msg|]; simpl in Hok |- *; [|by apply wp_ret].
  destruct (Z.leb_spec (ms_timeout msg) 0) as [|Ht]; simpl; [by apply wp_ret|]. specialize (Hok msg eq_refl).
  apply wp_bind. eapply wp_mono; [apply wp_conj; [by apply usteer_sta_get_there|apply (usteer_sta_get_beside (eq n))]|].
  intros r w1 [[-> Hst] Hb1].
  assert (Hn1 : is_Some (stations w1 !! ms_addr msg)) by apply Hst. destruct Hn1 as [s1 Hs1].
  assert (Hx1 : exists x1, node_heap w1 !! n = Some x1).
  { destruct (frame_node_Some _ _ _ _ (st_frame _ _ _ Hst) Hx) as (x1 & ? & _). by exists x1. }
  destruct Hx1 as [x1 Hx1].
  apply wp_bind. eapply wp_mono.
  { apply wp_conj; [by eapply ensured_intro|].
    by eapply (usteer_sta_info_get_beside (eq n)); [apply Hst|exact Hs1|exact Hx1|]. }
  intros r w2 [(p & create & si & -> & []) Hb2]. apply wp_bind. eapply wp_upd_si; [done|].
  apply wp_bind. eapply wp_upd_si; [simpl; apply lookup_insert_eq|]. do 2 wp_step. apply wp_bind.
  eapply wp_upd_si; [simpl; apply lookup_insert_eq|]. simpl. rewrite !insert_insert_eq.
  set (si' := station_heard (current_time w2) msg si). set (w3 := w2 <| si_heap ::= <[p := si']> |>).
  match goal with |- wp _ _ ?w' => change w' with w3 end.
  assert (Hi3 : inv w3).
  { eapply inv_set_si; [done..|]. destruct (inv_si _ en_inv p si en_si) as (? & ? & _). by split. }
  assert (Hp3 : si_heap w3 !! p = Some si') by apply lookup_insert_eq.
  assert (Hn : n = si_node si) by (unfold si_key in en_key; congruence).
  eapply wp_mono; [apply wp_conj; [by eapply usteer_sta_info_update_timeout_spec|]|].
  { by eapply (update_timeout_beside (eq n)). }
  intros [] w4 [[Hi4 Ht4] Hb4].
  exists p, create, si. destruct (timeout_updated_pos _ _ _ _ _ Ht Ht4) as (Hf & Hh & _ & _ & Ho & Ha).
  split; try done.
  - etrans; [exact en_frame|]. etrans; [|exact Hf]. by split.
  - rewrite Hh, <- (fr_time _ _ en_frame). exact Hp3.
  - intros q Hq. rewrite Hh. unfold w3. simpl. rewrite lookup_insert_ne by done. auto.
  - unfold timeout_updated in Ht4. rewrite (proj2 (Z.ltb_lt _ _) Ht) in Ht4.
    change (si_connected si') with (b2z (ms_connected msg)) in Ht4.
    destruct (ms_connected msg); simpl in Ht4; rewrite Ht4; simpl; rewrite en_tq; [done|].
    by rewrite (fr_clock _ _ en_frame).
  - by rewrite Ho.
  - etrans; [exact Hb1|]. etrans; [exact Hb2|]. etrans; [|exact Hb4]. by eapply beside_si.
  - intros He. unfold no_empty_sta. rewrite Ha.
    change (abs w3) with (abs (w2 <| si_heap ::= <[p := si']> |>)). erewrite abs_set_si by done.
    destruct (si_connected si' =? 1); exact (en_empty He).
Qed.

(** The [sta_info]s at node [n] are those that were there and those of the
    stations of [msgs], which are as their message says. *)
Record sis_heard n (msgs : list apmsg_sta) w w' : Prop := {
  sh_others q si : si_heap w !! q = Some si -> si_node si ≠ n \/ si_sta si ∉ ms_addr <$> msgs ->
    si_heap w' !! q = Some si;
  sh_only q si' : si_heap w' !! q = Some si' ->
    (exists si, si_heap w !! q = Some si /\ si_key si' = si_key si) \/
    (si_node si' = n /\ si_sta si' ∈ ms_addr <$> msgs);
  sh_kept q si : si_heap w !! q = Some si -> exists si', si_heap w' !! q = Some si' /\ si_key si' = si_key si;
  sh_there msg : msg ∈ msgs -> exists q si', si_heap w' !! q = Some si' /\ si_key si' = (ms_addr msg, n);
  sh_heard : NoDup (ms_addr <$> msgs) -> forall msg, msg ∈ msgs -> exists p si,
    si_heap w' !! p = Some (station_heard (current_time w) msg si) /\ si_key si = (ms_addr msg, n);
}.

Record stations_added n (msgs : list apmsg_sta) w w' : Prop := {
  sa_inv : inv w';
  sa_frame : frame w w';
  sa_sis : sis_heard n msgs w w';
  sa_out : out w' = out w;
  sa_beside : beside (eq n) w w';
  sa_empty : no_empty_sta (abs w) -> no_empty_sta (abs w');
}.

Lemma sis_heard_snoc n x msg msgs p create si w w1 w2 :
  frame w w1 -> sis_heard n msgs w w1 -> station_added n x msg p create si w1 w2 ->
  sis_heard n (msgs ++ [msg]) w w2.
Proof.
  intros Hf [Ho Hon Hk Hth Hh] [? ? Hold Hkey Hnew Hoth _ _ _ _]. assert (Ht := fr_time _ _ Hf).
  assert (Hfa : forall l, (ms_addr <$> (l ++ [msg])) = (ms_addr <$> l) ++ [ms_addr msg]) by (intros; by rewrite fmap_app).
  assert (Hkey' : si_key (station_heard (current_time w1) msg si) = (ms_addr msg, n)) by exact Hkey.
  assert (Hkept : forall q key, (exists sq, si_heap w1 !! q = Some sq /\ si_key sq = key) ->
    exists sq', si_heap w2 !! q = Some sq' /\ si_key sq' = key).
  { intros q key (sq & Hq & <-). destruct (decide (q = p)) as [->|Hne]; [|exists sq; by rewrite Hoth].
    eexists. split; [exact Hnew|]. destruct create; [by destruct Hold; congruence|].
    assert (sq = si) as -> by congruence. congruence. }
  split.
  - intros q sq Hq Hn. rewrite Hoth; [apply Ho; [done|]|].
    + rewrite Hfa in Hn. set_solver.
    + intros ->. destruct create.
      * destruct Hold as [_ Hno]. rewrite (Ho p sq Hq) in Hno; [done|]. rewrite Hfa in Hn. set_solver.
      * rewrite (Ho p sq Hq) in Hold; [|rewrite Hfa in Hn; set_solver]. simplify_eq.
        unfold si_key in Hkey. injection Hkey as Ha Hnn. rewrite Hfa in Hn. set_solver.
  - intros q sq Hq. rewrite Hfa. destruct (decide (q = p)) as [->|Hne].
    + right. assert (sq = station_heard (current_time w1) msg si) as -> by congruence.
      unfold si_key in Hkey'. injection Hkey' as Ha Hnn. split; [exact Hnn|].
      change (si_sta si ∈ (ms_addr <$> msgs) ++ [ms_addr msg]). replace (si_sta si) with (ms_addr msg) by done. set_solver.
    + rewrite Hoth in Hq by done. destruct (Hon q sq Hq) as [?|[? ?]]; [by left|right]. set_solver.
  - intros q sq Hq. apply Hkept. by apply Hk.
  - intros m [Hm|Hm%list_elem_of_singleton]%elem_of_app.
    + destruct (Hth m Hm) as (q & sq & Hq & Hkq). destruct (Hkept q (ms_addr m, n)) as (sq' & ? & ?); eauto.
    + subst m. eauto.
  - rewrite Hfa. intros (Hnd & Hni & _)%list.NoDup_app m [Hm|Hm%list_elem_of_singleton]%elem_of_app.
    + destruct (Hh Hnd m Hm) as (p' & si' & Hp' & Hk'). exists p', si'. split; [|done].
      rewrite Hoth; [done|]. intros ->.
      assert (Hne : ms_addr m ≠ ms_addr msg).
      { intros E. apply (Hni (ms_addr m)); [by apply list_elem_of_fmap_2|rewrite E; set_solver]. }
      destruct create; [destruct Hold; congruence|].
      assert (si = station_heard (current_time w) m si') as -> by congruence.
      unfold si_key in *. simpl in Hkey. congruence.
    + subst m. exists p, si. by rewrite <- Ht.
Qed.

Lemma add_stations_spec n l x w :
  inv w -> node_heap w !! n = Some x -> Forall (fun cur : Z * wire => sta_signal_ok cur.2) l ->
  wp (for_each (fun cur : Z * wire => interface_add_station n cur.2) l)
     (fun _ w' => stations_added n (omap (fun cur => sta_accepted cur.2) l) w w') w.
Proof.
  intros Hi Hx Hok.
  apply (wp_for_each (fun don _ w' => stations_added n (omap (fun cur => sta_accepted cur.2) don) w w')).
  - split; try done. split; [done| |by eauto|..].
    + intros q si Hq. left. eauto.
    + intros m Hm. by apply elem_of_nil in Hm.
    + intros _ m Hm. simpl in Hm. by apply elem_of_nil in Hm.
  - intros don cur rest w1 Hl [Hi1 Hf1 Hs1 Ho1 Hb1 He1].
    assert (Hsg : sta_signal_ok cur.2) by (rewrite Hl in Hok; by apply list.Forall_app in Hok as [_ [? _]%list.Forall_cons]).
    destruct (frame_node_Some _ _ _ _ Hf1 Hx) as (x1 & Hx1 & _).
    eapply wp_mono; [by eapply interface_add_station_spec|]. intros [] w2 H2.
    rewrite omap_app. simpl. destruct (sta_accepted cur.2) as [msg|].
    + destruct H2 as (p & create & si & H2). assert (H2' := H2). destruct H2'. split; try congruence.
      * by etrans.
      * by eapply sis_heard_snoc.
      * by etrans.
      * auto.
    + subst w2. rewrite app_nil_r. by split.
  - done.
Qed.
End heard.

Section node_heard.
Context {ET : Ether} {BP : BlobParse} {BD : BlobData} {RT : RemoteTree} {RTL : RemoteTreeLaws}.
Context {T : Type} `{!AvlTree Z ptr T} `{!AvlLaws Z ptr T}.
Implicit Types (w : world T) (p q : ptr) (si : sta_info) (a : mac) (n : node_id) (k : Z * string).

(** The SSID check as a function of the configured list. *)
Definition servesb (l : option (list string)) (s : string) : bool :=
  match l with None => true | Some l => valid_ssid_scan true s l end.

Lemma servesb_serves l s : servesb l s = true <-> serves l s.
Proof.
  destruct l as [l|]; [|done]. simpl. rewrite valid_ssid_scan_true. destruct l; naive_solver.
Qed.

Definition msg_bssid (msg : apmsg_node) : option mac :=
  v ← mn_bssid msg; str ← blob_data v; ether_aton str.

(** What a message says about a node that is taken over. *)
Definition node_accepted (ssids : option (list string)) (data : wire) : option apmsg_node :=
  msg ← parse_apmsg_node data;
  str ← blob_data (mn_ssid msg);
  if servesb ssids str then Some msg else None.

Definition heard_data (msg : apmsg_node) (b : mac) (x : usteer_node) : usteer_node :=
  mkNode (node_sta_info x) (mn_rrm_nr msg) (mn_script_data msg) (snprintf33 (default ""%string (blob_data (mn_ssid msg)))) b
    (mn_freq msg) (mn_noise msg) (mn_n_assoc msg) (mn_max_assoc msg) (mn_load msg).

Definition msg_stations (msg : apmsg_node) : list apmsg_sta :=
  omap (fun cur => sta_accepted cur.2) (mn_stations msg).

(** What makes a node in a message safe to take over: its SSID can be read, and when
    that is served, its BSSID too, and the signals of its stations are in range. *)
Definition node_ok (ssids : option (list string)) (data : wire) : Prop :=
  forall msg, parse_apmsg_node data = Some msg ->
    is_Some (blob_data (mn_ssid msg)) /\
    (node_accepted ssids data = Some msg ->
     is_Some (msg_bssid msg) /\ Forall (fun cur : Z * wire => sta_signal_ok cur.2) (mn_stations msg)).

Definition heard_rn (iface : string * Z) (addr : string) (name : string) (o : option usteer_remote_node) :
    usteer_remote_node :=
  mkRemoteNode (match o with Some r => rn_name r | None => addr ++ "#" ++ name end) iface.1 0.

(** The parts of the state that a message does not touch. *)
Record own_kept w w' : Prop := {
  ok_config : config w' = config w;
  ok_time : current_time w' = current_time w;
  ok_clock : clock w' = clock w;
  ok_ln : ln_heap w' = ln_heap w;
  ok_local : local_nodes w' = local_nodes w;
  ok_ifaces : interfaces w' = interfaces w;
  ok_id : local_id w' = local_id w;
  ok_ssids : config_ssid_list w' = config_ssid_list w;
  ok_out : out w' = out w;
}.
#[export] Instance own_kept_preorder : PreOrder own_kept.
Proof.
  split; [by intros w|]. intros w1 w2 w3 [] []. split; congruence.
Qed.
Lemma frame_own_kept w w' : frame w w' -> out w' = out w -> own_kept w w'.
Proof. intros [] ?. by split. Qed.

(** Node [name] of instance [id] was announced by [msg]. *)
Record node_heard (iface : string * Z) (addr : string) (id : Z) (msg : apmsg_node) (b : mac) w w' : Prop := {
  nh_inv : inv w';
  nh_hears : hears id w';
  nh_own : own_kept w w';
  nh_remote k : k ∈ remote_nodes w' <-> k ∈ remote_nodes w \/ k = (id, mn_name msg);
  nh_node : node_data <$> node_heap w' !! NRemote id (mn_name msg) = Some (node_data (heard_data msg b node_zero));
  nh_nodes n : n ≠ NRemote id (mn_name msg) ->
    node_data <$> node_heap w' !! n = node_data <$> node_heap w !! n;
  nh_rn : rn_heap w' = <[(id, mn_name msg) := heard_rn iface addr (mn_name msg) (rn_heap w !! (id, mn_name msg))]>
    (rn_heap w);
  nh_sis : sis_heard (NRemote id (mn_name msg)) (msg_stations msg) w w';
  nh_beside : beside (eq (NRemote id (mn_name msg))) w w';
  nh_empty : no_empty_sta (abs w) -> no_empty_sta (abs w');
}.

Lemma set_blob {A} (d v : option A) : usteer_node_set_blob d v = v.
Proof. by destruct v. Qed.

(** The fields of a node that is there. *)
Lemma set_fields_spec (iface : string * Z) id msg ss b bs v x r w (Q : unit -> world T -> Prop) (rest : M (world T) unit) :
  let k := (id, mn_name msg) in
  let node := NRemote k.1 k.2 in
  inv w -> node_heap w !! node = Some x -> rn_heap w !! k = Some r ->
  blob_data (mn_ssid msg) = Some ss ->
  mn_bssid msg = Some v -> blob_data v = Some bs -> ether_aton bs = Some b ->
  wp rest Q (w <| node_heap ::= <[node := heard_data msg b x]> |>
              <| rn_heap ::= <[k := mkRemoteNode (rn_name r) iface.1 0]> |>) ->
  wp (upd_rn k (fun r => r <| rn_check := 0 |>) ;;
      upd_node node (fun x => x <| freq := mn_freq msg |> <| n_assoc := mn_n_assoc msg |>
        <| max_assoc := mn_max_assoc msg |> <| noise := mn_noise msg |> <| load := mn_load msg |>) ;;
      upd_rn k (fun r => r <| rn_iface := iface.1 |>) ;;
      upd_node node (fun x => x <| ssid := snprintf33 ss |>) ;;
      upd_node node (fun x => x <| rrm_nr ::= fun d => usteer_node_set_blob d (mn_rrm_nr msg) |>
        <| script_data ::= fun d => usteer_node_set_blob d (mn_script_data msg) |>) ;;
      b ← deref NullDeref (fun _ => mn_bssid msg);
      str ← deref OutOfBounds (fun _ => blob_data b);
      bss ← deref NullDeref (fun _ => ether_aton str);
      upd_node node (fun x => x <| bssid := bss |>) ;;
      rest) Q w.
Proof.
  intros k node Hi Hx Hr Hss Hv Hbs Hb HQ. unfold heard_data in HQ. rewrite Hss in HQ.
  apply wp_bind. eapply wp_upd_rn; [done|]. apply wp_bind. eapply wp_upd_node; [done|].
  apply wp_bind. eapply wp_upd_rn; [simpl; apply lookup_insert_eq|]. apply wp_bind.
  eapply wp_upd_node; [simpl; apply lookup_insert_eq|]. apply wp_bind.
  eapply wp_upd_node; [simpl; apply lookup_insert_eq|]. apply wp_bind. eapply wp_deref; [done|].
  apply wp_bind. eapply wp_deref; [done|]. apply wp_bind. eapply wp_deref; [done|]. apply wp_bind.
  eapply wp_upd_node; [simpl; apply lookup_insert_eq|].
  simpl. rewrite !set_blob, !insert_insert_eq. exact HQ.
Qed.

Lemma interface_add_node_spec iface addr id data w :
  inv w -> hears id w ->
  node_ok (config_ssid_list w) data ->
  wp (interface_add_node iface addr id data) (fun _ w' =>
    match node_accepted (config_ssid_list w) data with
    | Some msg => exists b, msg_bssid msg = Some b /\ node_heard iface addr id msg b w w'
    | None => w' = w
    end) w.
Proof.
  intros Hi Hh Hok. unfold interface_add_node. unfold node_ok, node_accepted in *.
  destruct (parse_apmsg_node data) as [msg|]; cbn [mbind option_bind] in *; [|by apply wp_ret].
  destruct (Hok msg eq_refl) as [[ss Hss] Hok2]. clear Hok. rewrite Hss in Hok2 |- *. cbn [mbind option_bind] in *.
  apply wp_bind. eapply wp_deref; [done|].
  apply wp_bind. apply wp_ok. exists (servesb (config_ssid_list w) ss), w.
  split; [unfold usteer_is_valid_ssid, gets, mbind, M_bind, servesb; by destruct (config_ssid_list w)|].
  destruct (servesb _ _); cbn [negb]; [|by apply wp_ret].
  destruct (Hok2 eq_refl) as [[b Hb] Hsig].
  assert (Hv : exists v bs, mn_bssid msg = Some v /\ blob_data v = Some bs /\ ether_aton bs = Some b).
  { unfold msg_bssid in Hb. destruct (mn_bssid msg) as [v|]; [|done]. cbn [mbind option_bind] in Hb.
    destruct (blob_data v) as [bs|] eqn:E; [by exists v, bs|done]. }
  destruct Hv as (v & bs & Hv & Hbs & Hb').
  apply wp_bind. eapply wp_mono; [by apply interface_get_node_spec|]. intros k w1 [-> Hw1].
  set (name := mn_name msg) in *. set (k := (id, name)).
  assert (H1 : exists x r, inv w1 /\ hears id w1 /\ own_kept w w1 /\
    (forall j, j ∈ remote_nodes w1 <-> j ∈ remote_nodes w \/ j = k) /\
    node_heap w1 !! NRemote id name = Some x /\ rn_heap w1 !! k = Some r /\
    rn_name r = rn_name (heard_rn iface addr name (rn_heap w !! k)) /\
    (forall n, n ≠ NRemote id name -> node_heap w1 !! n = node_heap w !! n) /\
    (forall r', <[k := r']> (rn_heap w1) = <[k := r']> (rn_heap w)) /\
    si_heap w1 = si_heap w /\ (no_empty_sta (abs w) -> no_empty_sta (abs w1)) /\
    beside (eq (NRemote id name)) w w1).
  { case_bool_decide as Hin; subst w1.
    - destruct (proj1 (no_remote _ (inv_nodes _ Hi) id name) Hin) as [x Hx].
      destruct (proj2 (no_rn _ (inv_nodes _ Hi) id name)) as [r Hr]; [eauto|].
      exists x, r. do 3 (split; [done|]). split; [naive_solver|]. do 2 (split; [done|]).
      unfold k. rewrite Hr. do 5 (split; [done|]). done.
    - assert (Hr : rn_heap w !! k = None).
      { destruct (rn_heap w !! k) eqn:E; [|done]. destruct Hin.
        apply (no_remote _ (inv_nodes _ Hi)), (no_rn _ (inv_nodes _ Hi)). eauto. }
      eexists _, _. split; [by apply inv_remote_added|]. split; [by apply hears_added|].
      split; [done|]. split.
      { intros j. simpl. rewrite avl_add_perm, elem_of_cons. unfold k. naive_solver. }
      split; [apply lookup_insert_eq|]. split; [apply lookup_insert_eq|].
      split; [by rewrite Hr|]. split; [intros n Hn; simpl; by rewrite lookup_insert_ne|].
      split; [intros r'; simpl; by rewrite insert_insert_eq|]. do 2 (split; [done|]).
      etrans; [by eapply (beside_set_node _ (NRemote id name) node_zero)|]. by apply beside_same. }
  destruct H1 as (x & r & Hi1 & Hh1 & Ho1 & Hrem & Hx & Hr & Hrn & Hn & Hins & Hsi & He & Hbe).
  cbv zeta. refine (set_fields_spec iface id msg ss b bs v x r w1 _ _ Hi1 Hx Hr Hss Hv Hbs Hb' _).
  set (w2 := w1 <| node_heap ::= _ |> <| rn_heap ::= _ |>).
  assert (Hi2 : inv w2).
  { eapply (inv_set_rn k r); [|done]. by eapply inv_set_node. }
  eapply wp_mono; [eapply add_stations_spec; [done|apply lookup_insert_eq|exact Hsig]|].
  intros [] w3 [Hi3 Hf3 [Hs1 Hs2 Hs3 Hs4 Hs5] Ho3 Hb3 He3]. exists b. split; [done|]. split; try done.
  - destruct Hh1. split; rewrite ?(fr_remote _ _ Hf3); done.
  - etrans; [exact Ho1|]. etrans; [|by apply frame_own_kept]. done.
  - intros j. rewrite (fr_remote _ _ Hf3). apply Hrem.
  - rewrite (frame_node_data _ _ _ Hf3). unfold w2. simpl. by rewrite lookup_insert_eq.
  - intros n Hne. rewrite (frame_node_data _ _ _ Hf3). unfold w2. simpl. rewrite lookup_insert_ne by done.
    by rewrite Hn.
  - rewrite (fr_rn _ _ Hf3). unfold w2. simpl. rewrite Hins. by rewrite Hrn.
  - change (si_heap w2) with (si_heap w1) in *. rewrite Hsi in *. change (current_time w2) with (current_time w1) in *.
    rewrite (ok_time _ _ Ho1) in *. by split.
  - etrans; [exact Hbe|]. etrans; [|exact Hb3].
    etrans; [by eapply (beside_set_node _ (NRemote id name))|]. by apply beside_same.
  - auto.
Qed.
End node_heard.

(** ** Whole messages *)
Section recv_spec.
Context {ET : Ether} {BP : BlobParse} {BD : BlobData} {RT : RemoteTree} {RTL : RemoteTreeLaws}.
Context {T : Type} `{!AvlTree Z ptr T} `{!AvlLaws Z ptr T}.
Implicit Types (w : world T) (p q : ptr) (si : sta_info) (a : mac) (n : node_id) (k : Z * string).

(** Only the nodes of instance [id] and the [sta_info]s at them changed, and none
    of them went away. *)
Record peer_heard (id : Z) w w' : Prop := {
  ph_own : own_kept w w';
  ph_nodes n : (forall s, n ≠ NRemote id s) -> node_data <$> node_heap w' !! n = node_data <$> node_heap w !! n;
  ph_remote k : k ∈ remote_nodes w' -> k ∈ remote_nodes w \/ k.1 = id;
  ph_kept k : k ∈ remote_nodes w -> k ∈ remote_nodes w';
  ph_rn k : k.1 ≠ id -> rn_heap w' !! k = rn_heap w !! k;
  ph_si q si : (forall s, si_node si ≠ NRemote id s) -> (si_heap w' !! q = Some si <-> si_heap w !! q = Some si);
  ph_sis q : is_Some (si_heap w !! q) -> is_Some (si_heap w' !! q);
  ph_beside : beside (fun n => exists s, n = NRemote id s) w w';
  ph_empty : no_empty_sta (abs w) -> no_empty_sta (abs w');
}.
#[export] Instance peer_heard_preorder id : PreOrder (peer_heard id).
Proof.
  split; [intros w; split; by eauto|]. intros w1 w2 w3 [] []. split.
  - by etrans.
  - intros n Hn. by rewrite ph_nodes1, ph_nodes0.
  - intros k Hk. destruct (ph_remote1 k Hk); auto.
  - auto.
  - intros k Hk. by rewrite ph_rn1, ph_rn0.
  - intros q si Hn. by rewrite ph_si1, ph_si0.
  - auto.
  - by etrans.
  - auto.
Qed.

Lemma node_heard_peer iface addr id msg b w w' : node_heard iface addr id msg b w w' -> peer_heard id w w'.
Proof.
  intros []. split; try done.
  - intros n Hn. by apply nh_nodes0.
  - intros k. rewrite nh_remote0. intros [?| ->]; [by left|by right].
  - intros k. rewrite nh_remote0. by left.
  - intros k Hk. rewrite nh_rn0. apply lookup_insert_ne. by intros <-.
  - intros q si Hn. destruct nh_sis0. split; [|intros; by eapply sh_others0; [|left]].
    intros Hq. destruct (sh_only0 q si Hq) as [(si0 & Hq0 & Hk)|[? _]]; [|by destruct (Hn (mn_name msg))].
    assert (si_node si0 = si_node si) as Hn0 by (unfold si_key in Hk; congruence).
    assert (Hq' : si_heap w' !! q = Some si0) by (apply sh_others0; [done|]; left; rewrite Hn0; apply Hn).
    congruence.
  - intros q [si Hq]. destruct (sh_kept _ _ _ _ nh_sis0 q si Hq) as (si' & Hq' & _). eauto.
  - eapply beside_mono; [exact nh_beside0|]. intros n <-. eauto.
Qed.

(** Node [mn_name msg] of instance [id] is as [msg] says. *)
Definition node_known (iface : string * Z) (id : Z) (now : Z) (msg : apmsg_node) w : Prop :=
  exists b, msg_bssid msg = Some b /\
    node_data <$> node_heap w !! NRemote id (mn_name msg) = Some (node_data (heard_data msg b node_zero)) /\
    (exists nm, rn_heap w !! (id, mn_name msg) = Some (mkRemoteNode nm iface.1 0)) /\
    (NoDup (ms_addr <$> msg_stations msg) -> forall m, m ∈ msg_stations msg -> exists p si,
       si_heap w !! p = Some (station_heard now m si) /\ si_key si = (ms_addr m, NRemote id (mn_name msg))).

Lemma node_heard_known iface addr id msg b w w' :
  msg_bssid msg = Some b -> node_heard iface addr id msg b w w' -> node_known iface id (current_time w) msg w'.
Proof.
  intros Hb []. exists b. split; [done|]. split; [done|]. split.
  - rewrite nh_rn0, lookup_insert_eq. by eexists.
  - apply nh_sis0.
Qed.
Lemma node_known_later iface id now msg msg' addr b w w' :
  mn_name msg ≠ mn_name msg' -> node_heard iface addr id msg' b w w' ->
  node_known iface id now msg w -> node_known iface id now msg w'.
Proof.
  intros Hne [] (b0 & Hb & Hn & [nm Hr] & Hs). exists b0. split; [done|]. split; [|split].
  - rewrite nh_nodes0; [done|congruence].
  - exists nm. rewrite nh_rn0, lookup_insert_ne; [done|congruence].
  - intros Hnd m Hm. destruct (Hs Hnd m Hm) as (p & si & Hp & Hk). exists p, si. split; [|done].
    apply nh_sis0; [done|]. left. unfold si_key in Hk. simpl in *. congruence.
Qed.

(** The nodes a message tells of that are taken over. *)
Definition accepted_nodes (ssids : option (list string)) (msg : apmsg) : list apmsg_node :=
  omap (fun cur => node_accepted ssids cur.2) (msg_nodes msg).

(** Each of its nodes is safe to take over. *)
Definition message_ok (ssids : option (list string)) (msg : apmsg) : Prop :=
  Forall (fun cur : Z * wire => node_ok ssids cur.2) (msg_nodes msg).

(** The message of a datagram, unless it is cut, malformed or the instance's own. *)
Definition heard_msg w (d : datagram) : option apmsg :=
  if dg_pad_len d =? dg_len d then
    msg ← parse_apmsg (dg_data d);
    if msg_id msg =? local_id w then None else Some msg
  else None.

(** The nodes of instance [id] and the stations heard by them: those that were known
    and those of [l]. *)
Record told (id : Z) (l : list apmsg_node) w w' : Prop := {
  td_nodes k : k ∈ remote_nodes w' <-> k ∈ remote_nodes w \/ (k.1 = id /\ k.2 ∈ mn_name <$> l);
  td_stas a name : (exists q si, si_heap w' !! q = Some si /\ si_key si = (a, NRemote id name)) <->
    (exists q si, si_heap w !! q = Some si /\ si_key si = (a, NRemote id name)) \/
    (exists m, m ∈ l /\ mn_name m = name /\ a ∈ ms_addr <$> msg_stations m);
}.
Lemma told_nil id w : told id [] w w.
Proof. split; [intros k|intros a name]; set_solver. Qed.
Lemma told_snoc iface addr id l msg b w w1 w2 :
  told id l w w1 -> node_heard iface addr id msg b w1 w2 -> told id (l ++ [msg]) w w2.
Proof.
  intros [Hn Hs] []. split.
  - intros k. rewrite nh_remote0, Hn, fmap_app, elem_of_app. destruct k as [i nm]. simpl. rewrite list_elem_of_singleton.
    split; [intros [[?|[??]]|[= -> ->]]; auto|intros [?|[? [?|?]]]; subst; auto].
  - intros a name. destruct nh_sis0 as [_ Hon Hk Hth _]. split.
    + intros (q & si & Hq & Hkey). unfold si_key in Hkey. destruct (Hon q si Hq) as [(si0 & Hq0 & Hk0)|[Hsn Hss]].
      * destruct (proj1 (Hs a name)) as [?|(m & ? & ? & ?)]; [exists q, si0; unfold si_key in *; split; [done|congruence]|by left|].
        right. exists m. split; [apply elem_of_app; by left|done].
      * right. exists msg. split; [apply elem_of_app; right; by left|]. split; [congruence|].
        injection Hkey as <- _. done.
    + assert (Hold : (exists q si, si_heap w1 !! q = Some si /\ si_key si = (a, NRemote id name)) ->
        exists q si, si_heap w2 !! q = Some si /\ si_key si = (a, NRemote id name)).
      { intros (q & si & Hq & Hkey). destruct (Hk q si Hq) as (si' & ? & ?). exists q, si'. split; congruence. }
      intros [Hw|(m & [Hm|Hm%list_elem_of_singleton]%elem_of_app & Hnm & Ha)].
      * apply Hold, Hs. by left.
      * apply Hold, Hs. right. eauto.
      * subst m. apply list_elem_of_fmap in Ha as (ms & -> & Hms). destruct (Hth ms Hms) as (q & si' & ? & ?).
        exists q, si'. split; [done|]. congruence.
Qed.

Record msg_heard (iface : string * Z) (msg : apmsg) w w' : Prop := {
  mh_inv : inv w';
  mh_hears : hears (msg_id msg) w';
  mh_peer : peer_heard (msg_id msg) w w';
  mh_told : told (msg_id msg) (accepted_nodes (config_ssid_list w) msg) w w';
  mh_known : NoDup (mn_name <$> accepted_nodes (config_ssid_list w) msg) ->
    Forall (fun m => node_known iface (msg_id msg) (current_time w) m w') (accepted_nodes (config_ssid_list w) msg);
}.

Lemma add_nodes_spec iface addr id nodes w :
  inv w -> hears id w -> message_ok (config_ssid_list w) (mkApmsg id 0 nodes) ->
  wp (for_each (fun cur : Z * wire => interface_add_node iface addr id cur.2) nodes)
     (fun _ w' => msg_heard iface (mkApmsg id 0 nodes) w w') w.
Proof.
  intros Hi Hh Hok.
  apply (wp_for_each (fun don _ w' => msg_heard iface (mkApmsg id 0 don) w w')); [split; try done; apply told_nil| |done].
  intros don cur rest w1 Hl [Hi1 Hh1 Hp1 Htd1 Hk1]. simpl in *.
  assert (Hs := ok_ssids _ _ (ph_own _ _ _ Hp1)). assert (Ht := ok_time _ _ (ph_own _ _ _ Hp1)).
  eapply wp_mono; [eapply interface_add_node_spec; [done|done|]|].
  { rewrite Hs. unfold message_ok in Hok. simpl in Hok. rewrite Hl in Hok.
    by apply list.Forall_app in Hok as [_ [? _]%list.Forall_cons]. }
  intros [] w2 H2. rewrite Hs in H2.
  assert (Hacc : accepted_nodes (config_ssid_list w) (mkApmsg id 0 (don ++ [cur])) =
    accepted_nodes (config_ssid_list w) (mkApmsg id 0 don) ++ option_list (node_accepted (config_ssid_list w) cur.2)).
  { unfold accepted_nodes. simpl. rewrite omap_app. simpl. by destruct (node_accepted _ _). }
  destruct (node_accepted (config_ssid_list w) cur.2) as [msg|].
  - destruct H2 as (b & Hb & H2). split; simpl.
    + apply H2.
    + apply H2.
    + etrans; [exact Hp1|by eapply node_heard_peer].
    + rewrite Hacc. by eapply told_snoc.
    + rewrite Hacc. simpl. rewrite fmap_app, list.NoDup_app. intros (Hnd & Hni & _). apply list.Forall_app. split.
      * specialize (Hk1 Hnd). rewrite list.Forall_forall in Hk1 |- *. intros m Hm.
        eapply node_known_later; [|exact H2|by apply Hk1]. intros E. apply (Hni (mn_name m)).
        -- by apply list_elem_of_fmap_2.
        -- simpl. rewrite E. by left.
      * apply list.Forall_singleton. rewrite <- Ht. by eapply node_heard_known.
  - subst w2. simpl in Hacc. rewrite app_nil_r in Hacc. split; try done; simpl; by rewrite Hacc.
Qed.

Lemma interface_recv_msg_spec iface d w :
  inv w ->
  (forall msg, heard_msg w d = Some msg -> hears (msg_id msg) w /\ message_ok (config_ssid_list w) msg) ->
  wp (interface_recv_msg iface d) (fun _ w' =>
    match heard_msg w d with
    | Some msg => msg_heard iface msg w w'
    | None => w' = w
    end) w.
Proof.
  intros Hi Hok. unfold interface_recv_msg, heard_msg in *.
  destruct (dg_pad_len d =? dg_len d); cbn [negb]; [|by apply wp_ret].
  destruct (parse_apmsg (dg_data d)) as [msg|]; cbn [mbind option_bind] in *; [|by apply wp_ret].
  do 2 wp_step. destruct (msg_id msg =? local_id w); [by apply wp_ret|].
  destruct (Hok msg eq_refl) as [Hh Hb].
  eapply wp_mono; [by apply add_nodes_spec|]. intros [] w' []. by split.
Qed.

Lemma own_kept_heard_msg w w' d : own_kept w w' -> heard_msg w' d = heard_msg w d.
Proof. intros []. unfold heard_msg. by rewrite ok_id0. Qed.

(** The instances [ids] can be told apart and compared. *)
Record peers (ids : list Z) w : Prop := {
  pe_close : ids_close ids;
  pe_end : avl_end_key ∉ ids;
  pe_sorted : tree_sorted remote_node_cmp (remote_nodes w);
  pe_ids k : k ∈ remote_nodes w -> k.1 ∈ ids;
}.
Lemma peers_hears ids id w : peers ids w -> id ∈ ids -> hears id w.
Proof.
  intros [Hc He Hs Hi] Hid. split; [done| |congruence]. eapply ids_close_sub; [|exact Hc].
  intros x [->|(k & -> & Hk)%list_elem_of_fmap]%elem_of_cons; auto.
Qed.

Definition datagrams_ok (ids : list Z) w (l : list recv_result) : Prop :=
  forall d msg, Received d ∈ l -> heard_msg w d = Some msg ->
    msg_id msg ∈ ids /\ message_ok (config_ssid_list w) msg.

Lemma interface_recv_spec ids l w :
  inv w -> peers ids w -> datagrams_ok ids w l ->
  wp (interface_recv l) (fun _ w' => inv w' /\ peers ids w' /\ own_kept w w' /\
    (forall k, k ∈ remote_nodes w -> k ∈ remote_nodes w') /\
    (no_empty_sta (abs w) -> no_empty_sta (abs w'))) w.
Proof.
  intros Hi Hp Hd. unfold interface_recv. do 2 wp_step. destruct (remote_disabled _); cbn [negb]; [by apply wp_ret|].
  revert w Hi Hp Hd. induction l as [|r l IH]; intros w Hi Hp Hd; [by apply wp_ret|].
  assert (Hd' : forall w', own_kept w w' -> datagrams_ok ids w' l).
  { intros w' Hk d msg Hin. rewrite (own_kept_heard_msg w w'), (ok_ssids _ _ Hk) by done.
    apply Hd. by right. }
  destruct r as [d| | |]; cbn [recv_loop]; [|by apply wp_ret|by apply IH, Hd'|by apply wp_ret].
  apply wp_bind. unfold interface_find_by_ifindex. do 2 wp_step. apply wp_ret.
  destruct (snd <$> _) as [iface|]; [|by apply IH, Hd']. apply wp_bind.
  eapply wp_mono; [apply interface_recv_msg_spec; [done|]|].
  { intros msg Hm. destruct (Hd d msg) as [Hid Hb]; [by left|done|]. split; [|done]. by eapply peers_hears. }
  intros [] w1 H1. destruct (heard_msg w d) as [msg|] eqn:Em; [|subst; by apply IH, Hd'].
  destruct H1 as [Hi1 Hh1 Hp1 _ _]. assert (Ho := ph_own _ _ _ Hp1).
  destruct (Hd d msg) as [Hid _]; [by left|done|].
  eapply wp_mono; [apply IH; [done| |by apply Hd']|].
  - destruct Hp. split; [done|done|apply Hh1|]. intros k Hk. destruct (ph_remote _ _ _ Hp1 k Hk); [auto|congruence].
  - intros r w2 (? & ? & ? & Hk & He). destruct Hp1. split; [done|]. split; [done|].
    split; [by etrans|]. split; auto.
Qed.
End recv_spec.

(** ** A tree that satisfies the laws: a list that is searched from its head *)

Fixpoint seq_find (cmp : Z -> Z -> Z) (k : Z) (l : list (Z * string)) : list (Z * string) :=
  match l with
  | [] => []
  | x :: l' => if cmp k x.1 =? 0 then x :: l' else seq_find cmp k l'
  end.
Fixpoint seq_add (cmp : Z -> Z -> Z) (x : Z * string) (l : list (Z * string)) : list (Z * string) :=
  match l with
  | [] => [x]
  | y :: l' => if 0 <? cmp y.1 x.1 then x :: y :: l' else y :: seq_add cmp x l'
  end.
Definition seq_remote_tree : RemoteTree := {| avl_end_key := 0; avl_find := seq_find; avl_add := seq_add |}.

Lemma seq_add_perm cmp x l : seq_add cmp x l ≡ₚ x :: l.
Proof.
  induction l as [|y l IH]; [done|]. simpl. case_match; [done|]. rewrite IH. apply Permutation_swap.
Qed.

Lemma seq_remote_tree_laws : @RemoteTreeLaws seq_remote_tree.
Proof.
  split; simpl.
  - intros cmp k l _ _. induction l as [|x l IH]; simpl; [by left|].
    destruct (Z.eqb_spec (cmp k x.1) 0) as [Hz|Hz].
    + right. by exists [], x, l.
    + destruct IH as [[-> Hn]|(l1 & y & l2 & -> & -> & Hz' & Hn)].
      * left. split; [done|]. by constructor.
      * right. exists (x :: l1), y, l2. repeat split; [done|]. by constructor.
  - apply seq_add_perm.
  - intros cmp x l. induction l as [|y l IH]; simpl; intros Ho Hs; [by repeat constructor|].
    inversion Hs as [|? ? Hs' Hy]; subst.
    destruct Ho as [f Hf].
    assert (Hfx : forall a b, a ∈ x.1 :: y.1 :: l.*1 -> b ∈ x.1 :: y.1 :: l.*1 -> cmp a b <= 0 <-> f a <= f b).
    { intros a b Ha Hb. destruct (Hf a b Ha Hb). lia. }
    assert (Hx1 : x.1 ∈ x.1 :: y.1 :: l.*1) by set_solver. assert (Hy1 : y.1 ∈ x.1 :: y.1 :: l.*1) by set_solver.
    rewrite list.Forall_forall in Hy.
    destruct (Z.ltb_spec 0 (cmp y.1 x.1)) as [Hlt|Hge].
    + constructor; [by constructor; [|apply list.Forall_forall]|]. apply list.Forall_forall.
      assert (Hxy : f x.1 <= f y.1) by (destruct (Hf y.1 x.1 Hy1 Hx1); lia).
      intros z [->|Hz]%elem_of_cons; [by apply Hfx|]. assert (Hz1 : z.1 ∈ x.1 :: y.1 :: l.*1) by set_solver.
      apply Hfx; [done..|]. specialize (Hy z Hz). rewrite Hfx in Hy by done. lia.
    + constructor.
      * apply IH; [|done]. exists f. intros a b Ha Hb. apply Hf; set_solver.
      * apply list.Forall_forall. intros z. rewrite seq_add_perm. intros [->|Hz]%elem_of_cons; [done|by apply Hy].
Qed.

Definition string_blob_data : BlobData := fun v => match v with WString s => Some s | _ => None end.
Lemma string_blob_data_laws : @BlobDataLaws string_blob_data.
Proof. by intros s. Qed.
