(* ===== verification/Vendor.v ===== *)
(** * The vendor element of the beacons (remote.c)

    The access points announce the IPv6 addresses of the LAN interfaces in a vendor
    specific element, as hexadecimal digits: tag, length, identifier, addresses.
    The text is written into the string buffer of a blob; libubox gives the memory
    ([StringBuffer]): the bytes from the start of the buffer on, and with each growth
    whether they moved. The blob is the one of the update messages, too, so these
    bytes hold anything beforehand. The code keeps the pointer it got first: writing
    through it after a move is a fault. *)
From S2P Require Import Prelude Blob Timeout Types Table World Ssid Beacon Sta UbusClient.
From S2P Require Import Policy RemoteMsg Parse StaEvent Roam LocalNode Remote.

Record StringBuffer := mkStringBuffer {
  (** [blobmsg_alloc_string_buffer]: the memory from the pointer it returns on *)
  alloc_string_buffer : nat -> list Z;
  (** [blobmsg_realloc_string_buffer]: whether the memory moved, and the memory *)
  realloc_string_buffer : list Z -> nat -> bool * list Z;
  (** [blobmsg_add_string_buffer]: the string that the memory is taken for, [None]
      when it has no end *)
  add_string_buffer : list Z -> option (list Z);
}.
(** There is room for [n] characters and a terminator, growing keeps what is there,
    and a string ends at its terminator. *)
Record string_buffer_laws (sb : StringBuffer) : Prop := {
  alloc_room n : (n < length (alloc_string_buffer sb n))%nat;
  realloc_room m n : (n < length (realloc_string_buffer sb m n).2)%nat;
  realloc_keeps m n : m `prefix_of` (realloc_string_buffer sb m n).2;
  add_terminated l m : Forall (fun c => c ≠ 0) l -> add_string_buffer sb (l ++ 0 :: m) = Some l;
}.
(** What the code hopes for: the memory does not move when it grows, and somewhere
    behind the characters asked for it holds a zero, since the code writes none. *)
Record buffer_lucky (sb : StringBuffer) : Prop := {
  realloc_stays m n : (realloc_string_buffer sb m n).1 = false;
  alloc_end n : 0 ∈ drop n (alloc_string_buffer sb n);
  realloc_end m n : 0 ∈ drop n (realloc_string_buffer sb m n).2;
}.
(** Memory that was never used. *)
Record buffer_clean (sb : StringBuffer) : Prop := {
  alloc_clean n : Forall (eq 0) (alloc_string_buffer sb n);
  realloc_clean m k n : (realloc_string_buffer sb m n).2 = m ++ k -> Forall (eq 0) k;
}.

(** [hex], and the two digits of a byte *)
Definition hex : list Z := [48; 49; 50; 51; 52; 53; 54; 55; 56; 57; 65; 66; 67; 68; 69; 70].
Definition hex_at (i : Z) : Z := nth (Z.to_nat i) hex 0.
Arguments hex_at : simpl never.
Definition hex_byte (b : Z) : list Z :=
  [hex_at (Z.shiftr (Z.land b 240) 4); hex_at (Z.shiftr (Z.land b 15) 0)].

(** [str[i] = c], where there is memory. *)
Definition put_char (i : nat) (c : Z) (m : list Z) : option (list Z) :=
  if decide (i < length m)%nat then Some (<[i := c]> m) else None.
Fixpoint convert_to_hex_string (str : nat) (val : list Z) (m : list Z) : option (list Z) :=
  match val with
  | [] => Some m
  | b :: val' =>
      m ← put_char (str + 0) (nth 0 (hex_byte b) 0) m;
      m ← put_char (str + 1) (nth 1 (hex_byte b) 0) m;
      convert_to_hex_string (str + 2) val' m
  end.

Definition text (l : list Z) : string :=
  string_of_list_ascii (map (fun c => Ascii.ascii_of_N (Z.to_N c)) l).

(** An element of [getifaddrs]: the name of an interface and its address, if any. *)
Inductive sockaddr :=
| AF_INET6 (s6_addr : list Z)
| AF_OTHER.
Notation ifaddr := (string * option sockaddr)%type (only parsing).

Section vendor.
Context {T : Type} (if_nametoindex : string -> Z) (sb : StringBuffer).

Definition tag_number : Z := 221. (* vendor specific *)
Definition oiu_type : list Z := [255; 218; 12; 204]. (* Freifunk Darmstadt - Chaos Computer Club *)

(** The body of the loop over the addresses, on the memory at [b] and [tag_length].
    The pointer that [blobmsg_realloc_string_buffer] returns is ignored: when the
    memory moved, the next write goes to the freed one. *)
Definition vendor_addr (st : list Z * Z) (ifa : ifaddr) : M (world T) (list Z * Z) :=
  let '(m, tag_length) := st in
  match ifa.2 with
  | None => mret st
  | Some sa =>
      iface ← interface_find_by_ifindex (if_nametoindex ifa.1);
      match iface, sa with
      | Some _, AF_INET6 addr =>
          let tag_length_old := tag_length in
          let tag_length := u8 (tag_length + 16) in
          let '(moved, m) := realloc_string_buffer sb m (Z.to_nat ((tag_length + 2) * 2)) in
          if (moved : bool) then throw DanglingBuf
          else
            m ← deref OutOfBounds (fun _ => convert_to_hex_string (Z.to_nat ((tag_length_old + 2) * 2)) addr m);
            mret (m, tag_length)
      | _, _ => mret st
      end
  end.

(** The element and its length; [None] when [getifaddrs] fails, which returns 0. *)
Definition usteer_vendor_get (ifaddrs : option (list ifaddr)) : M (world T) (Z * list (string * bval)) :=
  match ifaddrs with
  | None => mret (0, [])
  | Some l =>
      let tag_length := 4 in
      let b := alloc_string_buffer sb (Z.to_nat ((tag_length + 2) * 2)) in
      b ← deref OutOfBounds (fun _ => convert_to_hex_string 0 [tag_number] b);
      b ← deref OutOfBounds (fun _ => convert_to_hex_string (2 * 2) oiu_type b);
      st ← for_fold vendor_addr (b, tag_length) l;
      b ← deref OutOfBounds (fun _ => convert_to_hex_string (1 * 2) [st.2] st.1);
      s ← deref OutOfBounds (fun _ => add_string_buffer sb b);
      mret (st.2, [("vendor_elements"%string, VString (text s))])
  end.

Definition usteer_vendor_set (ifaddrs : option (list ifaddr)) : M (world T) unit :=
  r ← usteer_vendor_get ifaddrs;
  if r.1 <=? 4 then mret tt
  else
    l ← gets local_nodes;
    for_each (fun s => ln ← get_ln s; emit (UbusInvoke (obj_id ln) "set_vendor_elements" r.2)) l.

Definition usteer_vendor_update_timer (ifaddrs : option (list ifaddr)) : M (world T) unit :=
  cfg ← gets config;
  usteer_update_time ;;
  due ← due_in (vendor_update_interval cfg);
  modify (fun w => w <| vendor_timer := Some due |>) ;;
  usteer_vendor_set ifaddrs.
End vendor.

(** ** Specifications *)
Lemma put_char_in i c m : (i < length m)%nat -> put_char i c m = Some (<[i := c]> m).
Proof. intros H. unfold put_char. by rewrite decide_True. Qed.

(** The digits overwrite what was there. *)
Lemma convert_to_hex_run val m1 m2 m3 :
  length m2 = (2 * length val)%nat ->
  convert_to_hex_string (length m1) val (m1 ++ m2 ++ m3) = Some (m1 ++ concat (map hex_byte val) ++ m3).
Proof.
  revert m1 m2. induction val as [|b val IH]; intros m1 m2 Hl; simpl in Hl.
  { destruct m2; [done|discriminate Hl]. }
  destruct m2 as [|x [|y m2]]; simpl in Hl; try lia. cbn [convert_to_hex_string].
  rewrite Nat.add_0_r, put_char_in by (rewrite !length_app; simpl; lia). simpl.
  rewrite put_char_in by (rewrite length_insert, !length_app; simpl; lia). simpl.
  rewrite (insert_app_r_alt m1) by lia. rewrite Nat.sub_diag. simpl.
  rewrite (insert_app_r_alt m1) by lia. replace (length m1 + 1 - length m1)%nat with 1%nat by lia. simpl.
  replace (m1 ++ hex_at (Z.shiftr (Z.land b 240) 4) :: hex_at (Z.shiftr (Z.land b 15) 0) :: m2 ++ m3)
    with ((m1 ++ hex_byte b) ++ m2 ++ m3) by (by rewrite <- app_assoc).
  replace (length m1 + 2)%nat with (length (m1 ++ hex_byte b)) by (rewrite length_app; done).
  rewrite IH by lia. by rewrite <- !app_assoc.
Qed.

(** The loop over the memory: [convert_to_hex_string] at the end of what is written. *)
Lemma convert_to_hex_at str val m1 m :
  str = length m1 -> (2 * length val <= length m)%nat ->
  convert_to_hex_string str val (m1 ++ m) = Some (m1 ++ concat (map hex_byte val) ++ drop (2 * length val) m).
Proof.
  intros -> Hl. rewrite <- (take_drop (2 * length val) m) at 1. apply convert_to_hex_run.
  rewrite length_take. lia.
Qed.
Lemma convert_to_hex_overflow str val m :
  val ≠ [] -> (length m < str + 2 * length val)%nat -> convert_to_hex_string str val m = None.
Proof.
  revert str m. induction val as [|b val IH]; intros str m Hne Hl; [done|]. cbn [convert_to_hex_string].
  unfold put_char. destruct (decide _) as [H1|]; [|done]. simpl. destruct (decide _) as [H2|]; [|done]. simpl.
  rewrite !length_insert in *. destruct val as [|b' val]; simpl in Hl; [lia|].
  apply IH; [done|]. rewrite !length_insert. simpl. lia.
Qed.

Lemma length_hex_text l : length (concat (map hex_byte l)) = (2 * length l)%nat.
Proof. induction l as [|b l IH]; [done|]. simpl. rewrite IH. lia. Qed.
Lemma hex_byte_nonzero b : 0 <= b < 256 -> Forall (fun c => c ≠ 0) (hex_byte b).
Proof.
  intros Hb. assert (H : forallb (fun i => bool_decide (Forall (fun c => c ≠ 0) (hex_byte (Z.of_nat i)))) (seq 0 256) = true)
    by by vm_compute.
  rewrite forallb_forall in H. specialize (H (Z.to_nat b)). rewrite in_seq, Z2Nat.id in H by lia.
  specialize (H ltac:(lia)). by apply bool_decide_eq_true in H.
Qed.
Lemma hex_text_nonzero l : Forall (fun b => 0 <= b < 256) l -> Forall (fun c => c ≠ 0) (concat (map hex_byte l)).
Proof.
  induction 1 as [|b l Hb _ IH]; [constructor|]. cbn [map concat]. apply Forall_app. split; [by apply hex_byte_nonzero|done].
Qed.
Section vendor_spec.
Context {T : Type} (if_nametoindex : string -> Z) (sb : StringBuffer).
Context (SBL : string_buffer_laws sb) (SBF : buffer_lucky sb).
Implicit Types (w : world T) (l : list ifaddr).

(** The IPv6 addresses of the LAN interfaces. *)
Definition lan_addr w (ifa : ifaddr) : option (list Z) :=
  match ifa.2, list_find (fun i => i.2 = if_nametoindex ifa.1) (interfaces w) with
  | Some (AF_INET6 addr), Some _ => Some addr
  | _, _ => None
  end.
Definition lan_addrs w l : list (list Z) := omap (lan_addr w) l.

(** An IPv6 address has 16 bytes. *)
Definition addrs_ok l : Prop :=
  Forall (fun ifa : ifaddr => match ifa.2 with
                              | Some (AF_INET6 addr) => length addr = 16%nat /\ Forall (fun b => 0 <= b < 256) addr
                              | _ => True
                              end) l.

(** The text after some addresses; the length, at 2 and 3, is still missing. *)
Definition vendor_text (lc : list Z) (addrs : list (list Z)) : list Z :=
  hex_byte tag_number ++ lc ++ concat (map hex_byte (oiu_type ++ concat addrs)).

Lemma length_vendor_text lc addrs :
  length lc = 2%nat -> Forall (fun a => length a = 16%nat) addrs ->
  length (vendor_text lc addrs) = (12 + 32 * length addrs)%nat.
Proof.
  intros Hlc Ha. unfold vendor_text. rewrite !length_app, length_hex_text, length_app, Hlc.
  replace (length (concat addrs)) with (16 * length addrs)%nat; [simpl; lia|].
  induction Ha as [|a addrs Hl _ IH]; [done|]. simpl. rewrite length_app, Hl, <- IH. lia.
Qed.
Lemma vendor_text_snoc lc addrs a :
  vendor_text lc (addrs ++ [a]) = vendor_text lc addrs ++ concat (map hex_byte a).
Proof.
  unfold vendor_text. rewrite concat_app. simpl. rewrite app_nil_r, !map_app, !concat_app. by rewrite <- !app_assoc.
Qed.

(** The memory behind the text has an end, and is zero when it was never used. *)
Record spare (rest : list Z) : Prop := {
  sp_end : 0 ∈ rest;
  sp_clean : buffer_clean sb -> Forall (eq 0) rest;
}.

(** The buffer after the addresses [addrs]. *)
Definition vendor_buffer (addrs : list (list Z)) (st : list Z * Z) : Prop :=
  exists lc rest, length lc = 2%nat /\ spare rest /\ st = (vendor_text lc addrs ++ rest, 4 + 16 * Z.of_nat (length addrs)).

Lemma vendor_start :
  exists b, convert_to_hex_string 0 [tag_number] (alloc_string_buffer sb 12) = Some b /\
  exists b', convert_to_hex_string (2 * 2) oiu_type b = Some b' /\ vendor_buffer [] (b', 4).
Proof.
  assert (Hr := alloc_room _ SBL 12). assert (Hc := fun H : buffer_clean sb => alloc_clean sb H 12). assert (He := alloc_end _ SBF 12).
  destruct (alloc_string_buffer sb 12) as [|c0 [|c1 [|c2 [|c3 m]]]] eqn:E; simpl in Hr; try lia.
  exists (hex_byte tag_number ++ [c2; c3] ++ m). split; [exact (convert_to_hex_at 0 [tag_number] [] (c0 :: c1 :: c2 :: c3 :: m) eq_refl ltac:(simpl; lia))|].
  exists (hex_byte tag_number ++ [c2; c3] ++ concat (map hex_byte oiu_type) ++ drop 8 m). split.
  - rewrite !(app_assoc _ [c2; c3]). apply convert_to_hex_at; [done|]. simpl. lia.
  - exists [c2; c3], (drop 8 m). split; [done|]. split; [|done]. split; [exact He|]. intros H.
    apply Forall_drop. specialize (Hc H). by repeat apply list.Forall_cons in Hc as [_ Hc].
Qed.

Lemma vendor_addr_spec w ifa addrs st :
  vendor_buffer addrs st -> addrs_ok [ifa] -> Forall (fun a => length a = 16%nat) addrs ->
  (length (addrs ++ lan_addrs w [ifa]) <= 15)%nat ->
  wp (vendor_addr if_nametoindex sb st ifa) (fun st' w' => w' = w /\ vendor_buffer (addrs ++ lan_addrs w [ifa]) st') w.
Proof.
  intros Hb Hok Ha Hle. apply list.Forall_cons in Hok as [Hok _]. unfold lan_addrs in *. cbn [omap list_omap] in *.
  unfold lan_addr in *. destruct st as [m len] eqn:Est.
  unfold vendor_addr. destruct (ifa.2) as [sa|] eqn:Esa; [|apply wp_ret; by rewrite app_nil_r].
  apply wp_bind. unfold interface_find_by_ifindex. do 3 wp_step.
  destruct (list_find _ (interfaces w)) as [[i x]|] eqn:Ef; cbn [fmap option_fmap option_map snd].
  2: { apply wp_ret. split; [done|]. destruct sa; by rewrite app_nil_r. }
  destruct sa as [addr|]; [|apply wp_ret; by rewrite app_nil_r].
  destruct Hok as [Hlen _], Hb as (lc & rest & Hlc & [Hend Hz] & [-> ->]%pair_equal_spec). rewrite length_app in Hle. simpl in Hle.
  assert (Hu : u8 (4 + 16 * Z.of_nat (length addrs) + 16) = 4 + 16 * Z.of_nat (length (addrs ++ [addr]))).
  { rewrite length_app. simpl. unfold u8. rewrite Z.mod_small; lia. }
  cbv zeta. rewrite Hu. set (n := Z.to_nat ((4 + 16 * Z.of_nat (length (addrs ++ [addr])) + 2) * 2)).
  assert (Hn : n = (12 + 32 * length addrs + 2 * length addr)%nat).
  { unfold n. rewrite length_app, Hlen. simpl. lia. }
  set (m0 := vendor_text lc addrs ++ rest).
  destruct (realloc_keeps _ SBL m0 n) as [k Hk]. assert (Hroom := realloc_room _ SBL m0 n).
  assert (Hkz := fun H : buffer_clean sb => realloc_clean sb H _ _ _ Hk). assert (Hst := realloc_stays _ SBF m0 n).
  assert (Hre := realloc_end _ SBF m0 n). destruct (realloc_string_buffer sb m0 n) as [mv m1]. cbn [fst snd] in Hk, Hroom, Hst, Hre.
  subst mv m1. unfold m0 in *. rewrite <- app_assoc in *.
  assert (Hlt := length_vendor_text lc addrs Hlc Ha). rewrite length_app, Hlt in Hroom.
  apply wp_bind. eapply wp_deref; [apply convert_to_hex_at; lia|].
  apply wp_ret. split; [done|]. exists lc, (drop (2 * length addr) (rest ++ k)). split; [done|]. split.
  - split.
    + rewrite drop_app_ge in Hre by lia. replace (n - length (vendor_text lc addrs))%nat with (2 * length addr)%nat in Hre by lia. done.
    + intros H. apply Forall_drop, Forall_app. split; [by apply Hz|by apply Hkz].
  - by rewrite vendor_text_snoc, <- app_assoc.
Qed.

Lemma lan_addrs_16 w l : addrs_ok l ->
  Forall (fun a => length a = 16%nat /\ Forall (fun b => 0 <= b < 256) a) (lan_addrs w l).
Proof.
  intros Hok. apply list.Forall_forall. intros a (ifa & Hin & Ha)%list_elem_of_omap. unfold addrs_ok in Hok. rewrite list.Forall_forall in Hok.
  specialize (Hok ifa Hin). unfold lan_addr in Ha. destruct (ifa.2) as [[addr|]|]; [|done..].
  destruct (list_find _ _); [|done]. by simplify_eq.
Qed.
Lemma lan_addrs_len w l : addrs_ok l -> Forall (fun a => length a = 16%nat) (lan_addrs w l).
Proof. intros H. eapply list.Forall_impl; [exact (lan_addrs_16 w l H)|]. by intros a []. Qed.
Lemma lan_addrs_app w l1 l2 : lan_addrs w (l1 ++ l2) = lan_addrs w l1 ++ lan_addrs w l2.
Proof. apply omap_app. Qed.

Lemma vendor_loop_spec w l st :
  vendor_buffer [] st -> addrs_ok l -> (length (lan_addrs w l) <= 15)%nat ->
  wp (for_fold (vendor_addr if_nametoindex sb) st l) (fun st' w' => w' = w /\ vendor_buffer (lan_addrs w l) st') w.
Proof.
  intros Hst Hok Hle.
  apply (wp_for_fold (fun don _ st w' => w' = w /\ vendor_buffer (lan_addrs w don) st)); [done|].
  intros don ifa rest st' w' Hl [-> Hb]. rewrite lan_addrs_app.
  rewrite Hl in Hok, Hle. unfold addrs_ok in Hok. apply Forall_app in Hok as [Hok1 [Hok2 _]%list.Forall_cons].
  replace (don ++ ifa :: rest) with ((don ++ [ifa]) ++ rest) in Hle by (by rewrite <- app_assoc).
  rewrite lan_addrs_app, length_app, lan_addrs_app in Hle.
  apply vendor_addr_spec; [done|by constructor|by apply lan_addrs_len|lia].
Qed.

(** The bytes of the element: tag, length, identifier and the addresses. *)
Definition vendor_element (addrs : list (list Z)) : list Z :=
  tag_number :: (4 + 16 * Z.of_nat (length addrs)) :: oiu_type ++ concat addrs.

Lemma vendor_text_done addrs :
  vendor_text (hex_byte (4 + 16 * Z.of_nat (length addrs))) addrs = concat (map hex_byte (vendor_element addrs)).
Proof. reflexivity. Qed.

(** A text with no zero before what follows it. *)
Lemma ends_somewhere rest : 0 ∈ rest -> exists k r, rest = k ++ 0 :: r /\ Forall (fun c => c ≠ 0) k.
Proof.
  induction rest as [|c rest IH]; [by intros ?%elem_of_nil|]. destruct (decide (c = 0)) as [->|Hc].
  - intros _. by exists [], rest.
  - intros [?|Hin]%elem_of_cons; [congruence|]. destruct (IH Hin) as (k & r & -> & Hk).
    exists (c :: k), r. split; [done|]. by constructor.
Qed.

(** The text that is sent: the digits of the element and what the memory holds
    behind them, up to the first zero. *)
Definition vendor_sent (addrs : list (list Z)) (t : list Z) : Prop :=
  exists k, t = concat (map hex_byte (vendor_element addrs)) ++ k /\ (buffer_clean sb -> k = []).

Lemma usteer_vendor_get_spec w l :
  addrs_ok l -> (length (lan_addrs w l) <= 15)%nat ->
  wp (usteer_vendor_get if_nametoindex sb (Some l)) (fun r w' => w' = w /\
    exists t, vendor_sent (lan_addrs w l) t /\
    r = (4 + 16 * Z.of_nat (length (lan_addrs w l)), [("vendor_elements"%string, VString (text t))])) w.
Proof.
  intros Hok Hle. unfold usteer_vendor_get. cbv zeta. change (Z.to_nat ((4 + 2) * 2)) with 12%nat.
  destruct vendor_start as (b & Hb & b' & Hb' & Hbuf).
  apply wp_bind. eapply wp_deref; [exact Hb|]. apply wp_bind. eapply wp_deref; [exact Hb'|].
  apply wp_bind. eapply wp_mono; [by apply vendor_loop_spec|].
  intros st w' (-> & lc & rest & Hlc & [Hend Hz] & ->). cbn [fst snd].
  apply wp_bind. eapply wp_deref.
  { unfold vendor_text. rewrite <- !app_assoc. apply (convert_to_hex_run _ (hex_byte tag_number) lc). done. }
  cbn [map concat]. rewrite app_nil_r.
  destruct (ends_somewhere rest Hend) as (k & r & -> & Hk).
  assert (Htext : Forall (fun c => c ≠ 0) (concat (map hex_byte (vendor_element (lan_addrs w l))))).
  { apply hex_text_nonzero. unfold vendor_element. repeat apply list.Forall_cons_2; try (unfold tag_number; lia).
    apply Forall_concat. eapply list.Forall_impl; [exact (lan_addrs_16 w l Hok)|]. by intros a []. }
  apply wp_bind. eapply wp_deref.
  { rewrite <- (add_terminated _ SBL (concat (map hex_byte (vendor_element (lan_addrs w l))) ++ k) r); [|by apply Forall_app].
    rewrite <- vendor_text_done. unfold vendor_text. by rewrite <- !app_assoc. }
  apply wp_ret. split; [done|]. eexists. split; [|done]. exists k. split; [done|]. intros H. specialize (Hz H).
  destruct k as [|c k]; [done|]. apply list.Forall_cons in Hz as [<- _]. by apply list.Forall_cons in Hk as [? _].
Qed.

(** When the memory moves the first time it grows, the first address is written to
    the memory that was freed. *)
Lemma convert_room str val m :
  (str + 2 * length val <= length m)%nat ->
  exists m', convert_to_hex_string str val m = Some m' /\ length m' = length m.
Proof.
  intros H. rewrite <- (take_drop str m). eexists. split.
  - apply convert_to_hex_at; [rewrite length_take; lia|rewrite length_drop; lia].
  - rewrite !length_app, length_hex_text, !length_drop, length_take. lia.
Qed.
Definition moves_first : Prop := forall m, (realloc_string_buffer sb m 44).1 = true.

Lemma vendor_addr_moves w ifa m :
  moves_first ->
  vendor_addr if_nametoindex sb (m, 4) ifa w =
    match lan_addr w ifa with Some _ => Fault DanglingBuf | None => Ok ((m, 4), w) end.
Proof.
  intros Hm. unfold vendor_addr, lan_addr, interface_find_by_ifindex. destruct (ifa.2) as [sa|]; [|done].
  unfold mbind, M_bind, gets, mret, M_ret. destruct (list_find _ (interfaces w)) as [[]|]; [|by destruct sa].
  destruct sa as [addr|]; [|done]. simpl. change (Z.to_nat ((u8 (4 + 16) + 2) * 2)) with 44%nat. specialize (Hm m).
  destruct (realloc_string_buffer sb m 44) as [mv m']. simpl in Hm. by subst mv.
Qed.
Lemma vendor_get_moves w l :
  moves_first -> lan_addrs w l ≠ [] -> usteer_vendor_get if_nametoindex sb (Some l) w = Fault DanglingBuf.
Proof.
  intros Hm Hl. unfold usteer_vendor_get. cbv zeta. change (Z.to_nat ((4 + 2) * 2)) with 12%nat.
  assert (Hr := alloc_room _ SBL 12). destruct (convert_room 0 [tag_number] (alloc_string_buffer sb 12)) as (b & Hb & Hlb); [simpl; lia|].
  destruct (convert_room (2 * 2) oiu_type b) as (b' & Hb' & _); [simpl; lia|].
  apply fault_bind. eapply wp_deref; [exact Hb|]. apply fault_bind. eapply wp_deref; [exact Hb'|]. clear Hb Hb'.
  unfold mbind, M_bind. assert (Hf : for_fold (vendor_addr if_nametoindex sb) (b', 4) l w = Fault DanglingBuf); [|by rewrite Hf].
  revert Hl. unfold lan_addrs. induction l as [|ifa l IH]; [done|]. cbn [omap list_omap for_fold]. intros Hl.
  unfold mbind, M_bind. rewrite vendor_addr_moves by done. destruct (lan_addr w ifa); [done|]. by apply IH.
Qed.

End vendor_spec.

(** ** The timer *)
Section vendor_timer.
Context {T : Type}.
Implicit Types (w : world T).

(** The calls that set the element [e] at all nodes. *)
Definition vendor_calls w (e : string) : list action :=
  omap (fun s => (fun ln => UbusInvoke (obj_id ln) "set_vendor_elements" [("vendor_elements"%string, VString e)])
                   <$> ln_heap w !! s) (local_nodes w).

Lemma set_vendor_spec w (r : list (string * bval)) :
  (forall s, s ∈ local_nodes w -> is_Some (ln_heap w !! s)) ->
  wp (for_each (fun s => ln ← get_ln s; emit (UbusInvoke (obj_id ln) "set_vendor_elements" r)) (local_nodes w))
    (fun _ w' => w' = w <| out ::= fun o => o ++
       omap (fun s => (fun ln => UbusInvoke (obj_id ln) "set_vendor_elements" r) <$> ln_heap w !! s) (local_nodes w) |>) w.
Proof.
  intros Hl. apply (wp_for_each (fun don _ w' => w' = w <| out ::= fun o => o ++
       omap (fun s => (fun ln => UbusInvoke (obj_id ln) "set_vendor_elements" r) <$> ln_heap w !! s) don |>));
    [|  |by intros w' ->].
  - destruct w. unfold set_field. simpl. by rewrite app_nil_r.
  - intros don s rest w1 Hd ->. destruct (Hl s) as [ln Hln]; [rewrite Hd; set_solver|].
    apply wp_bind. eapply wp_get_ln; [exact Hln|]. apply wp_modify.
    rewrite omap_app. cbn [omap list_omap]. rewrite Hln. unfold set_field. simpl. by rewrite app_assoc.
Qed.
End vendor_timer.

(** ** Buffers that satisfy the laws *)
Fixpoint c_text (m : list Z) : option (list Z) :=
  match m with
  | [] => None
  | c :: m' => if c =? 0 then Some [] else cons c <$> c_text m'
  end.
Lemma c_text_terminated l m : Forall (fun c => c ≠ 0) l -> c_text (l ++ 0 :: m) = Some l.
Proof. induction 1 as [|c l Hc _ IH]; [done|]. simpl. by rewrite (proj2 (Z.eqb_neq _ _) Hc), IH. Qed.
(** One in which old bytes follow the characters asked for, and then a zero. *)
Definition used_buffer (old : list Z) : StringBuffer := {|
  alloc_string_buffer n := replicate n 0 ++ old ++ [0];
  realloc_string_buffer m n := (false, m ++ replicate (n - length m) 0 ++ old ++ [0]);
  add_string_buffer := c_text;
|}.
Lemma used_buffer_laws old : string_buffer_laws (used_buffer old).
Proof.
  split; simpl.
  - intros n. rewrite !length_app, length_replicate. simpl. lia.
  - intros m n. rewrite !length_app, length_replicate. simpl. lia.
  - intros m n. by eexists.
  - apply c_text_terminated.
Qed.
Lemma end_behind n (l : list Z) : (n <= length l)%nat -> 0 ∈ drop n (l ++ [0]).
Proof. intros H. rewrite drop_app_le by done. set_solver. Qed.
Lemma used_buffer_lucky old : buffer_lucky (used_buffer old).
Proof.
  split; simpl; [done|..].
  - intros n. rewrite app_assoc. apply end_behind. rewrite length_app, length_replicate. lia.
  - intros m n. rewrite !app_assoc. apply end_behind. rewrite !length_app, length_replicate. lia.
Qed.
(** One that was never used. *)
Lemma unused_buffer_clean : buffer_clean (used_buffer []).
Proof.
  assert (Hr : forall n, Forall (eq 0) (replicate n 0 ++ [] ++ [0])).
  { intros n. apply Forall_app. split; [|by repeat constructor].
    apply list.Forall_forall. intros x Hx. by apply elem_of_replicate in Hx as [-> _]. }
  split; simpl; [done|]. intros m k n H. by apply (inj (app m)) in H as <-.
Qed.

(** One that moves when it grows. *)
Definition moving_buffer : StringBuffer := {|
  alloc_string_buffer n := replicate n 0 ++ [0];
  realloc_string_buffer m n := (true, m ++ replicate (n - length m) 0 ++ [0]);
  add_string_buffer := c_text;
|}.
Lemma moving_buffer_laws : string_buffer_laws moving_buffer.
Proof. destruct (used_buffer_laws []). by split. Qed.
