(* ===== verification/Socket.v ===== *)
(** * The socket between instances (remote.c)

    [usteer_reload_timer] opens it anew whenever an interface was added or
    checked; [interface_recv] gives it up when receiving fails. The state is
    [remote_fd] and the descriptors that are open; what the system calls return
    is a parameter. *)
From S2P Require Import Prelude.

Record remote_fd := mkRemoteFd {
  registered : bool;
  fd : Z;
  open_fds : list Z;
}.
#[export] Instance settable_remote_fd : Settable remote_fd := fun r => mkRemoteFd (registered r) (fd r) (open_fds r).

(** [socket], which fails or returns a descriptor, [bind], and [setsockopt]. *)
Record sys_calls := mkSysCalls {
  sys_socket : option Z;
  sys_bind : bool;
  sys_join : bool;
}.

(** The program writes a message of [perror] for what fails. *)
Definition usteer_reload_timer (sys : sys_calls) (r : remote_fd) : list string * remote_fd :=
  let r := if registered r
           then r <| registered := false |> <| open_fds ::= list_del (fd r) |>
           else r in
  match sys_socket sys with
  | None => (["socket"%string], r)
  | Some n =>
      let r := r <| open_fds ::= cons n |> in
      if negb (sys_bind sys) then (["bind"%string], r)
      else
        (if sys_join sys then [] else ["setsockopt(IPV6_ADD_MEMBERSHIP)"%string],
         r <| fd := n |> <| registered := true |>)
  end.

(** The last branch of [interface_recv]: [uloop_fd_delete], without [close]. *)
Definition interface_recv_failed (r : remote_fd) : list string * remote_fd :=
  (["recvmsg"%string], r <| registered := false |>).

(** ** Descriptors *)

(** The descriptors that nothing refers to any more. *)
Definition leaked (r : remote_fd) : list Z :=
  if registered r then list_del (fd r) (open_fds r) else open_fds r.

Record fd_ok (r : remote_fd) : Prop := {
  fo_nodup : NoDup (open_fds r);
  fo_registered : registered r = true -> fd r ∈ open_fds r;
}.

(** A new descriptor is none of those that are open. *)
Definition sys_ok (sys : sys_calls) (r : remote_fd) : Prop :=
  match sys_socket sys with
  | Some n => n ∉ leaked r
  | None => True
  end.

(** Opening the socket again. *)
Lemma usteer_reload_timer_spec sys r :
  fd_ok r -> sys_ok sys r ->
  let r' := (usteer_reload_timer sys r).2 in
  fd_ok r' /\
  registered r' = (if sys_socket sys then sys_bind sys else false) /\
  leaked r' = (if sys_bind sys then [] else match sys_socket sys with Some n => [n] | None => [] end) ++ leaked r.
Proof.
  intros [Hnd Hreg] Hsys. unfold usteer_reload_timer, sys_ok, leaked in *.
  set (r0 := if registered r then _ else r).
  assert (H0 : registered r0 = false /\ open_fds r0 = if registered r then list_del (fd r) (open_fds r) else open_fds r).
  { unfold r0. by destruct (registered r) eqn:E. }
  destruct H0 as [Hr0 Ho0]. rewrite <- Ho0 in Hsys |- *.
  assert (Hnd0 : NoDup (open_fds r0)) by (rewrite Ho0; destruct (registered r); auto).
  destruct (sys_socket sys) as [n|]; cbv zeta; simpl.
  - destruct (sys_bind sys); simpl.
    + split; [split; simpl; [by constructor|by left]|]. split; [done|]. by rewrite list_del_cons_eq.
    + rewrite Hr0. split; [split; simpl; [by constructor|congruence]|]. done.
  - rewrite Hr0. split; [split; [done|congruence]|]. by destruct (sys_bind sys).
Qed.

Lemma interface_recv_failed_spec r :
  fd_ok r -> let r' := (interface_recv_failed r).2 in
  fd_ok r' /\ leaked r' = open_fds r.
Proof. intros [Hnd _]. by split. Qed.

(** ** Histories *)
Lemma length_list_del (x : Z) l : NoDup l -> x ∈ l -> length l = (length (list_del x l) + 1)%nat.
Proof.
  intros Hnd Hin. apply list_elem_of_split in Hin as (l1 & l2 & ->). apply list.NoDup_app in Hnd as (_ & H1 & Hnd).
  apply list.NoDup_cons in Hnd as [H2 _]. unfold list_del. rewrite list.filter_app, filter_cons_False by naive_solver.
  fold (list_del x l1) (list_del x l2). rewrite !list_del_not_in by (done || set_solver). rewrite !length_app. simpl. lia.
Qed.

Inductive socket_event :=
| Reload (sys : sys_calls)
| RecvFailed.
Definition socket_step (r : remote_fd) (e : socket_event) : remote_fd :=
  match e with
  | Reload sys => (usteer_reload_timer sys r).2
  | RecvFailed => (interface_recv_failed r).2
  end.
(** Each event comes at a state in which it is possible. *)
Fixpoint socket_possible (r : remote_fd) (es : list socket_event) : Prop :=
  match es with
  | [] => True
  | e :: es' =>
      match e with
      | Reload sys => sys_ok sys r
      | RecvFailed => registered r = true
      end /\ socket_possible (socket_step r e) es'
  end.

(** What an event loses: the socket that could not be bound, or the one whose
    receiving failed. *)
Definition loses (e : socket_event) : bool :=
  match e with
  | Reload sys => match sys_socket sys with Some _ => negb (sys_bind sys) | None => false end
  | RecvFailed => true
  end.

(** C40. From the start of the program on, at most one socket is in use, it is open
    whenever it is registered, and the descriptors that are open beyond it are as
    many as there were failures to bind a socket and to receive: those are never
    closed, all others are. *)
Theorem socket_history_correct es :
  let r0 := mkRemoteFd false 0 [] in
  socket_possible r0 es ->
  let r := foldl socket_step r0 es in
  fd_ok r /\ length (leaked r) = length (filter (fun e => loses e = true) es) /\
  length (open_fds r) = (length (leaked r) + if registered r then 1 else 0)%nat.
Proof.
  intros r0 Hp r.
  assert (Hgen : forall es r1, fd_ok r1 -> socket_possible r1 es -> fd_ok (foldl socket_step r1 es) /\
    length (leaked (foldl socket_step r1 es)) = (length (leaked r1) + length (filter (fun e => loses e = true) es))%nat).
  { clear. intros es. induction es as [|e es IH]; intros r1 Hok Hp; [by split; [|simpl; lia]|].
    destruct Hp as [He Hp]. cbn [foldl]. rewrite filter_cons.
    assert (Hs : fd_ok (socket_step r1 e) /\
      length (leaked (socket_step r1 e)) = (length (leaked r1) + if loses e then 1 else 0)%nat).
    { destruct e as [sys|]; cbn [socket_step loses].
      - destruct (usteer_reload_timer_spec sys r1 Hok He) as (Hok' & _ & Hl).
        split; [exact Hok'|]. rewrite Hl, length_app. destruct (sys_bind sys), (sys_socket sys); simpl; lia.
      - destruct (interface_recv_failed_spec r1 Hok) as [Hok' Hl]. split; [exact Hok'|]. rewrite Hl.
        unfold leaked. rewrite He. destruct Hok as [Hnd Hreg]. by apply length_list_del, Hreg. }
    destruct Hs as [Hok' Hl]. destruct (IH _ Hok' Hp) as [Hok2 Hl2]. split; [exact Hok2|]. rewrite Hl2, Hl.
    destruct (loses e); simpl; lia. }
  assert (H0 : fd_ok r0) by (by split; [constructor|]).
  destruct (Hgen es r0 H0 Hp) as [Hok Hl]. split; [exact Hok|]. split; [exact Hl|].
  unfold leaked. destruct (registered (foldl socket_step r0 es)) eqn:E; unfold r; rewrite E; [|lia].
  destruct Hok as [Hnd Hreg]. symmetry. by rewrite <- length_list_del by auto.
Qed.

(** A reload that cannot bind, one that can, and a failure to receive. *)
Lemma socket_history_correct_witness :
  length (leaked (foldl socket_step (mkRemoteFd false 0 [])
    [Reload (mkSysCalls (Some 5) false true); Reload (mkSysCalls (Some 6) true false); RecvFailed])) = 2%nat.
Proof.
  refine (proj1 (proj2 (socket_history_correct _ _))). simpl. unfold sys_ok. simpl.
  repeat split; set_solver.
Defined.
