(* ===== verification/Steady.v ===== *)
(** * What the operations leave alone

    [within R m]: whatever happens in [m], the states before and after are related
    by the preorder [R]. It follows from the text of [m] alone, statement by
    statement; the [within] tactic walks through it. *)
From S2P Require Import Prelude Blob Timeout Types Table World Ssid Beacon Sta UbusClient.
From S2P Require Import Policy RemoteMsg Parse StaEvent Roam BeaconRequest LocalNode Netifd Nl80211 Remote.

Definition within {W A} (R : W -> W -> Prop) (m : M W A) : Prop :=
  forall w a w', m w = Ok (a, w') -> R w w'.

Section rules.
Context {W A B : Type} (R : W -> W -> Prop) `{!PreOrder R}.

Lemma within_ret (a : A) : within R (mret a).
Proof. by intros w a' w' [= _ ->]. Qed.
Lemma within_throw e : within R (throw (A := A) e).
Proof. by intros w a' w'. Qed.
Lemma within_gets (g : W -> A) : within R (gets g).
Proof. by intros w a' w' [= _ ->]. Qed.
Lemma within_deref e (g : W -> option A) : within R (deref e g).
Proof. unfold deref. intros w a' w'. destruct (g w); [|done]. by intros [= _ ->]. Qed.
Lemma within_modify (g : W -> W) : (forall w, R w (g w)) -> within R (modify g).
Proof. intros Hg w a' w' [= _ <-]. apply Hg. Qed.
Lemma within_bind (m : M W A) (k : A -> M W B) : within R m -> (forall a, within R (k a)) -> within R (m ≫= k).
Proof.
  intros Hm Hk w c w'. unfold mbind, M_bind. destruct (m w) as [[a w1]|e] eqn:E; [|done].
  intros H. etrans; [by eapply Hm|by eapply Hk].
Qed.
Lemma within_when c (m : M W unit) : within R m -> within R (when c m).
Proof. intros Hm. destruct c; [done|]. by intros w a' w' [= _ ->]. Qed.
End rules.

Section loops.
Context {W A B : Type} (R : W -> W -> Prop) `{!PreOrder R}.

Lemma within_for_each_in (body : A -> M W unit) l :
  (forall a, a ∈ l -> within R (body a)) -> within R (for_each body l).
Proof.
  induction l as [|a l IH]; intros Hb; [by apply within_ret|].
  apply within_bind; [done|apply Hb; by left|intros _]. apply IH. intros b Hin. apply Hb. by right.
Qed.
Lemma within_for_each (body : A -> M W unit) l : (forall a, within R (body a)) -> within R (for_each body l).
Proof. intros Hb. by apply within_for_each_in. Qed.
Lemma within_for_until (body : A -> M W (option B)) l : (forall a, within R (body a)) -> within R (for_until body l).
Proof.
  intros Hb. induction l as [|a l IH]; [by apply within_ret|]. apply within_bind; [done..|].
  intros [c|]; [by apply within_ret|done].
Qed.
Lemma within_for_fold (body : B -> A -> M W B) c l : (forall c a, within R (body c a)) -> within R (for_fold body c l).
Proof. intros Hb. revert c. induction l as [|a l IH]; intros c; [by apply within_ret|]. by apply within_bind. Qed.
End loops.

(** Total correctness and what the text says, together. *)
Lemma wp_within {W A} (R : W -> W -> Prop) (m : M W A) (Q : A -> W -> Prop) w :
  within R m -> wp m Q w -> wp m (fun a w' => Q a w' /\ R w w') w.
Proof. intros Hk. unfold wp. destruct (m w) as [[a w']|e] eqn:E; [|done]. intros HQ. split; [done|]. by eapply Hk. Qed.

Create HintDb within discriminated.

Ltac head_of t := lazymatch t with ?h _ => head_of h | _ => t end.
Ltac within_step tac :=
  lazymatch goal with
  | |- within _ (_ ≫= _) => apply within_bind; [typeclasses eauto| |intros ?]
  | |- within _ (mret _) => apply within_ret; typeclasses eauto
  | |- within _ (throw _) => apply within_throw
  | |- within _ (gets _) => apply within_gets; typeclasses eauto
  | |- within _ (deref _ _) => apply within_deref; typeclasses eauto
  | |- within _ (modify _) => apply within_modify; intros ?; tac
  | |- within _ (when _ _) => apply within_when; [typeclasses eauto|]
  | |- within _ (for_each _ _) => apply within_for_each; [typeclasses eauto|intros ?]
  | |- within _ (for_until _ _) => apply within_for_until; [typeclasses eauto|intros ?]
  | |- within _ (for_fold _ _ _) => apply within_for_fold; [typeclasses eauto|intros ? ?]
  | |- within _ (match ?x with _ => _ end) => destruct x
  | |- within _ (let _ := _ in _) => cbv zeta
  | |- within _ ?m => first [solve [auto with within] | let h := head_of m in unfold h; cbv beta]
  end.

Ltac steady := repeat within_step ltac:(solve [split; [reflexivity|intros Hreq; exact Hreq]]).

(** ** The settings: what only the configuration changes *)
Section settings.
Context {ET : Ether} {BM : Blobmsg} {T : Type} `{!AvlTree Z ptr T}.

Definition settings (w : world T) : usteer_config * list (string * Z) * option (list string) * option string :=
  (config w, interfaces w, config_ssid_list w, node_up_script w).
Definition settled (w : world T) := (settings w, remote_nodes w).



(** The requests of every local node are in a state of [enum local_req_state]. *)
Definition req_ok (ln : usteer_local_node) : Prop := REQ_IDLE <= req_state ln < __REQ_MAX.
Definition reqs_ok (w : world T) : Prop := map_Forall (fun _ ln => req_ok ln) (ln_heap w).

Definition steady (w w' : world T) : Prop := settled w' = settled w /\ (reqs_ok w -> reqs_ok w').
#[global] Instance steady_preorder : PreOrder steady.
Proof.
  split; [by intros w|]. intros w1 w2 w3 [H1 H1'] [H2 H2']. split; [congruence|auto].
Qed.


Section primitives.
Context (p : ptr) (a : mac) (n : node_id) (s : string) (k : Z * string).
Lemma upd_si_steady g : within steady (upd_si p g). Proof. steady. Qed.
Lemma upd_sta_steady g : within steady (upd_sta a g). Proof. steady. Qed.
Lemma upd_node_steady g : within steady (upd_node n g). Proof. steady. Qed.
Lemma upd_rn_steady g : within steady (upd_rn k g). Proof. steady. Qed.
Lemma get_si_steady : within steady (get_si p). Proof. steady. Qed.
Lemma get_sta_steady : within steady (get_sta a). Proof. steady. Qed.
Lemma get_node_steady : within steady (get_node n). Proof. steady. Qed.
Lemma get_ln_steady : within steady (get_ln s). Proof. steady. Qed.
Lemma emit_steady x : within steady (emit x). Proof. steady. Qed.
Lemma upd_ln_steady g : (forall ln, req_ok ln -> req_ok (g ln)) -> within steady (upd_ln s g).
Proof.
  intros Hg w r w'. unfold upd_ln, get_ln, deref, mbind, M_bind, modify.
  destruct (ln_heap w !! s) as [ln|] eqn:E; [|done]. intros [= _ <-]. split; [done|].
  intros H. apply map_Forall_insert_2; [|exact H]. apply Hg. by eapply H.
Qed.
End primitives.

(** An assignment to a local node within the state of its requests or resets it. *)
Lemma req_ok_idle ln : req_ok (ln <| req_state := REQ_IDLE |>).
Proof. done. Qed.
End settings.

#[export] Hint Extern 1 (within steady (upd_ln _ _)) =>
  apply upd_ln_steady; intros ? Hreq; first [exact Hreq | apply req_ok_idle] : within.
#[export] Hint Resolve upd_si_steady upd_sta_steady upd_node_steady upd_rn_steady get_si_steady
  get_sta_steady get_node_steady get_ln_steady emit_steady : within.

Section operations.
Context {ET : Ether} {BM : Blobmsg} {T : Type} `{!AvlTree Z ptr T}.

Lemma usteer_sta_info_del_steady p : within (steady (T := T)) (usteer_sta_info_del p).
Proof. steady. Qed.
Lemma usteer_sta_info_update_timeout_steady p x : within (steady (T := T)) (usteer_sta_info_update_timeout p x).
Proof. steady. Qed.
Lemma usteer_sta_info_get_steady a n c : within (steady (T := T)) (usteer_sta_info_get a n c).
Proof. steady. Qed.
Lemma usteer_sta_get_steady a c : within (steady (T := T)) (usteer_sta_get a c).
Proof. steady. Qed.
Lemma get_usteer_node_from_bssid_steady b : within (steady (T := T)) (get_usteer_node_from_bssid b).
Proof. steady. Qed.
Lemma usteer_beacon_report_cleanup_steady p b : within (steady (T := T)) (usteer_beacon_report_cleanup p b).
Proof. steady. Qed.
#[local] Hint Resolve usteer_sta_info_del_steady usteer_sta_info_update_timeout_steady usteer_sta_info_get_steady
  usteer_sta_get_steady get_usteer_node_from_bssid_steady usteer_beacon_report_cleanup_steady : within.

Lemma usteer_sta_info_update_steady p x b : within (steady (T := T)) (usteer_sta_info_update p x b).
Proof. steady. Qed.
Lemma usteer_sta_node_cleanup_steady n : within (steady (T := T)) (usteer_sta_node_cleanup n).
Proof. steady. Qed.
Lemma usteer_send_sta_update_steady p : within (steady (T := T)) (usteer_send_sta_update p).
Proof. steady. Qed.
Lemma find_better_candidate_steady p : within (steady (T := T)) (find_better_candidate p).
Proof. steady. Qed.
#[local] Hint Resolve usteer_sta_info_update_steady usteer_sta_node_cleanup_steady usteer_send_sta_update_steady
  find_better_candidate_steady : within.
Lemma usteer_check_request_steady p t : within (steady (T := T)) (usteer_check_request p t).
Proof. steady. Qed.
#[local] Hint Resolve usteer_check_request_steady : within.
Lemma usteer_handle_sta_event_steady n a t f x : within (steady (T := T)) (usteer_handle_sta_event n a t f x).
Proof. steady. Qed.
#[local] Hint Resolve usteer_handle_sta_event_steady : within.
Lemma usteer_handle_event_steady s m msg : within (steady (T := T)) (usteer_handle_event s m msg).
Proof. steady. Qed.

Lemma next_band_scan_steady band b l : within (steady (T := T)) (next_band_scan band b l).
Proof. revert b. induction l as [|s l IH]; intros b; cbn [next_band_scan]; steady; apply IH. Qed.
#[local] Hint Resolve next_band_scan_steady : within.
Lemma usteer_beacon_request_check_steady p : within (steady (T := T)) (usteer_beacon_request_check p).
Proof. steady. Qed.
Lemma usteer_local_node_kick_steady s : within (steady (T := T)) (usteer_local_node_kick s).
Proof. steady. Qed.
#[local] Hint Resolve usteer_beacon_request_check_steady usteer_local_node_kick_steady : within.

(** The timer of the stations, with the loops of timeout.c. *)
Lemma tq_mod_steady g (w : world T) : steady w (tq_mod g w).
Proof. by split. Qed.
Lemma usteer_timeout_pass_steady fuel t x b :
  within (steady (T := T)) (usteer_timeout_pass tq tq_mod (Some usteer_sta_info_timeout) fuel t x b).
Proof.
  revert x b. induction fuel as [|fuel IH]; intros x b; cbn [usteer_timeout_pass]; destruct x as [x|];
    repeat first [apply IH | apply within_modify; intros ?; apply tq_mod_steady | within_step ltac:(idtac)].
Qed.
Lemma usteer_timeout_cb_steady fuel :
  within (steady (T := T)) (usteer_timeout_cb tq tq_mod clock (Some usteer_sta_info_timeout) fuel).
Proof.
  induction fuel as [|fuel IH]; cbn [usteer_timeout_cb];
    repeat first [apply IH | apply usteer_timeout_pass_steady | apply within_modify; intros ?; apply tq_mod_steady | within_step ltac:(idtac)].
Qed.
Lemma sta_timer_expired_steady fuel : within (steady (T := T)) (sta_timer_expired fuel).
Proof. apply usteer_timeout_cb_steady. Qed.
End operations.

(** ** With the handlers of the nodes *)

Class NodeHandlersSteady {T : Type} {NH : NodeHandlers T} : Prop := {
  nk_init h f n : h ∈ node_handlers -> init_node h = Some f -> within (steady (T := T)) (f n);
  nk_free h f n : h ∈ node_handlers -> free_node h = Some f -> within (steady (T := T)) (f n);
  nk_update h f n : h ∈ node_handlers -> update_node h = Some f -> within (steady (T := T)) (f n);
  nk_sta h f n p : h ∈ node_handlers -> update_sta h = Some f -> within (steady (T := T)) (f n p);
}.

Section with_handlers.
Context {ET : Ether} {BM : Blobmsg} {T : Type} `{!AvlTree Z ptr T} {NH : NodeHandlers T} {NK : NodeHandlersSteady}.
Context (if_nametoindex : string -> Z).
#[local] Hint Resolve usteer_sta_info_update_timeout_steady usteer_sta_info_get_steady
  usteer_sta_get_steady usteer_sta_node_cleanup_steady usteer_beacon_request_check_steady
  usteer_local_node_kick_steady : within.

Lemma call_handlers_steady (op : usteer_node_handler T -> option (M (world T) unit)) :
  (forall h m, h ∈ node_handlers -> op h = Some m -> within (steady (T := T)) m) -> within (steady (T := T)) (call_handlers op).
Proof.
  unfold call_handlers. generalize (node_handlers (T := T)). intros l Hop.
  induction l as [|h l IH]; [apply within_ret; typeclasses eauto|]. apply within_bind; [typeclasses eauto|..].
  - destruct (op h) eqn:E; [eapply Hop; [by left|done]|apply within_ret; typeclasses eauto].
  - intros _. apply IH. intros h' m Hh. apply Hop. by right.
Qed.
Lemma call_init_steady n : within (steady (T := T)) (call_handlers (fun h => (fun f => f n) <$> init_node h)).
Proof. apply call_handlers_steady. intros h m Hh Hm. destruct (init_node h) eqn:E; [|done]. simplify_eq/=. by eapply nk_init. Qed.
Lemma call_free_steady n : within (steady (T := T)) (call_handlers (fun h => (fun f => f n) <$> free_node h)).
Proof. apply call_handlers_steady. intros h m Hh Hm. destruct (free_node h) eqn:E; [|done]. simplify_eq/=. by eapply nk_free. Qed.
Lemma call_update_steady n : within (steady (T := T)) (call_handlers (fun h => (fun f => f n) <$> update_node h)).
Proof. apply call_handlers_steady. intros h m Hh Hm. destruct (update_node h) eqn:E; [|done]. simplify_eq/=. by eapply nk_update. Qed.
Lemma call_sta_steady n p : within (steady (T := T)) (call_handlers (fun h => (fun f => f n p) <$> update_sta h)).
Proof. apply call_handlers_steady. intros h m Hh Hm. destruct (update_sta h) eqn:E; [|done]. simplify_eq/=. by eapply nk_sta. Qed.
#[local] Hint Resolve call_init_steady call_free_steady call_update_steady call_sta_steady : within.

Lemma node_deleted_steady s (w : world T) :
  steady w (w <| node_heap ::= delete (NLocal s) |> <| ln_heap ::= delete s |>).
Proof. split; [done|]. intros H. by apply map_Forall_delete. Qed.
Lemma usteer_free_node_steady s : within (steady (T := T)) (usteer_free_node s).
Proof.
  unfold usteer_free_node. repeat first [apply within_modify; intros ?; apply node_deleted_steady
    | within_step ltac:(solve [split; [reflexivity|intros Hreq; exact Hreq]])].
Qed.
Lemma node_added_steady s (w : world T) :
  steady w (w <| node_heap ::= <[NLocal s := node_zero]> |> <| ln_heap ::= <[s := ln_zero]> |>).
Proof. split; [done|]. intros H. by apply map_Forall_insert_2. Qed.
Lemma usteer_get_node_steady s : within (steady (T := T)) (usteer_get_node s).
Proof.
  unfold usteer_get_node. repeat first [apply within_modify; intros ?; apply node_added_steady
    | within_step ltac:(solve [split; [reflexivity|intros Hreq; exact Hreq]])].
Qed.
#[local] Hint Resolve usteer_get_node_steady : within.
#[local] Hint Resolve usteer_free_node_steady : within.
Lemma usteer_local_node_update_steady s : within (steady (T := T)) (usteer_local_node_update s).
Proof. steady. Qed.
Lemma usteer_register_node_steady name id : within (steady (T := T)) (usteer_register_node if_nametoindex name id).
Proof. steady. Qed.
#[local] Hint Resolve usteer_register_node_steady : within.
Lemma usteer_event_handler_steady msg : within (steady (T := T)) (usteer_event_handler if_nametoindex msg).
Proof. steady. Qed.
Lemma usteer_local_node_list_cb_steady s msg : within (steady (T := T)) (usteer_local_node_list_cb s msg).
Proof. steady. Qed.
Lemma usteer_local_node_rrm_nr_cb_steady s msg : within (steady (T := T)) (usteer_local_node_rrm_nr_cb s msg).
Proof. steady. Qed.
Lemma usteer_local_node_req_cb_steady s : within (steady (T := T)) (usteer_local_node_req_cb s).
Proof. steady. Qed.
End with_handlers.

(** ** The back ends *)
Section backends.
Context {ET : Ether} {BM : Blobmsg} {T : Type} `{!AvlTree Z ptr T} {UL : UbusLookup T} {NL : Nl80211 T}.
Context (if_nametoindex : string -> Z).
#[local] Hint Resolve usteer_sta_info_update_steady : within.

Lemma nl80211_update_node_steady s : within (steady (T := T)) (nl80211_update_node if_nametoindex s).
Proof. steady. Qed.
#[local] Hint Resolve nl80211_update_node_steady : within.
Lemma netifd_status_cb_steady s msg : within (steady (T := T)) (netifd_status_cb s msg).
Proof. steady. Qed.

Lemma daemon_handlers_steady : @NodeHandlersSteady T (daemon_handlers if_nametoindex).
Proof.
  split; intros h f n; [..|intros p]; intros [->|[->|Hh%elem_of_nil]%elem_of_cons]%elem_of_cons; try done;
    intros [= <-]; steady.
Qed.
End backends.
