(* ===== verification/Daemon.v ===== *)
(** * The daemon (main.c) and its events

    The start of the program and what its main loop then runs: one handler at a
    time, for an event of hostapd, netifd or another ubus object, an answer to a
    request, a timer that is due, a readable socket or a call of the daemon's own
    methods. [daemon_step] is that transition; the invariant of the whole state is
    kept by all of them. *)
From Stdlib Require Import Ascii.
From S2P Require Import Prelude Blob Timeout Types Table World Ssid Beacon Sta UbusClient.
From S2P Require Import Policy RemoteMsg Parse StaEvent Roam BeaconRequest LocalNode Netifd Nl80211.
From S2P Require Import Interfaces Info Config Remote Vendor Steady.

(** The libraries and the system, as far as the daemon sees them. *)
Section daemon.
Context {ET : Ether} {BM : Blobmsg} {BP : BlobParse} {BD : BlobData} {RT : RemoteTree} {VL : Vlist}.
Context {T : Type} `{!AvlTree Z ptr T} {UL : UbusLookup T} {NL : Nl80211 T}.
Context (if_nametoindex : string -> Z).
#[local] Instance the_handlers : NodeHandlers T := daemon_handlers if_nametoindex.

(** ** The start *)

(** The loop over the options that [getopt] returns; [true] when it ends in
    [usage]. *)
Fixpoint main_options (opts : list (Ascii.ascii * string)) : M (world T) bool :=
  match opts with
  | [] => mret false
  | (ch, optarg) :: opts' =>
      if bool_decide (ch = "v"%char) then
        modify (fun w => w <| config ::= fun c => c <| debug_level ::= fun d => u32 (d + 1) |> |>) ;;
        main_options opts'
      else if bool_decide (ch = "s"%char) then
        modify (fun w => w <| config ::= fun c => c <| syslog := true |> |>) ;;
        main_options opts'
      else if bool_decide (ch = "i"%char) then
        usteer_interface_add if_nametoindex optarg ;;
        main_options opts'
      else mret true
  end.

(** [usteer_init_local_id], with what is read of [/dev/urandom]. *)
Definition usteer_init_local_id (random : option Z) : M (world T) bool :=
  match random with
  | None => mret false
  | Some id => modify (fun w => w <| local_id := u32 id |>) ;; mret true
  end.

(** [usteer_interface_init], but for the socket that [usteer_reload_timer] opens. *)
Definition usteer_interface_init (random : option Z) (sb : StringBuffer)
    (ifaddrs : option (list (string * option sockaddr))) : M (world T) Z :=
  ok ← usteer_init_local_id random;
  if negb (ok : bool) then mret (-1)
  else
    usteer_send_update_timer ;;
    usteer_vendor_update_timer if_nametoindex sb ifaddrs ;;
    mret 0.

(** [main] up to [uloop_run], once the connection to ubus stands; its status. *)
Definition main (opts : list (Ascii.ascii * string)) (random : option Z) (sb : StringBuffer)
    (ifaddrs : option (list (string * option sockaddr))) (objs : list (string * Z)) : M (world T) (option Z) :=
  modify (fun w => w <| config := usteer_init_defaults |>) ;;
  bad ← main_options opts;
  if (bad : bool) then mret (Some 1)
  else
    usteer_update_time ;;
    usteer_interface_init random sb ifaddrs ;;
    usteer_local_nodes_init if_nametoindex objs ;;
    mret None.

(** ** The main loop *)

(** What [uloop_run] may run next. *)
Inductive daemon_event :=
| EvClock (ts : timespec)                                     (** time passes *)
| EvObjectAdd (msg : list (string * bval))                    (** [ubus.object.add] *)
| EvHostapd (s method : string) (msg : list (string * bval))  (** hostapd notifies *)
| EvRemove (s : string)                                       (** the hostapd object is gone *)
| EvNodeTimer (s : string)                                    (** [update] of a local node *)
| EvReqTimer (s : string)                                     (** [req_timer] *)
| EvSurveyTimer (s : string)                                  (** [nl80211.update] *)
| EvClients (s : string) (msg : list (string * bval))         (** answer to [get_clients] *)
| EvOwnReport (s : string) (msg : list (string * bval))       (** answer to [rrm_nr_get_own] *)
| EvReqDone (s : string)                                      (** the request is complete *)
| EvNetifd (s : string) (msg : list (string * bval))          (** answer of netifd *)
| EvStaTimer                                                  (** the timer queue of the stations *)
| EvRemoteTimer                                               (** [remote_timer] *)
| EvVendorTimer (sb : StringBuffer) (ifaddrs : option (list (string * option sockaddr)))
| EvSocket (l : list recv_result)                             (** the socket is readable *)
| EvSetConfig (objs : list (string * Z)) (method : string) (msg : list (string * bval))
| EvGetConfig (objs : list (string * Z))
| EvGetClients
| EvGetClientInfo (msg : list (string * bval))
| EvLocalInfo
| EvRemoteInfo.

Definition forget {A} (m : M (world T) A) : M (world T) unit := m ;; mret tt.

(** More rounds than the timers in the queue are never needed. *)
Definition sta_timer : M (world T) unit :=
  n ← gets (fun w => length (q_elems (tq w)));
  sta_timer_expired (S (S n)).

Definition dispatch (e : daemon_event) : M (world T) unit :=
  match e with
  | EvClock ts => modify (fun w => w <| clock := ts |>)
  | EvObjectAdd msg => usteer_event_handler if_nametoindex msg
  | EvHostapd s method msg => forget (usteer_handle_event s method msg)
  | EvRemove s => usteer_handle_remove s
  | EvNodeTimer s => usteer_local_node_update s
  | EvReqTimer s => usteer_local_node_state_next s
  | EvSurveyTimer s => nl80211_update_node if_nametoindex s
  | EvClients s msg => usteer_local_node_list_cb s msg
  | EvOwnReport s msg =>
      usteer_local_node_rrm_nr_cb s msg ;;
      (* libubus goes on with the request, which is a part of the node *)
      forget (get_ln s)
  | EvReqDone s => usteer_local_node_req_cb s
  | EvNetifd s msg => netifd_status_cb s msg
  | EvStaTimer => sta_timer
  | EvRemoteTimer => usteer_send_update_timer
  | EvVendorTimer sb ifaddrs => usteer_vendor_update_timer if_nametoindex sb ifaddrs
  | EvSocket l => forget (interface_recv l)
  | EvSetConfig objs method msg => usteer_ubus_set_config if_nametoindex objs method msg
  | EvGetConfig objs => forget (usteer_ubus_get_config if_nametoindex objs)
  | EvGetClients => forget usteer_ubus_get_clients
  | EvGetClientInfo msg => forget (usteer_ubus_get_client_info msg)
  | EvLocalInfo => forget usteer_ubus_local_info
  | EvRemoteInfo => forget usteer_ubus_remote_info
  end.
End daemon.

(** ** What the operations that are not [steady] leave alone *)

(** A weaker relation is kept as well. *)
Lemma within_mono {W A} (R R' : W -> W -> Prop) (m : M W A) :
  within R m -> (forall w w', R w w' -> R' w w') -> within R' m.
Proof. intros Hm HR w a w' H. by eapply HR, Hm. Qed.

Section calm.
Context {T : Type} `{!AvlTree Z ptr T}.
Implicit Types (w : world T).

(** All but the settings stays, and all but the tree of remote nodes. *)
Definition calm w w' : Prop := remote_nodes w' = remote_nodes w /\ (reqs_ok w -> reqs_ok w').
Definition quiet w w' : Prop := settings w' = settings w /\ (reqs_ok w -> reqs_ok w').
#[global] Instance calm_preorder : PreOrder calm.
Proof. split; [by intros w|]. intros w1 w2 w3 [H1 H1'] [H2 H2']. split; [congruence|auto]. Qed.
#[global] Instance quiet_preorder : PreOrder quiet.
Proof. split; [by intros w|]. intros w1 w2 w3 [H1 H1'] [H2 H2']. split; [congruence|auto]. Qed.

Lemma steady_calm {A} (m : M (world T) A) : within steady m -> within calm m.
Proof. intros H. eapply within_mono; [exact H|]. intros w w' [Hs Hr]. split; [|done]. unfold settled in Hs. congruence. Qed.
Lemma steady_quiet {A} (m : M (world T) A) : within steady m -> within quiet m.
Proof. intros H. eapply within_mono; [exact H|]. intros w w' [Hs Hr]. split; [|done]. unfold settled in Hs. congruence. Qed.
End calm.

Ltac walk := repeat first
  [ solve [apply steady_calm; auto with within] | solve [apply steady_quiet; auto with within]
  | within_step ltac:(solve [split; [reflexivity|intros Hreq; exact Hreq]]) ].

Section operations.
Context {ET : Ether} {BM : Blobmsg} {BP : BlobParse} {BD : BlobData} {RT : RemoteTree} {VL : Vlist}.
Context {T : Type} `{!AvlTree Z ptr T} {NH : NodeHandlers T} {NK : NodeHandlersSteady}.
Context (if_nametoindex : string -> Z).
#[local] Hint Resolve usteer_register_node_steady usteer_sta_node_cleanup_steady usteer_sta_info_update_timeout_steady
  usteer_sta_info_get_steady usteer_sta_get_steady : within.

Lemma usteer_interface_add_calm name : within (calm (T := T)) (usteer_interface_add if_nametoindex name).
Proof. walk. Qed.
Lemma usteer_ubus_set_config_calm objs method msg :
  within (calm (T := T)) (usteer_ubus_set_config if_nametoindex objs method msg).
Proof.
  unfold usteer_ubus_set_config. apply within_bind; [typeclasses eauto|walk|intros _]. cbv zeta.
  apply within_for_each_in; [typeclasses eauto|]. intros [j [name it]] Hin. cbn [fst snd].
  apply list_elem_of_lookup in Hin as [j' Hin]. rewrite list_lookup_imap in Hin.
  destruct (config_data if_nametoindex objs !! j') as [x|] eqn:E; [|done]. simpl in Hin.
  injection Hin as Hj Hx. subst x. apply list_elem_of_lookup_2 in E. destruct (attr _ _) as [v|]; [|walk].
  unfold config_data in E. apply elem_of_app in E as [E|E].
  - apply list_elem_of_lookup in E as [i Hi]. assert (H := scalar_item_value i name it Hi). destruct it; try done; walk.
  - repeat (apply elem_of_cons in E as [[= -> ->]|E]); [..|by apply elem_of_nil in E]; walk.
Qed.

Lemma usteer_send_update_timer_quiet : within (quiet (T := T)) usteer_send_update_timer.
Proof. walk. Qed.
Lemma recv_loop_quiet l : within (quiet (T := T)) (recv_loop l).
Proof. induction l as [|r l IH]; cbn [recv_loop]; repeat first [exact IH | progress walk]. Qed.
Lemma usteer_vendor_update_timer_steady sb ifaddrs :
  within (steady (T := T)) (usteer_vendor_update_timer if_nametoindex sb ifaddrs).
Proof. steady. Qed.
End operations.

(** ** The invariant of the whole state *)

(** Values with which no operation divides by zero or frees what it goes on using. *)
Definition config_sound (c : usteer_config) : Prop :=
  0 < s32 (local_sta_timeout c) /\ local_sta_update c ≠ 0 /\ kick_client_active_sec c ≠ 0 /\
  remote_update_interval c ≠ 0.

Section invariant.
Context {ET : Ether} {BM : Blobmsg} {BML : BlobmsgLaws} {BP : BlobParse} {BD : BlobData}.
Context {RT : RemoteTree} {RTL : RemoteTreeLaws} {VL : Vlist} {VLL : VlistLaws}.
Context {T : Type} `{!AvlTree Z ptr T} `{!AvlLaws Z ptr T} {UL : UbusLookup T} {NL : Nl80211 T}.
Context (if_nametoindex : string -> Z).
#[local] Instance handlers : NodeHandlers T := the_handlers if_nametoindex.
#[local] Instance handlers_laws : NodeHandlersLaws := daemon_handlers_laws if_nametoindex.
#[local] Instance handlers_steady : NodeHandlersSteady := daemon_handlers_steady if_nametoindex.
(** The identifiers of the instances that may be heard of. *)
Context (ids : list Z).
Implicit Types (w : world T) (s : string).

Record daemon_ok w : Prop := {
  dk_inv : inv w;
  dk_empty : no_empty_sta (abs w);
  dk_reqs : reqs_ok w;
  dk_peers : peers ids w;
  dk_ifaces : NoDup (interfaces w).*1;
  dk_script : node_up_script w ≠ Some ""%string;
  dk_config : config_sound (config w);
  dk_range : cfg_in_range (config w);
}.

(** What an operation that is [steady] must keep besides. *)
Lemma steady_ok w w' :
  daemon_ok w -> inv w' -> no_empty_sta (abs w') -> steady w w' -> daemon_ok w'.
Proof.
  intros [] Hi He [Hs Hr]. unfold settled, settings in Hs. injection Hs as Hc Hif Hss Hsc Hrn.
  split; [exact Hi|exact He|auto| |by rewrite Hif|by rewrite Hsc|by rewrite Hc|by rewrite Hc].
  destruct dk_peers0. split; [done|done|by rewrite Hrn|by rewrite Hrn].
Qed.

Lemma wp_steady_ok {A} (m : M (world T) A) w :
  daemon_ok w -> within steady m -> wp m (fun _ w' => inv w' /\ no_empty_sta (abs w')) w ->
  wp m (fun _ w' => daemon_ok w') w.
Proof.
  intros Hd Hm Hw. eapply wp_mono; [by apply wp_within|]. intros a w' [[Hi He] Hs]. by eapply steady_ok.
Qed.
Lemma wp_forget {A} (m : M (world T) A) (Q : world T -> Prop) w :
  wp m (fun _ w' => Q w') w -> wp (forget m) (fun _ w' => Q w') w.
Proof. intros H. apply wp_bind. eapply wp_mono; [exact H|]. intros a w' HQ. by apply wp_ret. Qed.

Lemma local_there w s : inv w -> s ∈ local_nodes w -> is_Some (node_heap w !! NLocal s) /\ is_Some (ln_heap w !! s).
Proof.
  intros Hi Hs. split; [by apply (no_local _ (inv_nodes _ Hi))|].
  apply (no_ln _ (inv_nodes _ Hi)). by apply (no_local _ (inv_nodes _ Hi)).
Qed.
Lemma handled_empty w w' : handled w w' -> no_empty_sta (abs w) -> no_empty_sta (abs w').
Proof. intros Hh He b. rewrite (hd_sta _ _ Hh). apply He. Qed.

(** ** The assumptions about the outside world

    - The objects that hostapd events and answers refer to are still there.
    - hostapd sends events of known types with complete beacon reports and signals in
      range, lists each client once, and gives a readable BSSID and an SSID that is
      served (with another one the node is freed in the callback of its own request).
    - Datagrams come from the instances [ids], and their messages are safe to take
      over ([message_ok]).
    - The string buffer of the vendor element fulfils its laws, does not move as it
      grows and has a zero somewhere, and there are at most 15 addresses.
    - The administrator gives no value that divides by zero and no
      [local_sta_timeout] that is not positive, and asks for the configuration only
      when SSIDs are configured, all shorter than 33 bytes. *)
Definition event_ok w (e : daemon_event) : Prop :=
  match e with
  | EvHostapd s method msg => s ∈ local_nodes w /\
      match event_of_method method with
      | EVENT_TYPE_BEACON => is_Some (parse_report msg)
      | __EVENT_TYPE_MAX => False
      | _ => event_signal_ok msg
      end
  | EvRemove s | EvNodeTimer s | EvReqTimer s | EvSurveyTimer s | EvReqDone s | EvNetifd s _ => s ∈ local_nodes w
  | EvClients s msg => s ∈ local_nodes w /\
      forall l, attr (blobmsg_parse [("freq", BLOBMSG_TYPE_INT32); ("clients", BLOBMSG_TYPE_TABLE)]%string msg) 1 =
        Some (VTable l) -> NoDup (client_addrs l)
  | EvOwnReport s msg => s ∈ local_nodes w /\
      forall v, attr (blobmsg_parse [("value", BLOBMSG_TYPE_ARRAY)]%string msg) 0 = Some v ->
        ether_aton <$> report_string (array_data v) 0 ≠ Some None /\
        (forall t, report_string (array_data v) 1 = Some t -> serves (config_ssid_list w) t)
  | EvVendorTimer sb (Some l) => string_buffer_laws sb /\ buffer_lucky sb /\
      addrs_ok l /\ (length (lan_addrs if_nametoindex w l) <= 15)%nat
  | EvSocket l => datagrams_ok ids w l
  | EvSetConfig objs method msg =>
      config_sound (config_of (T := T) (blobmsg_parse (config_policy (T := T) if_nametoindex objs) msg)
        (if bool_decide (method = "set_config"%string) then usteer_init_defaults else config w))
  | EvGetConfig _ => exists l, config_ssid_list w = Some l /\ Forall (fun s => (String.length s < 33)%nat) l
  | _ => True
  end.

(** ** Each event keeps the invariant *)

Lemma inv_report_stored cfg now p m si w :
  inv w -> si_heap w !! p = Some si -> inv (w <| si_heap ::= <[p := report_stored cfg now p m si]> |>).
Proof.
  intros Hi Hp. destruct (inv_si _ Hi p si Hp) as (Hl & Hb & Hs). eapply inv_set_si; [done|done|done|]. split; [done|].
  split; [|done]. simpl. constructor; [done|]. rewrite list.Forall_forall in Hb |- *. intros br [_ Hin]%list_elem_of_filter. by apply Hb.
Qed.
Lemma report_stored_empty cfg now p m si w :
  si_heap w !! p = Some si -> no_empty_sta (abs w) ->
  no_empty_sta (abs (w <| si_heap ::= <[p := report_stored cfg now p m si]> |>)).
Proof. intros Hp He. by rewrite (abs_set_si p si). Qed.

Lemma hostapd_event_ok s method msg w :
  daemon_ok w -> event_ok w (EvHostapd s method msg) ->
  wp (usteer_handle_event s method msg) (fun _ w' => daemon_ok w') w.
Proof.
  intros Hd [Hs Hm]. assert (Hi := dk_inv _ Hd). destruct (local_there w s Hi Hs) as [[x Hx] _].
  apply wp_steady_ok; [done|apply usteer_handle_event_steady|].
  destruct (decide (event_of_method method = EVENT_TYPE_BEACON)) as [Eb|Eb].
  - rewrite Eb in Hm. destruct Hm as [m Hm]. unfold usteer_handle_event. apply wp_bind, wp_modify. fold (time_updated w).
    rewrite bool_decide_true by done. apply wp_bind.
    assert (Hi1 := inv_time w Hi).
    destruct (proj1 (wp_ok _ _ _) (usteer_handle_event_beacon_report_spec s msg m x (time_updated w) Hi1 Hx Hm))
      as ([] & w' & Hrun & H).
    apply wp_ok. exists tt, w'. split; [exact Hrun|]. apply wp_ret.
    destruct (table_find _ _ _) as [p|]; [|subst; split; [done|apply Hd]].
    destruct (node_of_bssid _ _); [|subst; split; [done|apply Hd]].
    destruct H as (si & Hp & ->). split; [by eapply inv_report_stored|]. apply Hd.
  - eapply wp_mono; [apply (usteer_handle_event_spec s method msg x w Hi Hx)|].
    + apply Hd.
    + destruct (event_of_method method); done.
    + done.
    + intros E. by rewrite E in Hm.
    + intros st w' H. destruct (parse_event msg) as [[[b f] sg]|].
      * destruct H as (r & p & create & si & st0 & w1 & w2 & Hev & _).
        destruct (event_handled_inv _ _ _ _ _ _ _ _ _ _ _ _ _ _ Hev) as (? & _ & Hem). split; [done|]. apply Hem, Hd.
      * destruct H as [_ ->]. split; [by apply inv_time|apply Hd].
Qed.

Lemma object_add_ok msg w :
  daemon_ok w -> wp (usteer_event_handler if_nametoindex msg) (fun _ w' => daemon_ok w') w.
Proof.
  intros Hd. apply wp_steady_ok; [done|apply usteer_event_handler_steady|].
  assert (Hi := dk_inv _ Hd). unfold usteer_event_handler. cbv zeta. set (pol := [_; _]).
  destruct (attr _ 0) as [v0|] eqn:E0; [|by apply wp_ret; split; [|apply Hd]].
  destruct (attr _ 1) as [v1|] eqn:E1; [|by apply wp_ret; split; [|apply Hd]].
  assert (H0 : type_of_bval v0 = BLOBMSG_TYPE_INT32) by (by eapply (attr_type pol msg 0)).
  assert (H1 : type_of_bval v1 = BLOBMSG_TYPE_STRING) by (by eapply (attr_type pol msg 1)).
  destruct v0; try done. destruct v1; try done.
  apply wp_bind. eapply wp_deref; [done|]. apply wp_bind. eapply wp_deref; [done|].
  eapply wp_mono; [by apply usteer_register_node_spec|]. intros [] w'.
  destruct (String.prefix _ _); [|intros ->; by split; [|apply Hd]].
  intros Hr. split; [apply Hr|]. apply Hr, Hd.
Qed.

Lemma remove_ok s w :
  daemon_ok w -> s ∈ local_nodes w -> wp (usteer_handle_remove s) (fun _ w' => daemon_ok w') w.
Proof.
  intros Hd Hs. assert (Hi := dk_inv _ Hd). destruct (local_there w s Hi Hs) as [[x Hx] _].
  apply wp_steady_ok; [done|apply usteer_free_node_steady|].
  eapply wp_mono; [by eapply usteer_free_node_spec|]. intros [] w' Hf. split; [apply Hf|]. apply Hf, Hd.
Qed.

Lemma node_timer_ok s w :
  daemon_ok w -> s ∈ local_nodes w -> wp (usteer_local_node_update s) (fun _ w' => daemon_ok w') w.
Proof.
  intros Hd Hs. assert (Hi := dk_inv _ Hd). destruct (local_there w s Hi Hs) as [_ [ln Hl]].
  destruct (dk_config _ Hd) as (_ & Hup & Hsec & _).
  apply wp_steady_ok; [done|apply usteer_local_node_update_steady|].
  eapply wp_mono; [by eapply usteer_local_node_update_spec|]. intros [] w' Hf. split; [apply Hf|]. apply Hf, Hd.
Qed.

Lemma req_timer_ok s w :
  daemon_ok w -> s ∈ local_nodes w -> wp (usteer_local_node_state_next s) (fun _ w' => daemon_ok w') w.
Proof.
  intros Hd Hs. assert (Hi := dk_inv _ Hd). destruct (local_there w s Hi Hs) as [_ [ln Hl]].
  eapply wp_mono; [by eapply usteer_local_node_state_next_spec; [| |eapply dk_reqs]|].
  intros [] w' ->. cbv zeta. set (ln' := ln <| req_timer := _ |> <| req_state := _ |>).
  assert (Hi' : inv (w <| ln_heap ::= <[s := ln']> |>)) by by eapply inv_set_ln.
  eapply steady_ok; [exact Hd|by apply inv_emit|apply Hd|]. split; [done|].
  intros Hr. apply map_Forall_insert_2; [|exact Hr]. unfold req_ok. simpl. by apply Z.mod_pos_bound.
Qed.

Lemma survey_timer_ok s w :
  daemon_ok w -> s ∈ local_nodes w -> wp (nl80211_update_node if_nametoindex s) (fun _ w' => daemon_ok w') w.
Proof.
  intros Hd Hs. assert (Hi := dk_inv _ Hd). assert (Ht := local_there w s Hi Hs).
  apply wp_steady_ok; [done|apply nl80211_update_node_steady|].
  eapply wp_mono; [apply (nl80211_update_node_ok if_nametoindex s w w); [done|by split; apply Ht|by apply handled_refl]|].
  intros [] w' Hh. split; [apply Hh|]. eapply handled_empty; [exact Hh|apply Hd].
Qed.

Lemma clients_ok s msg w :
  daemon_ok w -> event_ok w (EvClients s msg) -> wp (usteer_local_node_list_cb s msg) (fun _ w' => daemon_ok w') w.
Proof.
  intros Hd [Hs Hnd]. assert (Hi := dk_inv _ Hd). destruct (local_there w s Hi Hs) as [[x Hx] _].
  apply wp_steady_ok; [done|apply usteer_local_node_list_cb_steady|].
  eapply wp_mono; [apply (usteer_local_node_list_cb_spec s msg x w Hi Hx); [apply Hd|exact Hnd]|].
  intros [] w'. cbv zeta.
  destruct (attr _ 0) as [[| |f| | | |]|]; try (intros ->; by split; [|apply Hd]).
  destruct (attr _ 1) as [[| | | | | |cl]|]; try (intros ->; by split; [|apply Hd]).
  intros [Hen _ _ _ _ _ Hem]. split; [apply Hen|]. apply Hem. intros b. by erewrite abs_set_node; [apply (dk_empty _ Hd)|..].
Qed.

Lemma own_report_ok s msg w :
  daemon_ok w -> event_ok w (EvOwnReport s msg) ->
  wp (usteer_local_node_rrm_nr_cb s msg ;; forget (get_ln s)) (fun _ w' => daemon_ok w') w.
Proof.
  intros Hd [Hs Ha]. apply wp_bind.
  eapply wp_mono with (P := fun _ w' => daemon_ok w' /\ is_Some (ln_heap w' !! s)).
  2: { intros [] w' [Hd' [ln Hln]]. apply wp_bind. eapply wp_get_ln; [exact Hln|]. by apply wp_ret. }
  assert (Hi := dk_inv _ Hd). destruct (local_there w s Hi Hs) as [[x Hx] Hln].
  assert (Hw1 : forall l b, daemon_ok (w <| node_heap ::= <[NLocal s := report_learned l b x]> |>)).
  { intros l b. eapply steady_ok; [exact Hd|eapply inv_set_node; [done..|by destruct b]| |done].
    erewrite abs_set_node; [apply Hd|done|by destruct b]. }
  assert (H := usteer_local_node_rrm_nr_cb_spec s msg x w Hi Hx). revert H. cbv zeta.
  destruct (attr _ 0) as [v|] eqn:Ev; [|by intros H; apply wp_ok; eexists _, _; split; [exact H|]].
  destruct (Ha v eq_refl) as [Ha0 Ha1]. destruct (ether_aton <$> _) as [[b|]|]; [|done|];
    (intros H; eapply wp_mono; [exact H|]; intros [] w' Hw'; destruct (report_string _ 1) as [t|];
     [destruct Hw' as [[_ ->]|[Hns _]]; [by split; [apply Hw1|]|by destruct Hns; apply Ha1]|subst w'; by split; [apply Hw1|]]).
Qed.

Lemma req_done_ok s w :
  daemon_ok w -> s ∈ local_nodes w -> wp (usteer_local_node_req_cb s) (fun _ w' => daemon_ok w') w.
Proof.
  intros Hd Hs. assert (Hi := dk_inv _ Hd). destruct (local_there w s Hi Hs) as [_ [ln Hl]].
  apply wp_steady_ok; [done|apply usteer_local_node_req_cb_steady|].
  apply wp_bind, due_in_spec. eapply wp_upd_ln; [done|]. split; [by eapply inv_set_ln|apply Hd].
Qed.

Lemma sta_timer_ok w : daemon_ok w -> wp sta_timer (fun _ w' => daemon_ok w') w.
Proof.
  intros Hd. unfold sta_timer. do 2 wp_step. apply wp_steady_ok; [done|apply sta_timer_expired_steady|].
  eapply wp_mono; [apply sta_timer_expired_removes; [apply Hd|lia]|].
  intros [] w' [l Hr]. split; [apply Hr|]. apply Hr, Hd.
Qed.

(** Relations for the operations that are not [steady]. *)
Lemma quiet_ok w w' :
  daemon_ok w -> inv w' -> no_empty_sta (abs w') -> peers ids w' -> quiet w w' -> daemon_ok w'.
Proof.
  intros [] Hi He Hp [Hs Hr]. unfold settings in Hs. injection Hs as Hc Hif Hss Hsc.
  split; [exact Hi|exact He|auto|exact Hp|by rewrite Hif|by rewrite Hsc|by rewrite Hc|by rewrite Hc].
Qed.

Lemma remote_timer_ok w : daemon_ok w -> wp usteer_send_update_timer (fun _ w' => daemon_ok w') w.
Proof.
  intros Hd. destruct (dk_config _ Hd) as (_ & _ & _ & Hz).
  eapply wp_mono; [apply wp_within; [apply usteer_send_update_timer_quiet|];
    apply usteer_send_update_timer_spec; [apply Hd|exact Hz]|].
  intros [] w' [Hn Hq]. eapply quiet_ok; [exact Hd|apply Hn| | |exact Hq].
  - apply (nc_empty _ _ _ _ Hn). exact (dk_empty _ Hd).
  - assert (Hrem := nc_remote _ _ _ _ Hn).
    change (remote_nodes (updated (update_due w) (own_nodes (update_due w)))) with (remote_nodes w) in Hrem.
    destruct (dk_peers _ Hd) as [Hc Hen Hs Hk]. split; [done|done|rewrite Hrem; by apply StronglySorted_filter|].
    intros k. rewrite Hrem. intros [_ Hin]%list_elem_of_filter. by apply Hk.
Qed.

Lemma socket_ok l w :
  daemon_ok w -> datagrams_ok ids w l -> wp (interface_recv l) (fun _ w' => daemon_ok w') w.
Proof.
  intros Hd Hl. eapply wp_mono; [apply (wp_within quiet); [|by apply (interface_recv_spec ids); [apply Hd|apply Hd|]]|].
  - unfold interface_recv. apply within_bind; [typeclasses eauto|apply within_gets; typeclasses eauto|intros cfg].
    destruct (negb (remote_disabled cfg)); [apply recv_loop_quiet|apply within_ret; typeclasses eauto].
  - intros r w' [(Hi & Hp & _ & _ & He) Hq]. eapply quiet_ok; [exact Hd|done|apply He, Hd|done|exact Hq].
Qed.

Lemma netifd_ok s msg w :
  daemon_ok w -> s ∈ local_nodes w -> wp (netifd_status_cb s msg) (fun _ w' => daemon_ok w') w.
Proof.
  intros Hd Hs. assert (Hi := dk_inv _ Hd). assert (Ht := local_there w s Hi Hs).
  apply wp_steady_ok; [done|apply netifd_status_cb_steady|].
  destruct Ht as [[x Hx] [ln Hl]]. eapply wp_mono; [by apply netifd_status_taken|]. intros [] w' ->.
  assert (Hh : handled w (status_taken s x ln (status_limits (iface_name s) msg) w)) by by apply status_taken_handled.
  split; [apply Hh|]. eapply handled_empty; [exact Hh|apply Hd].
Qed.

(** The defaults are of the types of the options. *)
Lemma defaults_in_range : cfg_in_range usteer_init_defaults.
Proof.
  unfold cfg_in_range, option_values.
  repeat first [apply list.Forall_cons_2; [(exact I || (split; by vm_compute))|]|apply list.Forall_nil_2].
Qed.

Lemma set_config_ok objs method msg w :
  daemon_ok w -> event_ok w (EvSetConfig objs method msg) ->
  wp (usteer_ubus_set_config if_nametoindex objs method msg) (fun _ w' => daemon_ok w') w.
Proof.
  intros Hd Hc. eapply wp_mono; [apply (wp_within calm); [apply usteer_ubus_set_config_calm|];
    apply usteer_ubus_set_config_spec; apply Hd|].
  intros [] w' [Hw [Hrn Hr]]. destruct Hw as [Hi Hcfg Hif _ _ Hsc _ He]. split.
  - exact Hi.
  - apply He, Hd.
  - apply Hr, Hd.
  - destruct (dk_peers _ Hd). split; [done|done|by rewrite Hrn|by rewrite Hrn].
  - destruct (_ ≫= string_list); [apply Hif|rewrite Hif; apply Hd].
  - rewrite Hsc. destruct (attr _ CFG_node_up_script) as [[| | | |v| |]|]; try apply Hd.
    destruct v as [|c v]; [done|]. simpl. congruence.
  - rewrite Hcfg. exact Hc.
  - rewrite Hcfg. apply config_of_in_range; [apply config_policy_typed|].
    case_bool_decide; [apply defaults_in_range|apply Hd].
Qed.

Lemma vendor_timer_ok sb ifaddrs w :
  daemon_ok w -> event_ok w (EvVendorTimer sb ifaddrs) ->
  wp (usteer_vendor_update_timer if_nametoindex sb ifaddrs) (fun _ w' => daemon_ok w') w.
Proof.
  intros Hd Hok. assert (Hi := dk_inv _ Hd). apply wp_steady_ok; [done|apply usteer_vendor_update_timer_steady|].
  unfold usteer_vendor_update_timer. do 2 wp_step. unfold usteer_update_time. do 2 wp_step.
  apply wp_bind, due_in_spec. do 2 wp_step. set (w1 := _ <| vendor_timer := _ |>).
  assert (Hi1 : inv w1) by (destruct Hi as [? ? ? []]; by split; [..|split]).
  unfold usteer_vendor_set. apply wp_bind.
  eapply wp_mono with (P := fun r w' => w' = w1).
  { destruct ifaddrs as [l|]; [|by apply wp_ret]. destruct Hok as (Hsb & Hlk & Ha & Hl).
    eapply wp_mono; [by apply (usteer_vendor_get_spec if_nametoindex sb Hsb Hlk w1)|]. by intros r w' [-> _]. }
  intros r w' ->. destruct (r.1 <=? 4); [by apply wp_ret; split; [|apply Hd]|]. do 2 wp_step.
  eapply wp_mono; [apply set_vendor_spec|].
  - intros s Hs. by apply (local_there w1 s).
  - intros [] w' ->. split; [by apply inv_emit|apply Hd].
Qed.

(** What only reads. *)
Lemma read_ok {A} (m : M (world T) A) (P : A -> Prop) w :
  daemon_ok w -> wp m (fun r w' => w' = w /\ P r) w -> wp (forget m) (fun _ w' => daemon_ok w') w.
Proof. intros Hd Hm. apply wp_forget. eapply wp_mono; [exact Hm|]. by intros r w' [-> _]. Qed.

(** Every event that may come is handled without undefined behaviour, and the
    invariant holds again afterwards. *)
Lemma dispatch_ok e w :
  daemon_ok w -> event_ok w e -> wp (dispatch if_nametoindex e) (fun _ w' => daemon_ok w') w.
Proof.
  intros Hd He. assert (Hi := dk_inv _ Hd). destruct e; cbn [dispatch].
  - apply wp_modify. eapply steady_ok; [exact Hd|by apply inv_set_clock|apply Hd|done].
  - by apply object_add_ok.
  - apply wp_forget. by apply hostapd_event_ok.
  - by apply remove_ok.
  - by apply node_timer_ok.
  - by apply req_timer_ok.
  - by apply survey_timer_ok.
  - by apply clients_ok.
  - by apply own_report_ok.
  - by apply req_done_ok.
  - by apply netifd_ok.
  - by apply sta_timer_ok.
  - by apply remote_timer_ok.
  - by apply vendor_timer_ok.
  - apply wp_forget. by apply socket_ok.
  - by apply set_config_ok.
  - apply wp_forget. unfold wp. rewrite usteer_ubus_get_config_run. destruct He as (l & -> & Hl).
    replace (ssids_end l) with true; [exact Hd|]. symmetry. apply forallb_forall. intros s Hin%list_elem_of_In.
    rewrite list.Forall_forall in Hl. by apply Nat.ltb_lt, Hl.
  - eapply read_ok; [exact Hd|by apply usteer_ubus_get_clients_spec].
  - eapply read_ok; [exact Hd|apply usteer_ubus_get_client_info_spec; [exact Hi|apply Hd]].
  - unfold usteer_ubus_local_info. eapply read_ok; [exact Hd|]. by apply usteer_ubus_local_info_spec.
  - unfold usteer_ubus_remote_info. eapply read_ok; [exact Hd|]. by apply usteer_ubus_remote_info_spec.
Qed.

(** ** Runs *)

(** One turn of the main loop. *)
Inductive daemon_step : world T -> daemon_event -> world T -> Prop :=
| daemon_turn w e w' : event_ok w e -> dispatch if_nametoindex e w = Ok (tt, w') -> daemon_step w e w'.
Inductive daemon_run : world T -> list daemon_event -> world T -> Prop :=
| run_start w : daemon_run w [] w
| run_turn w es w1 e w2 : daemon_run w es w1 -> daemon_step w1 e w2 -> daemon_run w (es ++ [e]) w2.

Lemma daemon_run_ok w es w' : daemon_ok w -> daemon_run w es w' -> daemon_ok w'.
Proof.
  intros Hd Hr. induction Hr as [|w es w1 e w2 Hr IH Hs]; [done|]. destruct Hs as [w1 e w2 He Hrun].
  assert (H := dispatch_ok e w1 (IH Hd) He). unfold wp in H. by rewrite Hrun in H.
Qed.
Lemma daemon_progress w e : daemon_ok w -> event_ok w e -> exists w', daemon_step w e w'.
Proof.
  intros Hd He. destruct (proj1 (wp_ok _ _ _) (dispatch_ok e w Hd He)) as ([] & w' & Hrun & _).
  exists w'. by constructor.
Qed.

(** ** The start establishes the invariant *)

(** The identifiers of the instances can be told apart, and from what is read at the
    end of the tree of remote nodes. *)
Definition ids_ok : Prop := ids_close ids /\ avl_end_key ∉ ids.

(** The memory of the process when [main] begins. *)
Record fresh w : Prop := {
  fs_stations : stations w = ∅;
  fs_si : si_heap w = ∅;
  fs_nodes : node_heap w = ∅;
  fs_ln : ln_heap w = ∅;
  fs_rn : rn_heap w = ∅;
  fs_local : local_nodes w = [];
  fs_remote : remote_nodes w = [];
  fs_tq : q_ids (tq w) = [];
  fs_ifaces : interfaces w = [];
  fs_script : node_up_script w = None;
}.

Lemma fresh_inv w : fresh w -> inv w.
Proof.
  intros []. split.
  - split; unfold abs; simpl; rewrite ?fs_si0, ?fs_stations0, ?fs_nodes0, ?fs_tq0, ?fmap_empty; intros *;
      rewrite ?lookup_empty; try done; try (by intros [? ?]); intros Hin; by apply elem_of_empty in Hin.
  - unfold q_wf. rewrite fs_tq0. constructor.
  - rewrite fs_si0. apply map_Forall_empty.
  - split; rewrite ?fs_local0, ?fs_remote0, ?fs_nodes0, ?fs_ln0, ?fs_rn0; intros *;
      rewrite ?lookup_empty, ?elem_of_nil; try done; try constructor; (done || by intros []).
Qed.

Lemma fresh_ok w : fresh w -> ids_ok -> daemon_ok (w <| config := usteer_init_defaults |>).
Proof.
  intros Hf [Hids Hend]. assert (Hi := fresh_inv w Hf). destruct Hf. split; simpl.
  - by apply inv_set_config.
  - intros b. simpl. by rewrite fs_stations0, fmap_empty, lookup_empty.
  - unfold reqs_ok. simpl. rewrite fs_ln0. apply map_Forall_empty.
  - split; simpl; rewrite ?fs_remote0; [done|done|constructor|]. intros k Hk. by apply elem_of_nil in Hk.
  - rewrite fs_ifaces0. constructor.
  - by rewrite fs_script0.
  - done.
  - apply defaults_in_range.
Qed.

Lemma set_config_field_ok w f :
  daemon_ok w -> config_sound (f (config w)) -> cfg_in_range (f (config w)) ->
  daemon_ok (w <| config ::= f |>).
Proof. intros [? ? ? []] Hc Hr. split; try done. by apply inv_set_config. Qed.

(** The options of the command line are assigned in range. *)
Lemma in_range_flags c f :
  cfg_in_range c -> 0 <= debug_level (f c) < 2 ^ 32 -> drop 3 (option_values (f c)) = drop 3 (option_values c) ->
  cfg_in_range (f c).
Proof.
  intros Hc Hd Hf. unfold cfg_in_range. rewrite <- (take_drop 3 (option_values (f c))). apply Forall_app. split.
  - apply list.Forall_cons_2; [exact I|]. apply list.Forall_cons_2; [exact I|]. by apply list.Forall_singleton.
  - rewrite Hf. by apply Forall_drop.
Qed.

Lemma main_options_ok opts w :
  daemon_ok w -> wp (main_options if_nametoindex opts) (fun _ w' => daemon_ok w') w.
Proof.
  revert w. induction opts as [|[ch optarg] opts IH]; intros w Hd; [by apply wp_ret|]. cbn [main_options].
  destruct (bool_decide (ch = "v"%char)); [|destruct (bool_decide (ch = "s"%char));
    [|destruct (bool_decide (ch = "i"%char)); [|by apply wp_ret]]].
  - do 2 wp_step. apply IH, set_config_field_ok; [done|exact (dk_config _ Hd)|].
    apply in_range_flags; [exact (dk_range _ Hd)|apply u32_range|done].
  - do 2 wp_step. apply IH, set_config_field_ok; [done|exact (dk_config _ Hd)|].
    apply in_range_flags; [exact (dk_range _ Hd)| |done]. exact (Forall_lookup_1 _ _ 2%nat _ (dk_range _ Hd) eq_refl).
  - apply wp_bind. eapply wp_mono; [apply (wp_within calm); [apply usteer_interface_add_calm|];
      apply (usteer_interface_add_spec if_nametoindex optarg []); [apply Hd|]|].
    { intros n j _ Hin. by apply elem_of_nil in Hin. }
    intros [] w' [(Hc & Hnd & _) [Hrn Hr]]. apply IH. destruct Hc as [Hc]. destruct Hd. split.
    + rewrite Hc. by apply inv_set_interfaces.
    + rewrite Hc. exact dk_empty0.
    + auto.
    + destruct dk_peers0. split; [done|done|by rewrite Hrn|by rewrite Hrn].
    + exact Hnd.
    + by rewrite Hc.
    + by rewrite Hc.
    + by rewrite Hc.
Qed.

Lemma usteer_local_nodes_init_ok objs w :
  daemon_ok w -> wp (usteer_local_nodes_init if_nametoindex objs) (fun _ w' => daemon_ok w') w.
Proof.
  intros Hd. apply wp_steady_ok; [done| |].
  - unfold usteer_local_nodes_init. apply within_for_each; [typeclasses eauto|]. intros o. apply usteer_register_node_steady.
  - eapply wp_mono; [apply usteer_local_nodes_init_spec, Hd|]. intros [] w' H. split; [apply H|]. apply H, Hd.
Qed.

(** The system at the start: the string buffer as in [event_ok], and well-formed
    addresses, at most 15 of IPv6. *)
Definition v6_addrs (l : list (string * option sockaddr)) : list (list Z) :=
  omap (fun ifa => match ifa.2 with Some (AF_INET6 a) => Some a | _ => None end) l.
Definition system_ok (sb : StringBuffer) (ifaddrs : option (list (string * option sockaddr))) : Prop :=
  string_buffer_laws sb /\ buffer_lucky sb /\
  match ifaddrs with Some l => addrs_ok l /\ (length (v6_addrs l) <= 15)%nat | None => True end.

Lemma lan_addrs_v6 w l : (length (lan_addrs if_nametoindex w l) <= length (v6_addrs l))%nat.
Proof.
  unfold lan_addrs, v6_addrs, lan_addr. induction l as [|[n [[a|]|]] l IH]; simpl; [lia| |exact IH|exact IH].
  destruct (list_find _ _); simpl; [by apply le_n_S|by apply le_S].
Qed.

Lemma main_ok opts random sb ifaddrs objs w :
  fresh w -> ids_ok -> system_ok sb ifaddrs ->
  wp (main if_nametoindex opts random sb ifaddrs objs) (fun _ w' => daemon_ok w') w.
Proof.
  intros Hf Hids Hsys. unfold main. do 2 wp_step. apply wp_bind.
  eapply wp_mono; [by apply main_options_ok, fresh_ok|]. intros [] w1 Hd1; [by apply wp_ret|].
  apply wp_bind, wp_modify. fold (time_updated w1).
  assert (Hd2 : daemon_ok (time_updated w1)).
  { eapply steady_ok; [exact Hd1|apply inv_time, Hd1|apply Hd1|done]. }
  apply wp_bind. eapply wp_mono with (P := fun _ w' => daemon_ok w').
  2: { intros r w2 Hw2. apply wp_bind. eapply wp_mono; [by apply usteer_local_nodes_init_ok|].
       intros [] w3 Hw3. by apply wp_ret. }
  unfold usteer_interface_init, usteer_init_local_id. apply wp_bind. destruct random as [id|]; [|by do 2 apply wp_ret].
  do 2 wp_step. apply wp_ret. cbn [negb].
  match goal with |- wp _ _ ?w' => assert (Hd3 : daemon_ok w') end.
  { destruct Hd2 as [[? ? ? []] ? ? [] ? ? ? ?]. by split. }
  apply wp_bind. eapply wp_mono; [by apply remote_timer_ok|]. intros [] w3 Hw3.
  apply wp_bind. eapply wp_mono; [apply vendor_timer_ok; [done|]|intros [] w4 Hw4; by apply wp_ret].
  destruct Hsys as (Hsb & Hlk & Hsys). destruct ifaddrs as [l|]; [|done]. destruct Hsys as [Ha Hl]. do 3 (split; [done|]).
  assert (H := lan_addrs_v6 w3 l). lia.
Qed.
End invariant.
