(* ===== verification/FakeAp.v ===== *)
(** * The fake access point (fakeap.c)

    A test program that takes the place of hostapd: its stations send probe
    requests at random times with random signals. Its state is [fake]; a station
    is known by its place in the list of stations, and so is its timer. The bytes
    of /dev/urandom are a parameter. *)
From Stdlib Require Import Ascii.
From S2P Require Import Prelude Blob Timeout Periodic.

(** The byte at a position of the random stream. *)
Class Urandom := urandom : nat -> Z.

(** [struct var], [struct sta_data] *)
Record var := mkVar { v_cur : Z; v_min : Z; v_max : Z }.
#[export] Instance settable_var : Settable var := fun v => mkVar (v_cur v) (v_min v) (v_max v).

Record sta_data := mkStaData { probe : var; signal : var; addr : mac }.
#[export] Instance settable_sta_data : Settable sta_data := fun s => mkStaData (probe s) (signal s) (addr s).

(** What the program does outside. *)
Inductive fake_action :=
| UbusNotify (type : string) (msg : list (string * bval))
| ShortRead
| Verbose (a : mac) (ms sig : Z).

Record fake (T : Type) := mkFake {
  stations : list sta_data;
  tq : usteer_timeout_queue T;
  tq_cb : bool;  (** whether [tq.cb] is set, to [sta_probe] *)
  fake_clock : timespec;
  r_fd : nat;  (** the position of the random stream *)
  freq : Z;
  verbose : Z;
  fake_out : list fake_action;
}.
Arguments stations {T}. Arguments tq {T}. Arguments tq_cb {T}. Arguments fake_clock {T}.
Arguments r_fd {T}. Arguments freq {T}. Arguments verbose {T}. Arguments fake_out {T}. Arguments mkFake {T}.
#[export] Instance settable_fake T : Settable (fake T) := fun w =>
  mkFake (stations w) (tq w) (tq_cb w) (fake_clock w) (r_fd w) (freq w) (verbose w) (fake_out w).

Section fakeap.
Context {UR : Urandom} {T : Type} `{!AvlTree Z nat T}.
Notation FM := (M (fake T)).

Definition fread (n : nat) : FM (list Z) :=
  pos ← gets r_fd;
  modify (fun w => w <| r_fd := (pos + n)%nat |>) ;;
  mret (map (fun i => u8 (urandom i)) (seq pos n)).
Definition fake_emit (a : fake_action) : FM unit := modify (fun w => w <| fake_out ::= fun l => l ++ [a] |>).
Definition get_sta (t : nat) : FM sta_data := deref DanglingSta (fun w => stations w !! t).
Definition upd_sta (t : nat) (f : sta_data -> sta_data) : FM unit := modify (fun w => w <| stations ::= alter f t |>).

(** The product is of unsigned type. *)
Definition gen_val (val : var) : FM var :=
  let delta := s32 (v_max val - v_min val) in
  let val := val <| v_cur := v_min val |> in
  if delta =? 0 then mret val
  else
    l ← fread 1;
    v ← deref OutOfBounds (fun _ => l !! 0%nat);
    mret (val <| v_cur := s32 (v_cur val + u32 (v * delta) / 255) |>).

(** The arguments of [ubus_notify]. *)
Definition probe_msg (a : mac) (fr sig : Z) : list (string * bval) :=
  [("address", VString (mac_addr_fmt a)); ("freq", VU32 (u32 fr)); ("signal", VU32 (u32 sig))]%string.

Definition sta_send_probe (t : nat) : FM unit :=
  sta ← get_sta t;
  fr ← gets freq;
  verb ← gets verbose;
  let sig := s32 (-95 + v_cur (signal sta)) in
  fake_emit (UbusNotify "probe" (probe_msg (addr sta) fr sig)) ;;
  when (negb (verb =? 0)) (fake_emit (Verbose (addr sta) (v_cur (probe sta)) sig)).

Definition sta_schedule_probe (t : nat) : FM unit :=
  sta ← get_sta t;
  p ← gen_val (probe sta);
  upd_sta t (fun s => s <| probe := p |>) ;;
  sg ← gen_val (signal sta);
  upd_sta t (fun s => s <| signal := sg |>) ;;
  modify (fun w => w <| tq ::= usteer_timeout_set (fake_clock w) t (v_cur p) |>).

Definition sta_probe (t : nat) : FM unit :=
  sta_send_probe t ;;
  sta_schedule_probe t.

(** [fread] of one item of six bytes returns 1, which is not 6. *)
Definition init_station (ref : sta_data) : FM unit :=
  t ← gets (fun w => length (stations w));
  modify (fun w => w <| stations ::= fun l => l ++ [ref] |>) ;;
  a ← fread 6;
  upd_sta t (fun s => s <| addr := a |>) ;;
  fake_emit ShortRead ;;
  upd_sta t (fun s => s <| addr ::= alter (fun b => Z.land b 254) 0%nat |>) ;;
  sta_schedule_probe t.

Definition create_stations (ref : sta_data) (n : Z) : FM unit :=
  modify (fun w => w <| tq_cb := true |>) ;;
  for_each (fun _ => init_station ref) (seq 0 (Z.to_nat n)).

Definition hostapd_bss_get_clients : FM (Z * list (string * bval)) := mret (0, []).

(** The expiry of the queue, with [tq.cb]. *)
Definition fake_timer (fuel : nat) : FM unit :=
  cb ← gets tq_cb;
  usteer_timeout_cb tq (fun f w => w <| tq ::= f |>) fake_clock (if (cb : bool) then Some sta_probe else None) fuel.
End fakeap.

(** ** Numbers on the command line (the C library's [strtoul] and [atoi]) *)

Definition is_space (c : ascii) : bool :=
  bool_decide (c ∈ map ascii_of_nat [32; 9; 10; 11; 12; 13]%nat).
Definition digit (base : Z) (c : ascii) : option Z :=
  let n := Z.of_nat (nat_of_ascii c) in
  let v := if (48 <=? n) && (n <=? 57) then n - 48
           else if (97 <=? n) && (n <=? 122) then n - 87
           else if (65 <=? n) && (n <=? 90) then n - 55 else 99 in
  if v <? base then Some v else None.
(** The value of the leading digits, and what follows them. *)
Fixpoint digits (base acc : Z) (s : list ascii) : Z * list ascii :=
  match s with
  | c :: s' => match digit base c with Some d => digits base (acc * base + d) s' | None => (acc, s) end
  | [] => (acc, [])
  end.
Fixpoint skip_spaces (s : list ascii) : list ascii :=
  match s with
  | c :: s' => if is_space c then skip_spaces s' else s
  | [] => []
  end.
Definition sign (s : list ascii) : bool * list ascii :=
  match s with
  | c :: s' => if bool_decide (c = "-"%char) then (true, s') else if bool_decide (c = "+"%char) then (false, s') else (false, s)
  | [] => (false, [])
  end.
(** Base 0: the prefix says which. *)
Definition number_base (s : list ascii) : Z * list ascii :=
  match s with
  | z :: s' =>
      if bool_decide (z = "0"%char) then
        match s' with
        | x :: h :: _ =>
            if bool_decide (x ∈ ["x"%char; "X"%char]) && bool_decide (is_Some (digit 16 h)) then (16, tl s') else (8, s)
        | _ => (8, s)
        end
      else (10, s)
  | [] => (10, [])
  end.
(** [strtoul(s, &end, 0)] for an [unsigned long] of 64 bits; without digits [end]
    is the start. *)
Definition strtoul (s : list ascii) : Z * list ascii :=
  let '(neg, s1) := sign (skip_spaces s) in
  let '(base, s2) := number_base s1 in
  match s2 with
  | c :: _ =>
      if bool_decide (is_Some (digit base c)) then
        let '(v, rest) := digits base 0 s2 in
        (if 2 ^ 64 <=? v then 2 ^ 64 - 1 else if (neg : bool) then u64 (- v) else v, rest)
      else (0, s)
  | [] => (0, s)
  end.
(** [atoi] is [(int) strtol(s, NULL, 10)]. *)
Definition atoi (s : list ascii) : Z :=
  let '(neg, s1) := sign (skip_spaces s) in
  let v := (digits 10 0 s1).1 in
  s32 (if (neg : bool) then Z.max (- 2 ^ 63) (- v) else Z.min (2 ^ 63 - 1) v).

Definition parse_var (v : var) (str : list ascii) : bool * var :=
  let '(n, err) := strtoul str in
  let v := v <| v_min := s32 n |> in
  let v := v <| v_max := v_min v |> in
  match err with
  | [] => (true, v)
  | c :: err' =>
      if negb (bool_decide (c = ":"%char)) then (false, v)
      else
        let '(m, err2) := strtoul err' in
        let v := v <| v_max := s32 m |> in
        match err2 with [] => (true, v) | _ => (false, v) end
  end.

(** ** The program *)
Section fake_main.
Context {UR : Urandom} {T : Type} `{!AvlTree Z nat T}.
Notation FM := (M (fake T)).

(** The loop over the options that [getopt] returns, with [sdata]; [true] when it
    ends in [usage]. *)
Fixpoint fake_options (sdata : sta_data) (opts : list (ascii * list ascii)) : FM bool :=
  match opts with
  | [] => mret false
  | (ch, optarg) :: opts' =>
      if bool_decide (ch = "p"%char) then
        let '(ok, v) := parse_var (probe sdata) optarg in
        if negb (ok : bool) then mret true else fake_options (sdata <| probe := v |>) opts'
      else if bool_decide (ch = "s"%char) then
        let '(ok, v) := parse_var (signal sdata) optarg in
        if negb (ok : bool) then mret true else fake_options (sdata <| signal := v |>) opts'
      else if bool_decide (ch = "f"%char) then
        modify (fun w => w <| freq := atoi optarg |>) ;;
        fake_options sdata opts'
      else if bool_decide (ch = "n"%char) then
        create_stations sdata (atoi optarg) ;;
        fake_options sdata opts'
      else if bool_decide (ch = "v"%char) then
        modify (fun w => w <| verbose ::= fun v => s32 (v + 1) |>) ;;
        fake_options sdata opts'
      else mret true
  end.

Definition default_sdata : sta_data := mkStaData (mkVar 0 1000 30000) (mkVar 0 (-30) (-30)) (replicate 6 0).

(** [main] up to [uloop_run], once the object is registered; its status. *)
Definition fake_main (opts : list (ascii * list ascii)) : FM (option Z) :=
  modify (fun w => w <| tq := usteer_timeout_init |>) ;;
  bad ← fake_options default_sdata opts;
  mret (if (bad : bool) then Some 1 else None).
End fake_main.

(** ** Specifications *)

(** What a random value can be drawn from. *)
Record var_ok (v : var) : Prop := {
  vo_min : - 2 ^ 31 <= v_min v;
  vo_le : v_min v <= v_max v;
  vo_max : v_max v < 2 ^ 31;
  vo_delta : v_max v - v_min v < 2 ^ 31;
}.
(** [v'] is [v] with a new value. *)
Record drawn (v v' : var) : Prop := {
  dr_min : v_min v' = v_min v;
  dr_max : v_max v' = v_max v;
  dr_cur : v_min v <= v_cur v' <= v_max v;
}.
Lemma drawn_ok v v' : var_ok v -> drawn v v' -> var_ok v'.
Proof. intros [] [Hm Hx _]. by split; rewrite ?Hm, ?Hx. Qed.

(** The value drawn with the byte [b]: on the way it may wrap around in unsigned. *)
Definition draw (v : var) (b : Z) : Z := v_min v + u32 (b * (v_max v - v_min v)) / 255.
Lemma draw_range v b : var_ok v -> 0 <= b < 256 -> v_min v <= draw v b <= v_max v.
Proof.
  intros [] Hb. unfold draw. set (d := v_max v - v_min v) in *.
  assert (Hu := u32_range (b * d)). assert (0 <= u32 (b * d) / 255) by (apply Z.div_pos; lia).
  assert (u32 (b * d) / 255 <= d); [|lia].
  destruct (Z.le_gt_cases (b * d) (2 ^ 32 - 1)).
  - rewrite u32_id by nia. apply Z.div_le_upper_bound; [lia|]. assert (b <= 255) by lia. nia.
  - assert (Hd : 2 ^ 32 - 1 <= 255 * d) by nia. apply Z.div_le_upper_bound; lia.
Qed.

(** A station that waits at least a millisecond before its next probe. *)
Definition waits (s : sta_data) : Prop := 1 <= v_min (probe s).

Record sta_ok (s : sta_data) : Prop := {
  so_probe : var_ok (probe s);
  so_signal : var_ok (signal s);
  so_addr : length (addr s) = 6%nat /\ Forall (fun b => 0 <= b < 256) (addr s);
  so_unicast : Z.even (nth 0 (addr s) 0) = true;
}.

Section spec.
Context {UR : Urandom} {T : Type} `{!AvlTree Z nat T} `{!AvlLaws Z nat T}.
Implicit Types (w : fake T) (t : nat) (s : sta_data).

Lemma fread_spec n w :
  wp (fread n) (fun l w' => w' = w <| r_fd := (r_fd w + n)%nat |> /\
    l = map (fun i => u8 (urandom i)) (seq (r_fd w) n) /\ length l = n /\ Forall (fun b => 0 <= b < 256) l) w.
Proof.
  unfold fread. wp_steps. do 2 (split; [done|]). split; [by rewrite length_map, length_seq|].
  apply list.Forall_forall. intros b [i [-> _]]%list_elem_of_fmap. apply Z.mod_pos_bound. lia.
Qed.

(** The byte that is read next. *)
Definition next_byte w : Z := u8 (urandom (r_fd w)).
Lemma next_byte_range w : 0 <= next_byte w < 256.
Proof. apply Z.mod_pos_bound. lia. Qed.

Lemma gen_val_spec v w :
  var_ok v ->
  wp (gen_val v) (fun v' w' => drawn v v' /\
    if v_max v =? v_min v then w' = w /\ v_cur v' = v_min v
    else w' = w <| r_fd := S (r_fd w) |> /\ v_cur v' = draw v (next_byte w)) w.
Proof.
  intros Hv. assert (Hv' := Hv). destruct Hv' as []. unfold gen_val. rewrite s32_id by lia.
  destruct (Z.eqb_spec (v_max v - v_min v) 0) as [H0|H0].
  - apply wp_ret. split; [split; simpl; lia|]. rewrite (proj2 (Z.eqb_eq (v_max v) (v_min v))) by lia. done.
  - apply wp_bind. eapply wp_mono; [apply fread_spec|]. intros l w' (-> & -> & _ & _).
    apply wp_bind. eapply wp_deref; [done|]. apply wp_ret. fold (next_byte w). simpl.
    assert (Hr := draw_range v (next_byte w) Hv (next_byte_range w)). fold (draw v (next_byte w)).
    rewrite (s32_id (draw v _)) by lia. rewrite (proj2 (Z.eqb_neq (v_max v) (v_min v))) by lia.
    split; [by split|]. by rewrite Nat.add_1_r.
Qed.
(** What is left alone. *)
Lemma gen_val_frame v w :
  var_ok v -> wp (gen_val v) (fun v' w' => w' = w <| r_fd := r_fd w' |> /\ drawn v v') w.
Proof.
  intros Hv. eapply wp_mono; [by apply gen_val_spec|]. intros v' w' [Hd H]. split; [|done].
  case_match; destruct H as [-> _]; by destruct w.
Qed.

(** The stations of [w'] are those of [w] with other values. *)
Definition same_sta s s' : Prop :=
  addr s' = addr s /\ v_min (probe s') = v_min (probe s) /\ v_max (probe s') = v_max (probe s) /\
  v_min (signal s') = v_min (signal s) /\ v_max (signal s') = v_max (signal s).
#[export] Instance same_sta_preorder : PreOrder same_sta.
Proof.
  split; [by intros s|]. intros s1 s2 s3 (?&?&?&?&?) (?&?&?&?&?). by repeat split; etrans.
Qed.

(** The state after station [t] chose its next probe. *)
Record scheduled t s s' w w' : Prop := {
  sc_probe : drawn (probe s) (probe s');
  sc_signal : drawn (signal s) (signal s');
  sc_addr : addr s' = addr s;
  sc_state : w' = w <| stations := <[t := s']> (stations w) |> <| r_fd := r_fd w' |>
    <| tq := usteer_timeout_set (fake_clock w) t (v_cur (probe s')) (tq w) |>;
}.
Lemma scheduled_same t s s' w w' : scheduled t s s' w w' -> same_sta s s'.
Proof. intros [[] [] ? _]. by repeat split. Qed.
Lemma scheduled_ok t s s' w w' : sta_ok s -> scheduled t s s' w w' -> sta_ok s'.
Proof.
  intros [] [Hp Hs Ha _]. split; [exact (drawn_ok _ _ so_probe0 Hp)|exact (drawn_ok _ _ so_signal0 Hs)|by rewrite Ha|by rewrite Ha].
Qed.

Lemma get_sta_wp t s (Q : sta_data -> fake T -> Prop) w : stations w !! t = Some s -> Q s w -> wp (get_sta t) Q w.
Proof. intros H HQ. by eapply wp_deref. Qed.

Lemma sta_schedule_probe_spec t s w :
  stations w !! t = Some s -> sta_ok s ->
  wp (sta_schedule_probe t) (fun _ w' => exists s', scheduled t s s' w w') w.
Proof.
  intros Hs [Hp Hg _ _]. unfold sta_schedule_probe. apply wp_bind. eapply get_sta_wp; [done|].
  apply wp_bind. eapply wp_mono; [by apply gen_val_frame|]. intros p w1 (H1 & Hdp).
  apply wp_bind, wp_modify. apply wp_bind. eapply wp_mono; [by apply gen_val_frame|]. intros g w2 (H2 & Hdg).
  apply wp_bind, wp_modify, wp_modify. exists (s <| probe := p |> <| signal := g |>).
  assert (Hl : (t < length (stations w))%nat) by by eapply lookup_lt_Some.
  split; [done|done|done|]. rewrite H2, H1. unfold set_field. simpl. f_equal.
  apply list_eq. intros i. destruct (decide (i = t)) as [->|Hi].
  - rewrite list_lookup_insert_eq by done. by rewrite !list_lookup_alter_eq, Hs.
  - by rewrite list_lookup_insert_ne, !list_lookup_alter_ne by done.
Qed.

(** What [sta_send_probe] does for the station [s]. *)
Definition probe_sent w s : list fake_action :=
  let sig := s32 (-95 + v_cur (signal s)) in
  UbusNotify "probe" (probe_msg (addr s) (freq w) sig) ::
  if negb (verbose w =? 0) then [Verbose (addr s) (v_cur (probe s)) sig] else [].
Lemma sta_send_probe_spec t s w :
  stations w !! t = Some s ->
  wp (sta_send_probe t) (fun _ w' => w' = w <| fake_out ::= fun l => l ++ probe_sent w s |>) w.
Proof.
  intros Hs. unfold sta_send_probe, probe_sent. apply wp_bind. eapply get_sta_wp; [done|].
  do 4 wp_step. apply wp_bind, wp_modify. destruct (verbose w =? 0); [by apply wp_ret|]. apply wp_modify.
  unfold set_field. simpl. by rewrite <- app_assoc.
Qed.

Lemma sta_probe_spec t s w :
  stations w !! t = Some s -> sta_ok s ->
  wp (sta_probe t) (fun _ w' => exists s',
    scheduled t s s' (w <| fake_out ::= fun l => l ++ probe_sent w s |>) w') w.
Proof.
  intros Hs Ho. unfold sta_probe. apply wp_bind. eapply wp_mono; [by apply sta_send_probe_spec|].
  intros [] w1 ->. by apply sta_schedule_probe_spec.
Qed.

(** The invariant: a timer for every station, due at [D]. *)
Record fake_ok (D : nat -> Z) w : Prop := {
  fo_stas : Forall sta_ok (stations w);
  fo_ids t : t ∈ q_ids (tq w) <-> (t < length (stations w))%nat;
  fo_rep : q_rep D (tq w);
  fo_window : q_window (ts_ms (fake_clock w)) D (tq w);
  fo_cb : stations w ≠ [] -> tq_cb w = true;
}.

(** The stations [l'] are those of [l], with other values. *)
Definition same_stas (l l' : list sta_data) : Prop := Forall2 (fun s s' => same_sta s s' /\ sta_ok s') l l'.
Lemma same_stas_insert l l' t s s' :
  same_stas l l' -> l' !! t = Some s -> same_sta s s' -> sta_ok s' -> same_stas l (<[t := s']> l').
Proof.
  intros Hl Ht Hss Hok. unfold same_stas. rewrite <- (list_insert_id l t (default s (l !! t))).
  2: { destruct (l !! t) eqn:E; [done|]. exfalso. apply lookup_lt_Some in Ht. apply lookup_ge_None in E.
       apply Forall2_length in Hl. lia. }
  apply Forall2_insert; [done|]. split; [|done]. etrans; [|exact Hss].
  destruct (Forall2_lookup_r _ _ _ _ _ Hl Ht) as (s0 & -> & [? _]). done.
Qed.

Section expiry.
Variable w0 : fake T.
Hypothesis waits0 : Forall waits (stations w0).
Let P (w : fake T) : Prop := same_stas (stations w0) (stations w).
Let G (t : nat) (ms : Z) : Prop :=
  exists s, stations w0 !! t = Some s /\ v_min (probe s) <= ms <= v_max (probe s).
Notation mod_tq := (fun f w => w <| tq ::= f |>).

Lemma sta_probe_sets t w w' :
  P w -> t ∉ q_ids (tq w) -> run_cb (Some sta_probe) t w = Ok (tt, w') ->
  P w' /\ fake_clock w' = fake_clock w /\
  exists ms, 0 < ms < 2 ^ 31 /\ G t ms /\ tq w' = usteer_timeout_set (fake_clock w) t ms (tq w).
Proof.
  intros HP _ Hrun. destruct (stations w !! t) as [s|] eqn:Hs.
  2: { exfalso. revert Hrun. simpl. unfold sta_probe, sta_send_probe, get_sta, mbind, M_bind, deref. by rewrite Hs. }
  destruct (Forall2_lookup_r _ _ _ _ _ HP Hs) as (s0 & Hs0 & [Hsame Hok]).
  assert (H := sta_probe_spec t s w Hs Hok). unfold wp in H. simpl in Hrun. rewrite Hrun in H.
  destruct H as [s' Hsc]. assert (Hok' := scheduled_ok _ _ _ _ _ Hok Hsc). assert (Hss := scheduled_same _ _ _ _ _ Hsc).
  assert (Hw : waits s0) by (by eapply list.Forall_lookup_1; [apply waits0|]). unfold waits in Hw.
  assert (Hp := so_probe _ Hok'). destruct Hp. assert (Hmin := proj1 (proj2 Hsame)).
  destruct Hsc as [[Hm Hx Hc] _ _ ->].
  split; [by eapply same_stas_insert|]. split; [done|]. exists (v_cur (probe s')). split; [lia|]. split; [|done].
  exists s0. split; [done|]. destruct Hsame as (_ & <- & <- & _). lia.
Qed.

(** What firing the timers [ts], of different stations, does. *)
Record fired (ts : list nat) w : Prop := {
  fd_stas : P w;
  fd_out : fake_out w = fake_out w0 ++ (ts ≫= fun t => from_option (probe_sent w0) [] (stations w0 !! t));
  fd_rest t : t ∉ ts -> stations w !! t = stations w0 !! t;
  fd_same : fake_clock w = fake_clock w0 /\ freq w = freq w0 /\ verbose w = verbose w0 /\ tq_cb w = tq_cb w0;
}.
Lemma for_each_probe ts :
  Forall sta_ok (stations w0) -> NoDup ts -> Forall (fun t => (t < length (stations w0))%nat) ts ->
  wp (for_each (fire mod_tq (Some sta_probe)) ts) (fun _ w => fired ts w) w0.
Proof.
  intros Hok Hnd Hlen. apply (wp_for_each (fun don _ w => fired don w)).
  - split; [|by rewrite app_nil_r|done|done]. apply Forall_Forall2_diag. eapply list.Forall_impl; [exact Hok|].
    by intros s.
  - intros don t rest w -> [HP Hout Hrest Hsame].
    apply list.NoDup_app in Hnd as (_ & Hnt & _). apply list.Forall_app in Hlen as [_ Hlen].
    apply list.Forall_cons in Hlen as [Ht _]. apply lookup_lt_is_Some in Ht as [s Hs].
    assert (Hnt' : t ∉ don) by (intros Hin; apply (Hnt t Hin); by left).
    unfold fire. wp_step. apply wp_modify. cbn [run_cb].
    assert (Hs' : stations w !! t = Some s) by by rewrite Hrest.
    destruct (Forall2_lookup_r _ _ _ _ _ HP Hs') as (s0 & _ & [_ Hoks]).
    eapply wp_mono; [apply (sta_probe_spec t s); [exact Hs'|done]|]. intros [] w' [s' Hsc].
    assert (Hok' := scheduled_ok _ _ _ _ _ Hoks Hsc). assert (Hss := scheduled_same _ _ _ _ _ Hsc).
    destruct Hsc as [_ _ _ ->]. destruct Hsame as (Hc & Hf & Hv & Hcb). split; simpl.
    + by eapply same_stas_insert.
    + rewrite Hout, bind_app, <- app_assoc. f_equal. f_equal. simpl. rewrite Hs, app_nil_r. simpl.
      unfold probe_sent. simpl. by rewrite Hf, Hv.
    + intros t' [Hd Ht']%not_elem_of_app. apply not_elem_of_cons in Ht' as [Ht' _].
      rewrite list_lookup_insert_ne by done. by apply Hrest.
    + done.
  - done.
Qed.
End expiry.

(** The expiry callback: each station that is due sends one probe and waits for a
    new time, the others are left alone; the timer is armed for the next. *)
Record probed D D' w w' : Prop := {
  pd_ok : fake_ok D' w';
  pd_due : exists due, NoDup due /\ (forall t, t ∈ due <-> (t < length (stations w))%nat /\ D t <= ts_ms (fake_clock w)) /\
    fake_out w' = fake_out w ++ (due ≫= fun t => from_option (probe_sent w) [] (stations w !! t));
  pd_sta t s : stations w !! t = Some s -> exists s', stations w' !! t = Some s' /\
    if bool_decide (D t <= ts_ms (fake_clock w))
    then same_sta s s' /\ ts_ms (fake_clock w) + v_min (probe s) <= D' t <= ts_ms (fake_clock w) + v_max (probe s)
    else s' = s /\ D' t = D t;
  pd_armed : q_armed (ts_ms (fake_clock w)) D' (tq w');
}.

(** Arming the timer keeps the invariant. *)
Lemma fake_ok_recalc ts time D w :
  fake_ok D w -> fake_ok D (w <| tq ::= usteer_timeout_recalc ts time |>).
Proof.
  intros [? Hids [] Hwin ?]. split; [done| |split| |done]; unfold q_wf, q_ids, q_window in *; simpl; rewrite ?recalc_elems; auto.
Qed.

(** Without stations there is nothing to do. *)
Lemma fake_timer_idle fuel cb D w :
  fake_ok D w -> stations w = [] -> (0 < fuel)%nat ->
  usteer_timeout_cb tq (fun f w => w <| tq ::= f |>) fake_clock cb fuel w =
    Ok (tt, w <| tq ::= usteer_timeout_recalc (fake_clock w) (ampgr_timeout_current_time (fake_clock w)) |>) /\
  q_elems (tq w) = [].
Proof.
  intros Hok El Hf.
  assert (Hnil : q_elems (tq w) = []).
  { destruct (q_elems (tq w)) as [|[k p] l] eqn:E; [done|]. exfalso. assert (Hp := proj1 (fo_ids _ _ Hok p)).
    unfold q_ids in Hp. rewrite E, El in Hp. specialize (Hp ltac:(by left)). simpl in Hp. lia. }
  split; [|done]. destruct fuel as [|fuel]; [lia|]. cbn [usteer_timeout_cb]. unfold gets, mbind, M_bind.
  by rewrite Hnil.
Qed.

(** Timers that are due: at most one for each station. *)
Lemma due_stations D w :
  fake_ok D w ->
  let ts := due_timers (u32 (ts_ms (fake_clock w))) (q_elems (tq w)) in
  (forall t, t ∈ ts <-> (t < length (stations w))%nat /\ D t <= ts_ms (fake_clock w)) /\
  NoDup ts /\ (length ts <= length (stations w))%nat.
Proof.
  intros [_ Hids Hrep Hwin _] ts.
  destruct (due_timers_spec (ts_ms (fake_clock w)) D (q_elems (tq w)) (rep_keys _ _ Hrep) (rep_sorted _ _ Hrep) Hwin)
    as [Hin Htk]. fold ts in Hin, Htk.
  assert (Hts : forall t, t ∈ ts <-> (t < length (stations w))%nat /\ D t <= ts_ms (fake_clock w)).
  { intros t. rewrite <- Hids. apply Hin. }
  assert (Hnd : NoDup ts) by (rewrite Htk; eapply sublist_NoDup; [apply (rep_wf _ _ Hrep)|apply sublist_take]).
  split; [done|]. split; [done|]. rewrite <- (length_seq (length (stations w)) 0).
  apply submseteq_length, NoDup_submseteq; [done|]. intros p Hp. apply elem_of_seq. apply Hts in Hp. lia.
Qed.

Lemma fake_timer_spec fuel D w :
  fake_ok D w -> Forall waits (stations w) -> (S (length (stations w)) < fuel)%nat ->
  wp (fake_timer fuel) (fun _ w' => exists D', probed D D' w w') w.
Proof.
  intros Hok Hwt Hf. set (now := ts_ms (fake_clock w)). unfold fake_timer. apply wp_bind, wp_gets.
  destruct (decide (stations w = [])) as [El|Hne].
  { destruct (fake_timer_idle fuel (if tq_cb w then Some sta_probe else None) D w Hok El ltac:(lia)) as [Hrun Hnil].
    unfold wp. rewrite Hrun. exists D. split; [by apply fake_ok_recalc| | |].
    - exists []. split; [constructor|]. split; [|by rewrite app_nil_r]. intros t. rewrite elem_of_nil, El. simpl.
      split; [done|lia].
    - intros t s. by rewrite El, lookup_nil.
    - unfold q_armed. simpl. by rewrite recalc_elems, Hnil. }
  rewrite (fo_cb _ _ Hok Hne). destruct (due_stations D w Hok) as (Hin & Hnd & Hlen). fold now in Hin, Hnd, Hlen.
  set (ts := due_timers (u32 now) (q_elems (tq w))) in *.
  assert (Hh : holds tq fake_clock (fun w' => same_stas (stations w) (stations w')) D w).
  { split; [|apply Hok..]. apply Forall_Forall2_diag. eapply list.Forall_impl; [apply Hok|]. by intros s. }
  destruct (periodic_cb tq (fun f w => w <| tq ::= f |>) fake_clock (Some sta_probe)
    (fun w' => same_stas (stations w) (stations w'))
    (fun t ms => exists s, stations w !! t = Some s /\ v_min (probe s) <= ms <= v_max (probe s))
    ltac:(done) ltac:(done) ltac:(done) (sta_probe_sets w Hwt) fuel w D Hh ltac:(fold now ts; lia)) as [Hrun Hend].
  fold now ts in Hrun, Hend. unfold wp. rewrite Hrun. apply wp_bind.
  eapply wp_mono_run; [apply for_each_probe; [apply Hok|done|]|].
  { apply list.Forall_forall. intros t Ht. by apply Hin. }
  intros [] w1 Hw1 [HP Hout Hrest Hsame]. destruct (Hend w1 Hw1) as (Hc & D' & [_ Hrep1 Hwin1] & [Hn1 Hn2] & Hids1).
  destruct Hsame as (_ & _ & _ & Hcb1). apply wp_modify. exists D'.
  split.
  - apply fake_ok_recalc. split; [|intros t; rewrite Hids1, (fo_ids _ _ Hok)|done|done|].
    + eapply Forall2_Forall_r; [exact HP|]. apply list.Forall_forall. intros s _ s' H. apply H.
    + apply Forall2_length in HP. by rewrite HP.
    + intros _. rewrite Hcb1. by apply Hok.
  - by exists ts.
  - intros t s Hs. destruct (Forall2_lookup_l _ _ _ _ _ HP Hs) as (s' & Hs' & [Hss _]). exists s'. split; [done|].
    assert (Ht := lookup_lt_Some _ _ _ Hs). case_bool_decide as Hd.
    + split; [done|]. destruct (Hn1 t) as (ms & _ & (s2 & Hs2 & Hms) & ->); [by apply Hin|].
      rewrite Hs in Hs2. injection Hs2 as <-. fold now. lia.
    + assert (Hnt : t ∉ ts) by (intros Hin'; apply Hin in Hin' as [_ ?]; done).
      split; [|by apply Hn2]. specialize (Hrest t Hnt). change (stations w1 !! t = Some s') in Hs'. congruence.
  - fold now. unfold now. rewrite <- current_time_u32. apply recalc_armed; [done|]. by rewrite <- Hc.
Qed.

(** ** The start *)

(** The values an option may give. *)
Record ref_ok s : Prop := {
  ro_probe : var_ok (probe s);
  ro_signal : var_ok (signal s);
}.

(** A new station [s] is one that the options [ref] ask for. *)
Definition made (ref s : sta_data) : Prop := same_sta (ref <| addr := addr s |>) s.

(** Every station is due as long after the start as its wait says. *)
Definition just_started (D : nat -> Z) w : Prop :=
  fake_ok D w /\ forall t s, stations w !! t = Some s -> D t = ts_ms (fake_clock w) + v_cur (probe s).

(** A station is scheduled for the first time, or again. *)
Lemma scheduled_fake_ok t s s' D w w' :
  just_started D w -> tq_cb w = true -> sta_ok s ->
  scheduled t s s' (w <| stations ::= fun l => l ++ [s] |>) w' -> t = length (stations w) ->
  exists D', just_started D' w' /\ stations w' = stations w ++ [s'].
Proof.
  intros [Hok HD] Hcb Hs Hsc ->. assert (Hs' := scheduled_ok _ _ _ _ _ Hs Hsc). destruct Hsc as [Hp _ _ ->].
  destruct Hok as [Hst Hids Hrep Hwin _]. assert (Hms := dr_cur _ _ Hp). destruct (so_probe _ Hs).
  destruct (set_rep (fake_clock w) (length (stations w)) (v_cur (probe s')) D (tq w) Hrep Hwin) as [Hrep' Hwin'].
  { unfold in_window. lia. }
  assert (Hl : <[length (stations w):=s']> (stations w ++ [s]) = stations w ++ [s']).
  { rewrite insert_app_r_alt by lia. by rewrite Nat.sub_diag. }
  eexists. split; [split; [split; simpl|]|simpl; exact Hl].
  - rewrite Hl. apply list.Forall_app. split; [done|by constructor].
  - intros t. rewrite elem_of_set_ids, Hids, Hl, length_app. simpl. lia.
  - exact Hrep'.
  - exact Hwin'.
  - done.
  - simpl. rewrite Hl. intros t st [Hst'|[Hge Hst']]%lookup_app_Some.
    + rewrite set_deadline_ne; [by apply HD|]. apply lookup_lt_Some in Hst'. lia.
    + apply list_lookup_singleton_Some in Hst' as [Ht <-].
      replace t with (length (stations w)) by lia. by rewrite set_deadline_eq.
Qed.

(** [addr[0] &= ~1] *)
Lemma unicast_byte b : 0 <= b < 256 -> 0 <= Z.land b 254 < 256 /\ Z.even (Z.land b 254) = true.
Proof.
  intros Hb.
  assert (H : forallb (fun i => let c := Z.land (Z.of_nat i) 254 in (0 <=? c) && (c <? 256) && Z.even c) (seq 0 256) = true)
    by by vm_compute.
  rewrite forallb_forall in H. specialize (H (Z.to_nat b)). rewrite in_seq, Z2Nat.id in H by lia.
  specialize (H ltac:(lia)). cbv zeta in H. apply andb_true_iff in H as [[H1 H2]%andb_true_iff H3].
  apply Z.leb_le in H1. by apply Z.ltb_lt in H2.
Qed.

Lemma init_station_spec ref D w :
  just_started D w -> tq_cb w = true -> ref_ok ref ->
  wp (init_station ref) (fun _ w' => tq_cb w' = true /\ exists D' s, just_started D' w' /\
    stations w' = stations w ++ [s] /\ made ref s /\ fake_clock w' = fake_clock w) w.
Proof.
  intros Hok Hcb [Hp Hg]. unfold init_station. do 4 wp_step. apply wp_bind.
  eapply wp_mono; [apply fread_spec|]. intros a w1 (-> & _ & Hl & Hb). apply wp_bind, wp_modify.
  apply wp_bind, wp_modify. apply wp_bind, wp_modify.
  set (t := length (stations w)).
  set (s := ref <| addr := alter (fun b => Z.land b 254) 0%nat a |>).
  set (w2 := w <| r_fd := (r_fd w + 6)%nat |> <| fake_out ::= fun l => l ++ [ShortRead] |>).
  match goal with |- wp _ _ ?x => assert (E : x = w2 <| stations ::= fun l => l ++ [s] |>) end.
  { unfold w2, s, set_field. simpl. f_equal. unfold t.
    rewrite !alter_app_r_alt by (rewrite ?length_alter; lia). by rewrite !Nat.sub_diag. }
  rewrite E. clear E.
  assert (Hs : sta_ok s).
  { unfold s. destruct a as [|b a]; [done|]. apply list.Forall_cons in Hb as [Hb Ha]. split; simpl; try done.
    - split; [done|]. constructor; [|done]. by apply unicast_byte.
    - by apply unicast_byte. }
  eapply wp_mono; [apply (sta_schedule_probe_spec t s); [|exact Hs]|].
  { simpl. unfold t. rewrite lookup_app_r by done. by rewrite Nat.sub_diag. }
  intros [] w3 [s' Hsc].
  assert (Hok2 : just_started D w2) by (destruct Hok as [[] HD]; by split).
  destruct (scheduled_fake_ok t s s' D w2 w3 Hok2 Hcb Hs Hsc eq_refl) as (D' & Hok3 & Hst).
  assert (Hss := scheduled_same _ _ _ _ _ Hsc).
  split; [by destruct Hsc as [_ _ _ ->]|]. exists D', s'. split; [done|]. split; [exact Hst|].
  split; [destruct Hss as (_ & ?); by split|]. by destruct Hsc as [_ _ _ ->].
Qed.

Lemma create_stations_spec ref n D w :
  just_started D w -> ref_ok ref ->
  wp (create_stations ref n) (fun _ w' => exists D' l, just_started D' w' /\ stations w' = stations w ++ l /\
    Forall2 made (replicate (Z.to_nat n) ref) l /\ fake_clock w' = fake_clock w) w.
Proof.
  intros Hok Hr. unfold create_stations. do 2 wp_step. set (w0 := w <| tq_cb := true |>).
  apply (wp_for_each (fun don _ w' => tq_cb w' = true /\ exists D' l, just_started D' w' /\
    stations w' = stations w ++ l /\ Forall2 made (replicate (length don) ref) l /\ fake_clock w' = fake_clock w)).
  - split; [done|]. exists D, []. split; [destruct Hok as [[] HD]; by split|]. split; [by rewrite app_nil_r|].
    split; [constructor|done].
  - intros don x rest w1 _ (Hcb & D1 & l & Hok1 & Hst & Hall & Hc).
    eapply wp_mono; [by eapply init_station_spec|]. intros [] w2 (Hcb2 & D2 & s & Hok2 & Hst2 & Hs & Hc2).
    split; [done|]. exists D2, (l ++ [s]). split; [done|]. split; [rewrite Hst2, Hst; by rewrite app_assoc|].
    split; [|congruence]. rewrite length_app, replicate_add. apply Forall2_app; [done|]. by constructor.
  - intros w' (_ & D' & l & Hok' & Hst & Hall & Hc). exists D', l. rewrite length_seq in Hall. done.
Qed.
End spec.
