(* ===== verification/Monitor.v ===== *)
(** * The monitor (monitor.c)

    A program that captures the messages between instances and prints them. A
    packet is the captured bytes; what it prints of one is a list of lines, each
    with the values that its format shows. The attributes in the payload and JSON
    are libubox's, [BlobBytes] and [BlobJson]. *)
From S2P Require Import Prelude Blob Types RemoteMsg Parse.

(** The length that the header of a blob gives, padded, and the attributes inside. *)
Class BlobBytes := {
  blob_pad_len : list Z -> Z;
  blob_attrs : list Z -> list (Z * wire);
}.
Class BlobJson := blobmsg_format_json : wire -> string.

Definition APMGR_PORT : Z := 16720.

(** What is printed, by format string. *)
Inductive line :=
| LPacket (ip_src : list Z) (len : Z)        (** [%s]: len=%d *)
| LInvalidData
| LMissingFields
| LMessage (id seq : Z)                      (** id=%08x, seq=%d *)
| LNode (name : string) (freq n_assoc noise load max_assoc : Z)
| LRrm (l : list string)
| LScriptData (json : string)
| LSta (addr : mac) (signal : Z) (connected : bool) (timeout : Z).

Section monitor.
Context {BP : BlobParse} {BJ : BlobJson}.

Definition decode_sta (data : wire) : list line :=
  match parse_apmsg_sta data with
  | None => []
  | Some msg => [LSta (ms_addr msg) (ms_signal msg) (ms_connected msg) (ms_timeout msg)]
  end.

(** The elements of the neighbor report that are shown: the valid ones that are
    strings; those of a tree are valid. *)
Definition rrm_strings (l : list bval) : list string :=
  omap (fun cur => match cur with VString s => Some s | _ => None end) l.

Definition decode_node (data : wire) : list line :=
  match parse_apmsg_node data with
  | None => []
  | Some msg =>
      LNode (mn_name msg) (mn_freq msg) (mn_n_assoc msg) (mn_noise msg) (mn_load msg) (mn_max_assoc msg) ::
      match mn_rrm_nr msg with Some nr => [LRrm (rrm_strings nr)] | None => [] end ++
      match mn_script_data msg with Some sd => [LScriptData (blobmsg_format_json sd)] | None => [] end ++
      (mn_stations msg ≫= fun cur => decode_sta cur.2)
  end.

Definition decode_packet (data : list (Z * wire)) : list line :=
  match parse_apmsg data with
  | None => [LMissingFields]
  | Some msg =>
      LMessage (msg_id msg) (s32 (msg_sequence msg)) :: (msg_nodes msg ≫= fun cur => decode_node cur.2)
  end.

Context {BB : BlobBytes}.

(** [recv_packet] on the captured bytes, behind a link header of [pkt_offset]
    bytes; reading past them is out of bounds. *)
Definition recv_packet (pkt_offset : nat) (packet : list Z) : res (list line) :=
  let packet := drop pkt_offset packet in
  match packet with
  | [] => Fault OutOfBounds
  | ip_vhl :: _ =>
      let hdrlen := Z.land ip_vhl 15 * 4 in
      let len := Z.of_nat (length packet) in
      if (hdrlen <? 20) || (len <=? hdrlen) then Ok []
      else
        let ip_src := take 4 (drop 12 packet) in
        let len := len - hdrlen in
        let packet := drop (Z.to_nat hdrlen) packet in
        if len <=? 8 then Ok []
        else
          let uh_dport := nth 2 packet 0 * 256 + nth 3 packet 0 in
          let data := drop 8 packet in
          let len := len - 8 in
          if negb (uh_dport =? APMGR_PORT) then Ok []
          else if len <? 4 then Fault OutOfBounds
          else if negb (len =? blob_pad_len data) then Ok [LPacket ip_src len; LInvalidData]
          else Ok (LPacket ip_src len :: decode_packet (blob_attrs data))
  end.
End monitor.

(** The link types that [main] knows, by the length of their header. *)
Inductive datalink := DLT_EN10MB | DLT_RAW | DLT_OTHER.
Definition link_offset (l : datalink) : option nat :=
  match l with
  | DLT_EN10MB => Some 14%nat
  | DLT_RAW => Some 0%nat
  | DLT_OTHER => None
  end.
