(* ===== verification/Scenario.v ===== *)
(** * A concrete daemon

    Two access points, a few stations and concrete instances of the libraries the
    model leaves open, on which the theorems are applied. Every state is reached
    by running the operations themselves, so that its invariant follows from
    their specifications. *)
From S2P Require Import Prelude Blob Timeout Types Table World Ssid Beacon Sta UbusClient.
From S2P Require Import Policy RemoteMsg StaEvent Roam BeaconRequest LocalNode.

(** ** The libraries *)

#[export] Existing Instance seq_blobmsg.
#[export] Existing Instance seq_blobmsg_laws.

Definition hex_value (c : Ascii.ascii) : option Z :=
  (fun x => Z.of_nat x.1) <$> list_find (fun d => d = c) (list_ascii_of_string "0123456789abcdef").
Definition parse_hex2 (l : list Ascii.ascii) : option Z :=
  match l with
  | [a; b] => x ← hex_value a; y ← hex_value b; Some (16 * x + y)
  | _ => None
  end.
(** Addresses as [aa:bb:cc:dd:ee:ff]. *)
Fixpoint parse_mac (n : nat) (l : list Ascii.ascii) : option mac :=
  match n with
  | O => match l with [] => Some [] | _ => None end
  | S n' =>
      b ← parse_hex2 (take 2 l);
      rest ← parse_mac n' (drop (if decide (n' = O) then 2 else 3) l);
      Some (b :: rest)
  end.
#[export] Instance demo_ether : Ether := {|
  ether_aton s := parse_mac 6 (list_ascii_of_string s);
  ether_ntoa := mac_addr_fmt;
|}.

(** Two digits of a byte are read back. *)
Lemma parse_hex2_digits b :
  0 <= b < 256 -> parse_hex2 [hex_digit (b / 16); hex_digit (b mod 16)] = Some b.
Proof.
  intros Hb.
  assert (H : forallb (fun i => let b := Z.of_nat i in
    bool_decide (parse_hex2 [hex_digit (b / 16); hex_digit (b mod 16)] = Some b)) (seq 0 256) = true) by by vm_compute.
  rewrite forallb_forall in H. specialize (H (Z.to_nat b)). rewrite in_seq, Z2Nat.id in H by lia.
  specialize (H ltac:(lia)). cbv zeta in H. by apply bool_decide_eq_true in H.
Qed.
Lemma hex_value_range c x : hex_value c = Some x -> 0 <= x < 16.
Proof.
  unfold hex_value. destruct (list_find _ _) as [[i d]|] eqn:E; [|done]. simpl. intros. simplify_eq.
  apply list_find_Some in E as (Hl & _). apply lookup_lt_Some in Hl. simpl in Hl. lia.
Qed.

#[export] Instance demo_ether_laws : EtherLaws.
Proof.
  assert (Hfmt : forall a, length a = 6%nat -> Forall (fun b => 0 <= b < 256) a ->
    parse_mac 6 (list_ascii_of_string (mac_addr_fmt a)) = Some a).
  { intros a Hl Hb. destruct a as [|b1 [|b2 [|b3 [|b4 [|b5 [|b6 [|]]]]]]]; try (simpl in Hl; lia).
    repeat apply list.Forall_cons in Hb as [? Hb].
    pose (c := Ascii.ascii_of_nat 58). pose (d := fun b r => hex_digit (b / 16) :: hex_digit (b mod 16) :: r).
    change (list_ascii_of_string _) with (d b1 (c :: d b2 (c :: d b3 (c :: d b4 (c :: d b5 (c :: d b6 [])))))).
    assert (Hstep : forall n b r, 0 <= b < 256 ->
      parse_mac (S (S n)) (d b (c :: r)) = (fun l => b :: l) <$> parse_mac (S n) r).
    { intros n b r Hb'.
      change (parse_mac (S (S n)) _) with (b0 ← parse_hex2 [hex_digit (b / 16); hex_digit (b mod 16)];
        rest ← parse_mac (S n) (drop (if decide (S n = O) then 2 else 3) (d b (c :: r))); Some (b0 :: rest)).
      rewrite parse_hex2_digits, decide_False by done. change (drop 3 _) with r.
      generalize (parse_mac (S n) r). by intros []. }
    rewrite !Hstep by done. unfold d. cbn [parse_mac take]. by rewrite parse_hex2_digits by done. }
  split; [exact Hfmt..|]. intros s a. clear Hfmt.
  assert (Hgen : forall n l a, parse_mac n l = Some a -> length a = n /\ Forall (fun b => 0 <= b < 256) a).
  { induction n as [|n IH]; intros l b; simpl; [destruct l; [|done]; by intros [= <-]|].
    destruct (parse_hex2 _) as [x|] eqn:Ex; [|done]. simpl. destruct (parse_mac n _) as [r|] eqn:Er; [|done].
    simpl. intros [= <-]. destruct (IH _ _ Er) as [<- ?]. split; [done|]. constructor; [|done].
    unfold parse_hex2 in Ex. destruct (take 2 l) as [|c1 [|c2 [|]]]; try done.
    destruct (hex_value c1) as [v1|] eqn:E1; [|done]. destruct (hex_value c2) as [v2|] eqn:E2; [|done].
    simpl in Ex. simplify_eq. apply hex_value_range in E1, E2. lia. }
  apply (Hgen 6%nat).
Qed.

#[export] Instance no_handlers : NodeHandlers (list (Z * ptr)) := [].
#[export] Existing Instance no_handlers_laws.

(** ** States *)
Notation demo_world := (world (list (Z * ptr))).

Definition run {A} (m : M demo_world A) (w : demo_world) : demo_world :=
  match m w with Ok (_, w') => w' | Fault _ => w end.

Lemma run_wp {A} (m : M demo_world A) (w : demo_world) (Q : A -> demo_world -> Prop) :
  wp m Q w -> exists a, Q a (run m w).
Proof. unfold wp, run. destruct (m w) as [[a w']|]; [eauto|done]. Qed.

(** A configuration that steers: defaults, and what is off by default turned on. *)
Definition demo_config : usteer_config :=
  usteer_init_defaults <| roam_trigger_snr := 20 |> <| min_snr := 10 |>
    <| load_kick_enabled := true |> <| load_kick_min_clients := 1 |> <| load_kick_delay := 1000 |>
    <| kick_client_active_sec := 1 |> <| kick_client_active_bits := 1000 |>
    <| beacon_report_invalide_timeout := 2000 |>.

Definition world_init : demo_world := {|
  config := demo_config;
  current_time := 0;
  clock := mkTimespec 1000 0;
  stations := ∅;
  si_heap := ∅;
  si_brk := 1%positive;
  node_heap := ∅;
  ln_heap := ∅;
  rn_heap := ∅;
  local_nodes := [];
  remote_nodes := [];
  tq := usteer_timeout_init;
  interfaces := [("eth0"%string, 2)];
  local_id := 7;
  msg_seq := 0;
  config_ssid_list := None;
  node_up_script := None;
  remote_timer := None;
  reload_timer := None;
  vendor_timer := None;
  out := [];
|}.

Lemma inv_init : inv world_init.
Proof.
  split.
  - split; simpl; intros *; rewrite ?fmap_empty, ?lookup_empty; try done;
      try (by intros [? ?]); intros Hin; by apply elem_of_empty in Hin.
  - constructor.
  - apply map_Forall_empty.
  - split; simpl; intros *; rewrite ?lookup_empty, ?elem_of_nil; try done; try constructor;
      (done || by intros []).
Qed.

Definition mac_a : mac := [2; 0; 0; 0; 0; 10].
Definition mac_b : mac := [2; 0; 0; 0; 0; 11].
Definition bssid_0 : mac := [6; 0; 0; 0; 0; 1].
Definition bssid_1 : mac := [6; 0; 0; 0; 0; 2].
Definition ap0 : string := "hostapd.wlan0".
Definition ap1 : string := "hostapd.wlan1".

(** Two access points of one network, on 2.4 and 5 GHz. *)
Definition set_ap (s : string) (b : mac) (f : Z) : M demo_world unit :=
  upd_node (NLocal s) (fun x => x <| ssid := "net" |> <| bssid := b |> <| freq := f |>).

Definition w_aps : demo_world :=
  run (set_ap ap1 bssid_1 5180) (run (set_ap ap0 bssid_0 2412)
    (run (usteer_register_node (fun _ => 5) ap1 41) (run (usteer_register_node (fun _ => 4) ap0 40) world_init))).

Definition inv_e (w : demo_world) : Prop := inv w /\ no_empty_sta (abs w).

Lemma run_register f s id w :
  inv_e w -> String.prefix "hostapd." s = true -> inv_e (run (usteer_register_node f s id) w).
Proof.
  intros [Hi He] Hs. destruct (run_wp _ _ _ (usteer_register_node_spec f s id w Hi)) as [? H].
  rewrite Hs in H. split; [apply H|by apply H].
Qed.
Lemma run_set_ap s b f w : inv_e w -> inv_e (run (set_ap s b f) w).
Proof.
  intros [Hi He]. unfold set_ap, run, upd_node, get_node, deref, mbind, M_bind, modify.
  destruct (node_heap w !! NLocal s) as [x|] eqn:E; [|done]. split; [by eapply inv_set_node|].
  done.
Qed.
Lemma run_time w : inv_e w -> inv_e (run usteer_update_time w).
Proof. intros [Hi He]. split; [by apply inv_time|exact He]. Qed.

Lemma w_aps_inv : inv_e w_aps.
Proof.
  do 2 apply run_set_ap. do 2 (apply run_register; [|done]). split; [apply inv_init|]. done.
Qed.

(** ** Stations *)

Definition event_msg (a : mac) (fr sig : Z) : list (string * bval) :=
  [("address", VString (mac_addr_fmt a)); ("signal", VU32 (u32 sig)); ("freq", VU32 fr)]%string.
Definition event (s method : string) (a : mac) (fr sig : Z) : M demo_world Z :=
  usteer_handle_event s method (event_msg a fr sig).

(** An answer to [get_clients]. *)
Definition clients_msg (fr : Z) (l : list (mac * Z * Z)) : list (string * bval) :=
  [("freq", VU32 fr);
   ("clients", VTable (map (fun '(a, rx, tx) =>
      (mac_addr_fmt a, VTable [("assoc", VU8 1); ("bytes", VTable [("rx", VU64 rx); ("tx", VU64 tx)])])) l))]%string.
Definition clients (s : string) (fr : Z) (l : list (mac * Z * Z)) : M demo_world unit :=
  usteer_local_node_list_cb s (clients_msg fr l).

Definition report_msg_of (a b : mac) (rcpi : Z) : list (string * bval) :=
  [("address", VString (mac_addr_fmt a)); ("bssid", VString (mac_addr_fmt b)); ("rcpi", VU16 rcpi);
   ("rsni", VU16 40); ("op-class", VU16 81); ("channel", VU16 1)]%string.

(** A station that is heard by both, and one that only the first one hears. *)
Definition w_probe : demo_world :=
  run (event ap0 "probe" mac_b 2412 (-80))
    (run (event ap1 "probe" mac_a 5180 (-50)) (run (event ap0 "probe" mac_a 2412 (-85)) w_aps)).
(** Both are associated with the first one. *)
Definition w_assoc : demo_world := run (clients ap0 2412 [(mac_a, 10, 10); (mac_b, 20, 20)]) w_probe.

Lemma run_event s method a fr sig w :
  inv_e w -> is_Some (node_heap w !! NLocal s) -> 0 < s32 (local_sta_timeout (config w)) ->
  event_signal_ok (event_msg a fr sig) -> event_of_method method ≠ EVENT_TYPE_BEACON -> event_of_method method ≠ __EVENT_TYPE_MAX ->
  inv_e (run (event s method a fr sig) w).
Proof.
  intros [Hi He] [x Hx] Ht Hsg Hb Hm.
  destruct (run_wp _ _ _ (usteer_handle_event_spec s method (event_msg a fr sig) x w Hi Hx Ht Hsg Hb Hm)) as [st H].
  fold (event s method a fr sig) in H. destruct (parse_event _) as [[[b f] sg]|].
  - destruct H as (r & p & create & si & st0 & w1 & w2 & Hev & _).
    destruct (event_handled_inv _ _ _ _ _ _ _ _ _ _ _ _ _ _ Hev) as (? & _ & Hem).
    split; [done|]. by apply Hem.
  - destruct H as [_ ->]. split; [by apply inv_time|done].
Qed.

Lemma run_clients s fr l w :
  inv_e w -> is_Some (node_heap w !! NLocal s) -> 0 < s32 (local_sta_timeout (config w)) ->
  (forall cl, attr (blobmsg_parse [("freq", BLOBMSG_TYPE_INT32); ("clients", BLOBMSG_TYPE_TABLE)]%string
     (clients_msg fr l)) 1 = Some (VTable cl) -> NoDup (client_addrs cl)) ->
  inv_e (run (clients s fr l) w).
Proof.
  intros [Hi He] [x Hx] Ht Hnd.
  destruct (run_wp _ _ _ (usteer_local_node_list_cb_spec s (clients_msg fr l) x w Hi Hx Ht Hnd)) as [[] H].
  fold (clients s fr l) in H. revert H. cbv zeta.
  set (w' := run _ _). clearbody w'.
  destruct (attr _ 0) as [[| |f| | | |]|]; try (intros ->; by split).
  destruct (attr _ 1) as [[| | | | | |cl]|]; try (intros ->; by split).
  intros [Hen _ _ _ _ _ Hem]. split; [apply Hen|]. apply Hem. exact He.
Qed.

Ltac run_fact := by vm_compute; eauto.
Lemma event_signal a fr sig x y z :
  parse_event (event_msg a fr sig) = Some (x, y, z) -> signal_ok z -> event_signal_ok (event_msg a fr sig).
Proof. intros Hp Hz b f s Hs. rewrite Hs in Hp. by injection Hp as -> -> ->. Qed.
Ltac signal_fact := eapply event_signal; [by vm_compute|unfold signal_ok; lia].

Lemma w_probe_inv : inv_e w_probe.
Proof.
  do 3 (apply run_event; [|run_fact|run_fact|signal_fact|done|done]). apply w_aps_inv.
Qed.
Lemma w_assoc_inv : inv_e w_assoc.
Proof.
  apply run_clients; [apply w_probe_inv|run_fact|run_fact|].
  intros cl Hcl. assert (Hd : client_addrs cl = [mac_a; mac_b]).
  { revert Hcl. vm_compute. intros H. injection H as <-. done. }
  rewrite Hd. apply (bool_decide_unpack _). by vm_compute.
Qed.

(** The pointers to the [sta_info]s of the scenario. *)
Definition si_a0 : ptr := 1%positive.
Definition si_a1 : ptr := 2%positive.
Definition si_b0 : ptr := 3%positive.
Example w_assoc_keys :
  (si_key <$> si_heap w_assoc !! si_a0, si_key <$> si_heap w_assoc !! si_a1, si_key <$> si_heap w_assoc !! si_b0) =
  (Some (mac_a, NLocal ap0), Some (mac_a, NLocal ap1), Some (mac_b, NLocal ap0)).
Proof. by vm_compute. Qed.

(** Only evaluation looks into the states. *)
#[global] Opaque w_aps w_probe w_assoc.
