(* ===== verification/StationTheorems.v ===== *)
(** * Theorems about stations, their timers and their requests

    The properties of timeout.c, sta.c and the first part of policy.c, each with
    its application to the daemon of Scenario.v. *)
From S2P Require Import Prelude Blob Timeout Types Table World Ssid Beacon Sta UbusClient.
From S2P Require Import Policy RemoteMsg StaEvent Roam BeaconRequest LocalNode Scenario.

(** A fact of the scenario, by evaluation. *)
Ltac eval_fact := by vm_compute.
Lemma lookup_default {A} (o : option A) (d : A) : is_Some o -> o = Some (default d o).
Proof. by intros [a ->]. Qed.

Definition si_dummy : sta_info := calloc_sta_info [] (NLocal "") 0 0.
Definition the_si (w : demo_world) (p : ptr) : sta_info := default si_dummy (si_heap w !! p).
Definition the_node (w : demo_world) (s : string) : usteer_node :=
  default node_zero (node_heap w !! NLocal s).
Definition the_ln (w : demo_world) (s : string) : usteer_local_node := default ln_zero (ln_heap w !! s).
Lemma the_si_eq w p : is_Some (si_heap w !! p) -> si_heap w !! p = Some (the_si w p).
Proof. apply lookup_default. Qed.
Lemma the_node_eq w s : is_Some (node_heap w !! NLocal s) -> node_heap w !! NLocal s = Some (the_node w s).
Proof. apply lookup_default. Qed.
Lemma the_ln_eq w s : is_Some (ln_heap w !! s) -> ln_heap w !! s = Some (the_ln w s).
Proof. apply lookup_default. Qed.
Definition node_of_si (w : demo_world) (p : ptr) : usteer_node :=
  default node_zero (node_heap w !! si_node (the_si w p)).
Ltac is_there := vm_compute; eexists; reflexivity.
Ltac at_default := apply lookup_default; is_there.
Ltac at_si := apply the_si_eq; is_there.
Ltac at_node := apply the_node_eq; is_there.
Ltac at_ln := apply the_ln_eq; is_there.

Section station_theorems.
Context {ET : Ether} {T : Type} `{!AvlTree Z ptr T} `{!AvlLaws Z ptr T}.
Implicit Types (w : world T) (p q : ptr) (si : sta_info) (s : string) (a : mac) (n : node_id).

(** C4. [usteer_handle_sta_event] never runs into undefined behaviour when
    [local_sta_timeout] is positive as an [int] and the signal in the range in which
    the policy can take differences ([signal_ok]), keeps the invariant of the station
    table and leaves no station without a [sta_info]. The [sta_info] of the station
    at the node, found or created, gets the signal, the times and the counters of
    the event; the policy is asked in that state, and the request is accepted exactly
    when it is an association, was refused [max_retry_band] times already, or has the
    required signal and age and no better candidate; the answer settles the counters
    and a new station is announced to the peers. *)
Theorem sta_event_correct s x a type fr signal w :
  inv w -> node_heap w !! NLocal s = Some x -> type ≠ __EVENT_TYPE_MAX ->
  0 < s32 (local_sta_timeout (config w)) -> signal_ok signal ->
  wp (usteer_handle_sta_event (NLocal s) a type fr signal) (fun r w' =>
    (inv w' /\ frame w w' /\ (no_empty_sta (abs w) -> no_empty_sta (abs w'))) /\
    exists p create si st w1 w2, event_handled s x a type signal w r w' p create si st w1 w2) w.
Proof.
  intros Hi Hx Hty Ht Hsg. eapply wp_mono; [by eapply usteer_handle_sta_event_spec|].
  intros r w' (p & create & si & st & w1 & w2 & Hev).
  split; [by eapply event_handled_inv|by exists p, create, si, st, w1, w2].
Qed.

(** C29. With [local_sta_timeout] not positive as an [int] (0, or 2^31 and
    more), the event of a station that is not associated frees its [sta_info]
    and goes on using it. *)
Theorem sta_event_use_after_free s x a type fr signal w :
  inv w -> node_heap w !! NLocal s = Some x -> s32 (local_sta_timeout (config w)) <= 0 ->
  (forall p si, si_heap w !! p = Some si -> si_key si = (a, NLocal s) -> si_connected si ≠ 1) ->
  usteer_handle_sta_event (NLocal s) a type fr signal w = Fault DanglingSi.
Proof.
  intros Hi Hx Ht Hc. unfold usteer_handle_sta_event.
  apply fault_bind. eapply wp_mono; [by apply usteer_sta_get_there|]. intros r wa [-> Ha].
  apply fault_bind. eapply sta_there_upd; [done|by intros; case_match|]. intros wb Hb.
  apply fault_bind. eapply wp_mono; [by eapply ensured_intro|]. intros r wc (p & create & si & -> & Hen).
  apply fault_bind. eapply wp_deref; [done|]. simpl.
  destruct Hen as [Hi1 Hf1 _ Hold Hp Hk _ _ _ _].
  assert (Hcon : si_connected si ≠ 1).
  { destruct create; [by destruct Hold as [-> _]|by eapply Hc]. }
  apply fault_bind. eapply wp_mono; [eapply usteer_sta_info_update_drops; try done; by rewrite (fr_config _ _ Hf1)|].
  intros [] w2 Hnone. apply fault_bind, wp_gets. unfold upd_si, get_si, deref, mbind, M_bind.
  by rewrite Hnone.
Qed.

(** The refusals in a row are forgotten whenever time has passed since the
    last one, unless [sta_block_timeout] is within the elapsed time of 2^32: the
    difference is taken the wrong way round, so the timeout that should end a
    series of refusals ends it after one millisecond. *)
Theorem block_timeout_reversed cfg now st d :
  blocked_last_time st = u32 (now - d) -> 0 < d -> d < 2 ^ 32 - sta_block_timeout cfg ->
  0 <= sta_block_timeout cfg ->
  blocked_cur (event_counted cfg now st) = 0.
Proof.
  intros Hl Hd Hlt Hb. unfold event_counted. simpl. rewrite Hl.
  replace (u32 (u32 (now - d) - now)) with (2 ^ 32 - d).
  - by rewrite (proj2 (Z.ltb_lt _ _)) by lia.
  - rewrite u32_sub_l. replace (now - d - now) with (- d) by lia. int_lia.
Qed.

(** C6. [usteer_check_request] decides as documented, with the four reasons in
    the order of the code; to answer it may create [sta_info]s at other nodes
    but changes nothing that was there and sends nothing. *)
Theorem check_request_correct p si x st type w :
  inv w -> si_heap w !! p = Some si -> node_heap w !! si_node si = Some x ->
  si_stats si !! event_idx type = Some st ->
  wp (usteer_check_request p type) (fun r w' =>
    grown (si_node si) w w' /\ (r = true <-> request_allowed w p si x st type)) w.
Proof. by apply usteer_check_request_spec. Qed.

(** C21. [find_better_candidate] answers with a [sta_info] of a node that is
    better and not the other way round (from the station's beacon reports, or
    because that node heard the station within [seen_policy_timeout]), and with
    none exactly when there is no such node. *)
Theorem find_better_candidate_correct ref si_ref w :
  inv w -> si_heap w !! ref = Some si_ref ->
  wp (find_better_candidate ref) (fun r w' =>
    grown (si_node si_ref) w w' /\
    match r with
    | Some q => better_candidate w w' ref si_ref q /\ ~ no_candidate w ref si_ref
    | None => w' = w /\ no_candidate w ref si_ref
    end) w.
Proof. by apply find_better_candidate_spec. Qed.

(** C18. [usteer_sta_info_get] refines the search of the station table: it finds
    the one object of the station at the node, or, when asked to, creates it and
    links it from both; nothing else moves. *)
Theorem sta_info_get_refines a n create sa x w :
  inv w -> stations w !! a = Some sa -> node_heap w !! n = Some x ->
  wp (usteer_sta_info_get a n create) (fun r w' =>
    inv w' /\ frame w w' /\ tq w' = tq w /\
    match table_find a n (abs w) with
    | Some p => r = Some (p, false) /\ w' = w
    | None =>
        if create then r = Some (si_brk w, true) /\ abs w' = table_si_add a n (abs w) /\
          table_find a n (abs w') = Some (si_brk w) /\
          si_heap w' = <[si_brk w := calloc_sta_info a n (freq x) (current_time w)]> (si_heap w)
        else r = None /\ w' = w
    end) w.
Proof.
  intros Hi Ha Hn. eapply wp_mono; [by eapply usteer_sta_info_get_spec|].
  intros [[p []]|] w'.
  - intros (-> & -> & -> & [Hi' Hab Hf Hh Hfr Htq Ho]). do 3 (split; [done|]). split; [done|].
    split; [done|]. split; [|done]. apply table_find_spec; [apply Hi'|]. by rewrite abs_si, Hh, lookup_insert_eq.
  - intros [-> ->]. done.
  - intros (-> & -> & ->). done.
Qed.

(** C19. [usteer_sta_info_del] refines the removal from the station table: the
    object leaves both lists and the timer queue, and its station goes with it
    when it was the last one. *)
Theorem sta_info_del_refines p si w :
  inv w -> si_heap w !! p = Some si ->
  wp (usteer_sta_info_del p) (fun _ w' =>
    inv w' /\ abs w' = table_si_del p (abs w) /\ frame w w' /\ si_heap w' = delete p (si_heap w) /\
    p ∉ q_ids (tq w') /\ (no_empty_sta (abs w) -> no_empty_sta (abs w'))) w.
Proof.
  intros Hi Hp. eapply wp_mono; [by eapply usteer_sta_info_del_spec|].
  intros [] w' (Hi' & Hab & Hf & Hh & Htq & _). split; [done|]. split; [done|]. split; [done|].
  split; [done|]. split.
  - rewrite Htq, elem_of_cancel_ids. naive_solver.
  - intros Hne. rewrite Hab. by apply table_si_del_no_empty.
Qed.

(** C23. The timer callback of the stations terminates and removes exactly the
    [sta_info]s whose deadline has passed, in spite of the 32-bit deadlines that
    wrap around; the others stay as they are, and the timer is armed in time for
    the next deadline. *)
Theorem sta_timeout_correct fuel D w :
  inv w -> q_rep D (tq w) -> q_window (ts_ms (clock w)) D (tq w) ->
  (S (length (q_elems (tq w))) < fuel)%nat ->
  wp (sta_timer_expired fuel) (fun _ w' =>
    inv w' /\ frame w w' /\ (no_empty_sta (abs w) -> no_empty_sta (abs w')) /\
    (forall p, si_heap w' !! p = if decide (p ∈ q_ids (tq w) /\ D p <= ts_ms (clock w)) then None
                                 else si_heap w !! p) /\
    (forall p, p ∈ q_ids (tq w') <-> p ∈ q_ids (tq w) /\ ts_ms (clock w) < D p) /\
    q_rep D (tq w') /\ q_armed (ts_ms (clock w)) D (tq w')) w.
Proof.
  intros Hi Hrep Hwin Hf. eapply wp_mono; [by eapply sta_timer_expired_spec|].
  intros [] w' (Hr & Hel & Hrep' & Harm).
  destruct (due_timers_spec _ D _ (rep_keys _ _ Hrep) (rep_sorted _ _ Hrep) Hwin) as [Hin Htk].
  set (l := due_timers _ _) in *. destruct Hr as [Hi' Hfr Hh Hem Ho].
  split; [done|]. split; [done|]. split; [done|]. split; [|split; [|done]].
  - intros p. rewrite Hh. apply decide_ext. apply Hin.
  - intros p. assert (Hnd := rep_wf _ _ Hrep). unfold q_wf, q_ids in *.
    assert (Hsp : (q_elems (tq w)).*2 = l ++ drop (length l) (q_elems (tq w)).*2).
    { etrans; [symmetry; apply (take_drop (length l))|]. by f_equal. }
    rewrite Hel, fmap_drop. rewrite Hsp in Hnd. apply list.NoDup_app in Hnd as (_ & Hd & _).
    assert (Hsplit : p ∈ (q_elems (tq w)).*2 <-> p ∈ l \/ p ∈ drop (length l) (q_elems (tq w)).*2).
    { rewrite Hsp at 1. apply elem_of_app. }
    specialize (Hin p). specialize (Hd p). split.
    + intros Hp. split; [tauto|]. destruct (Z.lt_ge_cases (ts_ms (clock w)) (D p)); [done|].
      exfalso. apply Hd; [|done]. apply Hin. split; [tauto|lia].
    + intros [Hp Hlt]. apply Hsplit in Hp as [Hp|Hp]; [|done]. apply Hin in Hp. lia.
Qed.

(** [usteer_sta_node_cleanup] frees all [sta_info]s of a node and no other. *)
Theorem node_cleanup_correct n x w :
  inv w -> node_heap w !! n = Some x ->
  wp (usteer_sta_node_cleanup n) (fun _ w' =>
    inv w' /\ t_node (abs w') !! n = Some [] /\
    (forall p si, si_heap w !! p = Some si ->
       si_heap w' !! p = if decide (si_node si = n) then None else Some si) /\
    (no_empty_sta (abs w) -> no_empty_sta (abs w'))) w.
Proof.
  intros Hi Hx. eapply wp_mono; [by eapply usteer_sta_node_cleanup_spec|].
  intros [] w' [[Hi' Hfr Hh Hem Ho] Hn]. split; [done|]. split; [done|]. split.
  - intros p si Hp. rewrite Hh. simpl. rewrite Hp. apply decide_ext. split.
    + intros Hin. destruct (inv_node_si w n x p Hi Hx Hin) as (si' & ? & ?). by simplify_eq.
    + intros <-. destruct (inv_si_node w p si Hi Hp) as (x' & ? & ?). by simplify_eq.
  - intros Hne. apply Hem. exact Hne.
Qed.
End station_theorems.

Section timer_theorems.
Context {A T : Type} `{EqDecision A} `{!AvlTree Z A T} `{!AvlLaws Z A T}.
Implicit Types (q : usteer_timeout_queue T) (D : A -> Z) (t : A).

(** C24. [usteer_timeout_set] gives a timer a new deadline: the queue then holds
    every timer once, earliest first, although it only compares 32-bit times
    that wrap around, and its [uloop] timer is due no later than the earliest
    deadline (or in a millisecond). All that is needed is that the deadlines lie
    within 2^31 milliseconds of now. *)
Theorem timeout_set_correct ts tl t msecs D q :
  let now := ts_ms ts in
  q_rep D q -> q_window now D q -> in_window now (now + msecs) -> tl <= now -> q_armed tl D q ->
  let D' := set_deadline t (now + msecs) D in
  let q' := usteer_timeout_set ts t msecs q in
  q_rep D' q' /\ q_window now D' q' /\ q_armed now D' q' /\
  (forall p, p ∈ q_ids q' <-> p = t \/ p ∈ q_ids q).
Proof.
  intros now Hrep Hw Hd Htl Ha D' q'. destruct (set_rep ts t msecs D q Hrep Hw Hd) as [? ?].
  split; [done|]. split; [done|]. split; [by eapply set_armed|]. intros p. apply elem_of_set_ids.
Qed.

(** [usteer_timeout_cancel] takes a timer out, and only that one. *)
Theorem timeout_cancel_correct tl t D q :
  q_rep D q -> q_armed tl D q ->
  let q' := usteer_timeout_cancel t q in
  q_rep D q' /\ q_armed tl D q' /\ usteer_timeout_isset t q' = false /\
  (forall p, p ∈ q_ids q' <-> p ∈ q_ids q /\ p ≠ t).
Proof.
  intros Hrep Ha q'. split; [by apply cancel_rep|]. split; [by apply cancel_armed|].
  split; [|intros p; apply elem_of_cancel_ids].
  apply isset_false. unfold q'. rewrite elem_of_cancel_ids. tauto.
Qed.
End timer_theorems.

(** ** Witnesses *)

Definition D0 (p : ptr) : Z := 1120000.
Lemma w_assoc_queue : q_elems (A := ptr) (tq w_assoc) = [(1120000, si_a0); (1120000, si_a1); (1120000, si_b0)].
Proof. by vm_compute. Qed.
Lemma w_assoc_due : q_uloop (tq w_assoc) = Some 1120000.
Proof. by vm_compute. Qed.
Lemma w_assoc_rep : q_rep D0 (tq w_assoc) /\ q_window 1120000 D0 (tq w_assoc) /\ q_armed 1000000 D0 (tq w_assoc).
Proof.
  split; [split|split].
  - unfold q_wf, q_ids. rewrite w_assoc_queue. apply (bool_decide_unpack _). by vm_compute.
  - rewrite w_assoc_queue. apply list.Forall_forall. intros x Hx. unfold D0.
    repeat (apply elem_of_cons in Hx as [->|Hx]; [done|]). by apply elem_of_nil in Hx.
  - rewrite w_assoc_queue. unfold D0. repeat (apply SSorted_cons; [|apply list.Forall_forall; intros; lia]).
    apply SSorted_nil.
  - unfold q_window. rewrite w_assoc_queue. apply list.Forall_forall. intros x _. unfold in_window, D0. lia.
  - unfold q_armed. rewrite w_assoc_queue. exists 1120000. rewrite w_assoc_due. unfold D0. split; [done|lia].
Qed.
(** Two minutes later. *)
Definition w_late : demo_world := w_assoc <| clock := mkTimespec 1120 0 |>.
Lemma w_late_inv : inv w_late.
Proof. apply inv_set_clock, w_assoc_inv. Qed.
Lemma clock_tq c (w : demo_world) : tq (w <| clock := c |>) = tq w.
Proof. done. Qed.
Lemma w_late_tq : tq w_late = tq w_assoc.
Proof. apply clock_tq. Qed.
Lemma w_late_rep : q_rep D0 (tq w_late) /\ q_window (ts_ms (clock w_late)) D0 (tq w_late) /\
  (S (length (q_elems (tq w_late))) < 10)%nat.
Proof.
  rewrite w_late_tq. destruct w_assoc_rep as (H1 & H2 & _).
  assert (Hc : ts_ms (clock w_late) = 1120000) by by vm_compute.
  rewrite Hc. split; [exact H1|]. split; [exact H2|]. rewrite w_assoc_queue. simpl. lia.
Qed.

Lemma sta_event_correct_witness : exists r w',
  usteer_handle_sta_event (NLocal ap0) mac_b EVENT_TYPE_AUTH 2412 (-80) w_assoc = Ok (r, w') /\ inv w'.
Proof.
  destruct (proj1 (wp_ok _ _ _) (sta_event_correct ap0 (the_node w_assoc ap0) mac_b EVENT_TYPE_AUTH 2412 (-80)
    w_assoc (proj1 w_assoc_inv) ltac:(at_node) ltac:(done) ltac:(eval_fact) ltac:(unfold signal_ok; lia))) as (r & w' & Hrun & [Hi _] & _).
  exists r, w'. split; [exact Hrun|exact Hi].
Defined.

Definition w_no_timeout : demo_world := w_aps <| config := demo_config <| local_sta_timeout := 0 |> |>.
Lemma w_no_timeout_inv : inv w_no_timeout.
Proof. apply inv_set_config, w_aps_inv. Qed.
Lemma sta_event_use_after_free_witness :
  usteer_handle_sta_event (NLocal ap0) mac_a EVENT_TYPE_PROBE 2412 (-60) w_no_timeout = Fault DanglingSi.
Proof.
  apply (sta_event_use_after_free ap0 (the_node w_no_timeout ap0)).
  - exact w_no_timeout_inv.
  - at_node.
  - by vm_compute.
  - intros p si Hp. exfalso. revert Hp.
    assert (E : si_heap w_no_timeout = ∅) by by vm_compute. by rewrite E, lookup_empty.
Defined.

Lemma block_timeout_reversed_witness :
  blocked_cur (event_counted demo_config 1000000 (mkStats 3 3 3 (u32 (1000000 - 1)))) = 0.
Proof. apply (block_timeout_reversed _ _ _ 1); [reflexivity|lia|by vm_compute|by vm_compute]. Defined.

Lemma check_request_correct_witness : exists r w',
  usteer_check_request si_a0 EVENT_TYPE_PROBE w_assoc = Ok (r, w') /\ out w' = out w_assoc.
Proof.
  destruct (proj1 (wp_ok _ _ _) (check_request_correct si_a0 (the_si w_assoc si_a0) (node_of_si w_assoc si_a0)
    (default stats_zero (si_stats (the_si w_assoc si_a0) !! 0%nat)) EVENT_TYPE_PROBE w_assoc
    (proj1 w_assoc_inv) ltac:(at_si) ltac:(at_default) ltac:(eval_fact))) as (r & w' & Hrun & Hg & _).
  exists r, w'. split; [exact Hrun|apply Hg].
Defined.

(** The station is better off at the other access point. *)
Lemma find_better_candidate_correct_witness : exists w',
  find_better_candidate si_a0 w_assoc = Ok (Some si_a1, w') /\
  better_candidate w_assoc w' si_a0 (the_si w_assoc si_a0) si_a1.
Proof.
  destruct (proj1 (wp_ok _ _ _) (find_better_candidate_correct si_a0 (the_si w_assoc si_a0) w_assoc
    (proj1 w_assoc_inv) ltac:(at_si))) as (r & w' & Hrun & _ & Hr).
  assert (Hs : (fun x => match x with Ok (r, _) => r | Fault _ => None end) (find_better_candidate si_a0 w_assoc)
    = Some si_a1) by by vm_compute.
  rewrite Hrun in Hs. cbv beta iota in Hs. subst r. exists w'. split; [exact Hrun|apply Hr].
Defined.

Lemma sta_info_get_refines_witness : exists w',
  usteer_sta_info_get mac_b (NLocal ap1) true w_assoc = Ok (Some (si_brk w_assoc, true), w') /\ inv w'.
Proof.
  destruct (proj1 (wp_ok _ _ _) (sta_info_get_refines mac_b (NLocal ap1) true
    (default sta_zero (stations w_assoc !! mac_b)) (the_node w_assoc ap1) w_assoc (proj1 w_assoc_inv)
    ltac:(at_default) ltac:(at_node))) as (r & w' & Hrun & Hi & _ & _ & Hr).
  assert (Hf : table_find mac_b (NLocal ap1) (abs w_assoc) = None) by by vm_compute.
  rewrite Hf in Hr. destruct Hr as [-> _]. exists w'. split; [exact Hrun|exact Hi].
Defined.

Lemma sta_info_del_refines_witness : exists w',
  usteer_sta_info_del si_b0 w_assoc = Ok (tt, w') /\ abs w' = table_si_del si_b0 (abs w_assoc).
Proof.
  destruct (proj1 (wp_ok _ _ _) (sta_info_del_refines si_b0 (the_si w_assoc si_b0) w_assoc
    (proj1 w_assoc_inv) ltac:(at_si))) as ([] & w' & Hrun & _ & Ha & _).
  exists w'. split; [exact Hrun|exact Ha].
Defined.

(** All three are due and go. *)
Lemma sta_timeout_correct_witness : exists w',
  sta_timer_expired 10 w_late = Ok (tt, w') /\ si_heap w' !! si_a0 = None /\ si_heap w' !! si_b0 = None.
Proof.
  destruct (proj1 (wp_ok _ _ _) (sta_timeout_correct 10 D0 w_late w_late_inv (proj1 w_late_rep)
    (proj1 (proj2 w_late_rep)) (proj2 (proj2 w_late_rep)))) as ([] & w' & Hrun & _ & _ & _ & Hh & _).
  exists w'. split; [exact Hrun|]. rewrite w_late_tq in Hh. unfold q_ids in Hh. rewrite w_assoc_queue in Hh.
  assert (Hc : D0 si_a0 <= ts_ms (clock w_late)) by by vm_compute.
  rewrite !Hh. cbn [fmap list_fmap snd]. split; (apply decide_True; split; [rewrite !elem_of_cons; auto|exact Hc]).
Defined.

Lemma node_cleanup_correct_witness : exists w',
  usteer_sta_node_cleanup (NLocal ap0) w_assoc = Ok (tt, w') /\ si_heap w' !! si_a0 = None.
Proof.
  destruct (proj1 (wp_ok _ _ _) (node_cleanup_correct (NLocal ap0) (the_node w_assoc ap0) w_assoc
    (proj1 w_assoc_inv) ltac:(at_node))) as ([] & w' & Hrun & _ & _ & Hh & _).
  exists w'. split; [exact Hrun|].
  assert (Hp : si_heap w_assoc !! si_a0 = Some (the_si w_assoc si_a0)) by at_si.
  assert (Hn : si_node (the_si w_assoc si_a0) = NLocal ap0) by by vm_compute.
  rewrite (Hh si_a0 _ Hp). by apply decide_True.
Defined.

Lemma timeout_set_correct_witness :
  q_rep (set_deadline si_b0 1125000 D0) (usteer_timeout_set (mkTimespec 1120 0) si_b0 5000 (tq w_assoc)).
Proof.
  apply (timeout_set_correct (mkTimespec 1120 0) 1000000 si_b0 5000 D0 (tq w_assoc)).
  - exact (proj1 w_assoc_rep).
  - exact (proj1 (proj2 w_assoc_rep)).
  - vm_compute. done.
  - vm_compute. done.
  - exact (proj2 (proj2 w_assoc_rep)).
Defined.

Lemma timeout_cancel_correct_witness : usteer_timeout_isset si_a0 (usteer_timeout_cancel si_a0 (tq w_assoc)) = false.
Proof.
  destruct w_assoc_rep as (H1 & _ & H3). exact (proj1 (proj2 (proj2 (timeout_cancel_correct _ si_a0 _ _ H1 H3)))).
Defined.
