(* ===== verification/RoamTheorems.v ===== *)
(** * Theorems about kicks

    The properties of the roaming state machine and of the kicks of policy.c,
    over single runs and over histories of runs, each with its application to the
    daemon of Scenario.v. *)
From S2P Require Import Prelude Blob Timeout Types Table World Ssid Beacon Sta UbusClient.
From S2P Require Import Policy RemoteMsg StaEvent Roam BeaconRequest LocalNode Scenario.
From S2P Require Import StationTheorems.

(** ** The history of one station's roaming *)

Definition is_notify (a : action) : bool :=
  match a with
  | UbusInvoke _ m _ => bool_decide (m = "wnm_disassoc_imminent"%string)
  | _ => false
  end.

Section history.
Context {BM : Blobmsg} {T : Type} `{!AvlTree Z ptr T} `{!AvlLaws Z ptr T}.
Implicit Types (w : world T) (h : list (Z * action)).

(** What the state machine of [sta_info] [p] at node [s] sent, and when: it is
    run, it is sent back to [ROAM_TRIGGER_IDLE], and between its runs anything
    may happen that leaves its state, the time of its last change and
    [roam_kick_delay] alone. *)
Inductive roam_history (s : string) (p : ptr) : list (Z * action) -> world T -> Prop :=
| rh_init w si :
    inv w -> si_heap w !! p = Some si -> si_node si = NLocal s -> si_roam_state si = ROAM_TRIGGER_IDLE ->
    0 <= current_time w < 2 ^ 64 -> roam_history s p [] w
| rh_env h w w' si si' :
    roam_history s p h w -> inv w' -> si_heap w !! p = Some si -> si_heap w' !! p = Some si' ->
    si_node si' = si_node si -> si_roam_state si' = si_roam_state si -> si_roam_event si' = si_roam_event si ->
    current_time w <= current_time w' < 2 ^ 64 ->
    roam_kick_delay (config w') = roam_kick_delay (config w) -> roam_history s p h w'
| rh_idle h w w' :
    roam_history s p h w -> usteer_roam_set_state p ROAM_TRIGGER_IDLE w = Ok (tt, w') ->
    roam_history s p h w'
| rh_sm h w b w' acts :
    roam_history s p h w -> usteer_roam_trigger_sm p w = Ok (b, w') -> out w' = out w ++ acts ->
    roam_history s p (h ++ map (pair (current_time w)) acts) w'.

(** A notification at [t0], and no kick after it. *)
Definition notified_at (t0 : Z) h : Prop :=
  exists h1 a h2, h = h1 ++ (t0, a) :: h2 /\ is_notify a = true /\ forall x, x ∈ h2 -> is_kick x.2 = false.

Definition kick_delay w : Z := u32 (roam_kick_delay (config w) * 100).

Definition state_ok (now delay : Z) (si : sta_info) h : Prop :=
  match si_roam_state si with
  | ROAM_TRIGGER_NOTIFY_KICK => notified_at (si_roam_event si) h /\ 0 <= si_roam_event si <= now
  | ROAM_TRIGGER_KICK => exists t0, notified_at t0 h /\ t0 + delay <= si_roam_event si <= now
  | _ => True
  end.

Record history_ok (s : string) (p : ptr) h w : Prop := {
  ho_inv : inv w;
  ho_si : exists si, si_heap w !! p = Some si /\ si_node si = NLocal s /\
    state_ok (current_time w) (kick_delay w) si h;
  ho_time : 0 <= current_time w < 2 ^ 64;
}.

Lemma set_state_same now st si : si_roam_state (roam_set_state now st si) = st.
Proof.
  unfold roam_set_state. destruct (si_roam_state si) eqn:E; destruct st; simpl; rewrite ?E; done.
Qed.
Lemma set_state_event now st si : si_roam_event (roam_set_state now st si) = now.
Proof. unfold roam_set_state. by repeat case_bool_decide. Qed.

Lemma notified_snoc t0 h acts now :
  notified_at t0 h -> forallb (fun a => negb (is_kick a)) acts = true ->
  notified_at t0 (h ++ map (pair now) acts).
Proof.
  intros (h1 & a & h2 & -> & Ha & Hn) Hacts. exists h1, a, (h2 ++ map (pair now) acts).
  split; [by rewrite <- app_assoc|]. split; [done|]. intros x [Hx|Hx]%elem_of_app; [by apply Hn|].
  apply list_elem_of_fmap in Hx as (b & -> & Hb). simpl. apply negb_true_iff.
  rewrite forallb_forall in Hacts. apply Hacts. by apply list_elem_of_In.
Qed.

(** The state machine keeps the relation between state and history. *)
Lemma roam_next_ok cfg now ms found w0 si ln h acts delay :
  0 <= now < 2 ^ 64 -> delay = u32 (roam_kick_delay cfg * 100) -> state_ok now delay si h ->
  label_acts w0 si ln (roam_next cfg now ms found si).1 acts ->
  state_ok now delay (roam_next cfg now ms found si).2 (h ++ map (pair now) acts).
Proof.
  intros Hnow -> Hok. unfold roam_next, state_ok in *.
  destruct (si_roam_state si) eqn:E; simpl.
  - destruct found; rewrite set_state_same; done.
  - repeat case_match; simpl in *; rewrite ?set_state_same, ?E in *; done.
  - repeat case_match; simpl in *; rewrite ?set_state_same, ?E in *; done.
  - case_match; simpl; [by rewrite E|]. intros (nbs & ->). rewrite set_state_same, set_state_event.
    split; [|lia]. eexists h, _, []. split; [done|]. split; [done|]. intros x Hx. by apply elem_of_nil in Hx.
  - destruct Hok as [Hn He]. destruct (Z.ltb_spec (u64 (now - si_roam_event si)) (u32 (roam_kick_delay cfg * 100)));
      simpl; intros ->; simpl; rewrite app_nil_r; [by rewrite E|].
    rewrite set_state_same, set_state_event. exists (si_roam_event si). split; [done|].
    rewrite u64_id in * by lia. lia.
  - by rewrite set_state_same.
Qed.

Lemma roam_history_ok s p h w : roam_history s p h w -> history_ok s p h w.
Proof.
  induction 1 as [w si Hi Hp Hn Hst Ht|h w w' si si' _ [Hi (si0 & Hp0 & Hn0 & Hok) Ht] Hi' Hp Hp' Hn Hs He Htime Hd
                 |h w w' _ [Hi (si & Hp & Hn & Hok) Ht] Hrun|h w b w' acts _ [Hi (si & Hp & Hn & Hok) Ht] Hrun Hout].
  - split; [done| |done]. exists si. unfold state_ok. by rewrite Hst.
  - rewrite Hp in Hp0. injection Hp0 as <-. split; [done| |lia]. exists si'. split; [done|]. split; [congruence|].
    unfold state_ok, kick_delay in *. rewrite Hs, He, Hd. destruct (si_roam_state si); try done.
    + destruct Hok. split; [done|lia].
    + destruct Hok as (t0 & ? & ?). exists t0. split; [done|lia].
  - assert (H : wp (usteer_roam_set_state p ROAM_TRIGGER_IDLE) (fun _ w1 =>
      si_step s p [] (roam_set_state (current_time w) ROAM_TRIGGER_IDLE si) w w1) w).
    { apply goto_step, si_step_grown; [by apply grown_refl|done]. }
    unfold wp in H. rewrite Hrun in H. destruct H as [Hst Hp']. assert (Hf := ns_frame _ _ _ _ _ Hst).
    split; [apply Hst| |by rewrite (fr_time _ _ Hf)]. eexists. split; [exact Hp'|]. split.
    + assert (Hk := kp_key _ _ (kept_set_state (current_time w) ROAM_TRIGGER_IDLE si)). unfold si_key in Hk. congruence.
    + unfold state_ok. by rewrite set_state_same.
  - destruct (inv_si_node w p si Hi Hp) as (x & Hx & _). rewrite Hn in Hx.
    destruct (inv_local_ln w p si s Hi Hp Hn) as (ln & Hl).
    assert (H := usteer_roam_trigger_sm_spec p si s x ln w Hi Hp Hn Hx Hl). cbv zeta in H.
    unfold wp in H. rewrite Hrun in H. destruct H as (_ & acts' & Ha & Hst & Hp').
    assert (acts' = acts) as -> by (rewrite (ns_out _ _ _ _ _ Hst) in Hout; by simplify_eq).
    assert (Hf := ns_frame _ _ _ _ _ Hst).
    split; [apply Hst| |by rewrite (fr_time _ _ Hf)]. eexists. split; [exact Hp'|]. split.
    + destruct (ns_si _ _ _ _ _ Hst p si Hp) as (si2 & Hp2 & Hk2 & _). rewrite Hp' in Hp2. injection Hp2 as <-.
      assert (Hk := kp_key _ _ Hk2). unfold si_key in Hk. congruence.
    + unfold kick_delay. rewrite (fr_time _ _ Hf), (fr_config _ _ Hf). by eapply roam_next_ok.
Qed.
End history.

(** ** The history of an overloaded node *)
Section load_history.
Context {T : Type} `{!AvlTree Z ptr T} `{!AvlLaws Z ptr T}.
Implicit Types (w : world T) (s : string).

(** Runs of [load_kick] for node [s] under the configuration [cfg]; for each one
    whether it found the load at the threshold or above. Between them anything
    may happen that leaves the counter alone. *)
Inductive load_history (cfg : usteer_config) (s : string) : list bool -> world T -> Prop :=
| lh_init w ln :
    inv w -> config w = cfg -> ln_heap w !! s = Some ln -> load_thr_count ln = 0 ->
    load_history cfg s [] w
| lh_env h w w' ln ln' :
    load_history cfg s h w -> inv w' -> config w' = cfg ->
    ln_heap w !! s = Some ln -> ln_heap w' !! s = Some ln' ->
    load_thr_count ln' = load_thr_count ln -> load_history cfg s h w'
| lh_run h w w' x :
    load_history cfg s h w -> node_heap w !! NLocal s = Some x -> load_kick s w = Ok (tt, w') ->
    load_history cfg s (h ++ [load_kick_threshold cfg <=? u32 (load x)]) w'.

(** How many runs above the threshold in a row are let pass. *)
Definition load_patience (cfg : usteer_config) : Z :=
  DIV_ROUND_UP (load_kick_delay cfg) (local_sta_update cfg).

Record load_history_ok (cfg : usteer_config) (s : string) (h : list bool) w : Prop := {
  lo_inv : inv w;
  lo_config : config w = cfg;
  lo_ln : exists ln k h', ln_heap w !! s = Some ln /\ u32 (load_thr_count ln) = Z.of_nat k /\ h = h' ++ replicate k true;
}.

Lemma thr_next_count cfg ld c k h :
  u32 c = Z.of_nat k ->
  exists k' h', u32 (thr_next cfg ld c).2 = Z.of_nat k' /\
    (h ++ replicate k true) ++ [load_kick_threshold cfg <=? u32 ld] = h' ++ replicate k' true.
Proof.
  intros Hc. rewrite <- app_assoc. set (flag := _ <=? _). unfold thr_next.
  assert (H0 : exists h', h ++ replicate k true ++ [flag] = h' ++ replicate 0 true)
    by (eexists; by rewrite app_nil_r).
  destruct H0 as [h0 H0]. destruct (Z.ltb_spec (u32 ld) (load_kick_threshold cfg)) as [Hl|Hl].
  - by exists 0%nat, h0.
  - case_match; [|by exists 0%nat, h0].
    assert (Hu : u32 (s32 (c + 1)) = Z.of_nat (S k) \/ u32 (s32 (c + 1)) = 0) by int_lia.
    destruct Hu as [Hu|Hu]; [|by exists 0%nat, h0].
    exists (S k), h. split; [done|]. unfold flag. rewrite (proj2 (Z.leb_le _ _) Hl).
    by rewrite replicate_S_end.
Qed.

(** A run that kicks came after enough runs. *)
Lemma thr_next_try cfg ld c k :
  u32 c = Z.of_nat k -> 0 <= load_patience cfg -> (thr_next cfg ld c).1 = true ->
  load_kick_threshold cfg <= u32 ld /\ load_patience cfg <= Z.of_nat k.
Proof.
  intros Hc Hp. unfold thr_next. destruct (Z.ltb_spec (u32 ld) (load_kick_threshold cfg)); [done|].
  fold (load_patience cfg). destruct (Z.leb_spec (u32 (s32 (c + 1))) (load_patience cfg)); [done|].
  intros _. split; [done|]. int_lia.
Qed.

Lemma load_run_ln cfg s x ln w :
  inv w -> config w = cfg -> node_heap w !! NLocal s = Some x -> ln_heap w !! s = Some ln ->
  kick_client_active_sec cfg ≠ 0 -> local_sta_update cfg ≠ 0 -> load_kick_off cfg = false ->
  wp (load_kick s) (fun _ w' => inv w' /\ config w' = cfg /\
    (exists ln', ln_heap w' !! s = Some ln' /\ load_thr_count ln' = (thr_next cfg (load x) (load_thr_count ln)).2) /\
    (out w' ≠ out w -> (thr_next cfg (load x) (load_thr_count ln)).1 = true)) w.
Proof.
  intros Hi Hc Hx Hl Hsec Hup Hoff. rewrite <- Hc in *.
  eapply wp_mono; [by eapply load_kick_spec|]. intros [] w'. rewrite Hoff.
  destruct (thr_next (config w) (load x) (load_thr_count ln)) as [try c]. cbv zeta. simpl.
  assert (H0 : inv (thr_counted w s ln c)) by by eapply inv_set_ln.
  assert (Hl0 : ln_heap (thr_counted w s ln c) !! s = Some (ln <| load_thr_count := c |>)) by apply lookup_insert_eq.
  destruct (try && _) eqn:E; [|intros ->; split; [done|]; split; [done|]; split; [by eexists|done]].
  apply andb_prop in E as [-> _]. intros (acts & l1 & l2 & k1 & k2 & _ & H).
  assert (exists ps, node_step (NLocal s) ps acts (thr_counted w s ln c) w') as [ps Hst].
  { destruct k1; [destruct H as (? & ? & _ & _ & _ & _ & _ & ?)|destruct H as [_ ?]]; eauto. }
  assert (Hf := ns_frame _ _ _ _ _ Hst). split; [apply Hst|]. split; [apply (fr_config _ _ Hf)|].
  split; [|done]. rewrite (fr_ln _ _ Hf). by eexists.
Qed.

Lemma load_history_inv cfg s h w :
  kick_client_active_sec cfg ≠ 0 -> local_sta_update cfg ≠ 0 -> load_kick_off cfg = false ->
  load_history cfg s h w -> load_history_ok cfg s h w.
Proof.
  intros Hsec Hup Hoff. induction 1 as [w ln Hi Hc Hl H0
    |h w w' ln ln' _ [Hi Hc (ln0 & k & h' & Hl0 & Hk & ->)] Hi' Hc' Hl Hl' Hcnt
    |h w w' x _ [Hi Hc (ln & k & h' & Hl & Hk & ->)] Hx Hrun].
  - split; [done..|]. exists ln, 0%nat, []. by rewrite H0.
  - split; [done..|]. rewrite Hl in Hl0. injection Hl0 as <-. exists ln', k, h'. by rewrite Hcnt.
  - assert (H := load_run_ln cfg s x ln w Hi Hc Hx Hl Hsec Hup Hoff). unfold wp in H. rewrite Hrun in H.
    destruct H as (Hi' & Hc' & (ln' & Hl' & Hcnt) & _). split; [done..|].
    destruct (thr_next_count cfg (load x) _ k h' Hk) as (k' & h2 & Hk' & ->).
    exists ln', k', h2. by rewrite Hcnt.
Qed.
End load_history.

(** ** The properties *)
Section roam_theorems.
Context {BM : Blobmsg} {T : Type} `{!AvlTree Z ptr T} `{!AvlLaws Z ptr T}.
Implicit Types (w : world T) (p q : ptr) (si : sta_info) (s : string) (ln : usteer_local_node).

(** C7. A run of [usteer_roam_trigger_sm] refines one step of the abstract state
    machine [roam_next]: it returns true exactly when the station was kicked,
    sends what the step stands for (nothing, the scan request, the disassociation
    notice or the kick) and leaves the [sta_info] in the step's state; nothing
    else of the node changes. *)
Theorem roam_sm_refines p si s x ln w :
  inv w -> si_heap w !! p = Some si -> si_node si = NLocal s ->
  node_heap w !! NLocal s = Some x -> ln_heap w !! s = Some ln ->
  let r := roam_next (config w) (current_time w) (snr_to_signal x (roam_trigger_snr (config w)))
             (has_candidate w p) si in
  wp (usteer_roam_trigger_sm p) (fun b w' => b = bool_decide (r.1 = RKick) /\
    exists acts, label_acts w si ln r.1 acts /\ node_step (NLocal s) [p] acts w w' /\
      si_heap w' !! p = Some r.2) w.
Proof.
  intros. eapply wp_mono; [by eapply usteer_roam_trigger_sm_spec|].
  intros b w' (Hb & acts & Ha & Hst & Hp). split; [done|]. by exists acts.
Qed.

(** C8. A station is only kicked by the state machine when it was notified of
    it, [roam_kick_delay] tenths of a second or more before, and was not kicked
    since: true of every history of runs, whatever happens in between. (The delay
    in milliseconds is computed, as in the code, in 32 bits.) *)
Theorem kick_after_notice s p h w w' b acts :
  roam_history s p h w -> usteer_roam_trigger_sm p w = Ok (b, w') -> out w' = out w ++ acts ->
  (b = true <-> n_kicks acts = 1%nat) /\
  (b = true -> exists t0, notified_at t0 h /\ t0 + kick_delay w <= current_time w).
Proof.
  intros Hh Hrun Hout. destruct (roam_history_ok _ _ _ _ Hh) as [Hi (si & Hp & Hn & Hok) Ht].
  destruct (inv_si_node w p si Hi Hp) as (x & Hx & _). rewrite Hn in Hx.
  destruct (inv_local_ln w p si s Hi Hp Hn) as (ln & Hl).
  assert (H := usteer_roam_trigger_sm_spec p si s x ln w Hi Hp Hn Hx Hl). cbv zeta in H.
  unfold wp in H. rewrite Hrun in H. destruct H as (-> & acts' & Ha & Hst & _).
  assert (acts' = acts) as -> by (rewrite (ns_out _ _ _ _ _ Hst) in Hout; by simplify_eq).
  rewrite bool_decide_eq_true. split.
  - destruct (decide ((roam_next (config w) (current_time w) (snr_to_signal x (roam_trigger_snr (config w)))
      (has_candidate w p) si).1 = RKick)) as [E|E].
    + by rewrite (label_kick _ _ _ _ _ Ha E).
    + by rewrite (label_acts_kicks _ _ _ _ _ Ha E).
  - intros E%roam_next_kick. unfold state_ok in Hok. rewrite E in Hok.
    destruct Hok as (t0 & ? & ?). exists t0. split; [done|lia].
Qed.

(** A check of the roaming of a node runs into no undefined behaviour as
    long as [kick_client_active_sec] is not 0 and kicks at most one station: one
    that is associated, weaker than the limit, not active, not kicked within
    [roam_trigger_interval], and whose state machine was about to kick. *)
Theorem roam_check_correct s x ln w :
  inv w -> node_heap w !! NLocal s = Some x -> ln_heap w !! s = Some ln ->
  kick_client_active_sec (config w) ≠ 0 ->
  wp (usteer_local_node_roam_check s) (fun _ w' =>
    match roam_min_snr (config w) with
    | None => w' = w
    | Some snr => exists acts,
        node_step (NLocal s) (node_sta_info x) acts (time_updated w) w' /\
        kicks_one (time_updated w)
          (fun si => roam_idle (config w) (current_time (time_updated w)) (snr_to_signal x snr) si = false /\
                     si_roam_state si = ROAM_TRIGGER_KICK) (node_sta_info x) acts
    end) w.
Proof. by apply usteer_local_node_roam_check_spec. Qed.

(** The kick for a low SNR takes at most one station of the node, one that
    is associated, not active and below [min_snr], and none when that is 0. *)
Theorem snr_kick_correct s x ln w :
  inv w -> node_heap w !! NLocal s = Some x -> ln_heap w !! s = Some ln ->
  kick_client_active_sec (config w) ≠ 0 ->
  wp (usteer_local_node_snr_kick s) (fun _ w' => exists acts,
    node_step (NLocal s) (node_sta_info x) acts w w' /\
    kicks_one w (fun si => min_snr (config w) ≠ 0 /\
        snr_kickable (config w) (snr_to_signal x (min_snr (config w))) si) (node_sta_info x) acts) w.
Proof. by apply usteer_local_node_snr_kick_spec. Qed.

(** C22. The kick that relieves an overloaded node counts the updates at which
    the load is at [load_kick_threshold] or above (the README only counts a load
    that exceeds it); when there are enough of them and enough stations, it kicks,
    of the associated stations that are not active, the one that is the most
    kickable among those with a better candidate, or among all when none has one. *)
Theorem load_kick_correct s x ln w :
  inv w -> node_heap w !! NLocal s = Some x -> ln_heap w !! s = Some ln ->
  kick_client_active_sec (config w) ≠ 0 -> local_sta_update (config w) ≠ 0 ->
  wp (load_kick s) (fun _ w' =>
    if load_kick_off (config w) then w' = w
    else
      let '(try, c) := thr_next (config w) (load x) (load_thr_count ln) in
      let w0 := thr_counted w s ln c in
      if try && (load_kick_min_clients (config w) <=? u32 (n_assoc x))
      then exists acts, load_kicked w0 s (node_sta_info x) acts w'
      else w' = w0) w.
Proof. by apply load_kick_spec. Qed.

(** C30. No station is kicked for the load unless [load_kick_delay] has passed
    with the node overloaded: the run finds it so, and so did the
    ceil([load_kick_delay] / [local_sta_update]) runs before, in every history. *)
Theorem load_kick_patient cfg s h w w' x :
  kick_client_active_sec cfg ≠ 0 -> 0 < local_sta_update cfg -> load_kick_off cfg = false ->
  load_history cfg s h w -> node_heap w !! NLocal s = Some x ->
  load_kick s w = Ok (tt, w') -> out w' ≠ out w ->
  load_kick_threshold cfg <= u32 (load x) /\
  exists h', h = h' ++ replicate (Z.to_nat (load_patience cfg)) true.
Proof.
  intros Hsec Hup Hoff Hh Hx Hrun Hout.
  assert (Hup' : local_sta_update cfg ≠ 0) by lia.
  destruct (load_history_inv _ _ _ _ Hsec Hup' Hoff Hh) as [Hi Hc (ln & k & h' & Hl & Hk & ->)].
  assert (H := load_run_ln cfg s x ln w Hi Hc Hx Hl Hsec Hup' Hoff). unfold wp in H. rewrite Hrun in H.
  destruct H as (_ & _ & _ & Htry).
  assert (Hpat : 0 <= load_patience cfg).
  { unfold load_patience, DIV_ROUND_UP. apply Z.div_pos; [apply u32_range|done]. }
  destruct (thr_next_try _ _ _ _ Hk Hpat (Htry Hout)) as [Hld Hle]. split; [done|].
  exists (h' ++ replicate (k - Z.to_nat (load_patience cfg)) true).
  rewrite <- app_assoc, <- replicate_add. do 2 f_equal. lia.
Qed.

(** A whole pass of [usteer_local_node_kick] keeps the invariant of the
    station table, the configuration and every node, only changes the roaming
    state, the association and the counters of [sta_info]s, and kicks three
    stations at most. *)
Theorem node_kick_correct s x ln w :
  inv w -> node_heap w !! NLocal s = Some x -> ln_heap w !! s = Some ln ->
  kick_client_active_sec (config w) ≠ 0 -> local_sta_update (config w) ≠ 0 ->
  wp (usteer_local_node_kick s) (fun _ w' => exists acts,
    kick_run s acts w w' /\ (n_kicks acts <= 3)%nat) w.
Proof. by apply usteer_local_node_kick_spec. Qed.

(** [has_better_load] prefers the node whose load is above the threshold and
    that has [load_kick_min_clients] stations to one that is not: with enough
    stations at both, the new node is preferred for being overloaded when the
    current one is not, and never the other way round. *)
Theorem better_load_inverted cfg cur new :
  load_kick_min_clients cfg <= u32 (n_assoc cur) -> load_kick_min_clients cfg <= u32 (n_assoc new) ->
  has_better_load cfg cur new = true <->
  u32 (load cur) <= load_kick_threshold cfg < u32 (load new).
Proof.
  intros Hc Hn. unfold has_better_load, below_load_threshold.
  rewrite (proj2 (Z.leb_le _ _) Hc), (proj2 (Z.leb_le _ _) Hn). simpl.
  rewrite andb_true_iff, negb_true_iff, Z.ltb_ge, Z.ltb_lt. lia.
Qed.
End roam_theorems.

(** ** Witnesses *)

(** The state machine of [si_b0], run at the given times: it asks for scans,
    gives up, notifies the station and is about to kick it. *)
Definition sm_at (p : ptr) (t : Z) : M demo_world bool :=
  modify (fun w => w <| current_time := t |>) ;; usteer_roam_trigger_sm p.
Definition sm_times : list Z :=
  [1010000; 1020000; 1030000; 1040000; 1050000; 1060000; 1070000].
Definition w_roam (n : nat) : demo_world := foldl (fun w t => run (sm_at si_b0 t) w) w_assoc (take n sm_times).
Example w_roam_states : map (fun n => si_roam_state (the_si (w_roam n) si_b0)) (seq 0 8) =
  [ROAM_TRIGGER_IDLE; ROAM_TRIGGER_SCAN; ROAM_TRIGGER_SCAN; ROAM_TRIGGER_SCAN; ROAM_TRIGGER_SCAN;
   ROAM_TRIGGER_WAIT_KICK; ROAM_TRIGGER_NOTIFY_KICK; ROAM_TRIGGER_KICK].
Proof. by vm_compute. Qed.

Lemma inv_set_time t (w : demo_world) : inv w -> inv (w <| current_time := t |>).
Proof. intros [? ? ? []]. by split; [..|split]. Qed.

Lemma history_sm_at s p h t (w : demo_world) :
  roam_history s p h w -> current_time w <= t < 2 ^ 64 ->
  (exists h', roam_history s p h' (run (sm_at p t) w)) /\ current_time (run (sm_at p t) w) = t.
Proof.
  intros Hh Ht. destruct (roam_history_ok _ _ _ _ Hh) as [Hi (si & Hp & Hn & _) _].
  set (w1 := w <| current_time := t |>).
  assert (Hh1 : roam_history s p h w1).
  { by apply (rh_env s p h w w1 si si); [|apply inv_set_time|..]. }
  destruct (roam_history_ok _ _ _ _ Hh1) as [Hi1 _ _].
  destruct (inv_si_node w1 p si Hi1 Hp) as (x & Hx & _). rewrite Hn in Hx.
  destruct (inv_local_ln w1 p si s Hi1 Hp Hn) as (ln & Hl).
  destruct (proj1 (wp_ok _ _ _) (usteer_roam_trigger_sm_spec p si s x ln w1 Hi1 Hp Hn Hx Hl))
    as (b & w' & Hrun & _ & acts & _ & Hst & _).
  assert (E : run (sm_at p t) w = w').
  { unfold run, sm_at, modify, mbind, M_bind. fold w1. by rewrite Hrun. }
  rewrite E. split; [|by rewrite (fr_time _ _ (ns_frame _ _ _ _ _ Hst))].
  eexists. eapply rh_sm; [exact Hh1|exact Hrun|apply Hst].
Qed.

Lemma history_sm_times s p l h t0 (w : demo_world) :
  roam_history s p h w -> current_time w = t0 -> forallb (fun t => t <? 2 ^ 64) l = true ->
  StronglySorted Z.le (t0 :: l) ->
  exists h', roam_history s p h' (foldl (fun w t => run (sm_at p t) w) w l).
Proof.
  revert h t0 w. induction l as [|t l IH]; intros h t0 w Hh Ht Hl Hs; simpl; [by exists h|].
  simpl in Hl. apply andb_prop in Hl as [Ht1%Z.ltb_lt Hl]. inversion Hs as [|? ? Hs' Hall]; subst.
  apply list.Forall_cons in Hall as [Hle _].
  destruct (history_sm_at s p h t w Hh ltac:(lia)) as [[h' Hh'] Hc]. by eapply IH.
Qed.

(** From a stage of the scenario given by evaluation. *)
Lemma w_roam_history : exists h, roam_history ap0 si_b0 h (w_roam 7).
Proof.
  eapply (history_sm_times ap0 si_b0 sm_times [] 1000000 w_assoc).
  - apply (rh_init _ _ w_assoc (the_si w_assoc si_b0)); [exact (proj1 w_assoc_inv)|at_si|by vm_compute..].
  - by vm_compute.
  - by vm_compute.
  - unfold sm_times. repeat (apply SSorted_cons; [|repeat constructor; lia]). apply SSorted_nil.
Qed.
#[global] Opaque w_roam.

Lemma kick_after_notice_witness : exists h b w',
  usteer_roam_trigger_sm si_b0 (w_roam 7) = Ok (b, w') /\ b = true /\
  exists t0, notified_at t0 h /\ t0 + kick_delay (w_roam 7) <= current_time (w_roam 7).
Proof.
  destruct w_roam_history as [h Hh]. exists h.
  destruct (roam_history_ok _ _ _ _ Hh) as [Hi _ _].
  assert (Hp : si_heap (w_roam 7) !! si_b0 = Some (the_si (w_roam 7) si_b0)) by at_si.
  destruct (inv_si_node _ _ _ Hi Hp) as (x & Hx & _).
  destruct (proj1 (wp_ok _ _ _) (usteer_roam_trigger_sm_spec si_b0 _ ap0 (the_node (w_roam 7) ap0) (the_ln (w_roam 7) ap0)
    (w_roam 7) Hi Hp ltac:(eval_fact) ltac:(at_node) ltac:(at_ln))) as (b & w' & Hrun & _ & acts & _ & Hst & _).
  exists b, w'. assert (Hb : b = true).
  { assert (E : (fun r => match r with Ok (b, _) => b | Fault _ => false end) (usteer_roam_trigger_sm si_b0 (w_roam 7)) = true)
      by by vm_compute. rewrite Hrun in E. exact E. }
  split; [exact Hrun|]. split; [exact Hb|].
  exact (proj2 (kick_after_notice ap0 si_b0 h (w_roam 7) w' b acts Hh Hrun (ns_out _ _ _ _ _ Hst)) Hb).
Defined.

Lemma roam_sm_refines_witness : exists b w',
  usteer_roam_trigger_sm si_a0 w_assoc = Ok (b, w') /\ b = false.
Proof.
  destruct (proj1 (wp_ok _ _ _) (roam_sm_refines si_a0 (the_si w_assoc si_a0) ap0 (the_node w_assoc ap0)
    (the_ln w_assoc ap0) w_assoc (proj1 w_assoc_inv) ltac:(at_si) ltac:(eval_fact) ltac:(at_node) ltac:(at_ln)))
    as (b & w' & Hrun & Hb & _).
  exists b, w'. split; [exact Hrun|]. rewrite Hb. by vm_compute.
Defined.

Lemma roam_check_correct_witness : exists w', usteer_local_node_roam_check ap0 w_assoc = Ok (tt, w').
Proof.
  destruct (proj1 (wp_ok _ _ _) (roam_check_correct ap0 (the_node w_assoc ap0) (the_ln w_assoc ap0) w_assoc
    (proj1 w_assoc_inv) ltac:(at_node) ltac:(at_ln) ltac:(eval_fact))) as ([] & w' & Hrun & _).
  exists w'. exact Hrun.
Defined.

Lemma snr_kick_correct_witness : exists w', usteer_local_node_snr_kick ap0 w_assoc = Ok (tt, w').
Proof.
  destruct (proj1 (wp_ok _ _ _) (snr_kick_correct ap0 (the_node w_assoc ap0) (the_ln w_assoc ap0) w_assoc
    (proj1 w_assoc_inv) ltac:(at_node) ltac:(at_ln) ltac:(eval_fact))) as ([] & w' & Hrun & _).
  exists w'. exact Hrun.
Defined.

Lemma load_kick_correct_witness : exists w', load_kick ap0 w_assoc = Ok (tt, w').
Proof.
  destruct (proj1 (wp_ok _ _ _) (load_kick_correct ap0 (the_node w_assoc ap0) (the_ln w_assoc ap0) w_assoc
    (proj1 w_assoc_inv) ltac:(at_node) ltac:(at_ln) ltac:(eval_fact) ltac:(eval_fact))) as ([] & w' & Hrun & _).
  exists w'. exact Hrun.
Defined.

Lemma node_kick_correct_witness : exists w', usteer_local_node_kick ap0 w_assoc = Ok (tt, w') /\ inv w'.
Proof.
  destruct (proj1 (wp_ok _ _ _) (node_kick_correct ap0 (the_node w_assoc ap0) (the_ln w_assoc ap0) w_assoc
    (proj1 w_assoc_inv) ltac:(at_node) ltac:(at_ln) ltac:(eval_fact) ltac:(eval_fact)))
    as ([] & w' & Hrun & acts & Hr & _).
  exists w'. split; [exact Hrun|apply Hr].
Defined.

Lemma better_load_inverted_witness :
  has_better_load demo_config (node_zero <| n_assoc := 20 |> <| load := 10 |>)
    (node_zero <| n_assoc := 20 |> <| load := 90 |>) = true.
Proof. apply better_load_inverted; [by vm_compute|by vm_compute|by vm_compute]. Defined.

(** Three runs of [load_kick] on an overloaded access point: the third kicks. *)
Definition w_busy : demo_world :=
  run (upd_node (NLocal ap0) (fun x => x <| load := 90 |>)) (w_assoc <| config := demo_config <| load_kick_delay := 2000 |> |>).
Definition w_load (n : nat) : demo_world := Nat.iter n (run (load_kick ap0)) w_busy.
Lemma w_busy_inv : inv w_busy.
Proof.
  unfold w_busy, run, upd_node, get_node, deref, mbind, M_bind, modify.
  set (w0 := w_assoc <| config := _ |>). assert (Hi : inv w0) by apply inv_set_config, w_assoc_inv.
  destruct (node_heap w0 !! NLocal ap0) eqn:E; [|exact Hi]. by eapply inv_set_node.
Qed.

Lemma load_kick_run cfg s h (w : demo_world) :
  kick_client_active_sec cfg ≠ 0 -> local_sta_update cfg ≠ 0 -> load_kick_off cfg = false ->
  load_history cfg s h w ->
  load_kick s w = Ok (tt, run (load_kick s) w) /\ exists h', load_history cfg s h' (run (load_kick s) w).
Proof.
  intros Hsec Hup Hoff Hh. destruct (load_history_inv _ _ _ _ Hsec Hup Hoff Hh) as [Hi Hc (ln & _ & _ & Hl & _)].
  destruct (proj1 (no_ln _ (inv_nodes _ Hi) s)) as [x Hx]; [by eauto|].
  destruct (proj1 (wp_ok _ _ _) (load_run_ln cfg s x ln w Hi Hc Hx Hl Hsec Hup Hoff)) as ([] & w' & Hrun & _).
  unfold run. rewrite Hrun. split; [done|]. eexists. by eapply lh_run.
Qed.

Lemma w_load_history n : exists h, load_history (config w_busy) ap0 h (w_load n).
Proof.
  induction n as [|n [h Hh]].
  - exists []. apply (lh_init _ _ w_busy (the_ln w_busy ap0)); [exact w_busy_inv|reflexivity|at_ln|by vm_compute].
  - apply (load_kick_run (config w_busy) ap0 h (w_load n)); [by vm_compute..|exact Hh].
Qed.
#[global] Opaque w_busy w_load.

Lemma load_kick_patient_witness : exists h h' w',
  load_history (config w_busy) ap0 h (w_load 2) /\ load_kick ap0 (w_load 2) = Ok (tt, w') /\
  load_patience (config w_busy) = 2 /\ h = h' ++ [true; true].
Proof.
  destruct (w_load_history 2) as [h Hh]. exists h.
  destruct (load_kick_run (config w_busy) ap0 h (w_load 2) ltac:(eval_fact) ltac:(eval_fact) ltac:(eval_fact) Hh) as [Hrun _].
  assert (Hout : out (run (load_kick ap0) (w_load 2)) ≠ out (w_load 2)).
  { intros E. apply (f_equal length) in E. revert E. by vm_compute. }
  destruct (load_kick_patient (config w_busy) ap0 h (w_load 2) _ (the_node (w_load 2) ap0)
    ltac:(eval_fact) ltac:(eval_fact) ltac:(eval_fact) Hh ltac:(at_node) Hrun Hout) as [_ [h' Hh']].
  assert (Hp : load_patience (config w_busy) = 2) by by vm_compute.
  rewrite Hp in Hh'. exists h', (run (load_kick ap0) (w_load 2)).
  split; [exact Hh|]. split; [exact Hrun|]. split; [exact Hp|exact Hh'].
Defined.
