(* ===== verification/NodeTheorems.v ===== *)
(** * Theorems about the nodes

    The properties of local_node.c, hearing_map.c and of the requests to hostapd,
    each with its application to the daemon of Scenario.v. *)
From S2P Require Import Prelude CFloat Blob Timeout Types Table World Ssid Beacon Sta UbusClient.
From S2P Require Import Policy RemoteMsg StaEvent Roam BeaconRequest LocalNode Scenario.
From S2P Require Import StationTheorems.

Section node_theorems.
Context {ET : Ether} {BM : Blobmsg} {BML : BlobmsgLaws}.
Context {T : Type} `{!AvlTree Z ptr T} `{!AvlLaws Z ptr T} {NH : NodeHandlers T} {NHL : NodeHandlersLaws}.
Implicit Types (w : world T) (p q : ptr) (si : sta_info) (s : string) (ln : usteer_local_node) (a : mac).

(** C31. A probe, association or authentication event of hostapd is refused as an
    invalid argument when it lacks the address or the frequency or its address
    does not parse, and changes nothing but the time; otherwise it is handled at
    the station, and answered with 0 or with the status 17 that turns the station
    away. A beacon report goes to its own handler instead, without these checks, and
    is answered with 0 once that returns. This takes a [local_sta_timeout] that is positive as an
    [int] and a signal in range. *)
Theorem handle_event_correct s method msg x w :
  inv w -> node_heap w !! NLocal s = Some x -> 0 < s32 (local_sta_timeout (config w)) -> event_signal_ok msg ->
  event_of_method method ≠ __EVENT_TYPE_MAX ->
  if decide (event_of_method method = EVENT_TYPE_BEACON) then
    usteer_handle_event s method msg w = (usteer_handle_event_beacon_report s msg ;; mret 0) (time_updated w)
  else
  wp (usteer_handle_event s method msg) (fun status w' => inv w' /\
    match parse_event msg with
    | None => status = UBUS_STATUS_INVALID_ARGUMENT /\ w' = time_updated w
    | Some (a, fr, sig) => exists r p create si st w1 w2,
        event_handled s x a (event_of_method method) sig (time_updated w) r w' p create si st w1 w2 /\
        status = if r then 0 else WLAN_STATUS_AP_UNABLE_TO_HANDLE_NEW_STA
    end) w.
Proof.
  intros Hi Hx Ht Hsg Hm. case_decide as Hb.
  { unfold usteer_handle_event. by rewrite Hb. }
  eapply wp_mono; [by eapply usteer_handle_event_spec|]. intros status w' H.
  split; [|done]. destruct (parse_event msg) as [[[a fr] sig]|].
  - destruct H as (r & p & create & si & st & w1 & w2 & Hev & _).
    by destruct (event_handled_inv _ _ _ _ _ _ _ _ _ _ _ _ _ _ Hev).
  - destruct H as [_ ->]. by apply inv_time.
Qed.

(** The counters have no entry for [__EVENT_TYPE_MAX]. *)
Lemma max_event_fault s a fr sig x w :
  inv w -> node_heap w !! NLocal s = Some x -> 0 < s32 (local_sta_timeout (config w)) -> signal_ok sig ->
  usteer_handle_sta_event (NLocal s) a __EVENT_TYPE_MAX fr sig w = Fault OutOfBounds.
Proof.
  intros Hi Hx Ht Hsok. unfold usteer_handle_sta_event.
  apply fault_bind. eapply wp_mono; [by apply usteer_sta_get_there|]. intros r wa [-> Ha].
  apply fault_bind. eapply sta_there_upd; [done|by intros; case_match|]. intros wb Hb.
  apply fault_bind. eapply wp_mono; [by eapply ensured_intro|]. intros r wc (p & create & si & -> & Hen).
  apply fault_bind. eapply wp_deref; [done|]. simpl.
  apply fault_bind. eapply wp_mono; [by eapply event_update|]. intros [] wd Hd.
  apply fault_bind, wp_gets. apply fault_bind. eapply wp_upd_si; [apply Hd|].
  unfold upd_stats, get_stats, get_si, deref, mbind, M_bind. simpl.
  rewrite lookup_insert_eq. simpl.
  assert (Hl := proj1 (inv_si _ (ev_inv _ _ _ _ _ Hd) p _ (ev_si _ _ _ _ _ Hd))). simpl in Hl.
  rewrite (proj2 (lookup_ge_None _ _)); [done|]. by rewrite Hl.
Qed.

(** An event of any other method that carries a valid address and frequency
    makes the daemon index the four counters of the station out of bounds. *)
Theorem unknown_event_out_of_bounds s method msg x w :
  inv w -> node_heap w !! NLocal s = Some x -> 0 < s32 (local_sta_timeout (config w)) -> event_signal_ok msg ->
  event_of_method method = __EVENT_TYPE_MAX -> is_Some (parse_event msg) ->
  usteer_handle_event s method msg w = Fault OutOfBounds.
Proof.
  intros Hi Hx Ht Hsg Hm [[[a fr] sig] Hp]. assert (Hsok := Hsg _ _ _ Hp). unfold usteer_handle_event. rewrite Hm.
  rewrite bool_decide_false by done. apply fault_bind, wp_modify. fold (time_updated w).
  unfold parse_event in Hp. set (tb := blobmsg_parse event_policy msg) in *.
  destruct (attr tb EVENT_ADDR) as [[| | | |str| |]|] eqn:Ea; try done.
  destruct (attr tb EVENT_FREQ) as [[| |f| | | |]|] eqn:Ef; try done.
  destruct (ether_aton str) as [a'|] eqn:Es; [|done].
  apply fault_bind. eapply wp_mono with (P := fun sig' w1 => sig' = sig /\ w1 = time_updated w).
  { cbn [mbind option_bind] in Hp. destruct (attr tb EVENT_SIGNAL) as [vs|] eqn:Esg.
    - assert (Hvs : type_of_bval vs = BLOBMSG_TYPE_INT32) by (eapply attr_type; [|exact Esg]; done).
      destruct vs; try done. cbn in Hp. simplify_eq. by apply wp_ret.
    - cbn in Hp. simplify_eq. by apply wp_ret. }
  intros sig' w1 [-> ->]. apply fault_bind. eapply wp_deref; [done|].
  apply fault_bind. eapply wp_deref; [done|]. rewrite Es. simpl.
  unfold mbind, M_bind.
  rewrite (max_event_fault s a' (s32 f) sig x (time_updated w)); [done|by apply inv_time|done..].
Qed.

(** C9. The answer to [get_clients], which lists no client twice, decides who is
    associated, when [local_sta_timeout] is positive as an [int]: afterwards exactly
    the stations hostapd lists as associated are so at the node, each has its
    [sta_info] and the node counts them; no [sta_info] of any node goes away, and
    at the other nodes none is added or changes its association (of their other
    data, which a back end may update, nothing is claimed). An answer without
    frequency or client list is ignored. *)
Theorem client_list_correct s msg x w :
  inv w -> node_heap w !! NLocal s = Some x -> 0 < s32 (local_sta_timeout (config w)) ->
  let tb := blobmsg_parse [("freq", BLOBMSG_TYPE_INT32); ("clients", BLOBMSG_TYPE_TABLE)]%string msg in
  (forall l, attr tb 1 = Some (VTable l) -> NoDup (client_addrs l)) ->
  wp (usteer_local_node_list_cb s msg) (fun _ w' =>
    match attr tb 0, attr tb 1 with
    | Some (VU32 fr), Some (VTable cl) =>
        assoc_set s cl (w <| node_heap ::= <[NLocal s := x <| freq := s32 fr |>]> |>) w'
    | _, _ => w' = w
    end) w.
Proof. by apply usteer_local_node_list_cb_spec. Qed.

(** C32. From [REQ_IDLE], the request timer asks for the clients, then hands
    hostapd the neighbor reports of all other nodes of the network, then asks for
    the node's own report, one request per expiry, and is back at [REQ_IDLE]. *)
Theorem request_cycle s ln w :
  inv w -> ln_heap w !! s = Some ln -> req_state ln = REQ_IDLE ->
  wp (usteer_local_node_state_next s ;; usteer_local_node_state_next s ;;
      usteer_local_node_state_next s ;; usteer_local_node_state_next s) (fun _ w' =>
    inv w' /\ ln_heap w' !! s = Some (ln <| req_timer := None |>) /\
    out w' = out w ++ [UbusInvoke (obj_id ln) "get_clients" [];
                       UbusInvoke (obj_id ln) "rrm_nr_set" [("list"%string, VArray (rrm_list w s))];
                       UbusInvoke (obj_id ln) "rrm_nr_get_own" []]) w.
Proof.
  intros Hi Hl Hst.
  assert (Hstep : forall st ln1 w1 (Q : unit -> world T -> Prop), inv w1 -> ln_heap w1 !! s = Some ln1 ->
    req_state ln1 = st -> REQ_IDLE <= st < __REQ_MAX ->
    (forall w2, inv w2 -> ln_heap w2 !! s = Some (ln1 <| req_timer := None |> <| req_state := (st + 1) mod __REQ_MAX |>) ->
       rrm_list w2 s = rrm_list w1 s -> out w2 = out w1 ++ req_call w1 s ln1 ((st + 1) mod __REQ_MAX) -> Q tt w2) ->
    wp (usteer_local_node_state_next s) Q w1).
  { intros st ln1 w1 Q Hi1 Hl1 <- Hr HQ. eapply wp_mono; [by eapply usteer_local_node_state_next_spec|].
    intros [] w2 ->. apply HQ; [|apply lookup_insert_eq|done|done].
    apply inv_emit. by eapply inv_set_ln. }
  set (at_state := fun st => ln <| req_timer := None |> <| req_state := st |>) in *.
  assert (Hset : forall st st', at_state st <| req_timer := None |> <| req_state := st' |> = at_state st')
    by by destruct ln.
  unfold __REQ_MAX, REQ_IDLE in *.
  apply wp_bind. refine (Hstep 0 ln w _ Hi Hl Hst _ _); [lia|]. intros w1 Hi1 Hl1 Hr1 Ho1. change (ln_heap w1 !! s = Some (at_state 1)) in Hl1.
  apply wp_bind. refine (Hstep 1 _ w1 _ Hi1 Hl1 eq_refl _ _); [lia|]. intros w2 Hi2 Hl2 Hr2 Ho2. rewrite Hset in Hl2.
  apply wp_bind. refine (Hstep 2 _ w2 _ Hi2 Hl2 eq_refl _ _); [lia|]. intros w3 Hi3 Hl3 Hr3 Ho3. rewrite Hset in Hl3.
  refine (Hstep 3 _ w3 _ Hi3 Hl3 eq_refl _ _); [lia|]. intros w4 Hi4 Hl4 Hr4 Ho4. rewrite Hset in Hl4.
  split; [done|]. split.
  - rewrite Hl4. unfold at_state. f_equal. change ((3 + 1) mod 4) with 0. rewrite <- Hst. by destruct ln.
  - rewrite Ho4, Ho3, Ho2, Ho1, <- !app_assoc. unfold req_call. simpl. by rewrite Hr1.
Qed.

(** A pass of the periodic update of a node keeps the invariant and every
    station with its node, kicks three stations at most, and ends with the
    request cycle at its beginning, the request timer due in a millisecond and the
    next update due in [local_sta_update], whatever law-abiding handlers do. *)
Theorem node_update_correct s ln w :
  inv w -> ln_heap w !! s = Some ln ->
  kick_client_active_sec (config w) ≠ 0 -> local_sta_update (config w) ≠ 0 ->
  wp (usteer_local_node_update s) (fun _ w' => node_updated s w w') w.
Proof. by apply usteer_local_node_update_spec. Qed.


(** Announcing an object registers a node when its name begins with
    [hostapd.], once for each name, in the order of [strcmp]; any other object is
    ignored. *)
Theorem node_registration_correct (if_nametoindex : string -> Z) name id w :
  inv w -> wp (usteer_register_node if_nametoindex name id) (fun _ w' =>
    if String.prefix "hostapd." name then node_registered name id w w' else w' = w) w.
Proof. by apply usteer_register_node_spec. Qed.

(** C33. A station is asked for a beacon report when its turn is not over, or when
    the wait given by its signal is; it is asked for one band, the next time for
    the next one, and at the start of a round the stale reports are dropped. *)
Theorem beacon_request_correct p si s x ln w :
  inv w -> si_heap w !! p = Some si -> si_node si = NLocal s ->
  node_heap w !! NLocal s = Some x -> ln_heap w !! s = Some ln ->
  wp (usteer_beacon_request_check p) (fun _ w' =>
    if request_due (config w) (current_time w) x si
    then exists next, next_band (br_band (si_beacon_request si)) (local_freqs w) = Some next /\
      w' = w <| si_heap ::= <[p := request_sent (config w) (current_time w) x next si]> |>
             <| out ::= fun l => l ++ [request_call x ln si] |>
    else w' = w) w.
Proof. by apply usteer_beacon_request_check_spec. Qed.

(** When no two access points share a frequency, the bands take turns in the
    order of the nodes and after the last one comes the first again. *)
Theorem band_round_robin band i w :
  inv w -> NoDup (local_freqs w) -> local_freqs w !! i = Some band ->
  wp (usteer_beacon_request_next_band band) (fun r w' => w' = w /\
    local_freqs w !! ((i + 1) mod length (local_freqs w))%nat = Some r) w.
Proof.
  intros Hi Hnd Hl. eapply wp_mono; [apply usteer_beacon_request_next_band_spec; [apply Hi|]|].
  - intros E. unfold local_freqs in Hl. by rewrite E in Hl.
  - intros r w' [-> Hr]. split; [done|]. by rewrite <- (next_band_cycle band).
Qed.

Lemma stored_reports cfg now p m si br :
  br ∈ si_beacon_reports (report_stored cfg now p m si) <->
  br = mkBeaconReport p (rm_bssid m) (rm_rcpi m) (rm_rsni m) (rm_op_class m) (rm_channel m) now \/
  (br ∈ si_beacon_reports si /\ br_bssid br ≠ rm_bssid m /\
   u64 (now - br_usteer_time br) <= u32 (beacon_report_invalide_timeout cfg * 1000)).
Proof.
  unfold report_stored. simpl. rewrite elem_of_cons, list_elem_of_filter.
  unfold usteer_beacon_report_delete. case_bool_decide; [naive_solver|].
  rewrite Z.ltb_ge. naive_solver.
Qed.

Lemma stored_unique cfg now p m si :
  NoDup (br_bssid <$> si_beacon_reports si) ->
  NoDup (br_bssid <$> si_beacon_reports (report_stored cfg now p m si)).
Proof.
  intros Hnd. unfold report_stored. simpl. apply list.NoDup_cons. split.
  - intros (br & Hb & [Hd _]%list_elem_of_filter)%list_elem_of_fmap.
    unfold usteer_beacon_report_delete in Hd. by rewrite bool_decide_true in Hd.
  - revert Hnd. induction (si_beacon_reports si) as [|br l IH]; [done|]. rewrite fmap_cons, list.NoDup_cons.
    intros [Hn Hnd]. rewrite filter_cons. case_decide; [|by apply IH].
    rewrite fmap_cons, list.NoDup_cons. split; [|by apply IH].
    intros (b' & Hb & [_ Hin]%list_elem_of_filter)%list_elem_of_fmap. apply Hn.
    apply list_elem_of_fmap. by exists b'.
Qed.

(** C34. A complete beacon report of a known station about a known access point is
    kept with the station's [sta_info]: in place of an older one of that BSSID,
    so that there is one for each, and every stale one is dropped. All other
    reports change nothing. *)
Theorem beacon_report_correct s msg m x w :
  inv w -> node_heap w !! NLocal s = Some x -> parse_report msg = Some m ->
  wp (usteer_handle_event_beacon_report s msg) (fun _ w' =>
    match table_find (rm_addr m) (NLocal s) (abs w), node_of_bssid w (rm_bssid m) with
    | Some p, Some _ => exists si si', si_heap w !! p = Some si /\
        w' = w <| si_heap ::= <[p := si']> |> /\
        (NoDup (br_bssid <$> si_beacon_reports si) -> NoDup (br_bssid <$> si_beacon_reports si')) /\
        forall br, br ∈ si_beacon_reports si' <->
          br = mkBeaconReport p (rm_bssid m) (rm_rcpi m) (rm_rsni m) (rm_op_class m) (rm_channel m) (current_time w) \/
          (br ∈ si_beacon_reports si /\ br_bssid br ≠ rm_bssid m /\
           u64 (current_time w - br_usteer_time br) <= u32 (beacon_report_invalide_timeout (config w) * 1000))
    | _, _ => w' = w
    end) w.
Proof.
  intros Hi Hx Hm. eapply wp_mono; [by eapply usteer_handle_event_beacon_report_spec|].
  intros [] w'. destruct (table_find _ _ _) as [p|]; [|done]. destruct (node_of_bssid _ _); [|done].
  intros (si & Hp & ->). exists si. eexists. split; [done|]. split; [done|].
  split; [apply stored_unique|]. apply stored_reports.
Qed.

(** The answer to [rrm_nr_get_own] gives the node its neighbor report and its
    BSSID, and the node is freed when its SSID is not one of those configured; a
    malformed address is undefined behaviour. *)
Theorem own_report_correct s msg x w :
  inv w -> node_heap w !! NLocal s = Some x ->
  match attr (blobmsg_parse [("value", BLOBMSG_TYPE_ARRAY)]%string msg) 0 with
  | Some v =>
      let l := array_data v in
      let w1 b := w <| node_heap ::= <[NLocal s := report_learned l b x]> |> in
      match ether_aton <$> report_string l 0 with
      | Some None => usteer_local_node_rrm_nr_cb s msg w = Fault NullDeref
      | r => wp (usteer_local_node_rrm_nr_cb s msg) (fun _ w' =>
          match report_string l 1 with
          | Some t => (serves (config_ssid_list w) t /\ w' = w1 (mjoin r)) \/
                      (~ serves (config_ssid_list w) t /\ node_freed s (w1 (mjoin r)) w')
          | None => w' = w1 (mjoin r)
          end) w
      end
  | None => usteer_local_node_rrm_nr_cb s msg w = Ok (tt, w)
  end.
Proof. apply usteer_local_node_rrm_nr_cb_spec. Qed.

(** The disassociation notice names at most three neighbors chosen from the
    station's beacon reports, or all nodes when none of these is known, and
    whatever it offers is the neighbor report of a node with the SSID of the
    station's own. *)
Theorem disassoc_notice_correct p si s x ln w :
  inv w -> si_heap w !! p = Some si -> si_node si = NLocal s -> ln_heap w !! s = Some ln ->
  node_heap w !! NLocal s = Some x ->
  wp (usteer_ubus_notify_client_disassoc p) (fun _ w' => exists nbs,
    w' = w <| out ::= fun l => l ++ [notify_call w si ln nbs] |> /\
    nbs = neighbors w x si /\
    (forall v, v ∈ nbs -> exists n y nr, node_heap w !! n = Some y /\ ssid y = ssid x /\ rrm_nr y = Some nr /\
       attr (blobmsg_parse_array (replicate 3 BLOBMSG_TYPE_STRING) nr) 2 = Some v)) w.
Proof.
  intros. eapply wp_mono; [by eapply usteer_ubus_notify_client_disassoc_spec|].
  intros [] w' ->. eexists. split; [done|]. split; [done|]. apply neighbors_same_ssid.
Qed.
End node_theorems.

(** Once a list of SSIDs is configured, an access point is valid exactly when
    the list is empty or its SSID agrees with one of the list on the first 33
    bytes; a list with an element that is not a string changes nothing. *)
Theorem ssid_filter_correct {T} (data : list bval) (s : string) (w : world T) :
  wp (ok ← config_set_ssid_list data; v ← usteer_is_valid_ssid s; mret (ok, v)) (fun r w' =>
    if forallb (fun v => bool_decide (type_of_bval v = BLOBMSG_TYPE_STRING)) data
    then exists l, data = map VString l /\ r.1 = true /\
      (r.2 = true <-> l = [] \/ exists t, t ∈ l /\ String.substring 0 33 t = String.substring 0 33 s)
    else r.1 = false /\ w' = w) w.
Proof.
  apply wp_bind. eapply wp_mono; [apply config_set_ssid_list_spec|]. intros ok w1 H1.
  apply wp_bind. eapply wp_mono; [apply usteer_is_valid_ssid_spec|]. intros v w2 [-> Hv]. apply wp_ret.
  destruct (forallb _ data); [|by destruct H1 as [-> ->]].
  destruct H1 as (-> & l & -> & ->). exists l. split; [done|]. split; [done|]. simpl in *. rewrite Hv.
  apply serves_given.
Qed.

(** With the default configuration a station is asked for a round of reports
    every 10 to 50 seconds, and never later when its signal is weaker. *)
Theorem beacon_interval_bounds signal :
  -128 <= signal <= 127 ->
  10000 <= Z_of_float (dyn_freq usteer_init_defaults signal) <= 50000 /\
  flt (dyn_freq usteer_init_defaults (signal + 1)) (dyn_freq usteer_init_defaults signal) = false.
Proof.
  intros Hs.
  assert (H : forallb (fun i => let z := Z.of_nat i - 128 in
    let d := dyn_freq usteer_init_defaults z in
    (10000 <=? Z_of_float d) && (Z_of_float d <=? 50000) &&
    negb (flt (dyn_freq usteer_init_defaults (z + 1)) d)) (seq 0 256) = true) by by vm_compute.
  rewrite forallb_forall in H. specialize (H (Z.to_nat (signal + 128))).
  rewrite in_seq in H. specialize (H ltac:(lia)). cbv zeta in H.
  replace (Z.of_nat (Z.to_nat (signal + 128)) - 128) with signal in H by lia.
  rewrite !andb_true_iff, negb_true_iff in H. destruct H as [[H1 H2] H3]. split; [lia|]. exact H3.
Qed.

(** ** Witnesses *)

Notation w_inv := (proj1 w_assoc_inv).

Lemma demo_auth_signal : event_signal_ok (event_msg mac_b 5180 (-60)).
Proof. signal_fact. Qed.

Lemma handle_event_correct_witness : exists status w',
  usteer_handle_event ap1 "auth" (event_msg mac_b 5180 (-60)) w_assoc = Ok (status, w') /\ inv w'.
Proof.
  destruct (proj1 (wp_ok _ _ _) (handle_event_correct ap1 "auth" (event_msg mac_b 5180 (-60)) (the_node w_assoc ap1)
    w_assoc w_inv ltac:(at_node) ltac:(eval_fact) demo_auth_signal ltac:(done))) as (st & w' & Hrun & Hi & _).
  exists st, w'. split; [exact Hrun|exact Hi].
Defined.

Lemma unknown_event_out_of_bounds_witness :
  usteer_handle_event ap1 "bss-transition-query" (event_msg mac_b 5180 (-60)) w_assoc = Fault OutOfBounds.
Proof.
  apply (unknown_event_out_of_bounds ap1 "bss-transition-query" _ (the_node w_assoc ap1) w_assoc w_inv).
  - at_node.
  - by vm_compute.
  - exact demo_auth_signal.
  - by vm_compute.
  - is_there.
Defined.

(** [mac_b] moves to the second access point and [mac_a] disconnects. *)
Lemma client_list_correct_witness : exists w',
  usteer_local_node_list_cb ap1 (clients_msg 5180 [(mac_b, 5, 5)]) w_assoc = Ok (tt, w') /\ inv w'.
Proof.
  assert (Hnd : forall l, attr (blobmsg_parse [("freq", BLOBMSG_TYPE_INT32); ("clients", BLOBMSG_TYPE_TABLE)]%string
    (clients_msg 5180 [(mac_b, 5, 5)])) 1 = Some (VTable l) -> NoDup (client_addrs l)).
  { intros l Hl. assert (Hd : client_addrs l = [mac_b]).
    { revert Hl. vm_compute. intros H. injection H as <-. done. }
    rewrite Hd. apply NoDup_singleton. }
  destruct (proj1 (wp_ok _ _ _) (client_list_correct ap1 (clients_msg 5180 [(mac_b, 5, 5)]) (the_node w_assoc ap1)
    w_assoc w_inv ltac:(at_node) ltac:(eval_fact) Hnd)) as ([] & w' & Hrun & Ha).
  exists w'. split; [exact Hrun|exact (env_inv _ _ (as_env _ _ _ _ Ha))].
Defined.

Lemma request_cycle_witness : exists w',
  (usteer_local_node_state_next ap0 ;; usteer_local_node_state_next ap0 ;;
   usteer_local_node_state_next ap0 ;; usteer_local_node_state_next ap0) w_assoc = Ok (tt, w') /\ inv w'.
Proof.
  destruct (proj1 (wp_ok _ _ _) (request_cycle ap0 (the_ln w_assoc ap0) w_assoc w_inv ltac:(at_ln) ltac:(eval_fact)))
    as ([] & w' & Hrun & Hi & _).
  exists w'. split; [exact Hrun|exact Hi].
Defined.

Lemma node_update_correct_witness : exists w', usteer_local_node_update ap0 w_assoc = Ok (tt, w') /\ inv w'.
Proof.
  destruct (proj1 (wp_ok _ _ _) (node_update_correct ap0 (the_ln w_assoc ap0) w_assoc w_inv ltac:(at_ln)
    ltac:(eval_fact) ltac:(eval_fact))) as ([] & w' & Hrun & Hu).
  exists w'. split; [exact Hrun|apply Hu].
Defined.


Lemma node_registration_correct_witness : exists w',
  usteer_register_node (fun _ => 9) "hostapd.wlan2" 50 w_assoc = Ok (tt, w') /\ inv w'.
Proof.
  destruct (proj1 (wp_ok _ _ _) (node_registration_correct (fun _ => 9) "hostapd.wlan2" 50 w_assoc w_inv))
    as ([] & w' & Hrun & Hg).
  exists w'. split; [exact Hrun|]. cbn [String.prefix] in Hg. apply Hg.
Defined.

Lemma beacon_request_correct_witness : exists w', usteer_beacon_request_check si_a0 w_assoc = Ok (tt, w').
Proof.
  destruct (proj1 (wp_ok _ _ _) (beacon_request_correct si_a0 (the_si w_assoc si_a0) ap0 (the_node w_assoc ap0)
    (the_ln w_assoc ap0) w_assoc w_inv ltac:(at_si) ltac:(eval_fact) ltac:(at_node) ltac:(at_ln)))
    as ([] & w' & Hrun & _).
  exists w'. exact Hrun.
Defined.

Lemma band_round_robin_witness : exists r w',
  usteer_beacon_request_next_band 5180 w_assoc = Ok (r, w') /\ r = 2412.
Proof.
  assert (Hf : local_freqs w_assoc = [2412; 5180]) by by vm_compute.
  assert (Hnd : NoDup (local_freqs w_assoc)) by (rewrite Hf; apply (bool_decide_unpack _); by vm_compute).
  assert (Hl : local_freqs w_assoc !! 1%nat = Some 5180) by by rewrite Hf.
  destruct (proj1 (wp_ok _ _ _) (band_round_robin 5180 1 w_assoc w_inv Hnd Hl)) as (r & w' & Hrun & _ & Hr).
  exists r, w'. split; [exact Hrun|]. rewrite Hf in Hr. injection Hr as <-. reflexivity.
Defined.

Lemma beacon_report_correct_witness : exists w',
  usteer_handle_event_beacon_report ap0 (report_msg_of mac_a bssid_1 180) w_assoc = Ok (tt, w').
Proof.
  destruct (proj1 (wp_ok _ _ _) (beacon_report_correct ap0 (report_msg_of mac_a bssid_1 180)
    (mkReportMsg mac_a bssid_1 180 40 81 1) (the_node w_assoc ap0) w_assoc w_inv ltac:(at_node) ltac:(eval_fact)))
    as ([] & w' & Hrun & _).
  exists w'. exact Hrun.
Defined.

Lemma own_report_correct_witness : exists w',
  usteer_local_node_rrm_nr_cb ap0 [("value", VArray [VString (mac_addr_fmt bssid_0); VString "net"; VString "0a"])]%string
    w_assoc = Ok (tt, w').
Proof.
  assert (H := own_report_correct ap0 [("value", VArray [VString (mac_addr_fmt bssid_0); VString "net"; VString "0a"])]%string
    (the_node w_assoc ap0) w_assoc w_inv ltac:(at_node)).
  assert (Ha : attr (blobmsg_parse [("value", BLOBMSG_TYPE_ARRAY)]%string
    [("value", VArray [VString (mac_addr_fmt bssid_0); VString "net"; VString "0a"])]%string) 0 =
    Some (VArray [VString (mac_addr_fmt bssid_0); VString "net"; VString "0a"])) by by vm_compute.
  rewrite Ha in H. cbv zeta in H.
  assert (He : ether_aton <$> report_string (array_data (VArray [VString (mac_addr_fmt bssid_0); VString "net"; VString "0a"])) 0
    = Some (Some bssid_0)) by by vm_compute.
  rewrite He in H. destruct (proj1 (wp_ok _ _ _) H) as ([] & w' & Hrun & _). exists w'. exact Hrun.
Defined.

Lemma disassoc_notice_correct_witness : exists w', usteer_ubus_notify_client_disassoc si_a0 w_assoc = Ok (tt, w').
Proof.
  destruct (proj1 (wp_ok _ _ _) (disassoc_notice_correct si_a0 (the_si w_assoc si_a0) ap0 (the_node w_assoc ap0)
    (the_ln w_assoc ap0) w_assoc w_inv ltac:(at_si) ltac:(eval_fact) ltac:(at_ln) ltac:(at_node)))
    as ([] & w' & Hrun & _).
  exists w'. exact Hrun.
Defined.

Lemma beacon_interval_bounds_witness : 10000 <= Z_of_float (dyn_freq usteer_init_defaults (-60)) <= 50000.
Proof. apply (beacon_interval_bounds (-60)). lia. Defined.
