(* ===== verification/RemoteTheorems.v ===== *)
(** * Theorems about the exchange between instances

    The properties of remote.c and parse.c: what a message changes, that what one
    instance announces is what another one knows, and how silent nodes expire. *)
From S2P Require Import Prelude CFloat Blob Timeout Types Table World Ssid Beacon Sta UbusClient.
From S2P Require Import Policy RemoteMsg Parse StaEvent Roam LocalNode Remote Scenario.
From S2P Require Import Steady StationTheorems.

(** ** Lists *)

Lemma NoDup_fmap_omap {A B C} (f : A -> option B) (g : B -> C) (h : A -> C) (l : list A) :
  (forall x y, f x = Some y -> g y = h x) -> NoDup (h <$> l) -> NoDup (g <$> omap f l).
Proof.
  intros Hf. induction l as [|x l IH]; [done|]. rewrite fmap_cons, list.NoDup_cons. intros [Hn Hnd].
  simpl. destruct (f x) as [y|] eqn:E; [|by apply IH]. rewrite fmap_cons, list.NoDup_cons.
  split; [|by apply IH]. rewrite (Hf x y E). intros (z & Hz & Hin)%list_elem_of_fmap.
  apply list_elem_of_omap in Hin as (x' & Hin & E'). apply Hn, list_elem_of_fmap.
  exists x'. split; [|done]. by rewrite Hz, (Hf x' z).
Qed.

Section sent.
Context {ET : Ether} {ETL : EtherLaws} {BP : BlobParse} {BPL : BlobParseLaws} {BD : BlobData} {BDL : BlobDataLaws}.
Context {T : Type} `{!AvlTree Z ptr T} `{!AvlLaws Z ptr T}.
Implicit Types (w : world T) (p q : ptr) (si : sta_info) (s : string) (x : usteer_node).

(** A node whose announcement can be read back. *)
Record announceable w x : Prop := {
  an_script : wire_ok (Some BLOB_ATTR_NESTED) (default (WNested []) (script_data x)) = true;
  an_bssid : length (bssid x) = 6%nat /\ Forall (fun b => 0 <= b < 256) (bssid x);
  an_sta si : si ∈ sis_of w x -> length (si_sta si) = 6%nat;
}.

(** The milliseconds since a station was heard, as they are sent. *)
Definition sent_age w si : Z := s32 (u64 (current_time w - si_seen si)).
(** The time it has left. *)
Definition sent_left w si : Z := s32 (local_sta_timeout (config w) - sent_age w si).

Definition sent_sta w si : apmsg_sta :=
  mkApmsgSta (si_sta si) (negb (si_connected si =? 0)) (s32 (si_signal si)) (sent_left w si) (sent_age w si).
Definition sent_node w s x : apmsg_node :=
  mkApmsgNode s (WString (ssid x)) (Some (WString (ether_ntoa (bssid x)))) (s32 (freq x)) (s32 (n_assoc x))
    (s32 (max_assoc x)) (s32 (noise x)) (s32 (load x)) (announced w (sis_of w x)) (rrm_nr x) (script_data x).

Lemma sent_node_accepted ssids w s x :
  announceable w x ->
  node_accepted ssids (node_msg w s x (sis_of w x)).2 =
    if servesb ssids (ssid x) then Some (sent_node w s x) else None.
Proof.
  intros [Hsc _ _]. unfold node_accepted, node_msg. cbn [snd]. rewrite parse_send_node by done.
  cbn [mbind option_bind mn_ssid]. by rewrite blob_data_string.
Qed.

Lemma sent_bssid w s x : announceable w x -> msg_bssid (sent_node w s x) = Some (bssid x).
Proof.
  intros [_ [Hl Hb] _]. unfold msg_bssid, sent_node. cbn [mn_bssid mbind option_bind].
  rewrite blob_data_string. by apply ether_aton_ntoa.
Qed.

Lemma sent_stations w s x :
  announceable w x -> remote_disabled (config w) = false ->
  msg_stations (sent_node w s x) =
    omap (fun si => if sent_left w si <=? 0 then None else Some (sent_sta w si)) (sis_of w x).
Proof.
  intros [_ _ Hs] Hd. unfold msg_stations, sent_node, announced. cbn [mn_stations]. rewrite Hd.
  revert Hs. induction (sis_of w x) as [|si l IH]; intros Hs; [done|]. simpl map. cbn [omap list_omap].
  unfold sta_accepted at 1. rewrite parse_send_sta by (apply Hs; by left).
  cbn [mbind option_bind ms_timeout]. rewrite <- IH by (intros; apply Hs; by right). done.
Qed.

(** A node has one [sta_info] for each station. *)
Lemma sis_of_nodup w n x : inv w -> node_heap w !! n = Some x -> NoDup (si_sta <$> sis_of w x).
Proof.
  intros Hi Hx. unfold sis_of.
  assert (Hnd : NoDup (node_sta_info x)).
  { apply (tw_node_nodup _ (inv_table _ Hi) n). by rewrite abs_node, Hx. }
  assert (Hl : forall p, p ∈ node_sta_info x -> exists si, si_heap w !! p = Some si /\ si_node si = n).
  { intros p Hp. by eapply inv_node_si. }
  revert Hnd Hl. induction (node_sta_info x) as [|p l IH]; intros Hnd Hl; [constructor|].
  apply list.NoDup_cons in Hnd as [Hnin Hnd]. simpl.
  destruct (Hl p ltac:(by left)) as (si & Hp & Hn). rewrite Hp, fmap_cons, list.NoDup_cons.
  split; [|apply IH; [done|]; intros; apply Hl; by right].
  intros (sj & Hs & (q & Hq & Hsj)%list_elem_of_omap)%list_elem_of_fmap.
  destruct (Hl q ltac:(by right)) as (sj' & Hq' & Hn').
  assert (p = q) as <-; [|done].
  apply (tw_uniq _ (inv_table _ Hi) p q (si_key si)); [by rewrite abs_si, Hp|].
  rewrite abs_si, Hq'. unfold si_key. simpl. congruence.
Qed.

Lemma sis_of_elem w n x p si :
  inv w -> node_heap w !! n = Some x -> si_heap w !! p = Some si -> si_node si = n -> si ∈ sis_of w x.
Proof.
  intros Hi Hx Hp Hn. apply list_elem_of_omap. exists p. split; [|done].
  destruct (inv_si_node w p si Hi Hp) as (y & Hy & Hin). rewrite Hn in Hy. by simplify_eq.
Qed.

(** What is taken over of the announcements of an instance. *)
Lemma accepted_own ssids id seq w :
  inv w -> (forall s x, node_heap w !! NLocal s = Some x -> announceable w x) ->
  accepted_nodes ssids (mkApmsg id seq (own_nodes w)) =
    omap (fun s => x ← node_heap w !! NLocal s; if servesb ssids (ssid x) then Some (sent_node w s x) else None)
      (local_nodes w).
Proof.
  intros Hi Ha. unfold accepted_nodes, own_nodes. cbn [msg_nodes].
  induction (local_nodes w) as [|s l IH]; [done|]. cbn [omap list_omap]. unfold own_node at 1.
  destruct (node_heap w !! NLocal s) as [x|] eqn:Hx; cbn [fmap option_fmap option_map mbind option_bind]; [|exact IH].
  cbn [omap list_omap]. rewrite sent_node_accepted by eauto. destruct (servesb ssids (ssid x)); [|exact IH].
  f_equal. exact IH.
Qed.
End sent.

(** ** The exchange *)
Section exchange.
Context {ET : Ether} {ETL : EtherLaws} {BP : BlobParse} {BPL : BlobParseLaws} {BD : BlobData} {BDL : BlobDataLaws}.
Context {RT : RemoteTree} {RTL : RemoteTreeLaws}.
Context {T : Type} `{!AvlTree Z ptr T} `{!AvlLaws Z ptr T}.
Implicit Types (w : world T) (p q : ptr) (si : sta_info) (s : string) (x : usteer_node) (k : Z * string).

(** What another instance, [wb], knows of node [s] of [wa]. *)
Definition node_mirrored (wa : world T) s x (now : Z) (wb : world T) : Prop :=
  let id := u32 (local_id wa) in
  node_data <$> node_heap wb !! NRemote id s = Some (mkNode [] (rrm_nr x) (script_data x) (snprintf33 (ssid x))
    (bssid x) (s32 (freq x)) (s32 (noise x)) (s32 (n_assoc x)) (s32 (max_assoc x)) (s32 (load x))) /\
  forall p si, si_heap wa !! p = Some si -> si_node si = NLocal s -> 0 < sent_left wa si -> exists q sj,
    si_heap wb !! q = Some sj /\ si_key sj = (si_sta si, NRemote id s) /\
    si_connected sj = b2z (negb (si_connected si =? 0)) /\ si_signal sj = s32 (si_signal si) /\
    si_seen sj = u64 (now - sent_age wa si).

Lemma mirrored wa s x iface now wb :
  inv wa -> node_heap wa !! NLocal s = Some x -> announceable wa x -> remote_disabled (config wa) = false ->
  node_known iface (u32 (local_id wa)) now (sent_node wa s x) wb -> node_mirrored wa s x now wb.
Proof.
  intros Hi Hx Ha Hd (b & Hb & Hn & _ & Hs). rewrite sent_bssid in Hb by done. injection Hb as <-. split.
  - unfold sent_node, heard_data in Hn. simpl in Hn. rewrite blob_data_string in Hn. exact Hn.
  - intros p si Hp Hsn Hl. rewrite sent_stations in Hs by done.
    destruct (Hs ltac:(eapply NoDup_fmap_omap; [|by eapply sis_of_nodup];
      intros si' m'; case_match; [done|]; intros; by simplify_eq) (sent_sta wa si)) as (q & sj & Hq & Hk).
    { apply list_elem_of_omap. exists si. split; [by eapply sis_of_elem|].
      destruct (Z.leb_spec (sent_left wa si) 0); [lia|done]. }
    exists q. eexists. split; [exact Hq|]. split; [exact Hk|]. done.
Qed.

(** The message of an update is heard, and it is safe to take over. *)
Lemma heard_update (wa wb : world T) d seq nodes :
  dg_pad_len d = dg_len d -> dg_data d = update_msg wa seq nodes -> u32 (local_id wa) ≠ local_id wb ->
  heard_msg wb d = Some (mkApmsg (u32 (local_id wa)) (u32 seq) nodes).
Proof.
  intros Hlen Hdata Hid. unfold heard_msg. rewrite (proj2 (Z.eqb_eq _ _) Hlen), Hdata, parse_update.
  cbn [mbind option_bind msg_id]. by rewrite (proj2 (Z.eqb_neq _ _) Hid).
Qed.
Lemma announced_signal_ok w n x :
  inv w -> node_heap w !! n = Some x -> announceable w x ->
  Forall (fun cur : Z * wire => sta_signal_ok cur.2) (announced w (sis_of w x)).
Proof.
  intros Hi Hx [_ _ Ha]. unfold announced. destruct (remote_disabled (config w)); [constructor|].
  apply list.Forall_forall. intros cur (si & -> & Hsi)%list_elem_of_fmap msg.
  unfold sta_accepted. rewrite parse_send_sta by auto. cbn [mbind option_bind]. case_match; [done|].
  intros [= <-]. apply list_elem_of_omap in Hsi as (p & _ & Hp). simpl.
  assert (Hs := inv_signal w p si Hi Hp). rewrite s32_id; [done|]. unfold signal_ok in Hs. lia.
Qed.
Lemma own_message_ok ssids id seq w :
  inv w -> (forall s x, node_heap w !! NLocal s = Some x -> announceable w x) ->
  message_ok ssids (mkApmsg id seq (own_nodes w)).
Proof.
  intros Hi Ha. unfold message_ok. apply list.Forall_forall. intros m (s & _ & Hs)%list_elem_of_omap msg.
  unfold own_node in Hs. destruct (node_heap w !! NLocal s) as [x|] eqn:Hx; [|done]. injection Hs as <-.
  rewrite sent_node_accepted by eauto. unfold node_msg. cbn [snd]. rewrite parse_send_node by (by eapply Ha).
  intros [= <-]. cbn [mn_ssid]. rewrite blob_data_string. split; [eauto|]. intros _.
  split; [|by eapply announced_signal_ok; eauto].
  change (is_Some (msg_bssid (sent_node w s x))). rewrite sent_bssid by eauto. eauto.
Qed.

(** The datagram of a periodic update is heard. *)
Lemma update_mirrored iface ifi d (wa wb : world T) :
  inv wa -> remote_update_interval (config wa) ≠ 0 -> remote_disabled (config wa) = false ->
  let w1 := update_due wa in
  (forall s x, node_heap wa !! NLocal s = Some x -> announceable w1 x) ->
  inv wb -> hears (u32 (local_id wa)) wb -> u32 (local_id wa) ≠ local_id wb ->
  wp usteer_send_update_timer (fun _ wa' => exists sent, out wa' = out wa ++ sent /\
    (SendMsg ifi (dg_data d) ∈ sent -> dg_pad_len d = dg_len d ->
     wp (interface_recv_msg iface d) (fun _ wb' => inv wb' /\ peer_heard (u32 (local_id wa)) wb wb' /\
       forall s x, node_heap wa !! NLocal s = Some x -> serves (config_ssid_list wb) (ssid x) ->
         node_mirrored w1 s x (current_time wb) wb') wb)) wa.
Proof.
  intros Hi Hz Hd w1 Ha Hib Hh Hid. eapply wp_mono; [by apply usteer_send_update_timer_spec|].
  intros [] wa' Hc. fold w1 in Hc. assert (Hi1 : inv w1) by by apply inv_update_due.
  exists (sent_updates w1 (update_msg w1 (u32 (msg_seq w1 + 1)) (own_nodes w1))).
  split; [by rewrite (nc_out _ _ _ _ Hc)|]. unfold sent_updates. change (config w1) with (config wa). rewrite Hd.
  intros (i & Hi' & _)%list_elem_of_fmap Hlen. injection Hi' as _ Hdata.
  set (seq := u32 (u32 (msg_seq w1 + 1))). set (msg := mkApmsg (u32 (local_id wa)) seq (own_nodes w1)).
  assert (Hm : heard_msg wb d = Some msg).
  { by apply (heard_update w1). }
  assert (Hacc := accepted_own (config_ssid_list wb) (u32 (local_id wa)) seq w1 Hi1 Ha).
  eapply wp_mono; [apply interface_recv_msg_spec; [done|]|].
  { intros m Hm'. rewrite Hm in Hm'. injection Hm' as <-. split; [done|by apply own_message_ok]. }
  intros [] wb'. rewrite Hm. intros [Hib' _ Hpeer _ Hk]. split; [done|]. split; [exact Hpeer|].
  intros s x Hx Hsv. unfold msg in Hk. rewrite Hacc in Hk.
  assert (Hk' := Hk ltac:(eapply (NoDup_fmap_omap _ _ id); [|rewrite list_fmap_id; apply Hi1];
    intros s' m'; destruct (node_heap w1 !! NLocal s'); [|done]; cbn [mbind option_bind];
    case_match; [|done]; intros; by simplify_eq)).
  rewrite list.Forall_forall in Hk'. eapply (mirrored w1); [done|done|by eapply Ha|done|].
  apply Hk'. apply list_elem_of_omap. exists s. split.
  - apply (no_local _ (inv_nodes _ Hi1)). eauto.
  - change (node_heap w1) with (node_heap wa). rewrite Hx. cbn [mbind option_bind].
    by rewrite (proj2 (servesb_serves _ _) Hsv).
Qed.

(** C2. What one instance announces is what another one knows: once the datagram
    of a periodic update is received, every node of the sender whose SSID the
    receiver serves is a remote node there with the same SSID, BSSID, neighbor
    report, load and counts, and every station of it that is not expired has a
    [sta_info] there with the same signal and association and seen as long ago. *)
Theorem announcement_roundtrip iface ifi d (wa wb : world T) :
  inv wa -> remote_update_interval (config wa) ≠ 0 -> remote_disabled (config wa) = false ->
  let w1 := update_due wa in
  (forall s x, node_heap wa !! NLocal s = Some x -> announceable w1 x) ->
  inv wb -> hears (u32 (local_id wa)) wb -> u32 (local_id wa) ≠ local_id wb ->
  wp usteer_send_update_timer (fun _ wa' => exists sent, out wa' = out wa ++ sent /\
    (SendMsg ifi (dg_data d) ∈ sent -> dg_pad_len d = dg_len d ->
     wp (interface_recv_msg iface d) (fun _ wb' => inv wb' /\ peer_heard (u32 (local_id wa)) wb wb' /\
       forall s x, node_heap wa !! NLocal s = Some x -> serves (config_ssid_list wb) (ssid x) ->
         node_mirrored w1 s x (current_time wb) wb') wb)) wa.
Proof. by apply update_mirrored. Qed.

(** C5. A message of a peer is taken over without a fault and changes only the nodes
    that carry the peer's identifier and the [sta_info]s at them, and none of these
    goes away: the other nodes, with their lists of stations, every [sta_info] at
    them with its timer, what is known of each station (the bands it was seen on),
    and the instance's own configuration, counters, script and timers stay as they
    are, and nothing is sent in return; a station that is new starts with no band
    seen. It is assumed of a message that is not dropped that its identifier can be
    told apart from the known ones and compared with them ([hears]), and that it is
    safe to take over ([message_ok]): the SSIDs it carries end within their
    attribute, its nodes of served SSIDs have a BSSID that parses, and the signals
    are in range. A cut or malformed message and the instance's own message change
    nothing. *)
Theorem message_isolated iface d w :
  inv w ->
  (forall msg, heard_msg w d = Some msg -> hears (msg_id msg) w /\ message_ok (config_ssid_list w) msg) ->
  wp (interface_recv_msg iface d) (fun _ w' => inv w' /\
    match heard_msg w d with
    | Some msg => peer_heard (msg_id msg) w w'
    | None => w' = w
    end) w.
Proof.
  intros Hi Hok. eapply wp_mono; [by apply interface_recv_msg_spec|]. intros [] w'.
  destruct (heard_msg w d) as [msg|]; [|by intros ->]. intros []. by split.
Qed.

(** Reading any number of datagrams, with interruptions and errors, from
    instances whose identifiers lie within 2^31 of each other keeps the invariant
    of the station table and the order of the tree of remote nodes, loses no
    remote node and touches nothing of the instance's own. *)
Theorem receive_safe ids l w :
  inv w -> peers ids w -> datagrams_ok ids w l ->
  wp (interface_recv l) (fun _ w' => inv w' /\ peers ids w' /\ own_kept w w' /\
    (forall k, k ∈ remote_nodes w -> k ∈ remote_nodes w') /\
    (no_empty_sta (abs w) -> no_empty_sta (abs w'))) w.
Proof. apply interface_recv_spec. Qed.

(** A node announced without a BSSID, or with one that does not parse or has no end,
    crashes the receiver when its SSID is served. *)
Theorem missing_bssid_crash iface addr id data msg w :
  inv w -> hears id w -> node_accepted (config_ssid_list w) data = Some msg -> msg_bssid msg = None ->
  exists e, interface_add_node iface addr id data w = Fault e.
Proof.
  intros Hi Hh Hacc Hb. exists (match mn_bssid msg with
    | Some v => match blob_data v with Some _ => NullDeref | None => OutOfBounds end
    | None => NullDeref
    end). unfold interface_add_node. unfold node_accepted in Hacc.
  destruct (parse_apmsg_node data) as [msg'|]; [|done]. cbn [mbind option_bind] in Hacc.
  destruct (blob_data (mn_ssid msg')) as [ss|] eqn:Ess; [|done]. cbn [mbind option_bind] in Hacc.
  destruct (servesb _ _) eqn:Es; [|done]. injection Hacc as ->.
  apply fault_bind. eapply wp_deref; [done|]. apply fault_bind, wp_ok. exists true, w. split.
  { unfold usteer_is_valid_ssid, gets, mbind, M_bind. unfold servesb in Es.
    destruct (config_ssid_list w); [by rewrite Es|done]. }
  cbn [negb]. apply fault_bind. eapply wp_mono; [by apply interface_get_node_spec|]. intros k w1 [-> Hw1]. cbv zeta.
  assert (H1 : exists x r, node_heap w1 !! NRemote id (mn_name msg) = Some x /\ rn_heap w1 !! (id, mn_name msg) = Some r).
  { case_bool_decide as Hin; subst w1.
    - destruct (proj1 (no_remote _ (inv_nodes _ Hi) _ _) Hin) as [x Hx].
      destruct (proj2 (no_rn _ (inv_nodes _ Hi) id (mn_name msg))) as [r Hr]; eauto.
    - do 2 eexists. simpl. by rewrite !lookup_insert_eq. }
  destruct H1 as (x & r & Hx & Hr). cbn [fst snd].
  apply fault_bind. eapply wp_upd_rn; [done|]. apply fault_bind. eapply wp_upd_node; [done|].
  apply fault_bind. eapply wp_upd_rn; [simpl; apply lookup_insert_eq|]. apply fault_bind.
  eapply wp_upd_node; [simpl; apply lookup_insert_eq|]. apply fault_bind.
  eapply wp_upd_node; [simpl; apply lookup_insert_eq|].
  unfold msg_bssid in Hb. unfold mbind, M_bind, deref. destruct (mn_bssid msg) as [v|]; [|done]. simpl in Hb.
  simpl in Hb |- *.
  destruct (blob_data v) as [str|]; [|done]. simpl in Hb |- *. by rewrite Hb.
Qed.

(** ** Silence *)

(** Updates one after the other. *)
Fixpoint rounds (n : nat) : M (world T) unit :=
  match n with
  | O => mret tt
  | S n' => usteer_send_update_timer ;; rounds n'
  end.

(** The count of missed updates of a node, [None] when it is gone. *)
Definition age (timeout : Z) (o : option Z) : option Z :=
  c ← o; if timeout <? c then None else Some (s32 (c + 1)).

Lemma rounds_spec k n w :
  inv w -> remote_update_interval (config w) ≠ 0 ->
  wp (rounds n) (fun _ w' => inv w' /\
    rn_check <$> rn_heap w' !! k = Nat.iter n (age (missable (config w))) (rn_check <$> rn_heap w !! k)) w.
Proof.
  revert w. induction n as [|n IH]; intros w Hi Hz; [by apply wp_ret|].
  apply wp_bind. eapply wp_mono; [by apply usteer_send_update_timer_spec|]. intros [] w1 H1.
  assert (Hc : config w1 = config w) by apply H1.
  eapply wp_mono; [apply IH; [apply H1|by rewrite Hc]|]. intros [] w2 [Hi2 H2]. split; [done|].
  rewrite H2, Hc, Nat.iter_succ_r. f_equal. rewrite (nc_rn _ _ _ _ H1). simpl.
  destruct (rn_heap w !! k) as [r|] eqn:Hr; [|done]. rewrite decide_True.
  - simpl. unfold age. simpl. by case_match.
  - destruct k as [i s]. apply (no_remote _ (inv_nodes _ Hi)), (no_rn _ (inv_nodes _ Hi)). eauto.
Qed.

Lemma age_iter timeout n c :
  0 <= c -> 0 <= timeout < 2 ^ 31 - 1 -> c <= timeout + 1 ->
  Nat.iter n (age timeout) (Some c) = if c + Z.of_nat n <=? timeout + 1 then Some (c + Z.of_nat n) else None.
Proof.
  intros Hc Ht Hle. induction n as [|n IH].
  - simpl. rewrite Z.add_0_r. by destruct (Z.leb_spec c (timeout + 1)); [|lia].
  - rewrite Nat.iter_succ, IH. destruct (Z.leb_spec (c + Z.of_nat n) (timeout + 1)) as [H|H].
    + unfold age. simpl. destruct (Z.ltb_spec timeout (c + Z.of_nat n)); destruct (Z.leb_spec (c + Z.of_nat (S n)) (timeout + 1)); try lia; [done|].
      f_equal. rewrite s32_id; lia.
    + destruct (Z.leb_spec (c + Z.of_nat (S n)) (timeout + 1)); [lia|done].
Qed.

(** C25. A remote node that was just heard of survives exactly [remote_node_timeout
    / remote_update_interval + 1] updates without a message, and with the next one
    it is gone, with all [sta_info]s at it. *)
Theorem remote_node_expires k r n w :
  inv w -> remote_update_interval (config w) ≠ 0 -> 0 <= missable (config w) < 2 ^ 31 - 1 ->
  rn_heap w !! k = Some r -> rn_check r = 0 ->
  wp (rounds n) (fun _ w' => inv w' /\
    (k ∈ remote_nodes w' <-> Z.of_nat n <= missable (config w) + 1) /\
    (k ∉ remote_nodes w' -> forall q si, si_heap w' !! q = Some si -> si_node si ≠ NRemote k.1 k.2)) w.
Proof.
  intros Hi Hz Ht Hr Hc. eapply wp_mono; [by apply (rounds_spec k)|]. intros [] w' [Hi' H'].
  rewrite Hr in H'. simpl in H'. rewrite Hc, age_iter in H' by lia.
  assert (Hin : k ∈ remote_nodes w' <-> is_Some (rn_heap w' !! k)).
  { destruct k as [i s]. rewrite (no_remote _ (inv_nodes _ Hi')). symmetry. apply (no_rn _ (inv_nodes _ Hi')). }
  split; [done|]. split.
  - rewrite Hin. destruct (rn_heap w' !! k); destruct (Z.leb_spec (0 + Z.of_nat n) (missable (config w) + 1)); simplify_eq/=.
    + split; [intros _; lia|eauto].
    + split; [by intros []|intros ?; lia].
  - intros Hn q si Hq Hs. apply Hn. destruct (inv_si_node _ _ _ Hi' Hq) as (x & Hx & _).
    rewrite Hs in Hx. destruct k. apply (no_remote _ (inv_nodes _ Hi')). eauto.
Qed.

(** What comes after the timer is armed does not touch it. *)
Definition timer_kept (w w' : world T) : Prop := remote_timer w' = remote_timer w.
#[local] Instance timer_kept_preorder : PreOrder timer_kept.
Proof. split; [done|]. intros w1 w2 w3 H1 H2. unfold timer_kept in *. congruence. Qed.
Ltac timer_walk := repeat within_step ltac:(solve [reflexivity]).

Definition send_update : M (world T) unit :=
  buf ← usteer_update_init;
  nodes ← gets local_nodes;
  c ← for_fold (fun c s => x ← usteer_send_node (NLocal s) None; mret (c ++ [x])) [] nodes;
  usteer_update_send buf c ;;
  usteer_check_timeout.
Lemma send_update_kept : within timer_kept send_update.
Proof. unfold send_update. timer_walk. Qed.
Lemma update_timer_run w : usteer_send_update_timer w = send_update (update_due w).
Proof. reflexivity. Qed.
Lemma update_timer_armed (Q : unit -> world T -> Prop) w :
  wp usteer_send_update_timer Q w ->
  wp usteer_send_update_timer (fun r w' => Q r w' /\ remote_timer w' = remote_timer (update_due w)) w.
Proof.
  unfold wp at 1 2. rewrite update_timer_run. exact (wp_within _ _ _ (update_due w) send_update_kept).
Qed.

(** C26. A periodic update tells every interface about all own nodes in one message,
    arms the timer for the next one [remote_update_interval] later, frees the remote
    nodes that missed too many updates with all their [sta_info]s and counts one more
    for the others. *)
Theorem update_timer_correct w :
  inv w -> remote_update_interval (config w) ≠ 0 ->
  let w1 := update_due w in
  let timeout := remote_node_timeout (config w) / remote_update_interval (config w) in
  wp usteer_send_update_timer (fun _ w' => inv w' /\
    remote_timer w' = Some (ts_ms (clock w) + s32 (remote_update_interval (config w))) /\
    out w' = out w ++ sent_updates w1 (update_msg w1 (u32 (msg_seq w + 1)) (own_nodes w1)) /\
    (forall k, rn_check <$> rn_heap w' !! k = age (s32 timeout) (rn_check <$> rn_heap w !! k)) /\
    (forall q si, si_heap w' !! q = Some si <->
       si_heap w !! q = Some si /\ is_Some (node_heap w' !! si_node si))) w.
Proof.
  intros Hi Hz w1 timeout. eapply wp_mono; [by apply update_timer_armed, usteer_send_update_timer_spec|].
  intros [] w' [H' Hta]. fold w1 in H'. split; [apply H'|]. split; [exact Hta|]. split; [apply H'|]. split.
  - intros k. change (s32 timeout) with (missable (config w)). rewrite (nc_rn _ _ _ _ H'). simpl.
    destruct (rn_heap w !! k) as [r|] eqn:Hr; [|done]. rewrite decide_True; [unfold age; simpl; by case_match|]. destruct k as [i s].
    apply (no_remote _ (inv_nodes _ Hi)), (no_rn _ (inv_nodes _ Hi)). eauto.
  - intros q si. rewrite (nc_si _ _ _ _ H'). simpl. destruct (si_heap w !! q) as [sj|] eqn:Hq; [|by split; [|intros []]].
    assert (Hn := nc_nodes _ _ _ _ H' (si_node sj)). destruct (inv_si_node _ _ _ Hi Hq) as (x & Hx & _).
    change (node_heap (updated w1 (own_nodes w1))) with (node_heap w) in Hn. rewrite Hx in Hn.
    destruct (dead _ _ _ _); split; intros H; try done.
    + destruct H as [E Hs]. simplify_eq. destruct Hs as [y Hy]. by rewrite Hy in Hn.
    + simplify_eq. split; [done|]. destruct (node_heap w' !! si_node si); [by eexists|done].
    + by destruct H.
Qed.
End exchange.

(** [remote_node_cmp] orders identifiers that lie within 2^31 of each other,
    the larger ones first, but it goes round in a circle on others. *)
Theorem remote_node_cmp_order :
  (forall c x y, u32 (x - c) < 2 ^ 31 -> u32 (y - c) < 2 ^ 31 ->
     (remote_node_cmp x y < 0 <-> u32 (y - c) < u32 (x - c))) /\
  (exists x y z, 0 <= x < 2 ^ 32 /\ 0 <= y < 2 ^ 32 /\ 0 <= z < 2 ^ 32 /\
     remote_node_cmp x y < 0 /\ remote_node_cmp y z < 0 /\ remote_node_cmp z x < 0).
Proof.
  split.
  - intros c x y Hx Hy. rewrite (remote_node_cmp_close c) by done. lia.
  - exists 0, 2863311530, 1431655765. by vm_compute.
Qed.

(** ** Witnesses *)

#[local] Existing Instance seq_blob_parse.
#[local] Existing Instance seq_blob_parse_laws.
#[local] Existing Instance string_blob_data.
#[local] Existing Instance string_blob_data_laws.
#[local] Existing Instance seq_remote_tree.
#[local] Existing Instance seq_remote_tree_laws.

Definition lan : string * Z := ("eth0"%string, 2).

(** A second instance, which knows nobody yet. *)
Definition w_other : demo_world := world_init <| local_id := 9 |>.
Lemma w_other_inv : inv w_other.
Proof. destruct inv_init as [? ? ? []]. by split; [..|split]. Qed.
Lemma w_other_hears : hears 7 w_other.
Proof. split; [constructor| |done]. exists 0. apply list.Forall_singleton. by vm_compute. Qed.

(** What [w_assoc] sends it. *)
Definition demo_update : list (Z * wire) :=
  update_msg (update_due w_assoc) (u32 (msg_seq w_assoc + 1)) (own_nodes (update_due w_assoc)).
Definition demo_datagram : datagram := mkDatagram 500 500 2 "fe80::1" demo_update.
#[local] Opaque demo_update.
Lemma demo_datagram_data : dg_data demo_datagram = demo_update.
Proof. reflexivity. Qed.
Lemma demo_datagram_len : dg_pad_len demo_datagram = dg_len demo_datagram.
Proof. reflexivity. Qed.

Lemma w_assoc_announceable s x : node_heap w_assoc !! NLocal s = Some x -> announceable (update_due w_assoc) x.
Proof.
  intros Hx.
  assert (Hs : s ∈ [ap0; ap1]).
  { assert (E : local_nodes w_assoc = [ap0; ap1]) by by vm_compute. rewrite <- E.
    apply (no_local _ (inv_nodes _ (proj1 w_assoc_inv))). eauto. }
  assert (Hall : forallb (fun s => match node_heap w_assoc !! NLocal s with
    | Some x => wire_ok (Some BLOB_ATTR_NESTED) (default (WNested []) (script_data x)) &&
        bool_decide (length (bssid x) = 6%nat) && bool_decide (Forall (fun b => 0 <= b < 256) (bssid x)) &&
        forallb (fun si => bool_decide (length (si_sta si) = 6%nat)) (sis_of (update_due w_assoc) x)
    | None => false end) [ap0; ap1] = true) by by vm_compute.
  rewrite forallb_forall in Hall. specialize (Hall s ltac:(by apply list_elem_of_In)). rewrite Hx in Hall.
  apply andb_true_iff in Hall as [[[H1 H2]%andb_true_iff H3]%andb_true_iff H4].
  apply bool_decide_eq_true in H2, H3. split; [exact H1|exact (conj H2 H3)|]. intros si Hsi.
  rewrite forallb_forall in H4. apply list_elem_of_In in Hsi. apply H4 in Hsi. by apply bool_decide_eq_true in Hsi.
Qed.

(** What a run sent, and what it returned. *)
Definition sent_by {A} (o : res (A * demo_world)) : option (list action) :=
  match o with Ok (_, w') => Some (out w') | Fault _ => None end.
Definition result_of {A} (o : res (A * demo_world)) : option A :=
  match o with Ok (r, _) => Some r | Fault _ => None end.
Lemma run_out {A} (o : res (A * demo_world)) (w' : demo_world) r l :
  sent_by o = Some l -> o = Ok (r, w') -> out w' = l.
Proof. intros H ->. by injection H. Qed.
Lemma run_result {A} (o : res (A * demo_world)) (w' : demo_world) r r' :
  result_of o = Some r' -> o = Ok (r, w') -> r = r'.
Proof. intros H ->. by injection H. Qed.

Lemma demo_sent :
  sent_by (usteer_send_update_timer w_assoc) = Some (out w_assoc ++ [SendMsg 2 demo_update]).
Proof. by vm_compute. Qed.

Lemma announcement_roundtrip_witness : exists wa' wb',
  usteer_send_update_timer w_assoc = Ok (tt, wa') /\
  interface_recv_msg lan demo_datagram w_other = Ok (tt, wb') /\
  node_mirrored (update_due w_assoc) ap0 (the_node w_assoc ap0) 0 wb'.
Proof.
  destruct (proj1 (wp_ok _ _ _) (announcement_roundtrip lan 2 demo_datagram w_assoc w_other
    (proj1 w_assoc_inv) ltac:(eval_fact) ltac:(eval_fact) w_assoc_announceable w_other_inv
    w_other_hears ltac:(eval_fact))) as ([] & wa' & Hrun & sent & Hout & Hrecv).
  exists wa'.
  assert (Hs : sent = [SendMsg 2 demo_update]).
  { apply (app_inv_head (out w_assoc)). rewrite <- Hout. exact (run_out _ wa' tt _ demo_sent Hrun). }
  destruct (proj1 (wp_ok _ _ _) (Hrecv ltac:(rewrite Hs, demo_datagram_data; by left) demo_datagram_len)) as ([] & wb' & Hrun' & _ & _ & Hm).
  exists wb'. split; [exact Hrun|]. split; [exact Hrun'|]. apply (Hm ap0); [at_node|done].
Defined.

(** It is heard. *)
Lemma update_due_id (w : demo_world) : local_id (update_due w) = local_id w.
Proof. reflexivity. Qed.
Lemma update_due_nodes (w : demo_world) : node_heap (update_due w) = node_heap w.
Proof. reflexivity. Qed.
Lemma w_assoc_id : local_id w_assoc = 7.
Proof. by vm_compute. Qed.
Lemma demo_heard : exists seq, heard_msg w_other demo_datagram = Some (mkApmsg 7 seq (own_nodes (update_due w_assoc))).
Proof.
  eexists. rewrite (heard_update (update_due w_assoc) w_other demo_datagram (u32 (msg_seq w_assoc + 1))
    (own_nodes (update_due w_assoc)) demo_datagram_len demo_datagram_data).
  - rewrite update_due_id, w_assoc_id. reflexivity.
  - rewrite update_due_id, w_assoc_id. by vm_compute.
Qed.
Lemma demo_heard_ok msg :
  heard_msg w_other demo_datagram = Some msg -> msg_id msg = 7 /\ message_ok (config_ssid_list w_other) msg.
Proof.
  destruct demo_heard as [seq ->]. intros [= <-]. split; [done|].
  apply own_message_ok; [apply inv_update_due, w_assoc_inv|].
  intros s x. rewrite update_due_nodes. apply w_assoc_announceable.
Qed.

Lemma message_isolated_witness : exists w',
  interface_recv_msg lan demo_datagram w_other = Ok (tt, w') /\ inv w'.
Proof.
  destruct (proj1 (wp_ok _ _ _) (message_isolated lan demo_datagram w_other w_other_inv
    ltac:(intros msg Hm; destruct (demo_heard_ok msg Hm) as [-> ?]; split; [exact w_other_hears|done])))
    as ([] & w' & Hrun & Hi & _).
  exists w'. split; [exact Hrun|exact Hi].
Defined.

Lemma receive_safe_witness : exists w',
  interface_recv [RecvIntr; Received demo_datagram; RecvAgain] w_other = Ok (true, w') /\ inv w'.
Proof.
  assert (Hp : peers [7] w_other).
  { destruct w_other_hears as [Hs Hc He]. split; [exact Hc|set_solver by done|exact Hs|]. intros k Hk. by apply elem_of_nil in Hk. }
  assert (Hd : datagrams_ok [7] w_other [RecvIntr; Received demo_datagram; RecvAgain]).
  { intros d msg Hin Hm. assert (d = demo_datagram) as -> by
      (rewrite !elem_of_cons, elem_of_nil in Hin; by destruct Hin as [?|[[= ?]|[?|[]]]]).
    destruct (demo_heard_ok msg Hm) as [-> ?]. split; [by left|done]. }
  destruct (proj1 (wp_ok _ _ _) (receive_safe [7] _ w_other w_other_inv Hp Hd)) as (r & w' & Hrun & Hi & _).
  exists w'. split; [|exact Hi]. rewrite Hrun. do 2 f_equal.
  refine (run_result _ w' r true _ Hrun). by vm_compute.
Defined.

(** A node without a BSSID. *)
Definition bare_node : wire := WNested
  [(APMSG_NODE_NAME, WString "hostapd.wlan0"); (APMSG_NODE_SSID, WString "net"); (APMSG_NODE_FREQ, WInt32 2412);
   (APMSG_NODE_N_ASSOC, WInt32 0); (APMSG_NODE_STATIONS, WNested [])].
Lemma missing_bssid_crash_witness : exists e, interface_add_node lan "fe80::1" 7 bare_node w_other = Fault e.
Proof.
  apply (missing_bssid_crash lan "fe80::1" 7 bare_node
    (mkApmsgNode "hostapd.wlan0" (WString "net") None 2412 0 0 0 0 [] None None) w_other w_other_inv w_other_hears);
    by vm_compute.
Defined.

(** [w_other] after the datagram. *)
Definition w_peer : demo_world := run (interface_recv_msg lan demo_datagram) w_other.
Lemma w_peer_inv : inv w_peer.
Proof.
  assert (Hok : forall msg, heard_msg w_other demo_datagram = Some msg ->
    hears (msg_id msg) w_other /\ message_ok (config_ssid_list w_other) msg).
  { intros msg Hm. destruct (demo_heard_ok msg Hm) as [-> ?]. split; [exact w_other_hears|done]. }
  destruct (run_wp _ _ _ (interface_recv_msg_spec lan demo_datagram w_other w_other_inv Hok)) as [[] H].
  fold w_peer in H. destruct demo_heard as (seq & Hm). rewrite Hm in H. apply H.
Qed.
#[local] Opaque w_peer.

Definition w_peer_rn : usteer_remote_node := mkRemoteNode "fe80::1#hostapd.wlan0" "eth0" 0.
Lemma remote_node_expires_witness : exists w',
  rounds 122 w_peer = Ok (tt, w') /\ (7, ap0) ∉ remote_nodes w'.
Proof.
  destruct (proj1 (wp_ok _ _ _) (remote_node_expires (7, ap0) w_peer_rn 122 w_peer w_peer_inv ltac:(eval_fact)
    ltac:(split; eval_fact) ltac:(eval_fact) ltac:(done))) as ([] & w' & Hrun & _ & Hin & _).
  exists w'. split; [exact Hrun|]. rewrite Hin.
  assert (E : missable (config w_peer) = 120) by by vm_compute. rewrite E. lia.
Defined.

Lemma update_timer_correct_witness : exists w', usteer_send_update_timer w_peer = Ok (tt, w') /\ inv w'.
Proof.
  destruct (proj1 (wp_ok _ _ _) (update_timer_correct w_peer w_peer_inv ltac:(eval_fact)))
    as ([] & w' & Hrun & Hi & _).
  exists w'. split; [exact Hrun|exact Hi].
Defined.
