(* ===== verification/SteerTheorems.v ===== *)
(** * Steering across instances

    The purpose of the program from one end to the other: what an instance hears
    at its own node decides about the request of the same station at a node of
    another instance, by way of an update between them. *)
From S2P Require Import Prelude CFloat Blob Timeout Types Table World Ssid Beacon Sta UbusClient.
From S2P Require Import Policy RemoteMsg Parse StaEvent Roam LocalNode Remote Scenario.
From S2P Require Import StationTheorems RemoteTheorems.

(** ** Rivals *)

(** Of a [sta_info], the comparison of two nodes reads the signal only. *)
Definition at_signal (signal : Z) : sta_info := calloc_sta_info [] (NLocal "") 0 0 <| si_signal := signal |>.

(** Of two nodes that hear a station with these signals, the second is better
    and the first is not. *)
Definition outranks (cfg : usteer_config) (sig_cur sig_new : Z) (cur new : usteer_node) : bool :=
  bool_decide (is_better_candidate cfg (at_signal sig_cur) (at_signal sig_new) cur new = Some true) &&
  bool_decide (is_better_candidate cfg (at_signal sig_new) (at_signal sig_cur) new cur = Some false).
Lemma outranks_ext cfg sig_cur sig_new x x' y y' :
  node_data x = node_data x' -> node_data y = node_data y' ->
  outranks cfg sig_cur sig_new x y = outranks cfg sig_cur sig_new x' y'.
Proof.
  destruct x, x', y, y'. unfold node_data, set_field. simpl. intros [=] [=]. subst. reflexivity.
Qed.

Lemma is_better_candidate_ext cfg si si' sj sj' x x' y y' :
  si_signal si = si_signal si' -> si_signal sj = si_signal sj' ->
  node_data x = node_data x' -> node_data y = node_data y' ->
  is_better_candidate cfg si sj x y = is_better_candidate cfg si' sj' x' y'.
Proof.
  destruct x, x', y, y'. unfold node_data, set_field. simpl. intros Hs Hs' [=] [=]. subst.
  unfold is_better_candidate, better_signal_strength. by rewrite Hs, Hs'.
Qed.

Section steer.
Context {T : Type} `{!AvlTree Z ptr T} `{!AvlLaws Z ptr T}.
Implicit Types (w : world T) (p q : ptr) (si : sta_info) (a : mac) (n : node_id) (x y : usteer_node).

(** Another node of the network heard station [a] lately, as [sq], and is better
    than [y] with [signal]. *)
Record rival w a n y (signal : Z) q sq : Prop := {
  rv_si : si_heap w !! q = Some sq;
  rv_sta : si_sta sq = a;
  rv_node : si_node sq ≠ n;
  rv_fresh : u64 (current_time w - si_seen sq) <= seen_policy_timeout (config w);
  rv_better : exists xq, node_heap w !! si_node sq = Some xq /\ ssid xq = ssid y /\
    outranks (config w) signal (si_signal sq) y xq = true;
}.

(** A rival is a candidate that [find_better_candidate] considers. *)
Lemma rival_seen w a n y signal p si q sq :
  rival w a n y signal q sq -> node_heap w !! n = Some y -> si_key si = (a, n) ->
  si_signal si = signal -> q ≠ p -> seen_candidate w p si q.
Proof.
  intros [Hq Hs Hn Hf (xq & Hx & Hss & Ho)] Hy Hk Hsig Hne. unfold si_key in Hk. simplify_eq.
  unfold outranks in Ho. apply andb_true_iff in Ho as [H1%bool_decide_eq_true H2%bool_decide_eq_true].
  exists sq, xq, y. do 7 (split; [done|]). split; [rewrite <- H1|rewrite <- H2]; by apply is_better_candidate_ext.
Qed.

(** The rival stays one while the other objects and the lists of the nodes change. *)
Lemma rival_frame w w' a n y y' signal q sq :
  rival w a n y signal q sq -> frame w w' -> si_heap w' !! q = Some sq -> node_data y' = node_data y ->
  rival w' a n y' signal q sq.
Proof.
  intros [Hq Hs Hn Hf (xq & Hx & Hss & Ho)] Hfr Hq' Hy.
  destruct (frame_node_Some w w' _ _ Hfr Hx) as (xq' & Hx' & Hd).
  split; [done..| |].
  - by rewrite (fr_time _ _ Hfr), (fr_config _ _ Hfr).
  - exists xq'. split; [done|]. split.
    + destruct xq, xq', y, y'. unfold node_data, set_field in *. simpl in *. congruence.
    + rewrite (fr_config _ _ Hfr), <- Ho. by apply outranks_ext.
Qed.

(** The station may still be refused at node [t] and is not associated there. *)
Definition refusable w a (t : string) (type : usteer_event_type) : Prop :=
  0 < max_retry_band (config w) /\
  forall p si st, si_heap w !! p = Some si -> si_key si = (a, NLocal t) ->
    si_stats si !! event_idx type = Some st ->
    si_connected si ≠ 1 /\ blocked_cur (event_counted (config w) (current_time w) st) < max_retry_band (config w).

(** The [sta_info] of the event when it is found or created, of a station that
    is not associated. *)
Lemma event_refusable {ET : Ether} s x a type signal w r w' p create si st w1 w2 :
  event_handled s x a type signal w r w' p create si st w1 w2 -> refusable w a s type -> signal ≠ NO_SIGNAL ->
  updated_signal si signal false = signal /\
  blocked_cur (event_counted (config w) (current_time w) st) < max_retry_band (config w).
Proof.
  intros Hev [Hpos Href] Hns. assert (Hold := eh_old _ _ _ _ _ _ _ _ _ _ _ _ _ _ Hev).
  assert (Hst := eh_st _ _ _ _ _ _ _ _ _ _ _ _ _ _ Hev).
  unfold updated_signal. rewrite (proj2 (Z.eqb_neq signal _) Hns). destruct create.
  - destruct Hold as [-> _]. split; [done|].
    assert (Hz : blocked_cur st = 0).
    { change (replicate 4 stats_zero !! event_idx type = Some st) in Hst.
      by apply list.lookup_replicate in Hst as [-> _]. }
    unfold event_counted. cbv zeta. destruct (_ <? _); simpl; by rewrite ?Hz.
  - destruct (Href p si st Hold (eh_key _ _ _ _ _ _ _ _ _ _ _ _ _ _ Hev) Hst) as [Hc Hb].
    by rewrite (proj2 (Z.eqb_neq _ _) Hc).
Qed.

Lemma rival_refused {ET : Ether} t y a type fr signal q sq w :
  inv w -> node_heap w !! NLocal t = Some y -> type ≠ __EVENT_TYPE_MAX -> type ≠ EVENT_TYPE_ASSOC ->
  0 < s32 (local_sta_timeout (config w)) -> signal ≠ NO_SIGNAL -> signal_ok signal ->
  refusable w a t type -> rival w a (NLocal t) y signal q sq ->
  wp (usteer_handle_sta_event (NLocal t) a type fr signal) (fun r w' => r = false /\ inv w') w.
Proof.
  intros Hi Hy Hmax Hassoc Hto Hns Hsg Href Hrv.
  eapply wp_mono; [by eapply usteer_handle_sta_event_spec|].
  intros r w' (p & create & si & st & w1 & w2 & Hev). split; [|by eapply event_handled_inv].
  destruct (event_refusable _ _ _ _ _ _ _ _ _ _ _ _ _ _ Hev Href Hns) as [Hsig Hblk].
  assert (Hold := eh_old _ _ _ _ _ _ _ _ _ _ _ _ _ _ Hev).
  assert (Hkey := eh_key _ _ _ _ _ _ _ _ _ _ _ _ _ _ Hev).
  assert (Hst1 := eh_asked _ _ _ _ _ _ _ _ _ _ _ _ _ _ Hev).
  assert (Hne : q ≠ p).
  { intros ->. assert (Hq := rv_si _ _ _ _ _ _ _ Hrv). assert (Hn := rv_node _ _ _ _ _ _ _ Hrv).
    destruct create; [by destruct Hold; simplify_eq|]. unfold si_key in Hkey. congruence. }
  destruct (frame_node_Some w w1 _ y (ev_frame _ _ _ _ _ Hst1) Hy) as (y1 & Hy1 & Hd).
  assert (Hrv1 : rival w1 a (NLocal t) y1 signal q sq).
  { eapply rival_frame; [done|apply Hst1| |done].
    eapply (ev_others _ _ _ _ _ Hst1); [done|apply Hrv]. }
  destruct r; [|done]. exfalso.
  destruct (proj1 (eh_answer _ _ _ _ _ _ _ _ _ _ _ _ _ _ Hev) eq_refl) as [?|[Hb|(_ & _ & Hno & _)]]; [done| |].
  - rewrite (fr_config _ _ (ev_frame _ _ _ _ _ Hst1)) in Hb. lia.
  - eapply Hno. eapply (rival_seen w1 a); [done..|exact Hsig|done].
Qed.
End steer.

(** ** From one instance to the other *)
Section across.
Context {ET : Ether} {ETL : EtherLaws} {BP : BlobParse} {BPL : BlobParseLaws} {BD : BlobData} {BDL : BlobDataLaws}.
Context {RT : RemoteTree} {RTL : RemoteTreeLaws}.
Context {T : Type} `{!AvlTree Z ptr T} `{!AvlLaws Z ptr T}.
Implicit Types (w : world T) (p q : ptr) (si : sta_info) (a : mac) (s t : string) (x y : usteer_node).

(** Time goes on. *)
Definition at_time (now : Z) w : world T := w <| current_time := now |>.
Lemma inv_at_time now w : inv w -> inv (at_time now w).
Proof. intros [? ? ? []]. by split; [..|split]. Qed.

(** A node as another instance knows it. *)
Definition mirror x : usteer_node :=
  mkNode [] (rrm_nr x) (script_data x) (snprintf33 (ssid x)) (bssid x) (s32 (freq x)) (s32 (noise x))
    (s32 (n_assoc x)) (s32 (max_assoc x)) (s32 (load x)).

(** What [wa] announced of station [si] is a rival in [wb']. *)
Lemma mirrored_rival wa wb' s x p si t y signal now heard :
  node_mirrored wa s x heard wb' -> si_heap wa !! p = Some si -> si_node si = NLocal s -> 0 < sent_left wa si ->
  ssid y = snprintf33 (ssid x) ->
  u64 (now - u64 (heard - sent_age wa si)) <= seen_policy_timeout (config wb') ->
  outranks (config wb') signal (s32 (si_signal si)) y (mirror x) = true ->
  exists q sq, rival (at_time now wb') (si_sta si) (NLocal t) y signal q sq.
Proof.
  intros [Hn Hs] Hp Hsn Hl Hss Hf Ho. destruct (Hs p si Hp Hsn Hl) as (q & sq & Hq & Hk & _ & Hsig & Hseen).
  change (mkNode _ _ _ _ _ _ _ _ _ _) with (mirror x) in Hn.
  apply fmap_Some in Hn as (xq & Hxq & Hd). unfold si_key in Hk. injection Hk as Hka Hkn.
  exists q, sq. split; [done|done|by rewrite Hkn| |].
  - unfold at_time. simpl. by rewrite Hseen.
  - exists xq. rewrite Hkn. split; [done|]. split.
    + rewrite Hss. destruct xq. unfold mirror, node_data, set_field in Hd. simpl in *. congruence.
    + rewrite Hsig, <- Ho. apply outranks_ext; [done|]. by rewrite <- Hd.
Qed.

(** Hearing another instance does not change how the own nodes treat a station. *)
Lemma peer_heard_refusable id w w' now a t type :
  peer_heard id w w' -> refusable (at_time now w) a t type -> refusable (at_time now w') a t type.
Proof.
  intros Hp [Hpos H]. unfold refusable, at_time in *. simpl in *. rewrite (ok_config _ _ (ph_own _ _ _ Hp)).
  split; [done|]. intros q si st Hq Hk Hst. apply (H q); [|done..].
  apply (ph_si _ _ _ Hp); [|done]. unfold si_key in Hk. intros s'. congruence.
Qed.

(** C3. Steering, across two instances: when one instance hears a station well
    enough and tells the other about it, then the request of the station at a
    worse node of the other instance is refused there: a node of the same network
    that is better by the policy, and not worse the other way round, was
    announced no longer than [seen_policy_timeout] after it heard the station,
    and the station was not refused [max_retry_band] times in a row yet (for signals
    in the range of [signal_ok]). *)
Theorem steering_across_instances iface ifi d wa wb s x p si t y type fr signal now :
  inv wa -> remote_update_interval (config wa) ≠ 0 -> remote_disabled (config wa) = false ->
  let w1 := update_due wa in
  (forall s x, node_heap wa !! NLocal s = Some x -> announceable w1 x) ->
  inv wb -> hears (u32 (local_id wa)) wb -> u32 (local_id wa) ≠ local_id wb ->
  node_heap wa !! NLocal s = Some x -> serves (config_ssid_list wb) (ssid x) ->
  si_heap wa !! p = Some si -> si_node si = NLocal s -> 0 < sent_left w1 si ->
  node_heap wb !! NLocal t = Some y -> ssid y = snprintf33 (ssid x) ->
  type ≠ __EVENT_TYPE_MAX -> type ≠ EVENT_TYPE_ASSOC ->
  0 < s32 (local_sta_timeout (config wb)) -> signal ≠ NO_SIGNAL -> signal_ok signal ->
  refusable (at_time now wb) (si_sta si) t type ->
  u64 (now - u64 (current_time wb - sent_age w1 si)) <= seen_policy_timeout (config wb) ->
  outranks (config wb) signal (s32 (si_signal si)) y (mirror x) = true ->
  wp usteer_send_update_timer (fun _ wa' => exists sent, out wa' = out wa ++ sent /\
    (SendMsg ifi (dg_data d) ∈ sent -> dg_pad_len d = dg_len d ->
     wp (interface_recv_msg iface d ;;
         modify (at_time now) ;;
         usteer_handle_sta_event (NLocal t) (si_sta si) type fr signal)
       (fun accepted wb' => accepted = false /\ inv wb') wb)) wa.
Proof.
  intros Hia Hz Hd w1 Ha Hib Hh Hid Hx Hsv Hp Hsn Hl Hy Hss Hmax Hassoc Hto Hns Hsg Href Hf Ho.
  eapply wp_mono; [by apply (update_mirrored iface ifi d wa wb)|]. intros [] wa' (sent & Hout & Hrecv).
  exists sent. split; [done|]. intros Hin Hlen. apply wp_bind.
  eapply wp_mono; [by apply Hrecv|]. intros [] wb' (Hib' & Hpeer & Hm). specialize (Hm s x Hx Hsv).
  assert (Hcfg := ok_config _ _ (ph_own _ _ _ Hpeer)).
  assert (Hyd := ph_nodes _ _ _ Hpeer (NLocal t) ltac:(done)). rewrite Hy in Hyd.
  apply fmap_Some in Hyd as (y' & Hy' & Hyd).
  assert (Hss' : ssid y' = ssid y).
  { destruct y, y'. unfold node_data, set_field in Hyd. simpl in *. congruence. }
  assert (Ho' : outranks (config wb') signal (s32 (si_signal si)) y' (mirror x) = true).
  { rewrite Hcfg, <- Ho. by apply outranks_ext. }
  destruct (mirrored_rival w1 wb' s x p si t y' signal now _ Hm Hp Hsn Hl ltac:(congruence)
    ltac:(by rewrite Hcfg) Ho') as (q & sq & Hrv).
  apply wp_bind. unfold modify. apply wp_ret. eapply rival_refused; try done.
  - by apply inv_at_time.
  - change (config (at_time now wb')) with (config wb'). by rewrite Hcfg.
  - by eapply peer_heard_refusable.
Qed.
End across.

(** ** The witness *)

#[local] Existing Instance seq_blob_parse.
#[local] Existing Instance seq_blob_parse_laws.
#[local] Existing Instance string_blob_data.
#[local] Existing Instance string_blob_data_laws.
#[local] Existing Instance seq_remote_tree.
#[local] Existing Instance seq_remote_tree_laws.

(** Another instance with two access points of the same network, which has heard
    nobody yet. *)
Definition w_steer : demo_world := w_aps <| local_id := 9 |>.
Lemma inv_set_id i (w : demo_world) : inv w -> inv (w <| local_id := i |>).
Proof. intros [? ? ? []]. by split; [..|split]. Qed.
Lemma w_steer_inv : inv w_steer.
Proof. apply inv_set_id, w_aps_inv. Qed.
Lemma w_steer_no_remote : remote_nodes w_steer = [].
Proof. by vm_compute. Qed.
Lemma w_steer_hears : hears 7 w_steer.
Proof.
  split; rewrite ?w_steer_no_remote; [constructor| |done].
  exists 0. apply list.Forall_singleton. by vm_compute.
Qed.
Lemma w_steer_si : si_heap w_steer = ∅.
Proof. by vm_compute. Qed.
Lemma refusable_unknown a t type (w : demo_world) :
  0 < max_retry_band (config w) -> si_heap w = ∅ -> refusable w a t type.
Proof. intros Hm Hh. split; [done|]. intros p si st. by rewrite Hh. Qed.
Lemma at_time_heap now (w : demo_world) : si_heap (at_time now w) = si_heap w.
Proof. reflexivity. Qed.
Lemma w_steer_refusable a t type now : refusable (at_time now w_steer) a t type.
Proof. apply refusable_unknown; [by vm_compute|]. rewrite at_time_heap. exact w_steer_si. Qed.


(** Station [a] probes the second instance on 2.4 GHz. *)
Definition demo_probe : M demo_world bool :=
  modify (at_time 1000) ;; usteer_handle_sta_event (NLocal ap0) mac_a EVENT_TYPE_PROBE 2412 (-60).
(** On its own that instance accepts it. *)
Example probe_accepted_alone : result_of (demo_probe w_steer) = Some true.
Proof. by vm_compute. Qed.

(** [w_assoc] hears the station on 5 GHz: with its update the probe is refused. *)
Lemma steering_across_instances_witness : exists wa' wb',
  usteer_send_update_timer w_assoc = Ok (tt, wa') /\
  (interface_recv_msg lan demo_datagram ;; demo_probe) w_steer = Ok (false, wb').
Proof.
  destruct (proj1 (wp_ok _ _ _) (steering_across_instances lan 2 demo_datagram w_assoc w_steer ap1
    (the_node w_assoc ap1) si_a1 (the_si w_assoc si_a1) ap0 (the_node w_steer ap0) EVENT_TYPE_PROBE 2412 (-60) 1000
    (proj1 w_assoc_inv) ltac:(eval_fact) ltac:(eval_fact) w_assoc_announceable w_steer_inv
    w_steer_hears ltac:(eval_fact) ltac:(at_node) ltac:(eval_fact) ltac:(at_si) ltac:(eval_fact) ltac:(eval_fact)
    ltac:(at_node) ltac:(eval_fact) ltac:(done) ltac:(done) ltac:(eval_fact) ltac:(done) ltac:(unfold signal_ok; lia)
    (w_steer_refusable _ _ _ _) ltac:(eval_fact) ltac:(eval_fact))) as ([] & wa' & Hrun & sent & Hout & Hrecv).
  exists wa'.
  assert (Hs : sent = [SendMsg 2 demo_update]).
  { apply (app_inv_head (out w_assoc)). rewrite <- Hout. exact (run_out _ wa' tt _ demo_sent Hrun). }
  destruct (proj1 (wp_ok _ _ _) (Hrecv ltac:(rewrite Hs, demo_datagram_data; by left) demo_datagram_len))
    as (r & wb' & Hrun' & -> & _).
  exists wb'. split; [exact Hrun|].
  assert (Ha : si_sta (the_si w_assoc si_a1) = mac_a) by eval_fact.
  rewrite Ha in Hrun'. exact Hrun'.
Defined.
