(* ===== verification/BackendTheorems.v ===== *)
(** * Theorems about the back ends

    netifd.c and nl80211.c: their handlers keep the contract of the local nodes,
    what they make of the answers of netifd and of the driver. *)
From Stdlib Require Import Floats.SpecFloat.
From S2P Require Import Prelude CFloat Blob Timeout Types Table World Beacon Sta UbusClient.
From S2P Require Import Policy RemoteMsg StaEvent Roam BeaconRequest LocalNode Netifd Nl80211 Scan Scenario.
From S2P Require Import StationTheorems.

Section backends.
Context {ET : Ether} {BM : Blobmsg} {BML : BlobmsgLaws}.
Context {T : Type} `{!AvlTree Z ptr T} `{!AvlLaws Z ptr T} {UL : UbusLookup T} {NL : Nl80211 T}.
Context (if_nametoindex : string -> Z).
Implicit Types (w : world T) (s : string) (ln : usteer_local_node) (x : usteer_node).

(** C12. The handlers of nl80211.c and netifd.c fulfil the contract of the local
    nodes whatever the driver and netifd answer, so that registering a node,
    updating it and removing it with them keep the invariant. *)
Theorem backends_refine s x ln w :
  inv w -> node_heap w !! NLocal s = Some x -> ln_heap w !! s = Some ln ->
  kick_client_active_sec (config w) ≠ 0 -> local_sta_update (config w) ≠ 0 ->
  let NH := daemon_handlers if_nametoindex in
  wp (usteer_local_node_update s) (fun _ w' => node_updated s w w') w /\
  wp (usteer_free_node s) (fun _ w' => node_freed s w w') w /\
  (forall name id, String.prefix "hostapd." name = true ->
     wp (usteer_register_node if_nametoindex name id) (fun _ w' => node_registered name id w w') w).
Proof.
  intros Hi Hx Hl Hk Hu NH. assert (HL := daemon_handlers_laws if_nametoindex : NodeHandlersLaws).
  split; [by eapply usteer_local_node_update_spec|]. split; [by eapply usteer_free_node_spec|].
  intros name id Hn. eapply wp_mono; [by apply usteer_register_node_spec|]. intros [] w' H. by rewrite Hn in H.
Qed.

(** The limit of clients of a node is the one that the last entry of netifd's
    status for its interface gives, 0 when that entry has none; without such an
    entry nothing but the pending request changes. *)
Theorem netifd_limit_correct s x ln msg w :
  node_heap w !! NLocal s = Some x -> ln_heap w !! s = Some ln ->
  wp (netifd_status_cb s msg) (fun _ w' =>
    let ln1 := ln <| netifd_req_pending := false |> in
    match list.last (status_limits (iface_name s) msg) with
    | Some v => w' = w <| ln_heap ::= <[s := ln1 <| netifd_status_complete := true |>]> |>
                       <| node_heap ::= <[NLocal s := x <| max_assoc := v |>]> |>
    | None => w' = w <| ln_heap ::= <[s := ln1]> |>
    end) w.
Proof.
  intros Hx Hl. eapply wp_mono; [by apply netifd_status_taken|]. intros [] w' ->. unfold status_taken.
  by destruct (list.last _).
Qed.

(** ** The load of a channel *)

(** Small integers are exact in [float]. *)
Lemma float_small z : 0 <= z <= 100 -> Z_of_float (float_of_Z z) = z.
Proof.
  intros Hz.
  assert (H : forallb (fun i => Z_of_float (float_of_Z (Z.of_nat i)) =? Z.of_nat i) (seq 0 101) = true)
    by by vm_compute.
  rewrite forallb_forall in H. specialize (H (Z.to_nat z)). rewrite in_seq, Z2Nat.id in H by lia.
  apply Z.eqb_eq, H. lia.
Qed.

(** C36. After a node was initialised, the first survey only sets the reference;
    with the second one the load is the share of the time in between in which the
    channel was busy, in percent and rounded down, as long as that time fits in
    2^32 / 100 milliseconds. A survey of another channel changes nothing. *)
Theorem first_load_exact s d x ln w :
  node_heap w !! NLocal s = Some x -> ln_heap w !! s = Some ln -> load_ewma ln = float_of_Z (-1) ->
  let dt := sd_time d - ln_time ln in
  let busy := sd_time_busy d - ln_time_busy ln in
  0 < dt < 2 ^ 32 -> 0 <= busy <= dt -> 100 * busy < 2 ^ 32 ->
  wp (nl80211_update_node_result s d) (fun _ w' =>
    if negb (sd_freq d =? freq x) then w' = w
    else exists x' ln', node_heap w' = <[NLocal s := x']> (node_heap w) /\ ln_heap w' = <[s := ln']> (ln_heap w) /\
      noise x' = (if sd_noise d =? 0 then noise x else sd_noise d) /\
      ln_time ln' = sd_time d /\ ln_time_busy ln' = sd_time_busy d /\
      if ln_time ln =? 0 then load x' = load x /\ load_ewma ln' = load_ewma ln
      else load x' = 100 * busy / dt /\ 0 <= load x' <= 100 /\ load_ewma ln' = float_of_Z (load x')) w.
Proof.
  intros Hx Hl He dt busy Hdt Hb Hf. unfold nl80211_update_node_result.
  apply wp_bind. eapply wp_get_ln; [done|]. apply wp_bind. eapply wp_get_node; [done|].
  destruct (negb (sd_freq d =? freq x)); [by apply wp_ret|].
  apply wp_bind. set (x1 := x <| noise := if sd_noise d =? 0 then noise x else sd_noise d |>).
  eapply wp_mono with (P := fun _ w1 => node_heap w1 = <[NLocal s := x1]> (node_heap w) /\ ln_heap w1 = ln_heap w).
  { apply wp_when; intros Hn.
    - eapply wp_upd_node; [done|]. apply negb_true_iff in Hn. unfold x1. by rewrite Hn.
    - apply negb_false_iff in Hn. unfold x1. rewrite Hn. split; [|done]. rewrite insert_id; [done|].
      rewrite Hx. by destruct x. }
  intros [] w1 [Hx1 Hl1].
  destruct (Z.eqb_spec (ln_time ln) 0) as [H0|H0]; cbn [negb].
  - apply wp_bind. eapply wp_upd_ln; [by rewrite Hl1|]. apply wp_ret. exists x1. eexists.
    split; [exact Hx1|]. split; [simpl; by rewrite Hl1|]. by unfold x1.
  - assert (Hd : u32 (u64 (sd_time d - ln_time ln)) = dt) by (fold dt; by rewrite u64_id, u32_id by lia).
    assert (Hbu : u32 (u64 (sd_time_busy d - ln_time_busy ln)) = busy) by (fold busy; by rewrite u64_id, u32_id by lia).
    rewrite Hd, Hbu. apply wp_bind. eapply wp_upd_ln; [by rewrite Hl1|].
    destruct (Z.eqb_spec dt 0) as [|_]; [lia|]. cbn [negb]. apply wp_bind.
    eapply wp_get_ln; [simpl; apply lookup_insert_eq|]. apply wp_bind.
    eapply wp_upd_ln; [simpl; apply lookup_insert_eq|]. eapply wp_upd_node; [simpl; rewrite Hx1; apply lookup_insert_eq|].
    cbn [load_ewma]. simpl load_ewma. rewrite He. change (flt (float_of_Z (-1)) (float_of_Z 0)) with true. cbv iota.
    assert (Hr : 0 <= 100 * busy / dt <= 100).
    { split; [apply Z.div_pos; lia|]. apply Z.div_le_upper_bound; lia. }
    rewrite (u32_id (100 * busy)) by lia.
    exists (x1 <| load := 100 * busy / dt |>). eexists.
    split; [simpl; rewrite Hx1, insert_insert_eq; by rewrite float_small|].
    split; [simpl; rewrite insert_insert_eq, Hl1; done|]. unfold x1. simpl. split_and!; try done; apply Hr.
Qed.
End backends.

(** ** Scans *)

(** The attributes of a scan result whose BSSID has six bytes. *)
Ltac scan_fields H :=
  unfold nl80211_scan_result; cbn [bss_bssid bss_frequency bss_signal_mbm bss_information_elements bss_beacon_ies];
  rewrite H; cbn [Nat.ltb Nat.leb]; cbv zeta.

(** What the SSID elements of [l] leave at place [i] of the buffer: the byte of the
    last one that has a byte there; one of more than 32 bytes does not count. *)
Definition ssid_byte (l : list (Z * list Z)) (i : nat) : Z :=
  default 0 (list.last (omap (fun e => if decide (e.1 = 0 /\ (length e.2 <= 32)%nat) then e.2 !! i else None) l)).

Lemma ie_ssid_buffer l i :
  (i < 33)%nat -> foldl ie_ssid (replicate 33 0) l !! i = Some (ssid_byte l i) /\
  length (foldl ie_ssid (replicate 33 0) l) = 33%nat.
Proof.
  intros Hi. unfold ssid_byte. induction l as [|e l IH] using rev_ind; [split; [by apply lookup_replicate_2|done]|].
  rewrite foldl_snoc, omap_app, list.last_app. set (buf := foldl _ _ _) in *. destruct IH as [IH Hl].
  cbn [omap list_omap]. unfold ie_ssid. destruct (Z.eqb_spec (e.1) 0) as [H0|H0]; cbn [andb].
  2: { rewrite decide_False by naive_solver. by split. }
  destruct (Z.leb_spec (Z.of_nat (length e.2)) 32) as [H1|H1].
  2: { rewrite decide_False by (intros []; lia). by split. }
  rewrite decide_True by (split; [done|lia]). split; [|rewrite length_app, length_drop; lia].
  destruct (decide (i < length e.2)%nat) as [Hlt|Hge].
  - rewrite lookup_app_l by done. destruct (lookup_lt_is_Some_2 _ _ Hlt) as [b Hb]. by rewrite Hb.
  - rewrite lookup_app_r, lookup_drop by lia. replace (length e.2 + (i - length e.2))%nat with i by lia.
    rewrite (proj2 (lookup_ge_None e.2 i)) by lia. exact IH.
Qed.

(** C37. Of the complete information elements of a beacon the SSIDs are copied one
    over the other into a buffer of 33 zeros: afterwards each place holds the byte of
    the last SSID that reaches it (so a later, shorter SSID keeps the tail of an
    earlier one), and an SSID longer than 32 bytes is ignored. With one SSID of at
    most 32 bytes, that is its text with zeros behind. The loop never needs more steps
    than the beacon has bytes. *)
Theorem scan_ssid_correct bssid f m l :
  length bssid = 6%nat ->
  exists buf,
    nl80211_scan_result (Some (mkBssAttrs (Some bssid) (Some f) m (Some (ies_bytes l)) None)) =
      Ok (Some (mkScanResult bssid buf (s32 (u32 f)) match m with Some m => Z.quot (s32 (u32 m)) 100 | None => -127 end)) /\
    length buf = 33%nat /\ (forall i, (i < 33)%nat -> buf !! i = Some (ssid_byte l i)) /\
    (forall pre d suf, l = pre ++ (0, d) :: suf -> (length d <= 32)%nat ->
       Forall (fun e => e.1 ≠ 0) pre -> Forall (fun e => e.1 ≠ 0) suf -> buf = d ++ replicate (33 - length d) 0).
Proof.
  intros Hb. exists (foldl ie_ssid (replicate 33 0) l). split; [|split; [|split]].
  - scan_fields Hb. rewrite ie_loop_complete.
    + rewrite take_ge by lia. done.
    + assert (H := ies_bytes_length l). lia.
  - by apply (ie_ssid_buffer l 0); lia.
  - intros i Hi. by apply ie_ssid_buffer.
  - intros pre d suf -> Hd Hp Hs.
    assert (Hskip : forall k acc, Forall (fun e => e.1 ≠ 0) k -> foldl ie_ssid acc k = acc).
    { intros k. induction k as [|e k IH]; intros acc Hk; [done|]. apply list.Forall_cons in Hk as [He Hk].
      simpl. unfold ie_ssid at 2. rewrite (proj2 (Z.eqb_neq _ _) He). simpl. by apply IH. }
    rewrite foldl_app. cbn [foldl]. rewrite (Hskip pre) by done. rewrite Hskip by done. unfold ie_ssid.
    cbn [fst snd]. rewrite Z.eqb_refl. cbn [andb]. rewrite (proj2 (Z.leb_le _ _)) by lia. by rewrite drop_replicate.
Qed.

(** A beacon whose last element is an SSID that lacks its last byte or the last
    two makes the code copy bytes from behind the attribute. *)
Theorem scan_overread bssid f m l len rest :
  length bssid = 6%nat -> len <= 32 ->
  len = Z.of_nat (length rest) + 1 \/ len = Z.of_nat (length rest) + 2 ->
  nl80211_scan_result (Some (mkBssAttrs (Some bssid) (Some f) m (Some (ies_bytes l ++ 0 :: len :: rest)) None)) =
    Fault OutOfBounds.
Proof.
  intros Hb Hle Hlen. scan_fields Hb.
  assert (Hf : exists k, S (length (ies_bytes l ++ 0%Z :: len :: rest)) = (length l + S k)%nat).
  { exists (length (ies_bytes l ++ 0%Z :: len :: rest) - length l)%nat. rewrite length_app.
    assert (H := ies_bytes_length l). simpl. lia. }
  destruct Hf as [k ->]. rewrite ie_loop_prefix. cbn [ie_loop length].
  destruct (Z.ltb_spec (Z.of_nat (S (S (length rest)))) 2); [lia|].
  destruct (Z.ltb_spec (Z.of_nat (S (S (length rest)))) len); [lia|]. cbn [Z.eqb].
  destruct (Z.ltb_spec 32 len); [lia|]. by rewrite (proj2 (Nat.ltb_lt _ _)) by lia.
Qed.

(** ** Scans and channels on request *)
Section requests.
Context {T : Type} `{!AvlTree Z ptr T} {NS : Nl80211Scan T}.

(** A scan that succeeds gives the callback each result once, in the order of the
    driver; a node that nl80211 does not know is an error, as is what the driver
    refuses; the channels are those of all parts of the description of the radio
    that may be used. *)
Theorem scan_request_correct s ln req freqs cb (results : list (option usteer_scan_result)) (w : world T) :
  ln_heap w !! s = Some ln -> nl80211_present ln = true ->
  mapM (fun i => req_freq req !! i) (seq 0 (Z.to_nat (n_freq req))) = Some freqs ->
  Forall2 (fun msg r => nl80211_scan_result msg = Ok r) (nl_get_scan w (ifindex ln)) results ->
  let ret := nl_trigger_scan w (scan_message (ifindex ln) req freqs) in
  nl80211_scan s req (Some cb) w =
    if ret <? 0 then Ok (ret, w) else (for_each cb (omap id results) ;; mret 0) w.
Proof.
  intros Hl Hp Hfr Hres ret. unfold nl80211_scan, get_ln, gets, deref, mbind, M_bind. rewrite Hl, Hp. cbn [negb].
  rewrite Hfr. fold ret. destruct (ret <? 0); [done|].
  assert (H : forall w', for_each (fun msg => match nl80211_scan_result msg with
    | Ok (Some d) => cb d | Ok None => mret tt | Fault e => throw e end) (nl_get_scan w (ifindex ln)) w' =
    for_each cb (omap id results) w'); [|by rewrite H].
  induction Hres as [|msg r msgs rs Hr _ IH]; intros w'; [done|]. cbn [for_each omap list_omap]. rewrite Hr.
  destruct r as [d|]; cbn [id].
  - cbn [for_each]. unfold mbind, M_bind. destruct (cb d w') as [[[] w1]|]; [apply IH|done].
  - unfold mbind, M_bind, mret, M_ret. apply IH.
Qed.
End requests.

(** ** Witnesses *)

Section witnesses.
#[local] Instance demo_lookup : UbusLookup (list (Z * ptr)) := fun _ _ => Some 77.
#[local] Instance demo_driver : Nl80211 (list (Z * ptr)) := {|
  nl_genl_init _ := true;
  nl_get_survey _ _ := [Some (mkSurveyAttrs (Some 2412) (Some 161) (Some 2000) (Some 500)); None];
  nl_get_interface _ _ := Some (mkInterfaceAttrs (Some 0) (Some "net"%string));
  nl_get_station _ _ _ := Some (Some 200);
|}.

Lemma backends_refine_witness : exists w', usteer_local_node_update ap0
  (NH := daemon_handlers (fun _ => 4)) w_assoc = Ok (tt, w') /\ inv w'.
Proof.
  destruct (backends_refine (fun _ => 4) ap0 (the_node w_assoc ap0) (the_ln w_assoc ap0) w_assoc
    (proj1 w_assoc_inv) ltac:(at_node) ltac:(at_ln) ltac:(eval_fact) ltac:(eval_fact)) as [H _].
  destruct (proj1 (wp_ok _ _ _) H) as ([] & w' & Hrun & Hu). exists w'. split; [exact Hrun|apply Hu].
Defined.

(** The status of a radio with two interfaces. *)
Definition demo_status : list (string * bval) :=
  [("radio0", VTable [("up", VU8 1); ("interfaces", VArray
     [VTable [("ifname", VString "wlan0"); ("config", VTable [("maxassoc", VU32 20)])];
      VTable [("ifname", VString "wlan7"); ("config", VTable [])]])])]%string.

Lemma demo_limits : status_limits (iface_name ap0) demo_status = [20].
Proof. by vm_compute. Qed.
Lemma netifd_limit_correct_witness : exists w' m,
  netifd_status_cb ap0 demo_status w_assoc = Ok (tt, w') /\
  w' = m <| node_heap ::= <[NLocal ap0 := the_node w_assoc ap0 <| max_assoc := 20 |>]> |>.
Proof.
  destruct (proj1 (wp_ok _ _ _) (netifd_limit_correct ap0 (the_node w_assoc ap0) (the_ln w_assoc ap0) demo_status w_assoc
    ltac:(at_node) ltac:(at_ln))) as ([] & w' & Hrun & Hw).
  rewrite demo_limits in Hw. exists w'. eexists. split; [exact Hrun|exact Hw].
Defined.

(** [ap0] after its initialisation and a first survey. *)
Definition w_surveyed : demo_world := w_assoc <| ln_heap ::= alter (fun ln =>
  ln <| load_ewma := float_of_Z (-1) |> <| ln_time := 1000 |> <| ln_time_busy := 200 |>) ap0 |>.

Lemma first_load_exact_witness : exists w',
  nl80211_update_node_result ap0 (mkSurvey 2412 (-95) 2000 500) w_surveyed = Ok (tt, w') /\
  exists x', node_heap w' = <[NLocal ap0 := x']> (node_heap w_surveyed) /\ load x' = 30.
Proof.
  destruct (proj1 (wp_ok _ _ _) (first_load_exact ap0 (mkSurvey 2412 (-95) 2000 500) (the_node w_surveyed ap0)
    (the_ln w_surveyed ap0) w_surveyed ltac:(at_node) ltac:(at_ln) ltac:(eval_fact)
    ltac:(split; eval_fact) ltac:(split; eval_fact) ltac:(eval_fact))) as ([] & w' & Hrun & Hw).
  exists w'. split; [exact Hrun|].
  assert (E1 : negb (sd_freq (mkSurvey 2412 (-95) 2000 500) =? freq (the_node w_surveyed ap0)) = false) by by vm_compute.
  assert (E2 : ln_time (the_ln w_surveyed ap0) = 1000) by by vm_compute.
  assert (E3 : ln_time_busy (the_ln w_surveyed ap0) = 200) by by vm_compute.
  rewrite E1, E2, E3 in Hw. destruct Hw as (x' & ln' & Hx' & _ & _ & _ & _ & Hload & _).
  exists x'. split; [exact Hx'|exact Hload].
Defined.

Lemma scan_ssid_correct_witness :
  nl80211_scan_result (Some (mkBssAttrs (Some [1; 2; 3; 4; 5; 6]) (Some 2412) None
    (Some (ies_bytes [(0, [110; 101; 116]); (1, [2; 4])])) None)) =
  Ok (Some (mkScanResult [1; 2; 3; 4; 5; 6] ([110; 101; 116] ++ replicate 30 0) 2412 (-127))).
Proof.
  destruct (scan_ssid_correct [1; 2; 3; 4; 5; 6] 2412 None [(0, [110; 101; 116]); (1, [2; 4])] eq_refl)
    as (buf & H & _ & _ & H1).
  rewrite H, (H1 [] [110; 101; 116] [(1, [2; 4])]); [by vm_compute|done|simpl; lia|constructor|by repeat constructor].
Defined.
(** A shorter SSID after a longer one. *)
Example ssid_overlay : map (ssid_byte [(0, [110; 101; 116]); (0, [97])]) (seq 0 4) = [97; 101; 116; 0].
Proof. by vm_compute. Qed.

Lemma scan_overread_witness :
  nl80211_scan_result (Some (mkBssAttrs (Some [1; 2; 3; 4; 5; 6]) (Some 2412) None
    (Some (ies_bytes [(1, [2; 4])] ++ [0; 4; 110; 101; 116])) None)) = Fault OutOfBounds.
Proof. apply (scan_overread [1; 2; 3; 4; 5; 6] 2412 None [(1, [2; 4])] 4 [110; 101; 116]); [done|lia|simpl; lia]. Defined.
End witnesses.
