(* ===== verification/UbusTheorems.v ===== *)
(** * Theorems about the daemon's own ubus object and the vendor element

    The configuration: setting, reading, and reading back what was set; what the
    daemon tells about clients and nodes (ubus.c); the element that announces it in
    the beacons (remote.c). *)
From S2P Require Import Prelude Blob Timeout Types Table World Ssid Beacon Sta UbusClient.
From S2P Require Import Policy RemoteMsg StaEvent Roam BeaconRequest LocalNode Interfaces Info Config.
From S2P Require Import Remote Vendor Scenario.

Section configuration.
Context {ET : Ether} {BM : Blobmsg} {BML : BlobmsgLaws} {VL : Vlist} {VLL : VlistLaws}.
Context {T : Type} `{!AvlTree Z ptr T} `{!AvlLaws Z ptr T} {NH : NodeHandlers T} {NHL : NodeHandlersLaws}.
Context (if_nametoindex : string -> Z) (objs : list (string * Z)).
Implicit Types (w : world T).

(** C11. [set_config] and [update_config] keep the invariant and run into no
    undefined behaviour whatever the message is; afterwards every option (by its name
    in [option_values]) that the message gives has that value at its width, every
    other one the default or what it was; the LAN interfaces are those given with
    their index, the SSIDs those given, cut after 33 bytes, and the hostapd objects
    are looked up again with every list of SSIDs. What is not given stays: the
    interfaces, SSIDs and script are not reset. At the end a script that is given,
    not empty and not the one already set is run once for every local node; without
    SSIDs nothing else is done outside. It is assumed that no LAN interface is listed
    twice and no empty script is stored, which holds at the start and is kept. *)
Theorem set_config_correct method msg w :
  inv w -> NoDup (interfaces w).*1 -> node_up_script w ≠ Some ""%string ->
  wp (usteer_ubus_set_config if_nametoindex objs method msg) (fun _ w' =>
    let tb := blobmsg_parse option_policy msg in
    let base := if bool_decide (method = "set_config"%string) then usteer_init_defaults else config w in
    configured if_nametoindex objs tb base w w' /\
    option_values (config w') = options_set tb (option_values base) /\
    fixed_fields (config w') = fixed_fields base /\
    (cfg_in_range base -> cfg_in_range (config w')) /\
    NoDup (interfaces w').*1 /\ node_up_script w' ≠ Some ""%string) w.
Proof.
  intros Hi Hnd Hs. eapply wp_mono; [by apply usteer_ubus_set_config_spec|]. intros [] w' H. cbv zeta.
  rewrite <- (config_policy_options (T := T) if_nametoindex objs). split; [exact H|].
  rewrite (cd_config _ _ _ _ _ _ H). set (tb := blobmsg_parse _ msg) in *.
  assert (Ht : typed (T := T) tb) by apply config_policy_typed.
  split; [by apply config_of_options|]. split; [by apply (config_of_spec (T := T))|]. split; [by apply config_of_in_range|].
  split.
  - assert (Hif := cd_ifaces _ _ _ _ _ _ H). destruct (attr tb CFG_interfaces ≫= string_list); [apply Hif|by rewrite Hif].
  - rewrite (cd_script _ _ _ _ _ _ H). destruct (attr tb CFG_node_up_script) as [[| | | |v| |]|]; try done.
    destruct v; [done|]. by intros [= ].
Qed.

(** C35. [get_config] reports every option under its name with the value of its
    field of [config], in the order of the table, then the LAN interfaces, the SSIDs
    and the script when there is one, and changes nothing; before a list of SSIDs was
    configured it dereferences a null pointer, and with an SSID of 33 bytes or more
    in the list, which is stored without its end, it reads beyond the field. *)
Theorem get_config_correct w :
  usteer_ubus_get_config if_nametoindex objs w =
  match config_ssid_list w with
  | None => Fault NullDeref
  | Some l =>
      if forallb (fun s => (String.length s <? 33)%nat) l then
        Ok (map (fun o => (o.1, opt_report o.2)) (option_values (config w)) ++
            [("interfaces", VArray (map (fun i => VString i.1) (interfaces w))); ("ssid", VArray (map VString l))]%string ++
            match node_up_script w with None => [] | Some s => [("node_up_script"%string, VString s)] end, w)
      else Fault OutOfBounds
  end.
Proof. apply usteer_ubus_get_config_run. Qed.

(** The names of the options are all different. *)
Definition item_names : list string := option_policy.*1.
Lemma item_names_nodup : NoDup item_names.
Proof. apply (bool_decide_unpack _). by vm_compute. Qed.

Lemma config_reply_nodup w l : NoDup (config_reply w l).*1.
Proof.
  assert (H := item_names_nodup). set (scalars := (option_values usteer_init_defaults).*1).
  change item_names with (scalars ++ ["interfaces"; "ssid"; "node_up_script"]%string) in H.
  assert (Hn : (config_reply w l).*1 = scalars ++ ["interfaces"; "ssid"]%string ++
    match node_up_script w with None => [] | Some _ => ["node_up_script"%string] end).
  { unfold config_reply. rewrite fmap_app. change (?f <$> map ?g (option_values (config w))) with scalars. f_equal.
    by destruct (node_up_script w). }
  rewrite Hn. destruct (node_up_script w); [exact H|].
  change ["interfaces"; "ssid"; "node_up_script"]%string with (["interfaces"; "ssid"]%string ++ ["node_up_script"%string]) in H.
  rewrite app_assoc in H. apply list.NoDup_app in H as [H _]. by rewrite app_nil_r.
Qed.

(** What the parser finds in a reply. *)
Lemma reply_attr w l i name ty v :
  option_policy !! i = Some (name, ty) -> (name, v) ∈ config_reply w l -> type_of_bval v = ty ->
  attr (blobmsg_parse (config_policy (T := T) if_nametoindex objs) (config_reply w l)) i = Some v.
Proof.
  intros Hi Hin Hty. unfold attr. rewrite config_policy_options.
  by rewrite (parse_complete _ _ i name ty v); [|done|apply config_reply_nodup|..].
Qed.

(** The places and kinds of the options do not depend on the configuration. *)
Lemma option_kinds c c' i o o' :
  option_values c !! i = Some o -> option_values c' !! i = Some o' ->
  o'.1 = o.1 /\ opt_type o'.2 = opt_type o.2 /\
  match o.2, o'.2 with OInt _, OUint _ | OUint _, OInt _ => False | _, _ => True end.
Proof.
  intros Ho Ho'. do 31 (destruct i as [|i]; [by injection Ho as <-; injection Ho' as <-|]). discriminate Ho.
Qed.
Lemma option_policy_lookup i o c : option_values c !! i = Some o -> option_policy !! i = Some (o.1, opt_type o.2).
Proof.
  intros Ho. do 31 (destruct i as [|i]; [by injection Ho as <-|]). discriminate Ho.
Qed.

Lemma reply_options w l :
  cfg_in_range (config w) ->
  options_set (blobmsg_parse (config_policy (T := T) if_nametoindex objs) (config_reply w l)) (option_values usteer_init_defaults) =
  option_values (config w).
Proof.
  intros Hr. apply list_eq. intros i. unfold options_set. rewrite list_lookup_imap.
  destruct (option_values (config w) !! i) as [o|] eqn:Ho.
  - destruct (lookup_lt_is_Some_2 (option_values usteer_init_defaults) i) as [o' Ho'].
    { apply lookup_lt_Some in Ho. exact Ho. }
    rewrite Ho'. simpl. destruct (option_kinds _ _ _ _ _ Ho Ho') as (Hn & Hty & Hk).
    assert (Hin : (o.1, opt_report o.2) ∈ config_reply w l).
    { unfold config_reply. rewrite elem_of_app. left. apply list_elem_of_fmap. exists o. split; [done|].
      by eapply list_elem_of_lookup_2. }
    rewrite (reply_attr w l i o.1 (opt_type o.2) (opt_report o.2)); [|by eapply option_policy_lookup|done|by destruct (o.2)].
    rewrite opt_given_report; [destruct o; simpl in *; congruence|by apply (Forall_lookup_1 _ _ _ _ Hr Ho)|done|done].
  - apply lookup_ge_None in Ho. change (length (option_values (config w))) with (length (option_values usteer_init_defaults)) in Ho.
    apply lookup_ge_None in Ho. by rewrite Ho.
Qed.

Lemma interfaces_item : option_policy !! CFG_interfaces = Some ("interfaces"%string, BLOBMSG_TYPE_ARRAY).
Proof. reflexivity. Qed.
Lemma ssid_item : option_policy !! CFG_ssid = Some ("ssid"%string, BLOBMSG_TYPE_ARRAY).
Proof. reflexivity. Qed.
Lemma script_item : option_policy !! CFG_node_up_script = Some ("node_up_script"%string, BLOBMSG_TYPE_STRING).
Proof. reflexivity. Qed.

(** C10. Setting what [get_config] reported of one daemon, whose options are in the
    range of their type and whose SSIDs are shorter than 33 bytes, gives another one
    the same value of every option, the same interfaces, the same SSIDs (in reverse
    order) and the same script when there is one. (Both have no interface listed
    twice and no empty script.) *)
Theorem config_roundtrip w l w2 :
  config_ssid_list w = Some l -> Forall (fun s => (String.length s < 33)%nat) l ->
  cfg_in_range (config w) -> node_up_script w ≠ Some ""%string ->
  inv w2 -> NoDup (interfaces w2).*1 -> node_up_script w2 ≠ Some ""%string ->
  exists r, usteer_ubus_get_config if_nametoindex objs w = Ok (r, w) /\
  wp (usteer_ubus_set_config if_nametoindex objs "set_config" r) (fun _ w3 =>
    inv w3 /\ option_values (config w3) = option_values (config w) /\
    (forall n, n ∈ (interfaces w3).*1 <-> n ∈ (interfaces w).*1) /\
    config_ssid_list w3 = Some (rev l) /\
    (forall s, node_up_script w = Some s -> node_up_script w3 = Some s)) w2.
Proof.
  intros Hl Hlen Hr Hs Hi2 Hnd2 Hs2.
  assert (Hend : ssids_end l = true).
  { apply forallb_forall. intros s Hin%list_elem_of_In. apply Nat.ltb_lt. rewrite list.Forall_forall in Hlen. auto. }
  exists (config_reply w l). split; [by rewrite usteer_ubus_get_config_run, Hl, Hend|].
  eapply wp_mono; [by apply usteer_ubus_set_config_spec|]. intros [] w3 [Hinv Hcfg Hif Hssid _ Hscript _ _].
  split; [done|]. split; [rewrite Hcfg, config_of_options by apply config_policy_typed; by apply reply_options|].
  assert (Hifs : attr (blobmsg_parse (config_policy (T := T) if_nametoindex objs) (config_reply w l)) CFG_interfaces =
                 Some (VArray (map (fun i => VString i.1) (interfaces w)))).
  { eapply reply_attr; [exact interfaces_item| |done]. unfold config_reply. rewrite !elem_of_app. right; left. set_solver. }
  assert (Hss : attr (blobmsg_parse (config_policy (T := T) if_nametoindex objs) (config_reply w l)) CFG_ssid =
                Some (VArray (map VString l))).
  { eapply reply_attr; [exact ssid_item| |done]. unfold config_reply. rewrite !elem_of_app. right; left. set_solver. }
  rewrite Hifs in Hif. rewrite Hss in Hssid. cbn [mbind option_bind] in Hif, Hssid.
  rewrite string_list_strings, usteer_ssids_short in Hssid by done.
  replace (map (fun i => VString i.1) (interfaces w)) with (map VString (interfaces w).*1) in Hif
    by (by rewrite map_map).
  rewrite string_list_strings in Hif. destruct Hif as (_ & _ & Hn).
  split; [exact Hn|]. split; [exact Hssid|]. intros s Hsc.
  rewrite Hscript.
  rewrite (reply_attr w l CFG_node_up_script _ _ (VString s) script_item);
    [|unfold config_reply; rewrite Hsc, !elem_of_app; right; right; set_solver|done].
  destruct s as [|c s]; [by destruct Hs|done].
Qed.
End configuration.

(** ** Clients and nodes *)
Section information.
Context {ET : Ether} {BM : Blobmsg} {BML : BlobmsgLaws} {T : Type} `{!AvlTree Z ptr T} `{!AvlLaws Z ptr T}.
Implicit Types (w : world T).

(** C28. [get_client_info] changes nothing: without a readable address it is an
    invalid argument, of an unknown station it is not found, and of a known one it
    tells every access point that heard it, with its name, the signal and
    association there, the probe counters (under the name of each event), and for
    an associated client its data rate and the reports of its hearing map. *)
Theorem client_info_correct msg w :
  inv w -> kick_client_active_sec (config w) ≠ 0 ->
  wp (usteer_ubus_get_client_info msg) (fun r w' => w' = w /\
    match client_asked msg with
    | None => r = (UBUS_STATUS_INVALID_ARGUMENT, None)
    | Some a =>
        match stations w !! a with
        | None => r = (UBUS_STATUS_NOT_FOUND, None)
        | Some st => exists l, Forall2 (client_shown w) (sta_nodes st) l /\
            r = (UBUS_STATUS_OK, Some [("2ghz", VU8 (seen_2ghz st)); ("5ghz", VU8 (seen_5ghz st));
                                       ("nodes", VTable l)]%string)
        end
    end) w.
Proof. apply usteer_ubus_get_client_info_spec. Qed.

(** [get_clients], [local_info] and [remote_info] change nothing and tell every
    station with the access points that heard it, in the order of the tree, and
    every node of the two trees with its data. *)
Theorem listings_correct w :
  inv w ->
  wp usteer_ubus_get_clients (fun r w' => w' = w /\ exists l,
    r = (UBUS_STATUS_OK, Some l) /\ Forall2 (clients_shown w) (stations_in_order w) l) w /\
  (NoDup (stations_in_order w) /\ forall a, a ∈ stations_in_order w <-> is_Some (stations w !! a)) /\
  wp usteer_ubus_local_info (fun r w' => w' = w /\ exists l,
    r = (UBUS_STATUS_OK, Some l) /\ Forall2 (node_shown w NLocal) (local_nodes w) l) w /\
  wp usteer_ubus_remote_info (fun r w' => w' = w /\ exists l,
    r = (UBUS_STATUS_OK, Some l) /\ Forall2 (node_shown w (fun k => NRemote k.1 k.2)) (remote_nodes w) l) w.
Proof.
  intros Hi. split; [by apply usteer_ubus_get_clients_spec|]. split; [apply stations_in_order_spec|].
  split; [by apply usteer_ubus_local_info_spec|by apply usteer_ubus_remote_info_spec].
Qed.
End information.

(** ** The vendor element *)
Section vendor.
Context {T : Type} `{!AvlTree Z ptr T} (if_nametoindex : string -> Z) (sb : StringBuffer).
Context (SBL : string_buffer_laws sb).
Implicit Types (w : world T).

(** The state in which the element is made up. *)
Definition vendor_due w : world T :=
  w <| current_time := u64 (u64 (tv_sec (clock w)) * 1000 + tv_nsec (clock w) / 1000000) |>
    <| vendor_timer := Some (ts_ms (clock w) + vendor_update_interval (config w)) |>.

Lemma vendor_timer_run ifaddrs w :
  usteer_vendor_update_timer if_nametoindex sb ifaddrs w = usteer_vendor_set if_nametoindex sb ifaddrs (vendor_due w).
Proof. reflexivity. Qed.

End vendor.

(** ** Instances *)
Section witnesses.
#[local] Existing Instance seq_vlist.
#[local] Existing Instance seq_vlist_laws.
#[local] Existing Instance no_handlers.

Definition demo_index (_ : string) : Z := 3.
Definition demo_objs : list (string * Z) := [("hostapd.wlan0", 5); ("network.wireless", 6)]%string.
Definition demo_options : list (string * bval) :=
  [("max_retry_band", VU32 9); ("min_snr", VU32 (2 ^ 32 - 10)); ("interfaces", VArray [VString "br0"]);
   ("ssid", VArray [VString "net"; VString "guest"])]%string.

Lemma world_init_ifaces : NoDup (interfaces world_init).*1.
Proof. apply (bool_decide_unpack _). by vm_compute. Qed.

Lemma set_config_correct_witness : exists w',
  usteer_ubus_set_config demo_index demo_objs "set_config" demo_options world_init = Ok (tt, w') /\
  max_retry_band (config w') = 9 /\ min_snr (config w') = -10 /\ local_sta_timeout (config w') = 120000 /\
  config_ssid_list w' = Some ["guest"; "net"]%string /\ ap0 ∈ local_nodes w'.
Proof.
  destruct (proj1 (wp_ok _ _ _) (set_config_correct demo_index demo_objs "set_config" demo_options world_init
    inv_init world_init_ifaces ltac:(done))) as ([] & w' & Hrun & H & Hc & _).
  exists w'. split; [exact Hrun|].
  assert (Hl := fun i => f_equal (fun l => snd <$> l !! i) Hc).
  assert (H1 := Hl 6%nat). assert (H2 := Hl 12%nat). assert (H3 := Hl 4%nat). clear Hc Hl.
  vm_compute in H1, H2, H3. injection H1 as H1. injection H2 as H2. injection H3 as H3.
  split; [exact H1|]. split; [exact H2|]. split; [exact H3|].
  split; [exact (cd_ssids _ _ _ _ _ _ H)|].
  apply (cd_local _ _ _ _ _ _ H). right. split; [by vm_compute; eexists|].
  apply (bool_decide_unpack _). by vm_compute.
Defined.

(** A daemon that serves two SSIDs. *)
Definition w_ssids : demo_world := world_init <| config_ssid_list := Some ["guest"; "net"]%string |>.
Lemma w_ssids_in_range : cfg_in_range (config w_ssids).
Proof.
  unfold cfg_in_range, option_values.
  repeat first [apply list.Forall_cons_2; [(exact I || (split; by vm_compute))|]|apply list.Forall_nil_2].
Qed.

Lemma config_roundtrip_witness : exists r,
  usteer_ubus_get_config demo_index [] w_ssids = Ok (r, w_ssids) /\ exists w3,
  usteer_ubus_set_config demo_index [] "set_config" r world_init = Ok (tt, w3) /\
  option_values (config w3) = option_values demo_config /\ config_ssid_list w3 = Some ["net"; "guest"]%string.
Proof.
  destruct (config_roundtrip demo_index [] w_ssids ["guest"; "net"]%string world_init eq_refl ltac:(repeat constructor) w_ssids_in_range
    ltac:(done) inv_init world_init_ifaces ltac:(done)) as (r & Hr & H).
  exists r. split; [exact Hr|]. apply wp_ok in H as ([] & w3 & Hrun & _ & Hf & _ & Hs & _).
  exists w3. split; [exact Hrun|]. split; [exact Hf|exact Hs].
Defined.

Definition ask_a : list (string * bval) := [("address"%string, VString (mac_addr_fmt mac_a))].
Lemma client_info_correct_witness : exists st l,
  stations w_assoc !! mac_a = Some st /\
  usteer_ubus_get_client_info ask_a w_assoc =
    Ok ((UBUS_STATUS_OK, Some [("2ghz", VU8 (seen_2ghz st)); ("5ghz", VU8 (seen_5ghz st)); ("nodes", VTable l)]%string), w_assoc) /\
  Forall2 (client_shown w_assoc) (sta_nodes st) l.
Proof.
  assert (Ha : client_asked ask_a = Some mac_a) by by vm_compute.
  assert (Hst : is_Some (stations w_assoc !! mac_a)) by (vm_compute; eexists; reflexivity).
  destruct Hst as [st Hst].
  destruct (proj1 (wp_ok _ _ _) (client_info_correct ask_a w_assoc (proj1 w_assoc_inv) ltac:(by vm_compute)))
    as (r & w' & Hrun & -> & H).
  rewrite Ha, Hst in H. destruct H as (l & Hl & ->). exists st, l. split; [exact Hst|]. split; [exact Hrun|exact Hl].
Defined.

Lemma listings_correct_witness : exists l,
  usteer_ubus_local_info w_assoc = Ok ((UBUS_STATUS_OK, Some l), w_assoc) /\
  Forall2 (node_shown w_assoc NLocal) (local_nodes w_assoc) l.
Proof.
  destruct (proj1 (wp_ok _ _ _) (proj1 (proj2 (proj2 (listings_correct w_assoc (proj1 w_assoc_inv))))))
    as (r & w' & Hrun & -> & l & -> & Hl).
  exists l. split; [exact Hrun|exact Hl].
Defined.

(** An interface of the LAN with one IPv6 and another address, and others. *)
Definition demo_addr : list Z := [254; 128; 0; 0; 0; 0; 0; 0; 2; 0; 0; 255; 254; 0; 0; 1].
Definition demo_ifaddrs : list (string * option sockaddr) :=
  [("lo", Some (AF_INET6 [0; 0; 0; 0; 0; 0; 0; 0; 0; 0; 0; 0; 0; 0; 0; 1])); ("eth0", Some AF_OTHER);
   ("eth0", Some (AF_INET6 demo_addr)); ("tun0", None)]%string.
Definition lan_index (s : string) : Z := if String.eqb s "eth0" then 2 else 1.

Lemma demo_addrs_ok : addrs_ok demo_ifaddrs.
Proof. repeat constructor; lia. Qed.


(** What the memory holds behind the digits is sent along. *)
Example vendor_leftover :
  usteer_vendor_get lan_index (used_buffer [97; 98]) (Some demo_ifaddrs) world_init =
    Ok ((20, [("vendor_elements", VString "DD14FFDA0CCCFE80000000000000020000FFFE000001ab")]%string), world_init).
Proof. by vm_compute. Qed.

(** With sixteen addresses the length wraps to 4, and the last address is written
    beyond the memory asked for. *)
Example vendor_overflow :
  usteer_vendor_get lan_index (used_buffer []) (Some (replicate 16 ("eth0"%string, Some (AF_INET6 demo_addr)))) world_init =
    Fault OutOfBounds.
Proof. by vm_compute. Qed.
End witnesses.
