(* ===== verification/FakeTheorems.v ===== *)
(** * Theorems about the fake access point

    Its random values, its stations from the start of the program on, and what the
    daemon makes of its probe requests. *)
From Stdlib Require Import Ascii.
From S2P Require Import Prelude Blob Timeout Types Table World Beacon Sta UbusClient.
From S2P Require Import Policy RemoteMsg StaEvent Roam BeaconRequest LocalNode Scenario StationTheorems.
From S2P Require Import Periodic FakeAp.

Section fake.
Context {UR : Urandom} {T : Type} `{!AvlTree Z nat T} `{!AvlLaws Z nat T}.
Implicit Types (w : fake T) (v : var) (s : sta_data).

(** C39. [gen_val] draws no byte for a range of one value and returns that value;
    for any other range of ints it reads one byte of /dev/urandom and returns a
    value of the range: the share of the range that the byte asks for, exactly so as
    long as the product does not wrap around in unsigned. *)
Theorem gen_val_correct v w :
  var_ok v ->
  wp (gen_val v) (fun v' w' =>
    v_min v' = v_min v /\ v_max v' = v_max v /\ v_min v <= v_cur v' <= v_max v /\
    if v_max v =? v_min v then w' = w /\ v_cur v' = v_min v
    else
      let b := u8 (urandom (r_fd w)) in
      w' = w <| r_fd := S (r_fd w) |> /\
      v_cur v' = v_min v + u32 (b * (v_max v - v_min v)) / 255 /\
      (255 * (v_max v - v_min v) < 2 ^ 32 -> v_cur v' = v_min v + b * (v_max v - v_min v) / 255)) w.
Proof.
  intros Hv. eapply wp_mono; [by apply gen_val_spec|]. intros v' w' [[Hm Hx Hc] H].
  split; [done|]. split; [done|]. split; [done|]. destruct (v_max v =? v_min v); [done|].
  destruct H as [Hw Hcur]. split; [done|]. split; [done|]. intros Hd.
  rewrite Hcur. unfold draw, next_byte. destruct Hv. assert (Hb := next_byte_range w). unfold next_byte in Hb.
  rewrite u32_id by nia. done.
Qed.

(** What the options must give: waits and signals that are ranges of ints. *)
Fixpoint options_ok (sdata : sta_data) (opts : list (ascii * list ascii)) : Prop :=
  match opts with
  | [] => True
  | (ch, optarg) :: opts' =>
      if bool_decide (ch = "p"%char) then
        let '(ok, v) := parse_var (probe sdata) optarg in
        ok = true -> var_ok v /\ options_ok (sdata <| probe := v |>) opts'
      else if bool_decide (ch = "s"%char) then
        let '(ok, v) := parse_var (signal sdata) optarg in
        ok = true -> var_ok v /\ options_ok (sdata <| signal := v |>) opts'
      else options_ok sdata opts'
  end.

(** The stations the options ask for, each with the limits given before it, and
    whether the options end in [usage]. *)
Fixpoint asked (sdata : sta_data) (opts : list (ascii * list ascii)) : list sta_data * bool :=
  match opts with
  | [] => ([], false)
  | (ch, optarg) :: opts' =>
      if bool_decide (ch = "p"%char) then
        let '(ok, v) := parse_var (probe sdata) optarg in
        if (ok : bool) then asked (sdata <| probe := v |>) opts' else ([], true)
      else if bool_decide (ch = "s"%char) then
        let '(ok, v) := parse_var (signal sdata) optarg in
        if (ok : bool) then asked (sdata <| signal := v |>) opts' else ([], true)
      else if bool_decide (ch = "n"%char) then
        let '(l, bad) := asked sdata opts' in (replicate (Z.to_nat (atoi optarg)) sdata ++ l, bad)
      else if bool_decide (ch = "f"%char) || bool_decide (ch = "v"%char) then asked sdata opts'
      else ([], true)
  end.

(** The state after the options: the stations asked for were added. *)
Definition created (sdata : sta_data) opts (bad : bool) w w' : Prop :=
  exists D l, just_started D w' /\ stations w' = stations w ++ l /\
    Forall2 made (asked sdata opts).1 l /\ bad = (asked sdata opts).2 /\ fake_clock w' = fake_clock w.

Lemma just_started_same D w w' :
  just_started D w -> stations w' = stations w -> tq w' = tq w -> fake_clock w' = fake_clock w -> tq_cb w' = tq_cb w ->
  just_started D w'.
Proof. intros [[] HD] Hs Ht Hc Hb. split; [split|]; rewrite ?Hs, ?Ht, ?Hc, ?Hb; done. Qed.

Lemma fake_options_spec opts sdata D w :
  just_started D w -> ref_ok sdata -> options_ok sdata opts ->
  wp (fake_options sdata opts) (fun bad w' => created sdata opts bad w w') w.
Proof.
  revert sdata D w. induction opts as [|[ch optarg] opts IH]; intros sdata D w Hok Hr Ho.
  { apply wp_ret. exists D, []. rewrite app_nil_r. split; [done|]. split; [done|]. split; [constructor|done]. }
  assert (Hstop : created sdata [("?"%char, [])] true w w).
  { exists D, []. rewrite app_nil_r. split; [done|]. split; [done|]. split; [constructor|done]. }
  unfold created in Hstop |- *. cbn [fake_options options_ok asked] in *. destruct (bool_decide (ch = "p"%char)).
  { destruct (parse_var _ _) as [[] v]; cbn [negb]; [|by apply wp_ret]. destruct (Ho eq_refl) as [Hv Ho'].
    eapply IH; [done| |done]. destruct Hr. by split. }
  destruct (bool_decide (ch = "s"%char)).
  { destruct (parse_var _ _) as [[] v]; cbn [negb]; [|by apply wp_ret]. destruct (Ho eq_refl) as [Hv Ho'].
    eapply IH; [done| |done]. destruct Hr. by split. }
  destruct (bool_decide_reflect (ch = "f"%char)) as [->|Hf].
  { apply wp_bind, wp_modify. eapply wp_mono; [eapply IH; [by eapply just_started_same|done|done]|]. done. }
  destruct (bool_decide (ch = "n"%char)).
  { apply wp_bind. eapply wp_mono; [by eapply create_stations_spec|]. intros [] w1 (D1 & l1 & Hok1 & Hs1 & Hl1 & Hc1).
    eapply wp_mono; [by eapply IH|]. intros bad w2 (D2 & l2 & Hok2 & Hs2 & Hl2 & Hb2 & Hc2).
    destruct (asked sdata opts) as [l b]. exists D2, (l1 ++ l2). split; [done|].
    split; [by rewrite Hs2, Hs1, app_assoc|]. split; [by apply Forall2_app|]. split; [done|congruence]. }
  cbn [orb]. destruct (bool_decide (ch = "v"%char)); [|by apply wp_ret].
  apply wp_bind, wp_modify. eapply wp_mono; [eapply IH; [by eapply just_started_same|done|done]|]. done.
Qed.


(** C17. When every station waits at least a millisecond, the expiry callback, run
    at the time of [fake_clock], ends; exactly the stations whose time has come send
    one probe request each, with their address and signal, and choose a new time
    within their limits from now; the others are left alone, and every station still
    has its timer. (With a wait of 0 it does not end: [zero_wait_loops].) *)
Theorem fake_probe_cycle fuel D w :
  fake_ok D w -> Forall (fun s => 1 <= v_min (probe s)) (stations w) -> (S (length (stations w)) < fuel)%nat ->
  wp (fake_timer fuel) (fun _ w' => exists D', probed D D' w w') w.
Proof. apply fake_timer_spec. Qed.

(** A station that waits 0 ms is due again as soon as it was fired. *)
Definition stuck w : Prop :=
  exists c sg a k, stations w = [mkStaData (mkVar c 0 0) sg a] /\ tq_cb w = true /\
    q_elems (tq w) = [(k, 0%nat)] /\ usteer_timeout_delta k (ampgr_timeout_current_time (fake_clock w)) <= 0.

Lemma gen_val_total v w : wp (gen_val v) (fun v' w' => w' = w <| r_fd := r_fd w' |> /\
  v_min v' = v_min v /\ v_max v' = v_max v) w.
Proof.
  unfold gen_val. case_match; [apply wp_ret; split; [by destruct w|done]|].
  apply wp_bind. eapply wp_mono; [apply fread_spec|]. intros l w' (-> & -> & _ & _).
  apply wp_bind. eapply wp_deref; [done|]. by apply wp_ret.
Qed.

Lemma set_singleton ts (t : nat) ms (tr : usteer_timeout_queue T) :
  q_elems tr = [] -> q_elems (usteer_timeout_set ts t ms tr) = [(u32 (ampgr_timeout_current_time ts + ms), t)].
Proof.
  intros H. destruct (set_elems ts t ms tr) as (l1 & l2 & Hold & -> & _). rewrite H in Hold.
  by destruct l1, l2.
Qed.

(** Firing it arms it for the same millisecond. *)
Lemma stuck_fire w :
  stuck w ->
  wp (modify (fun w => w <| tq ::= usteer_timeout_cancel 0%nat |>) ;; sta_probe 0%nat) (fun _ w' => stuck w') w.
Proof.
  intros (c & sg & a & k & Hs & Hcb & Hq & Hd). apply wp_bind, wp_modify. unfold sta_probe.
  set (w1 := w <| tq ::= _ |>). set (s := mkStaData (mkVar c 0 0) sg a) in *.
  assert (Hq1 : q_elems (tq w1) = []) by (unfold w1; simpl; eapply cancel_head; [done|set_solver]).
  assert (Hs1 : stations w1 !! 0%nat = Some s) by (unfold w1; simpl; by rewrite Hs).
  apply wp_bind. eapply wp_mono; [by eapply sta_send_probe_spec|]. intros [] w2 ->.
  unfold sta_schedule_probe. apply wp_bind. eapply get_sta_wp; [exact Hs1|].
  change (gen_val (probe s)) with (mret (mkVar 0 0 0) : M (fake T) var). apply wp_bind, wp_ret, wp_bind, wp_modify.
  apply wp_bind. eapply wp_mono; [apply gen_val_total|]. intros g w3 (-> & _ & _). apply wp_bind, wp_modify, wp_modify.
  eexists 0, g, a, _. split; [simpl; by rewrite Hs|]. split; [done|]. split; [by apply set_singleton|].
  simpl. unfold usteer_timeout_delta. rewrite Z.add_0_r, current_time_u32.
  rewrite !(u32_id (u32 _)) by apply u32_range. by rewrite Z.sub_diag.
Qed.

(** [fakeap -p 0]: the expiry callback never ends, whatever the number of steps. *)
Theorem zero_wait_loops fuel w :
  stuck w -> fake_timer fuel w = Fault OutOfFuel.
Proof.
  intros Hst. assert (Hcb : tq_cb w = true) by (destruct Hst as (? & ? & ? & ? & _ & ? & _); done).
  unfold fake_timer, gets, mbind, M_bind. rewrite Hcb. clear Hcb. revert w Hst.
  induction fuel as [|fuel IH]; intros w Hst; [done|].
  assert (Hf := proj1 (wp_ok _ _ _) (stuck_fire w Hst)). destruct Hf as ([] & w' & Hrun & Hst').
  destruct Hst as (c & sg & a & k & _ & _ & Hq & Hd). cbn [usteer_timeout_cb]. unfold gets, mbind, M_bind.
  cbn [usteer_timeout_pass head fmap option_fmap option_map]. rewrite Hq. unfold gets, deref, mbind, M_bind in *. simpl.
  rewrite Hq. simpl. rewrite (proj2 (Z.ltb_ge _ _) Hd). unfold modify in *. simpl in Hrun |- *. rewrite Hrun. simpl.
  destruct fuel; simpl; exact (IH w' Hst').
Qed.
End fake.

(** ** Together with the daemon *)
Section heard.
Context {ET : Ether} {ETL : EtherLaws} {BM : Blobmsg} {BML : BlobmsgLaws}.
Context {T : Type} `{!AvlTree Z ptr T} `{!AvlLaws Z ptr T} {NH : NodeHandlers T} {NHL : NodeHandlersLaws}.

Lemma parse_probe a fr sig :
  length a = 6%nat -> Forall (fun b => 0 <= b < 256) a ->
  parse_event (probe_msg a fr sig) = Some (a, s32 fr, s32 sig).
Proof.
  intros Hl Hb. unfold parse_event, attr. set (m := probe_msg a fr sig).
  assert (Hnd : NoDup m.*1) by (apply (bool_decide_unpack _); by vm_compute).
  unfold EVENT_ADDR, EVENT_FREQ, EVENT_SIGNAL.
  rewrite (parse_complete event_policy m 0 "address" BLOBMSG_TYPE_STRING (VString (mac_addr_fmt a)));
    [|done|done|unfold m, probe_msg; set_solver|done].
  rewrite (parse_complete event_policy m 3 "freq" BLOBMSG_TYPE_INT32 (VU32 (u32 fr)));
    [|done|done|unfold m, probe_msg; set_solver|done].
  rewrite (parse_complete event_policy m 1 "signal" BLOBMSG_TYPE_INT32 (VU32 (u32 sig)));
    [|done|done|unfold m, probe_msg; set_solver|done].
  simpl. rewrite ether_aton_fmt by done. simpl. by rewrite !s32_u32.
Qed.

(** A daemon that knows the access point handles the probe request of a fake
    station as one of a station with that address and signal. *)
Theorem fake_probe_heard `{!Urandom} {TF : Type} (wf : fake TF) st method msg s x (w : world T) :
  UbusNotify method msg ∈ probe_sent wf st -> sta_ok st -> signal_ok (s32 (-95 + v_cur (FakeAp.signal st))) ->
  inv w -> node_heap w !! NLocal s = Some x -> 0 < s32 (local_sta_timeout (config w)) ->
  wp (usteer_handle_event s method msg) (fun status w' =>
    inv w' /\ exists r p create si stats w1 w2,
      event_handled s x (FakeAp.addr st) EVENT_TYPE_PROBE (s32 (-95 + v_cur (FakeAp.signal st))) (time_updated w)
        r w' p create si stats w1 w2 /\
      status = if r then 0 else WLAN_STATUS_AP_UNABLE_TO_HANDLE_NEW_STA) w.
Proof.
  intros Hm [_ _ [Hl Hb] _] Hsg Hi Hx Ht.
  assert (Hmsg : method = "probe"%string /\
    msg = probe_msg (FakeAp.addr st) (FakeAp.freq wf) (s32 (-95 + v_cur (FakeAp.signal st)))).
  { unfold probe_sent in Hm. apply elem_of_cons in Hm as [[= -> ->]|Hm]; [done|].
    destruct (negb _); [|by apply elem_of_nil in Hm]. by apply list_elem_of_singleton in Hm. }
  destruct Hmsg as [-> ->]. eapply wp_mono; [eapply usteer_handle_event_spec; try done|].
  { intros b f sg. rewrite parse_probe by done. rewrite (s32_id (s32 _)) by apply s32_range. by intros [= _ _ <-]. }
  intros status w'. rewrite parse_probe by done. rewrite (s32_id (s32 _)) by apply s32_range.
  intros (r & p & create & si & st' & w1 & w2 & Hev & Hs).
  change (event_of_method "probe") with EVENT_TYPE_PROBE in Hev. split; [|by eauto 10].
  by destruct (event_handled_inv _ _ _ _ _ _ _ _ _ _ _ _ _ _ Hev).
Qed.
End heard.

(** ** A run: two stations with short waits *)
Section witnesses.
#[local] Instance demo_random : Urandom := fun i => Z.of_nat (i * 37 + 11).
Notation demo_fake := (fake (list (Z * nat))).

Definition fake_init : demo_fake := mkFake [] usteer_timeout_init false (mkTimespec 100 0) 0 2412 0 [].
Definition demo_args : list (ascii * list ascii) :=
  map (fun x => (x.1, list_ascii_of_string x.2))
    [("p"%char, "10:200"); ("s"%char, "-30:0x0"); ("f"%char, "2437"); ("n"%char, "2"); ("v"%char, "")]%string.
(** The separator that the usage text shows is refused. *)
Example dash_refused : (parse_var (mkVar 0 0 0) (list_ascii_of_string "10-200")).1 = false.
Proof. by vm_compute. Qed.

Lemma gen_val_correct_witness : exists v' w', gen_val (mkVar 0 1000 30000) fake_init = Ok (v', w') /\
  1000 <= v_cur v' <= 30000.
Proof.
  destruct (proj1 (wp_ok _ _ _) (gen_val_correct (mkVar 0 1000 30000) fake_init ltac:(split; simpl; lia)))
    as (v' & w' & Hrun & _ & _ & Hc & _).
  exists v', w'. split; [exact Hrun|exact Hc].
Defined.

Lemma demo_args_ok : options_ok default_sdata demo_args.
Proof.
  vm_compute. repeat split; try done.
Qed.

(** 150 ms later, when the second station is due. *)
Definition w_fake : demo_fake :=
  match fake_main demo_args fake_init with
  | Ok (_, w) => w <| fake_clock := mkTimespec 100 150000000 |>
  | Fault _ => fake_init
  end.
Definition demo_deadlines (t : nat) : Z := match t with O => 100183 | _ => 100022 end.
Definition fake_a : sta_data := mkStaData (mkVar 183 10 200) (mkVar (-29) (-30) 0) [10; 48; 85; 122; 159; 196].
Definition fake_b : sta_data := mkStaData (mkVar 22 10 200) (mkVar (-24) (-30) 0) [50; 88; 125; 162; 199; 236].
Lemma w_fake_stations : stations w_fake = [fake_a; fake_b].
Proof. by vm_compute. Qed.
Lemma w_fake_time : ts_ms (fake_clock w_fake) = 100150.
Proof. by vm_compute. Qed.
Lemma w_fake_ok : fake_ok demo_deadlines w_fake.
Proof.
  assert (Eq : q_elems (tq w_fake) = [(100022, 1%nat); (100183, 0%nat)]) by by vm_compute.
  assert (Es := w_fake_stations).
  split.
  - rewrite Es. repeat constructor; simpl; lia.
  - intros t. unfold q_ids. rewrite Eq, Es. simpl. rewrite !elem_of_cons, elem_of_nil. lia.
  - split; unfold q_wf, q_ids; rewrite Eq.
    + apply (bool_decide_unpack _). by vm_compute.
    + repeat constructor.
    + repeat constructor; simpl; lia.
  - unfold q_window. rewrite Eq. repeat constructor; by vm_compute.
  - by vm_compute.
Qed.

Lemma w_fake_waits : Forall (fun s => 1 <= v_min (probe s)) (stations w_fake).
Proof. rewrite w_fake_stations. repeat constructor; by vm_compute. Qed.

(** After [fakeap -p 0 -n 1]. *)
Definition w_zero : demo_fake :=
  match fake_main [("p"%char, ["0"%char]); ("n"%char, ["1"%char])] fake_init with
  | Ok (_, w) => w
  | Fault _ => fake_init
  end.
Lemma zero_wait_loops_witness : fake_timer 100 w_zero = Fault OutOfFuel.
Proof.
  apply zero_wait_loops. eexists _, _, _, _. split; [by vm_compute|]. split; [by vm_compute|].
  split; [by vm_compute|]. by vm_compute.
Defined.

#[local] Opaque w_fake.

Lemma fake_probe_cycle_witness : exists w' D', fake_timer 5 w_fake = Ok (tt, w') /\
  100150 + 10 <= D' 1%nat <= 100150 + 200 /\ D' 0%nat = 100183.
Proof.
  destruct (proj1 (wp_ok _ _ _) (fake_probe_cycle 5 demo_deadlines w_fake w_fake_ok w_fake_waits ltac:(vm_compute; lia)))
    as ([] & w' & Hrun & D' & [_ _ Hsta _]).
  exists w', D'. split; [exact Hrun|].
  destruct (Hsta 1%nat fake_b ltac:(by rewrite w_fake_stations)) as (s1 & _ & H1).
  destruct (Hsta 0%nat fake_a ltac:(by rewrite w_fake_stations)) as (s0 & _ & H0).
  rewrite w_fake_time in H1, H0. split; [exact (proj2 H1)|exact (proj2 H0)].
Defined.

Lemma fake_probe_heard_witness : exists status w',
  usteer_handle_event ap0 "probe" (probe_msg [50; 88; 125; 162; 199; 236] 2437 (-119)) w_assoc = Ok (status, w') /\ inv w'.
Proof.
  destruct (proj1 (wp_ok _ _ _) (fake_probe_heard w_fake fake_b "probe"
    (probe_msg [50; 88; 125; 162; 199; 236] 2437 (-119)) ap0 (the_node w_assoc ap0) w_assoc
    ltac:(by left) ltac:(repeat constructor; simpl; lia) ltac:(unfold signal_ok; by vm_compute) (proj1 w_assoc_inv) ltac:(at_node) ltac:(eval_fact)))
    as (status & w' & Hrun & Hi & _).
  exists status, w'. split; [exact Hrun|exact Hi].
Defined.
End witnesses.
