(* ===== verification/MonitorTheorems.v ===== *)
(** * Theorems about the monitor

    What it prints of the messages of an instance, compared with what is sent and
    with what another instance would make of them. *)
From S2P Require Import Prelude Blob Timeout Types Table World Ssid Beacon Sta UbusClient.
From S2P Require Import Policy RemoteMsg Parse StaEvent Roam LocalNode Remote Scenario StationTheorems RemoteTheorems Monitor.

Section monitor.
Context {ET : Ether} {ETL : EtherLaws} {BP : BlobParse} {BPL : BlobParseLaws} {BD : BlobData} {BDL : BlobDataLaws}.
Context {RT : RemoteTree} {RTL : RemoteTreeLaws} {BJ : BlobJson} {BB : BlobBytes}.
Context {T : Type} `{!AvlTree Z ptr T} `{!AvlLaws Z ptr T}.
Implicit Types (w : world T) (s : string) (x : usteer_node) (si : sta_info).

(** A captured packet: link header, IP header with its length in words, UDP header
    with the port of usteer, and the payload. *)

Record framed (off : nat) (packet src payload : list Z) : Prop := {
  fm_split : exists link ip udp, packet = link ++ ip ++ udp ++ payload /\ length link = off /\
    src = take 4 (drop 12 ip) /\ 20 <= Z.of_nat (length ip) /\
    (exists v, head ip = Some v /\ Z.land v 15 * 4 = Z.of_nat (length ip)) /\
    length udp = 8%nat /\ nth 2 udp 0 * 256 + nth 3 udp 0 = APMGR_PORT;
  fm_payload : (4 <= length payload)%nat;
}.

(** Of such a packet the payload is decoded, when its length is that of the blob. *)
Theorem packet_decoded off packet src payload :
  framed off packet src payload ->
  recv_packet off packet = Ok (LPacket src (Z.of_nat (length payload)) ::
    if Z.of_nat (length payload) =? blob_pad_len payload then decode_packet (blob_attrs payload) else [LInvalidData]).
Proof.
  intros [(link & ip & udp & -> & Hoff & -> & H20 & (v & Hv & Hip) & Hudp & Hport) Hpay].
  unfold recv_packet. rewrite drop_app_length' by done.
  destruct ip as [|v' ip]; [done|]. injection Hv as ->. cbn [app]. rewrite Hip.
  assert (Hl : Z.of_nat (length (v :: ip ++ udp ++ payload)) = Z.of_nat (length (v :: ip)) + 8 + Z.of_nat (length payload)).
  { cbn [length]. rewrite !length_app, Hudp. lia. }
  rewrite Hl, (proj2 (Z.ltb_ge _ _)), (proj2 (Z.leb_gt _ _)) by lia. cbn [orb].
  rewrite (proj2 (Z.leb_gt _ _)) by lia. rewrite Nat2Z.id.
  change (v :: ip ++ udp ++ payload) with ((v :: ip) ++ udp ++ payload).
  rewrite (drop_app_length (v :: ip)), (drop_app_length' udp) by done.
  rewrite !app_nth1 by lia. rewrite Hport, Z.eqb_refl. cbn [negb].
  replace (_ - 8) with (Z.of_nat (length payload)) by lia. rewrite (proj2 (Z.ltb_ge _ _)) by lia.
  assert (Hsrc : take 4 (drop 12 ((v :: ip) ++ udp ++ payload)) = take 4 (drop 12 (v :: ip))).
  { rewrite drop_app_le by lia. apply take_app_le. rewrite length_drop. lia. }
  rewrite Hsrc. by destruct (_ =? _).
Qed.

(** What there is to see of the node [s] in the state [w]. *)
Definition sta_line w si : line :=
  LSta (si_sta si) (s32 (si_signal si)) (negb (si_connected si =? 0)) (sent_left w si).
Definition node_lines w s : list line :=
  match node_heap w !! NLocal s with
  | None => []
  | Some x =>
      LNode s (s32 (freq x)) (s32 (n_assoc x)) (s32 (noise x)) (s32 (load x)) (s32 (max_assoc x)) ::
      match rrm_nr x with Some nr => [LRrm (rrm_strings nr)] | None => [] end ++
      match script_data x with Some sd => [LScriptData (blobmsg_format_json sd)] | None => [] end ++
      if remote_disabled (config w) then [] else sta_line w <$> sis_of w x
  end.

Lemma decode_own w s x :
  node_heap w !! NLocal s = Some x -> announceable w x ->
  decode_node (node_msg w s x (sis_of w x)).2 = node_lines w s.
Proof.
  intros Hx [Hsc _ Hs]. unfold decode_node, node_lines, node_msg. rewrite Hx. cbn [snd].
  rewrite parse_send_node by done. cbn [mn_name mn_freq mn_n_assoc mn_noise mn_load mn_max_assoc mn_rrm_nr
    mn_script_data mn_stations].
  do 3 f_equal. unfold announced. destruct (remote_disabled (config w)); [done|].
  revert Hs. induction (sis_of w x) as [|si l IH]; intros Hs; [done|]. cbn [map].
  rewrite bind_cons, IH by (intros; apply Hs; by right). rewrite fmap_cons. unfold decode_sta at 1.
  by rewrite parse_send_sta by (apply Hs; by left).
Qed.

Lemma decode_update w seq :
  inv w -> (forall s x, node_heap w !! NLocal s = Some x -> announceable w x) ->
  decode_packet (update_msg w seq (own_nodes w)) =
    LMessage (u32 (local_id w)) (s32 seq) :: (local_nodes w ≫= node_lines w).
Proof.
  intros Hi Ha. unfold decode_packet. rewrite parse_update. cbn [msg_id msg_sequence msg_nodes]. rewrite s32_u32. f_equal.
  unfold own_nodes. induction (local_nodes w) as [|s l IH]; [done|]. cbn [omap list_omap]. unfold own_node at 1.
  destruct (node_heap w !! NLocal s) as [x|] eqn:Hx; cbn [fmap option_fmap option_map].
  - rewrite !bind_cons. rewrite (decode_own w s x) by eauto. by f_equal.
  - rewrite bind_cons. unfold node_lines at 1. by rewrite Hx.
Qed.

(** C16. The monitor's decoder shows of every update an instance sends what the
    instance knows: the message with its number, each local node with its channel,
    load and counts, its neighbor report and script data, and each of its stations
    with the time it has left. (This is about the decoding of the payload:
    [recv_packet] accepts only packets of IP version 4 and the instances send over
    IPv6, see [monitor_ignores_ipv6].) *)
Theorem monitor_shows_update w :
  inv w -> remote_update_interval (config w) ≠ 0 ->
  let w1 := update_due w in
  (forall s x, node_heap w !! NLocal s = Some x -> announceable w1 x) ->
  wp usteer_send_update_timer (fun _ w' => exists sent, out w' = out w ++ sent /\
    forall ifi data, SendMsg ifi data ∈ sent ->
      decode_packet data =
        LMessage (u32 (local_id w)) (s32 (u32 (msg_seq w + 1))) :: (local_nodes w ≫= node_lines w1)) w.
Proof.
  intros Hi Hz w1 Ha. eapply wp_mono; [by apply usteer_send_update_timer_spec|]. intros [] w' Hc. fold w1 in Hc.
  exists (sent_updates w1 (update_msg w1 (u32 (msg_seq w1 + 1)) (own_nodes w1))).
  split; [by rewrite (nc_out _ _ _ _ Hc)|]. intros ifi data. unfold sent_updates.
  destruct (remote_disabled (config w1)); [by intros ?%elem_of_nil|].
  intros (i & Hi' & _)%list_elem_of_fmap. injection Hi' as _ ->.
  rewrite (decode_update w1) by (by first [apply inv_update_due|apply Ha]). done.
Qed.

(** The names of the nodes that are printed, and the stations that have time left,
    each with the node it is printed under. *)
Definition shown_names (l : list line) : list string :=
  omap (fun li => match li with LNode n _ _ _ _ _ => Some n | _ => None end) l.
Fixpoint shown_stas (node : string) (l : list line) : list (string * mac) :=
  match l with
  | [] => []
  | LNode n _ _ _ _ _ :: l' => shown_stas n l'
  | LSta a _ _ t :: l' => (if t <=? 0 then [] else [(node, a)]) ++ shown_stas node l'
  | _ :: l' => shown_stas node l'
  end.

Lemma shown_sta node (l : list (Z * wire)) rest :
  shown_stas node ((l ≫= fun cur => decode_sta cur.2) ++ rest) =
    (pair node <$> (ms_addr <$> omap (fun cur => sta_accepted cur.2) l)) ++ shown_stas node rest /\
  shown_names (l ≫= fun cur => decode_sta cur.2) = [] /\ LMissingFields ∉ (l ≫= fun cur => decode_sta cur.2).
Proof.
  induction l as [|[i d] l (IH1 & IH2 & IH3)]; [split; [done|]; split; [done|apply not_elem_of_nil]|].
  rewrite !bind_cons. cbn [omap list_omap]. unfold shown_names in *.
  rewrite omap_app, IH2, <- app_assoc. cbn [snd].
  change (decode_sta d) with (match parse_apmsg_sta d with
    | Some m => [LSta (ms_addr m) (ms_signal m) (ms_connected m) (ms_timeout m)] | None => [] end).
  unfold sta_accepted at 1. destruct (parse_apmsg_sta d) as [m|]; [|done].
  cbn [omap list_omap mbind option_bind app shown_stas]. rewrite IH1.
  split; [by destruct (ms_timeout m <=? 0)|]. split; [done|]. by rewrite not_elem_of_cons.
Qed.

(** What is shown of the nodes of a message is what its attributes say. *)
Lemma shown_nodes node (l : list (Z * wire)) :
  let told := omap (fun cur : Z * wire => parse_apmsg_node cur.2) l in
  shown_names (l ≫= fun cur => decode_node cur.2) = mn_name <$> told /\
  (forall n a, (n, a) ∈ shown_stas node (l ≫= fun cur => decode_node cur.2) <->
     exists m, m ∈ told /\ mn_name m = n /\ a ∈ ms_addr <$> msg_stations m) /\
  LMissingFields ∉ (l ≫= fun cur => decode_node cur.2).
Proof.
  revert node. induction l as [|[i d] l IH]; intros node told.
  { split; [done|]. split; [|apply not_elem_of_nil]. intros n a. split; [by intros ?%elem_of_nil|].
    by intros (m & ?%elem_of_nil & _). }
  subst told. rewrite !bind_cons. cbn [omap list_omap snd]. unfold shown_names in *.
  assert (Ed : decode_node d = match parse_apmsg_node d with
    | None => []
    | Some msg =>
        LNode (mn_name msg) (mn_freq msg) (mn_n_assoc msg) (mn_noise msg) (mn_load msg) (mn_max_assoc msg) ::
        match mn_rrm_nr msg with Some nr => [LRrm (rrm_strings nr)] | None => [] end ++
        match mn_script_data msg with Some sd => [LScriptData (blobmsg_format_json sd)] | None => [] end ++
        (mn_stations msg ≫= fun cur => decode_sta cur.2)
    end) by reflexivity.
  rewrite Ed. clear Ed. destruct (parse_apmsg_node d) as [m|]; [|exact (IH node)].
  destruct (IH (mn_name m)) as (IH1 & IH2 & IH3). clear IH.
  destruct (shown_sta (mn_name m) (mn_stations m) (l ≫= fun cur => decode_node cur.2)) as (Hs1 & Hs2 & Hs3).
  unfold shown_names in Hs2. split; [|split].
  - cbn [app omap list_omap]. rewrite !omap_app, Hs2, IH1. cbn [fmap list_fmap]. f_equal.
    by destruct (mn_rrm_nr m), (mn_script_data m).
  - intros n a.
    assert (E : shown_stas node ((LNode (mn_name m) (mn_freq m) (mn_n_assoc m) (mn_noise m) (mn_load m) (mn_max_assoc m) ::
        match mn_rrm_nr m with Some nr => [LRrm (rrm_strings nr)] | None => [] end ++
        match mn_script_data m with Some sd => [LScriptData (blobmsg_format_json sd)] | None => [] end ++
        (mn_stations m ≫= fun cur => decode_sta cur.2)) ++ (l ≫= fun cur => decode_node cur.2)) =
      shown_stas (mn_name m) ((mn_stations m ≫= fun cur => decode_sta cur.2) ++ (l ≫= fun cur => decode_node cur.2))).
    { by destruct (mn_rrm_nr m), (mn_script_data m). }
    rewrite E, Hs1, elem_of_app, IH2. clear. split.
    + intros [(b & [= -> ->] & Hb)%list_elem_of_fmap|(m' & Hm' & ?)]; [exists m|exists m']; (split; [|done]); [by left|by right].
    + intros (m' & [->|Hm']%elem_of_cons & <- & Ha); [left; by apply list_elem_of_fmap_2|right; eauto].
  - cbn [app]. rewrite not_elem_of_cons, !not_elem_of_app. split; [done|]. split; [|exact IH3]. split; [|split; [|exact Hs3]].
    + destruct (mn_rrm_nr m); [|apply not_elem_of_nil]. by intros [=]%list_elem_of_singleton.
    + destruct (mn_script_data m); [|apply not_elem_of_nil]. by intros [=]%list_elem_of_singleton.
Qed.

(** An instance that serves every SSID takes over every node it can parse. *)
Lemma accepted_all ssids msg :
  (forall s, serves ssids s) -> message_ok ssids msg ->
  accepted_nodes ssids msg = omap (fun cur : Z * wire => parse_apmsg_node cur.2) (msg_nodes msg).
Proof.
  intros Hs. unfold message_ok, accepted_nodes. induction (msg_nodes msg) as [|[i d] l IH]; [done|].
  intros [Hd Hl]%list.Forall_cons. cbn [omap list_omap]. rewrite IH by done. unfold node_accepted. cbn [snd].
  destruct (parse_apmsg_node d) as [m|] eqn:E; [|done]. destruct (Hd m E) as [[str Hstr] _].
  cbn [mbind option_bind]. rewrite Hstr. cbn [mbind option_bind]. by rewrite (proj2 (servesb_serves _ _) (Hs str)).
Qed.

(** C15. The monitor shows of a message what an instance makes of it: when an instance
    that serves every SSID and knows no node of the sender receives the datagram,
    then its remote nodes of that sender are exactly those printed, and the stations
    that it has a [sta_info] for at one of them are exactly those printed under that
    node with time left; of a message that is malformed the instance takes over
    nothing, and the monitor complains about exactly these. (As for any message that
    is received: the datagram is not cut, the identifier is not the instance's own
    and can be compared with the known ones, and the message is safe to take over,
    so that each of its nodes has a BSSID; a node without one crashes the instance,
    the monitor shows it.) *)
Theorem monitor_agrees iface d w :
  inv w -> dg_pad_len d = dg_len d -> (forall s, serves (config_ssid_list w) s) ->
  (forall msg, parse_apmsg (dg_data d) = Some msg ->
     msg_id msg ≠ local_id w /\ (forall k, k ∈ remote_nodes w -> k.1 ≠ msg_id msg) /\
     hears (msg_id msg) w /\ message_ok (config_ssid_list w) msg) ->
  wp (interface_recv_msg iface d) (fun _ w' =>
    match parse_apmsg (dg_data d) with
    | None => w' = w /\ decode_packet (dg_data d) = [LMissingFields]
    | Some msg =>
        (forall name, name ∈ shown_names (decode_packet (dg_data d)) <-> (msg_id msg, name) ∈ remote_nodes w') /\
        (forall name a, (name, a) ∈ shown_stas "" (decode_packet (dg_data d)) <->
           exists q si, si_heap w' !! q = Some si /\ si_sta si = a /\ si_node si = NRemote (msg_id msg) name) /\
        LMissingFields ∉ decode_packet (dg_data d)
    end) w.
Proof.
  intros Hi Hlen Hsv Hok. eapply wp_mono.
  { apply interface_recv_msg_spec; [done|]. intros msg Hm. unfold heard_msg in Hm. rewrite Hlen, Z.eqb_refl in Hm.
    destruct (parse_apmsg (dg_data d)) as [m|]; [|done]. cbn [mbind option_bind] in Hm.
    destruct (_ =? _); [done|]. injection Hm as ->. by apply Hok. }
  intros [] w'. unfold heard_msg, decode_packet. rewrite Hlen, Z.eqb_refl.
  destruct (parse_apmsg (dg_data d)) as [msg|]; cbn [mbind option_bind]; [|by intros ->].
  destruct (Hok msg eq_refl) as (Hid & Hnew & _ & Hmsg). rewrite (proj2 (Z.eqb_neq _ _) Hid).
  intros H. destruct (mh_told _ _ _ _ H) as [Hn Hst]. rewrite accepted_all in Hn, Hst by done.
  destruct (shown_nodes "" (msg_nodes msg)) as (H1 & H2 & H3). split; [|split].
  - intros name. change (shown_names (_ :: ?l)) with (shown_names l). rewrite H1, Hn. simpl.
    split; [intros ?; by right|]. intros [Hk|[_ ?]]; [|done]. by destruct (Hnew _ Hk).
  - intros name a. change (shown_stas ?x (LMessage _ _ :: ?l)) with (shown_stas x l). rewrite H2.
    assert (Hnone : ~ exists q si, si_heap w !! q = Some si /\ si_key si = (a, NRemote (msg_id msg) name)).
    { intros (q & si & Hq & Hk). destruct (inv_si_node _ _ _ Hi Hq) as (x & Hx & _). unfold si_key in Hk.
      injection Hk as _ Hk. rewrite Hk in Hx. apply (Hnew (msg_id msg, name)); [|done].
      apply (no_remote _ (inv_nodes _ Hi)). eauto. }
    split.
    + intros Hm. destruct (proj2 (Hst a name) (or_intror Hm)) as (q & si & Hq & Hk). unfold si_key in Hk.
      injection Hk as ? ?. by exists q, si.
    + intros (q & si & Hq & <- & Hsn). destruct (proj1 (Hst (si_sta si) name)) as [?|?]; [|done..].
      exists q, si. unfold si_key. by rewrite Hsn.
  - rewrite not_elem_of_cons. by split.
Qed.

(** A packet of IP version 6, which is what instances send, is not shown, as
    long as its traffic class is below 80. *)
Theorem monitor_ignores_ipv6 off link vtc rest :
  length link = off -> Z.land vtc 15 < 5 -> recv_packet off (link ++ vtc :: rest) = Ok [].
Proof.
  intros Hl Hv. unfold recv_packet. rewrite drop_app_length' by done. by rewrite (proj2 (Z.ltb_lt _ _)) by lia.
Qed.
End monitor.

(** ** A packet *)
Section witnesses.
#[local] Existing Instance seq_blob_parse.
#[local] Existing Instance seq_blob_parse_laws.
#[local] Existing Instance string_blob_data.
#[local] Existing Instance string_blob_data_laws.
#[local] Existing Instance seq_remote_tree.
#[local] Existing Instance seq_remote_tree_laws.
(** The payload stands for the update of [w_assoc]. *)
#[local] Instance demo_blob_bytes : BlobBytes :=
  {| blob_pad_len l := Z.of_nat (length l); blob_attrs _ := demo_update |}.
#[local] Instance demo_json : BlobJson := fun _ => "{}"%string.

Definition demo_payload : list Z := replicate 16 0.
Definition demo_ip : list Z := [69; 0; 0; 44; 0; 0; 0; 0; 64; 17; 0; 0; 192; 168; 1; 2; 224; 0; 0; 1].
Definition demo_packet : list Z := replicate 14 0 ++ demo_ip ++ [65; 80; 65; 80; 0; 24; 0; 0] ++ demo_payload.
Lemma demo_framed : framed 14 demo_packet [192; 168; 1; 2] demo_payload.
Proof.
  split; [|vm_compute; lia]. exists (replicate 14 0), demo_ip, [65; 80; 65; 80; 0; 24; 0; 0].
  repeat split; try done. by exists 69.
Qed.

(** Captured over IPv4, the packet would be shown. *)
Example packet_shown : recv_packet 14 demo_packet = Ok (LPacket [192; 168; 1; 2] 16 :: decode_packet demo_update).
Proof. rewrite (packet_decoded 14 demo_packet [192; 168; 1; 2] demo_payload demo_framed). reflexivity. Qed.

Lemma monitor_shows_update_witness : exists w', usteer_send_update_timer w_assoc = Ok (tt, w') /\
  decode_packet demo_update = LMessage 7 (s32 (u32 (msg_seq w_assoc + 1))) ::
    (local_nodes w_assoc ≫= node_lines (update_due w_assoc)).
Proof.
  destruct (proj1 (wp_ok _ _ _) (monitor_shows_update w_assoc (proj1 w_assoc_inv) ltac:(eval_fact) w_assoc_announceable))
    as ([] & w' & Hrun & sent & Hout & Hdec).
  exists w'. split; [exact Hrun|].
  assert (Hs : sent = [SendMsg 2 demo_update]).
  { apply (app_inv_head (out w_assoc)). rewrite <- Hout. exact (run_out _ w' tt _ demo_sent Hrun). }
  rewrite (Hdec 2 demo_update); [by rewrite w_assoc_id|]. rewrite Hs. by left.
Defined.

(** The instance that hears it. *)
Lemma w_other_remote : remote_nodes w_other = [].
Proof. by vm_compute. Qed.
Lemma w_other_id : local_id w_other = 9.
Proof. by vm_compute. Qed.
Lemma w_other_serves s : serves (config_ssid_list w_other) s.
Proof.
  assert (E : config_ssid_list w_other = None) by by vm_compute. by rewrite E.
Qed.
Lemma demo_parsed : exists seq, parse_apmsg (dg_data demo_datagram) = Some (mkApmsg 7 seq (own_nodes (update_due w_assoc))).
Proof.
  destruct demo_heard as (seq & Hm). exists seq. revert Hm. unfold heard_msg. rewrite demo_datagram_len, Z.eqb_refl.
  destruct (parse_apmsg (dg_data demo_datagram)) as [m|]; cbn [mbind option_bind]; [|done].
  destruct (_ =? _); [done|]. by intros [= ->].
Qed.
Lemma demo_ready msg :
  parse_apmsg (dg_data demo_datagram) = Some msg ->
  msg_id msg ≠ local_id w_other /\ (forall k, k ∈ remote_nodes w_other -> k.1 ≠ msg_id msg) /\
  hears (msg_id msg) w_other /\ message_ok (config_ssid_list w_other) msg.
Proof.
  destruct demo_parsed as (seq & ->). intros [= <-]. rewrite w_other_id, w_other_remote. cbn [msg_id].
  split; [done|]. split; [by intros k ?%elem_of_nil|]. split; [exact w_other_hears|].
  apply own_message_ok; [apply inv_update_due, w_assoc_inv|]. intros s x. rewrite update_due_nodes. apply w_assoc_announceable.
Qed.
#[local] Opaque w_other.

Lemma monitor_agrees_witness : exists w', interface_recv_msg lan demo_datagram w_other = Ok (tt, w') /\
  forall name, name ∈ shown_names (decode_packet demo_update) <-> (7, name) ∈ remote_nodes w'.
Proof.
  destruct (proj1 (wp_ok _ _ _) (monitor_agrees lan demo_datagram w_other w_other_inv demo_datagram_len
    w_other_serves demo_ready)) as ([] & w' & Hrun & H).
  exists w'. split; [exact Hrun|]. destruct demo_parsed as (seq & Hp). rewrite Hp in H.
  rewrite demo_datagram_data in H. exact (proj1 H).
Defined.

Lemma monitor_ignores_ipv6_witness : recv_packet 14 (replicate 14 0 ++ [96; 0; 0; 0]) = Ok [].
Proof. apply (monitor_ignores_ipv6 14 (replicate 14 0) 96 [0; 0; 0]); [done|by vm_compute]. Defined.
End witnesses.
