(* ===== verification/DaemonTheorems.v ===== *)
(** * Theorems about the daemon as a whole

    From the start of the program on, through any sequence of events. *)
From Stdlib Require Import Ascii.
From S2P Require Import Prelude Blob Timeout Types Table World Ssid Beacon Sta UbusClient.
From S2P Require Import Policy RemoteMsg Parse StaEvent Roam BeaconRequest LocalNode Netifd Nl80211.
From S2P Require Import Interfaces Info Config Remote Vendor Steady Daemon Scenario RemoteTheorems UbusTheorems.

Section daemon.
Context {ET : Ether} {BM : Blobmsg} {BML : BlobmsgLaws} {BP : BlobParse} {BD : BlobData}.
Context {RT : RemoteTree} {RTL : RemoteTreeLaws} {VL : Vlist} {VLL : VlistLaws}.
Context {T : Type} `{!AvlTree Z ptr T} `{!AvlLaws Z ptr T} {UL : UbusLookup T} {NL : Nl80211 T}.
Context (if_nametoindex : string -> Z) (ids : list Z).
Implicit Types (w : world T).

(** C1. Under the assumptions listed at [event_ok], [system_ok] and [ids_ok] (what the
    libraries, hostapd, the peers and the administrator do; among them that no access
    point reports an SSID that is not served, that the messages of peers are safe to
    take over with signals in range, that the string buffer of the vendor element does
    not move and has an end, and that [get_config] is called with SSIDs configured,
    all shorter than 33 bytes), the program starts and then handles whatever sequence
    of events follows (hostapd, netifd, driver, timers, peers, configuration) to the
    end of each without a fault: no null or dangling pointer is used, no index is out
    of bounds, nothing is divided by zero and no difference of two signals overflows;
    and the invariant of the whole state holds after each event. (The other sums of
    signed integers are modelled as wrapping and are not part of the claim.) *)
Theorem daemon_safe opts random sb ifaddrs objs w0 :
  fresh w0 -> ids_ok ids -> system_ok sb ifaddrs ->
  exists r w1, main if_nametoindex opts random sb ifaddrs objs w0 = Ok (r, w1) /\ daemon_ok ids w1 /\
  forall es w2, daemon_run if_nametoindex ids w1 es w2 ->
    daemon_ok ids w2 /\
    forall e, event_ok if_nametoindex ids w2 e -> exists w3, dispatch if_nametoindex e w2 = Ok (tt, w3).
Proof.
  intros Hf Hids Hsys.
  destruct (proj1 (wp_ok _ _ _) (main_ok if_nametoindex ids opts random sb ifaddrs objs w0 Hf Hids Hsys))
    as (r & w1 & Hmain & Hd).
  exists r, w1. split; [exact Hmain|]. split; [exact Hd|]. intros es w2 Hrun.
  assert (Hd2 := daemon_run_ok if_nametoindex ids w1 es w2 Hd Hrun). split; [exact Hd2|].
  intros e He. destruct (daemon_progress if_nametoindex ids w2 e Hd2 He) as [w3 Hs].
  exists w3. by destruct Hs.
Qed.


(** C14. After the start and any sequence of events that fulfil [event_ok] (with
    [system_ok] and [ids_ok] at the start, as in [daemon_safe]) the values are of the
    types of the C program: every option, by its name in [option_values], is a [bool],
    an [int32_t] or a [uint32_t], so that writing it through that type loses nothing,
    the request of a local node indexes [enum local_req_state], and every [sta_info]
    has a counter for each type of event and only reports that point back to it. *)
Theorem daemon_types opts random sb ifaddrs objs w0 r w1 es w2 :
  fresh w0 -> ids_ok ids -> system_ok sb ifaddrs ->
  main if_nametoindex opts random sb ifaddrs objs w0 = Ok (r, w1) -> daemon_run if_nametoindex ids w1 es w2 ->
  Forall (fun o => match o.2 with
                   | OBool _ => True
                   | OInt z => s32 z = z
                   | OUint z => u32 z = z
                   end) (option_values (config w2)) /\
  (forall s ln, ln_heap w2 !! s = Some ln -> 0 <= req_state ln < __REQ_MAX) /\
  (forall p si, si_heap w2 !! p = Some si ->
     (forall t, t ≠ __EVENT_TYPE_MAX -> is_Some (si_stats si !! event_idx t)) /\
     Forall (fun br => br_address br = p) (si_beacon_reports si)).
Proof.
  intros Hf Hids Hsys Hmain Hrun.
  assert (Hd1 := main_ok if_nametoindex ids opts random sb ifaddrs objs w0 Hf Hids Hsys).
  unfold wp in Hd1. rewrite Hmain in Hd1.
  destruct (daemon_run_ok if_nametoindex ids w1 es w2 Hd1 Hrun) as [Hi _ Hr _ _ _ _ Hc].
  split; [|split].
  - eapply list.Forall_impl; [exact Hc|]. intros [name [b|z|z]]; simpl; [done|by apply s32_id|by apply u32_id].
  - intros s ln Hl. exact (Hr s ln Hl).
  - intros p si Hp. destruct (inv_si _ Hi p si Hp) as (Hl & Hb & _). split; [|exact Hb].
    intros t Ht. apply lookup_lt_is_Some. rewrite Hl. destruct t; (done || simpl; lia).
Qed.
End daemon.

(** ** A run *)

Section witnesses.
#[local] Existing Instance seq_vlist.
#[local] Existing Instance seq_vlist_laws.
#[local] Existing Instance seq_blob_parse.
#[local] Existing Instance string_blob_data.
#[local] Existing Instance seq_remote_tree.
#[local] Existing Instance seq_remote_tree_laws.
#[local] Instance demo_lookup : UbusLookup (list (Z * ptr)) := fun _ _ => Some 77.
#[local] Instance demo_driver : Nl80211 (list (Z * ptr)) := {|
  nl_genl_init _ := true;
  nl_get_survey _ _ := [];
  nl_get_interface _ _ := None;
  nl_get_station _ _ _ := None;
|}.

(** [usteerd -v -i eth0] as the instance 9; hostapd has one interface. *)
Definition w_fresh : demo_world := world_init <| interfaces := [] |>.
Definition demo_opts : list (Ascii.ascii * string) := [("v"%char, ""%string); ("i"%char, "eth0"%string)].
Definition first_objs : list (string * Z) := [("hostapd.wlan0"%string, 40)].
Definition w_start : demo_world := run (main lan_index demo_opts (Some 9) (used_buffer []) (Some demo_ifaddrs) first_objs) w_fresh.

(** It is configured, hears stations and another instance, and its timers expire. *)
Definition demo_events : list daemon_event :=
  [EvSetConfig [] "set_config" [("ssid_list", VArray [VString "net"])]%string;
   EvObjectAdd [("id", VU32 41); ("path", VString "hostapd.wlan1")]%string;
   EvHostapd ap0 "probe" (event_msg mac_a 2412 (-60));
   EvClients ap0 (clients_msg 2412 [(mac_a, 10, 10); (mac_b, 20, 20)]);
   EvSocket [RecvIntr; Received demo_datagram; RecvAgain];
   EvClock (mkTimespec 1500 0); EvRemoteTimer; EvStaTimer; EvNodeTimer ap0; EvNetifd ap0 [];
   EvRemove ap1; EvRemoteInfo].

Fixpoint run_all (es : list daemon_event) (w : demo_world) : demo_world :=
  match es with [] => w | e :: es' => run_all es' (run (dispatch lan_index e) w) end.

Lemma w_fresh_fresh : fresh w_fresh.
Proof. by split. Qed.
Lemma demo_ids : ids_ok [7].
Proof. split; [exists 0; apply list.Forall_singleton; by vm_compute|]. intros H%list_elem_of_singleton. discriminate H. Qed.
Lemma demo_system : system_ok (used_buffer []) (Some demo_ifaddrs).
Proof.
  split; [apply used_buffer_laws|]. split; [apply used_buffer_lucky|]. split; [exact demo_addrs_ok|vm_compute; lia].
Qed.
Lemma demo_start_runs :
  main lan_index demo_opts (Some 9) (used_buffer []) (Some demo_ifaddrs) first_objs w_fresh = Ok (None, w_start).
Proof. vm_compute. reflexivity. Qed.

Lemma run_first ids (w w1 w2 : demo_world) e es :
  daemon_step lan_index ids w e w1 -> daemon_run lan_index ids w1 es w2 -> daemon_run lan_index ids w (e :: es) w2.
Proof.
  intros Hs Hr. induction Hr as [|w1 es w3 e' w4 Hr IH Hs'].
  - apply (run_turn _ _ _ []  w); [constructor|done].
  - apply (run_turn _ _ _ (e :: es) w3); [by apply IH|done].
Qed.
Lemma step_checked ids e es (w w2 : demo_world) :
  event_ok lan_index ids w e -> (if dispatch lan_index e w then true else false) = true ->
  daemon_run lan_index ids (run (dispatch lan_index e) w) es w2 -> daemon_run lan_index ids w (e :: es) w2.
Proof.
  intros He Hd. apply run_first. constructor; [done|]. unfold run.
  by destruct (dispatch lan_index e w) as [[[] ?]|].
Qed.

(** The message is safe to take over, checked by evaluation. *)
Definition node_okb (ssids : option (list string)) (data : wire) : bool :=
  match parse_apmsg_node data with
  | None => true
  | Some msg =>
      (if blob_data (mn_ssid msg) then true else false) &&
      (if node_accepted ssids data then
         (if msg_bssid msg then true else false) &&
         forallb (fun cur : Z * wire => match sta_accepted cur.2 with
                                        | Some m => bool_decide (signal_ok (ms_signal m))
                                        | None => true
                                        end) (mn_stations msg)
       else true)
  end.
Lemma node_checked ssids data : node_okb ssids data = true -> node_ok ssids data.
Proof.
  unfold node_okb. intros H msg Hm. rewrite Hm in H. apply andb_true_iff in H as [H1 H2].
  split; [by destruct (blob_data _)|]. intros Ha. rewrite Ha in H2. apply andb_true_iff in H2 as [H2 H3].
  split; [by destruct (msg_bssid _)|]. apply list.Forall_forall. intros cur Hin m Hs.
  rewrite forallb_forall in H3. apply list_elem_of_In, H3 in Hin. rewrite Hs in Hin. by apply bool_decide_eq_true in Hin.
Qed.
Definition heard_okb (w : demo_world) (d : datagram) : bool :=
  match heard_msg w d with
  | Some msg => bool_decide (msg_id msg = 7) &&
      forallb (fun cur : Z * wire => node_okb (config_ssid_list w) cur.2) (msg_nodes msg)
  | None => true
  end.
Lemma datagram_checked (w : demo_world) d :
  heard_okb w d = true -> datagrams_ok [7] w [RecvIntr; Received d; RecvAgain].
Proof.
  unfold heard_okb. intros H d' msg Hin Hm. assert (d' = d) as -> by
    (rewrite !elem_of_cons, elem_of_nil in Hin; by destruct Hin as [?|[[= ?]|[?|[]]]]).
  rewrite Hm in H. apply andb_true_iff in H as [H1 H2]. apply bool_decide_eq_true in H1. split; [by rewrite H1; left|].
  apply list.Forall_forall. intros m Hm'. rewrite forallb_forall in H2. apply list_elem_of_In, H2 in Hm'.
  by apply node_checked.
Qed.
Lemma clients_checked (w : demo_world) :
  bool_decide (ap0 ∈ local_nodes w) = true ->
  event_ok lan_index [7] w (EvClients ap0 (clients_msg 2412 [(mac_a, 10, 10); (mac_b, 20, 20)])).
Proof.
  intros H%bool_decide_eq_true. split; [done|]. intros l Hl. assert (Hd : client_addrs l = [mac_a; mac_b]).
  { revert Hl. vm_compute. intros [= <-]. done. }
  rewrite Hd. apply (bool_decide_unpack _). by vm_compute.
Qed.

(** Local nodes that are there, and a sound configuration. *)
Lemma local_checked (w : demo_world) s : bool_decide (s ∈ local_nodes w) = true -> s ∈ local_nodes w.
Proof. apply bool_decide_eq_true. Qed.
Ltac local := apply local_checked; vm_compute; reflexivity.

Lemma demo_run : daemon_run lan_index [7] w_start demo_events (run_all demo_events w_start).
Proof.
  unfold demo_events. cbn [run_all].
  apply step_checked; [apply (bool_decide_unpack _); vm_compute; reflexivity|vm_compute; reflexivity|].
  apply step_checked; [exact I|vm_compute; reflexivity|].
  apply step_checked; [split; [local|signal_fact]|vm_compute; reflexivity|].
  apply step_checked; [apply clients_checked; vm_compute; reflexivity|vm_compute; reflexivity|].
  apply step_checked; [apply datagram_checked; vm_compute; reflexivity|vm_compute; reflexivity|].
  do 3 (apply step_checked; [exact I|vm_compute; reflexivity|]).
  do 3 (apply step_checked; [local|vm_compute; reflexivity|]).
  apply step_checked; [exact I|vm_compute; reflexivity|].
  apply run_start.
Qed.
#[local] Opaque w_start run_all.

Lemma same_state {A} (m : M demo_world A) w a b w1 w2 : m w = Ok (a, w1) -> m w = Ok (b, w2) -> w1 = w2.
Proof. congruence. Qed.

Lemma daemon_safe_witness : exists w3,
  dispatch lan_index EvGetClients (run_all demo_events w_start) = Ok (tt, w3).
Proof.
  destruct (daemon_safe lan_index [7] demo_opts (Some 9) (used_buffer []) (Some demo_ifaddrs) first_objs w_fresh w_fresh_fresh
    demo_ids demo_system) as (r & w1 & Hm & _ & H).
  rewrite (same_state _ _ _ _ _ _ Hm demo_start_runs) in H.
  exact (proj2 (H demo_events _ demo_run) EvGetClients I).
Defined.


Lemma daemon_types_witness :
  u32 (max_retry_band (config (run_all demo_events w_start))) = max_retry_band (config (run_all demo_events w_start)).
Proof.
  exact (Forall_lookup_1 _ _ 6%nat _ (proj1 (daemon_types lan_index [7] _ _ _ _ _ _ _ _ _ _ w_fresh_fresh demo_ids demo_system
    demo_start_runs demo_run)) eq_refl).
Defined.
End witnesses.
